(* ===== verification/_CoqProject ===== *)
-Q . S2P
Prelude.v
GoSlice.v
VMUtils.v
VMStack.v
VMArray.v
VMMap.v
VMContext.v
VM.v
VMInstr.v
VMExec.v
VMSafety.v
VMInvariant.v
VMInstrSafe.v
VMLoop.v
VMInstrSpec.v
VMProps.v
VMTrace.v
Format.v
Chameleon.v
Protocol.v
Merkle.v
Node.v
Storage.v
Ledger.v
Params.v
StateChange.v
StateLemmas.v
FeeLemmas.v
Validation.v
PoS.v
BlockLemmas.v
Rollback.v
BlockRuns.v
ParamLemmas.v
LedgerProps.v
ChainProps.v
GoLib.v
Wire.v
WireLemmas.v
WireProps.v
Verify.v
BlockFields.v
AddTx.v
Aggregate.v
AggregateLemmas.v
BlockPrep.v
AddTxLemmas.v
BlockPrepLemmas.v
MiningProps.v
LongestChain.v
ChainLemmas.v
ForkProps.v
Fetch.v
Validate.v
FetchLemmas.v
CheckLemmas.v
ValidateProps.v
Peers.v
PeerLemmas.v
Serve.v
ServeLemmas.v
NetProps.v
InitState.v
InitProps.v
Base64.v
KeyFiles.v
KeyFileLemmas.v
KeyProps.v
TxMethods.v
Signing.v
TxProps.v
Cli.v
CliProps.v
NodeTypes.v
NodeSteps.v
NodeRuns.v
AcceptLemmas.v
Gossip.v
NodeProps.v
Exchange.v
