(* ===== verification/Prelude.v ===== *)
(** * bazo-miner: a verification development (root file)

    bazo-miner is the mining node of a proof-of-stake blockchain in Go. A node
    keeps accounts, applies the transactions of the blocks it receives or
    mines, takes blocks back when a longer chain appears, empties old blocks
    by aggregating their transactions, runs small contracts on a stack machine,
    and exchanges transactions and blocks with other nodes. The development
    translates what the node computes and proves what each part promises.

    ** The parts and how they interact

    - The contract VM (src/vm): [VM_Exec] runs the code of a contract against
      a [Context] that the miner provides (src/protocol/vm_context.go).
    - The protocol data (src/protocol, src/crypto): accounts, transactions,
      blocks, their hashes, encodings, Merkle trees and chameleon hashes.
    - The storage (src/storage): buckets of a database, memory pools, and the
      in-memory map of accounts.
    - The miner (src/miner): verification of transactions, preparation and
      sealing of blocks, fetching and validation of received ones, the state
      changes of a block and their rollback, the choice between chains,
      slashing, parameters, difficulty and proof of stake.
    - The network side (src/p2p): packets, the connections, broadcasting,
      requests, answers and the dispatch of messages.
    - The start of a node: the commands and their key files (src/cli,
      src/crypto), the replay of the chain (src/miner/state.go), and the loops
      that join the miner and its network side.

    The miner reads and writes the storage, computes hashes of the protocol
    data, calls the VM for transactions to contracts, and sends and receives
    through the network side, whose handlers read and write the same storage.

    ** Modelling conventions

    - A machine integer is a [Z]; each operation of the source is followed by
      the wrap-around of its width ([u8], [u16], [u32], [u64], [to_int64]).
    - Stateful code is a term of the monad [M S A] below: a run ends with a
      value and a state ([Done]), panics ([Panic]), or has used up its fuel
      ([Timeout]). A Go panic (index out of range, nil dereference) is a run
      that panics, never a default value. An error value that the code returns
      is [Some message], nil is [None].
    - The byte slices of the VM share arrays ([GoSlice.v]); elsewhere slices
      are lists, except where an array is observed through another slice
      header ([BlockPrep.v]).
    - Parameters, each a class that the witnesses instantiate: SHA-256 and SHA3
      ([Digests], with the law that they have 32 bytes), ECDSA ([Signatures];
      [Crypto] for the instruction of the VM), the key of the node
      ([NodeKeys]), RSA ([Commitments]), their signing halves ([Signers],
      [RSASigners]), what the operating system refuses ([Disk]), the flags of
      the command line ([CliContext]), [sort.Sort] ([GoSort], [SortOps], with
      laws), the iteration over maps ([MapOrder], [PeerOrder], with laws), the
      rounding of a logarithm ([FloatOps]), the growth of slices
      ([GoRuntime]), the bytes of encoding/gob ([Gob]) and the Bloom filter
      ([Bloom]).
    - Random numbers, clock readings, proof-of-stake ticks, what dialling
      gives, and the answers of other nodes to the requests of the miner are
      arguments.

    ** Files

    - Prelude: integers, bytes, the monad, its rules, shared lemmas and
      tactics. GoLib: sorting and map iteration.
    - GoSlice, VMUtils: slices over a heap; src/vm/utils.go.
    - VMStack, VMArray, VMMap: src/vm/stack.go, call_stack.go, array.go, map.go.
    - VMContext: the interface [Context] and src/protocol/vm_context.go.
    - VM, VMInstr, VMExec: src/vm/op_codes.go and vm.go; one definition
      [exec_OP] per case of the switch, one for an iteration, one for the loop.
      VMSafety, VMInvariant, VMInstrSafe, VMLoop, VMInstrSpec, VMProps: the
      theorems of the VM. VMTrace: [Exec(true)], and mock_context.go.
    - Format: what [fmt.Sprintf] prints, the input of most hashes. Chameleon:
      src/crypto/chameleon_hash.go. Protocol, Merkle, BlockFields:
      src/protocol/*.go.
    - Node: the package variables of the miner as one record [Miner].
      Storage: src/storage/*.go.
    - Params: src/miner/blockchainparam.go, configs.go, and the handling of
      configuration transactions. StateChange: state.go and staterollback.go.
      Validation: [validateState], duplicate and time checks, blockrollback.go.
      PoS: proofofstake.go. Ledger, StateLemmas, FeeLemmas, BlockLemmas,
      Rollback, BlockRuns, ParamLemmas: lemmas. LedgerProps, ChainProps: the
      theorems on accounts and on data.
    - Verify: tx_verification.go. AddTx: the add functions of block_*tx.go and
      block.go. Aggregate: block_aggregatetx.go. BlockPrep:
      blockpreparation.go. AddTxLemmas, AggregateLemmas, BlockPrepLemmas,
      MiningProps: lemmas and theorems on new blocks.
    - LongestChain: longestchain.go and slashing.go. ChainLemmas, ForkProps:
      lemmas and theorems on competing chains.
    - Fetch: fetch_transactions.go and the fetch functions of block_*tx.go.
      Validate: block_validation.go, [finalizeBlock], [processBlock], a round
      of mining. FetchLemmas, CheckLemmas, ValidateProps: lemmas and theorems.
    - Wire: the formats of src/p2p, time.go. WireLemmas, WireProps.
      Peers: peer.go, services.go, server.go, request.go, miner_request.go.
      Serve: response.go, process.go, miner_interface.go, incoming.go.
      PeerLemmas, ServeLemmas, NetProps: lemmas, the runs of the network
      side, theorems.
    - InitState: [initState] and [Init], with InitProps. Base64, KeyFiles:
      the key files of keypair.go, commitment.go and chameleon_hash.go, with
      KeyFileLemmas and KeyProps. TxMethods, Signing: the interface of the
      transactions and their constructors, with TxProps. Cli: src/cli, with
      CliProps.
    - NodeTypes, NodeSteps, NodeRuns: the type of the state of a node, kept by
      each function of the miner. AcceptLemmas: what is left of an accepted
      block. Gossip: p2p_interface.go and the main loop, over [Host], the miner
      with its network side; [runs] lists the programs of a node. NodeProps:
      the theorems on runs of a whole node.
    - Exchange: the network of one node as the handlers of another
      one, for fetching transactions and for the first synchronisation.

    ** What the theorems show

    - VM: on any code at all, reachable machines keep an invariant (slices
      exist, memory is counted, the fee never wraps); the loop takes at
      most [fee + 1] iterations, and a run does not end exactly when the key
      search of a MAPHASKEY that it reaches does not, on a malformed map; the containers refine lists and maps;
      the instructions compute what they name.
    - Blocks: money is conserved up to the coins that a block issues; a
      [plain_block] (without aggregations, among other conditions) that was
      accepted is undone by its rollback, and one that fails late by
      [validateState] itself, up to the fields left out of [same_view].
    - Transactions: what verification accepts is signed by its sender; exact
      functional specifications of the state changes on every branch; bounds
      of the balances, and the wrap-around that breaks them.
    - Mining: for transactions without data of ordinary senders ([plain_tx])
      the local copies of a block under preparation are the accounts that its
      validation computes, less the fees; the splitting into aggregations is a
      partition and ends, as the choice of transactions does; an aggregation
      lists its group and exactly the older transactions of its address; a
      sealed block whose time is right passes the checks of its own node.
    - Validation: the checks that an accepted block has passed; outside the
      initial setup the transactions that a block lists are closed once, but
      for aggregated aggregations; where [validate] leaves the
      node, also when a fork is refused half-way.
    - Chains: what [getBlockSequences] returns, when it ends and when not; why
      double votes are not detected.
    - Parameters stay within their bounds in every reachable state; the
      difficulty moves by bounded steps; the proof of stake is a comparison of
      numbers.
    - Data: encodings round-trip, Merkle trees bind their leaves, chameleon
      collisions keep the hash.
    - Network: packets, neighbour lists and requests round-trip; the
      connections keep one invariant in every run, and a stronger one in those
      in which no registered peer pings again; a broadcast reaches, or is kept
      for, every address, when no channel is full, and waits when one is; a transaction is spread once; the system time
      resists outliers; five kinds of messages stop a node.
    - Start: what the first node comes up with; what a node that joins collects
      and replays, and on which block it builds; the key files outlive the node, and what damaged ones give.
    - The whole node: along every run from its start, whatever it receives,
      the state is well-typed; a block is passed on once, when it was validated,
      and travels from node to node unchanged.
    - Two nodes: a block whose transactions another node has can be fetched
      from it; a node that joins collects the chain of the other.

    ** Fuel

    Recursion that is not structural takes fuel: the loop of the VM, for which
    [fee + 1] is enough; [buildIntermediate], for which the number of leaves
    is; the key search of MAPHASKEY and [Decode], for which the length of the
    bytes is when the input is well formed (and nothing is when it is not,
    which is proved as well); the splitting and the choice of transactions,
    for which the number of transactions is; the walks along the chain, for
    which the heights of the blocks are when parents are lower; the recursive
    fetching of aggregations, whose depth the network decides. The search of
    the proof of stake is structural over the clock ticks it is given.

    ** Not modelled

    - The interleaving of goroutines inside a function. The six that fetch the
      transactions of a block run one after the other; a nil element that one
      of them leaves makes the next use panic. A broadcast runs to its end
      where it is started; the one that [postValidate] starts for the clients
      is a function of its own in Gossip.
    - Sockets and channels: a connection is a sequence of chunks of bytes, a
      value put on a channel is an event. The channel of a peer holds 100
      messages: a broadcast that meets a full one waits for the writer of the
      peer, which is [Timeout]; the other channels are not waited for. Handlers
      run one after the other, a broadcast entry by entry or to its end.
    - The byte format of encoding/gob: the database is modelled by what it
      gives back, the network side by two functions.
    - The Bloom filter of a block and the parsing of flags (third-party
      packages), the log output and the [String] methods, which only print.
    - Opening the database, and [DeleteAll] of src/storage/delete.go, used by
      tests only, which deletes keys inside ForEach: the database leaves
      undefined what that does.
    - RSA, ECDSA and random numbers of the standard library.

    Next in the plan: the answers of another node to the requests for blocks
    while a fork is followed, and for aggregations; and the interleaving of
    the six goroutines that fetch. *)

From Stdlib Require Export ZArith Lia.
From coqutil Require Export Byte Word.LittleEndianList.
From stdpp Require Export base tactics option list list_numbers gmap strings numbers.
Export list_basics.list list_relations.list list_misc.list list_monad.list list_numbers.list.

#[global] Open Scope Z_scope.

(** ** Machine integers

    A Go unsigned integer of width [w] is a [Z]; every arithmetic operation of
    the source is followed by the wrap-around of its width. *)

Definition wrap (w z : Z) : Z := z mod 2 ^ w.
Abbreviation u8 := (wrap 8).
Abbreviation u16 := (wrap 16).
Abbreviation u32 := (wrap 32).
Abbreviation u64 := (wrap 64).

(** Conversion [int64(x)] of an unsigned 64-bit value: two's complement. *)
Definition to_int64 (z : Z) : Z :=
  let z' := u64 z in if z' <? 2 ^ 63 then z' else z' - 2 ^ 64.

Definition is_u8 (z : Z) : Prop := 0 <= z < 2 ^ 8.
Definition is_u16 (z : Z) : Prop := 0 <= z < 2 ^ 16.
Definition is_u32 (z : Z) : Prop := 0 <= z < 2 ^ 32.
Definition is_u64 (z : Z) : Prop := 0 <= z < 2 ^ 64.

Section wrap_lemmas.
Context (w : Z) (Hw : 0 <= w).

Lemma wrap_bounds z : 0 <= wrap w z < 2 ^ w.
Proof using Hw. apply Z.mod_pos_bound. lia. Qed.

Lemma wrap_small z : 0 <= z < 2 ^ w -> wrap w z = z.
Proof. apply Z.mod_small. Qed.

Lemma wrap_idem z : wrap w (wrap w z) = wrap w z.
Proof. apply Zmod_mod. Qed.

Lemma wrap_add_l a b : wrap w (wrap w a + b) = wrap w (a + b).
Proof. apply Zplus_mod_idemp_l. Qed.

Lemma wrap_add_r a b : wrap w (a + wrap w b) = wrap w (a + b).
Proof. apply Zplus_mod_idemp_r. Qed.

Lemma wrap_sub_l a b : wrap w (wrap w a - b) = wrap w (a - b).
Proof. apply Zminus_mod_idemp_l. Qed.

Lemma wrap_sub_r a b : wrap w (a - wrap w b) = wrap w (a - b).
Proof. apply Zminus_mod_idemp_r. Qed.

(** Subtracting undoes adding, and the other way round, whatever wrapped. *)
Lemma wrap_add_sub a b : wrap w (wrap w (a + b) - b) = wrap w a.
Proof. rewrite wrap_sub_l. f_equal. lia. Qed.

Lemma wrap_sub_add a b : wrap w (wrap w (a - b) + b) = wrap w a.
Proof. rewrite wrap_add_l. f_equal. lia. Qed.
End wrap_lemmas.

Create Rewrite HintDb wrap.
#[export] Hint Rewrite wrap_idem wrap_add_l wrap_add_r wrap_sub_l wrap_sub_r
  wrap_add_sub wrap_sub_add : wrap.

(** Bounds of the wraps that occur in the context or the goal, for [lia]. *)
Ltac wrap_bounds :=
  repeat match goal with
  | |- context [wrap ?w ?z] =>
      lazymatch goal with
      | _ : 0 <= wrap w z < 2 ^ w |- _ => fail
      | _ => pose proof (wrap_bounds w ltac:(lia) z)
      end
  | _ : context [wrap ?w ?z] |- _ =>
      lazymatch goal with
      | _ : 0 <= wrap w z < 2 ^ w |- _ => fail
      | _ => pose proof (wrap_bounds w ltac:(lia) z)
      end
  end.

Ltac unfold_ranges := unfold is_u8, is_u16, is_u32, is_u64 in *.

Lemma to_int64_nonneg z : 0 <= z < 2 ^ 63 -> to_int64 z = z.
Proof.
  intros. unfold to_int64. rewrite wrap_small by lia.
  destruct (Z.ltb_spec z (2 ^ 63)); lia.
Qed.

Lemma to_int64_neg_iff z : to_int64 z < 0 <-> 2 ^ 63 <= u64 z.
Proof.
  unfold to_int64. wrap_bounds.
  destruct (Z.ltb_spec (u64 z) (2 ^ 63)); lia.
Qed.

(** ** Bytes *)

#[global] Instance byte_eq_decision : EqDecision byte := Byte.byte_eq_dec.
#[global] Program Instance byte_countable : Countable byte :=
  inj_countable' Byte.to_N (fun n => default Byte.x00 (Byte.of_N n)) _.
Next Obligation. intros []; reflexivity. Qed.
#[global] Instance byte_inhabited : Inhabited byte := populate Byte.x00.

Abbreviation bytes := (list byte).
Abbreviation bval := byte.unsigned.
Abbreviation mkb := byte.of_Z.

(** A Go string constant as the bytes of [[]byte(s)]. *)
Definition str_bytes (s : string) : bytes := String.list_byte_of_string s.

Definition zeros (n : nat) : bytes := replicate n Byte.x00.

Lemma bval_range b : 0 <= bval b < 2 ^ 8.
Proof. apply byte.unsigned_range. Qed.

Lemma bval_mkb z : 0 <= z < 2 ^ 8 -> bval (mkb z) = z.
Proof. intros. rewrite byte.unsigned_of_Z. by apply Z.mod_small. Qed.

(** Fixed-width encodings of [encoding/binary]. *)
Definition le_bytes (n : nat) (z : Z) : bytes := le_split n z.
Definition le_val (l : bytes) : Z := le_combine l.
Definition be_bytes (n : nat) (z : Z) : bytes := rev (le_split n z).
Definition be_val (l : bytes) : Z := le_combine (rev l).
#[global] Arguments le_bytes : simpl never.
#[global] Arguments le_val : simpl never.
#[global] Arguments be_bytes : simpl never.
#[global] Arguments be_val : simpl never.

Lemma length_le_bytes n z : length (le_bytes n z) = n.
Proof. apply length_le_split. Qed.

Lemma length_be_bytes n z : length (be_bytes n z) = n.
Proof. unfold be_bytes. rewrite length_rev. apply length_le_split. Qed.

Lemma le_val_bytes n z : 0 <= z < 2 ^ (8 * Z.of_nat n) -> le_val (le_bytes n z) = z.
Proof.
  intros. unfold le_val, le_bytes. rewrite le_combine_split.
  apply Z.mod_small. by rewrite Z.mul_comm.
Qed.

Lemma be_val_bytes n z : 0 <= z < 2 ^ (8 * Z.of_nat n) -> be_val (be_bytes n z) = z.
Proof. unfold be_val, be_bytes. rewrite rev_involutive. apply le_val_bytes. Qed.

Lemma le_bytes_val l : le_bytes (length l) (le_val l) = l.
Proof. apply split_le_combine. Qed.

Lemma be_bytes_val l : be_bytes (length l) (be_val l) = l.
Proof.
  unfold be_bytes, be_val. rewrite <-(length_rev l), split_le_combine.
  apply rev_involutive.
Qed.

Lemma le_val_bound l : 0 <= le_val l < 2 ^ (8 * Z.of_nat (length l)).
Proof. apply le_combine_bound. Qed.

Lemma be_val_bound l : 0 <= be_val l < 2 ^ (8 * Z.of_nat (length l)).
Proof. unfold be_val. rewrite <-(length_rev l). apply le_combine_bound. Qed.

Lemma be_val_nil : be_val [] = 0.
Proof. done. Qed.

(** Leading zero bytes do not change a big-endian value. *)
Lemma be_val_zeros_app n l : be_val (zeros n ++ l) = be_val l.
Proof.
  induction n as [|n IH]; [done|].
  rewrite <-IH. unfold be_val, zeros. simpl. apply le_combine_snoc_0.
Qed.

(** Number of bytes of the minimal big-endian encoding, and that encoding:
    [big.Int.Bytes] of a non-negative value. *)
Definition nbytes (z : Z) : nat :=
  if z <=? 0 then O else Z.to_nat (Z.log2 z / 8 + 1).
Definition min_bytes (z : Z) : bytes := be_bytes (nbytes z) z.

Lemma nbytes_bound z : 0 <= z -> z < 2 ^ (8 * Z.of_nat (nbytes z)).
Proof.
  intros. unfold nbytes. destruct (Z.leb_spec z 0).
  { assert (z = 0) as -> by lia. simpl. lia. }
  pose proof (Z.log2_nonneg z). pose proof (Z.log2_spec z ltac:(lia)) as [_ Hlt].
  rewrite Z2Nat.id by (pose proof (Z.div_pos (Z.log2 z) 8); lia).
  eapply Z.lt_le_trans; [apply Hlt|].
  apply Z.pow_le_mono_r; [lia|].
  pose proof (Z.div_mod (Z.log2 z) 8). pose proof (Z.mod_pos_bound (Z.log2 z) 8). lia.
Qed.

Lemma be_val_min_bytes z : 0 <= z -> be_val (min_bytes z) = z.
Proof. intros. apply be_val_bytes. split; [done|]. by apply nbytes_bound. Qed.

Lemma length_min_bytes z : length (min_bytes z) = nbytes z.
Proof. apply length_be_bytes. Qed.

(** An [n]-byte window is enough exactly when the value is below [256^n]. *)
Lemma nbytes_le z n : 0 <= z < 2 ^ (8 * Z.of_nat n) -> (nbytes z <= n)%nat.
Proof.
  intros [? Hz]. unfold nbytes. destruct (Z.leb_spec z 0); [lia|].
  assert (Z.log2 z < 8 * Z.of_nat n) by (apply Z.log2_lt_pow2; lia).
  pose proof (Z.div_lt_upper_bound (Z.log2 z) 8 (Z.of_nat n)). lia.
Qed.

Lemma nbytes_ge z n : (0 < n)%nat -> 2 ^ (8 * (Z.of_nat n - 1)) <= z -> (n <= nbytes z)%nat.
Proof.
  intros ? Hz. assert (0 < 2 ^ (8 * (Z.of_nat n - 1))) by (apply Z.pow_pos_nonneg; lia).
  unfold nbytes. destruct (Z.leb_spec z 0); [lia|].
  assert (8 * (Z.of_nat n - 1) <= Z.log2 z) by (apply Z.log2_le_pow2; lia).
  pose proof (Z.div_le_lower_bound (Z.log2 z) 8 (Z.of_nat n - 1)). lia.
Qed.

Lemma nbytes_mono a b : 0 <= a <= b -> (nbytes a <= nbytes b)%nat.
Proof. intros. apply nbytes_le. pose proof (nbytes_bound b). lia. Qed.

Lemma nbytes_mul a b : 0 <= a -> 0 <= b -> (nbytes (a * b) <= nbytes a + nbytes b)%nat.
Proof.
  intros. apply nbytes_le. pose proof (nbytes_bound a). pose proof (nbytes_bound b).
  replace (8 * Z.of_nat (nbytes a + nbytes b))
    with (8 * Z.of_nat (nbytes a) + 8 * Z.of_nat (nbytes b)) by lia.
  rewrite Z.pow_add_r by lia. nia.
Qed.

Lemma nbytes_add a b : 0 <= a -> 0 <= b -> (nbytes (a + b) <= 1 + nbytes a + nbytes b)%nat.
Proof.
  intros. apply nbytes_le. pose proof (nbytes_bound a). pose proof (nbytes_bound b).
  replace (8 * Z.of_nat (1 + nbytes a + nbytes b))
    with (8 + (8 * Z.of_nat (nbytes a) + 8 * Z.of_nat (nbytes b))) by lia.
  rewrite !Z.pow_add_r by lia. change (2 ^ 8) with 256. nia.
Qed.

(** ** Windows of a list: the sub-list at an offset, and overwriting it *)

Definition sublist {A} (off len : nat) (l : list A) : list A := take len (drop off l).
Definition splice {A} (off : nat) (bs l : list A) : list A :=
  take off l ++ bs ++ drop (off + length bs) l.

Section windows.
Context {A : Type}.
Implicit Types l bs : list A.

Lemma length_sublist off len l :
  (off + len <= length l)%nat -> length (sublist off len l) = len.
Proof. intros. unfold sublist. rewrite length_take, length_drop. lia. Qed.

Lemma lookup_sublist off len l i :
  (i < len)%nat -> sublist off len l !! i = l !! (off + i)%nat.
Proof. intros. unfold sublist. by rewrite lookup_take_lt, lookup_drop by lia. Qed.

Lemma length_splice off bs l :
  (off + length bs <= length l)%nat -> length (splice off bs l) = length l.
Proof.
  intros. unfold splice. rewrite !length_app, length_take, length_drop. lia.
Qed.

Lemma lookup_splice off bs l i :
  (off + length bs <= length l)%nat ->
  splice off bs l !! i =
    if decide (off <= i < off + length bs)%nat then bs !! (i - off)%nat else l !! i.
Proof.
  intros Hle. unfold splice. case_decide as Hi.
  - rewrite lookup_app_r by (rewrite length_take; lia).
    rewrite length_take, Nat.min_l by lia. apply lookup_app_l. lia.
  - destruct (decide (i < off)%nat).
    + rewrite lookup_app_l by (rewrite length_take; lia). by apply lookup_take_lt.
    + rewrite lookup_app_r by (rewrite length_take; lia).
      rewrite length_take, Nat.min_l by lia.
      rewrite lookup_app_r, lookup_drop by lia. f_equal. lia.
Qed.

Lemma sublist_ext off len l l' :
  (forall i, (off <= i < off + len)%nat -> l !! i = l' !! i) ->
  sublist off len l = sublist off len l'.
Proof.
  intros H. apply list_eq. intros i. destruct (decide (i < len)%nat).
  - rewrite !lookup_sublist by done. apply H. lia.
  - unfold sublist. by rewrite !lookup_take_ge by lia.
Qed.

(** Overwriting outside a window leaves it unchanged. *)
Lemma sublist_splice_disjoint off len o bs l :
  (o + length bs <= length l)%nat ->
  (off + len <= o \/ o + length bs <= off)%nat ->
  sublist off len (splice o bs l) = sublist off len l.
Proof.
  intros. apply sublist_ext. intros i ?.
  rewrite lookup_splice by done. rewrite decide_False by lia. done.
Qed.

Lemma sublist_app off n m l :
  sublist off n l ++ sublist (off + n) m l = sublist off (n + m) l.
Proof.
  unfold sublist. rewrite <-drop_drop, <-(take_drop n (take (n + m) (drop off l))).
  rewrite take_take, <-take_drop_commute, Nat.min_l by lia. done.
Qed.

Lemma sublist_sublist o n off len l :
  (o + n <= len)%nat -> sublist o n (sublist off len l) = sublist (off + o) n l.
Proof.
  intros. apply list_eq. intros i. destruct (decide (i < n)%nat).
  - rewrite !lookup_sublist by lia. f_equal. lia.
  - unfold sublist. by rewrite !lookup_take_ge by lia.
Qed.

Lemma sublist_splice_same off bs l :
  (off + length bs <= length l)%nat -> sublist off (length bs) (splice off bs l) = bs.
Proof.
  intros. apply list_eq. intros i. destruct (decide (i < length bs)%nat).
  - rewrite lookup_sublist, lookup_splice by done. rewrite decide_True by lia.
    f_equal. lia.
  - unfold sublist. rewrite lookup_take_ge by lia. by rewrite lookup_ge_None_2 by lia.
Qed.

(** The middle part of a concatenation. *)
Lemma sublist_mid (pre x post : list A) n m :
  n = length pre -> m = length x -> sublist n m (pre ++ x ++ post) = x.
Proof.
  intros -> ->. unfold sublist. by rewrite drop_app_length, take_app_length.
Qed.

Lemma sublist_prefix (pre post : list A) n : n = length pre -> sublist 0 n (pre ++ post) = pre.
Proof. intros ->. unfold sublist. by rewrite drop_0, take_app_length. Qed.

Lemma sublist_suffix (pre post : list A) n m :
  n = length pre -> m = length post -> sublist n m (pre ++ post) = post.
Proof.
  intros -> ->. unfold sublist. by rewrite drop_app_length, take_ge.
Qed.

Lemma sublist_full l : sublist 0 (length l) l = l.
Proof. unfold sublist. by rewrite drop_0, take_ge. Qed.
End windows.

(** ** Outcomes and the state monad

    A call of the source returns, panics (an index out of range, a nil
    dereference, a division by zero: no handler of this repository recovers),
    or is still looping when the fuel of the model is used up. *)

Inductive outcome (A : Type) : Type :=
| Done (a : A)
| Panic
| Timeout.
Arguments Done {A} a.
Arguments Panic {A}.
Arguments Timeout {A}.

Definition M (S A : Type) : Type := S -> outcome (A * S).

#[global] Instance M_ret S : MRet (M S) := fun A a s => Done (a, s).
#[global] Instance M_bind S : MBind (M S) := fun A B f m s =>
  match m s with
  | Done (a, s') => f a s'
  | Panic => Panic
  | Timeout => Timeout
  end.

Definition panic {S A} : M S A := fun _ => Panic.
Definition timeout {S A} : M S A := fun _ => Timeout.
Definition get {S} : M S S := fun s => Done (s, s).
Definition gets {S A} (f : S -> A) : M S A := fun s => Done (f s, s).
Definition modify {S} (f : S -> S) : M S unit := fun s => Done (tt, f s).

(** A dereference that may be nil, an index that may be out of range. *)
Definition of_option {S A} (o : option A) : M S A :=
  match o with Some a => mret a | None => panic end.

(** A two-result call [(value, error)]: the value is there even on error. *)
Abbreviation error := (option string).
Abbreviation nil_err := (@None string).

Lemma bind_Done {S A B} (m : M S A) (f : A -> M S B) s a s' :
  m s = Done (a, s') -> (m ≫= f) s = f a s'.
Proof. intros H. unfold mbind, M_bind. by rewrite H. Qed.

Lemma bind_inv {S A B} (m : M S A) (f : A -> M S B) s r :
  (m ≫= f) s = Done r -> exists a s', m s = Done (a, s') /\ f a s' = Done r.
Proof. unfold mbind, M_bind. destruct (m s) as [[a s']| |]; naive_solver. Qed.

(** [m] relates the states before and after it by [R] whenever it returns. *)
Definition respects {S A} (R : relation S) (m : M S A) : Prop :=
  forall s a s', m s = Done (a, s') -> R s s'.

Section respects.
Context {S : Type} (R : relation S) `{!PreOrder R}.

Lemma respects_ret {A} (a : A) : respects R (mret a).
Proof using PreOrder0. intros s a' s' [= <- <-]. reflexivity. Qed.

Lemma respects_panic {A} : respects R (@panic S A).
Proof. by intros s a s' [=]. Qed.

Lemma respects_timeout {A} : respects R (@timeout S A).
Proof. by intros s a s' [=]. Qed.

Lemma respects_get : respects R get.
Proof using PreOrder0. intros s a s' [= <- <-]. reflexivity. Qed.

Lemma respects_gets {A} (f : S -> A) : respects R (gets f).
Proof using PreOrder0. intros s a s' [= <- <-]. reflexivity. Qed.

Lemma respects_of_option {A} (o : option A) : respects R (of_option o).
Proof using PreOrder0. destruct o; [apply respects_ret|apply respects_panic]. Qed.

Lemma respects_bind {A B} (m : M S A) (f : A -> M S B) :
  respects R m -> (forall a, respects R (f a)) -> respects R (m ≫= f).
Proof using PreOrder0.
  intros Hm Hf s b s' (a & s1 & H1 & H2)%bind_inv.
  etrans; [by eapply Hm|]. by eapply Hf.
Qed.
End respects.

(** Total correctness: [m] returns from [s], in a state and with a value
    that satisfy [Q]. *)
Definition wp {S A} (m : M S A) (s : S) (Q : A -> S -> Prop) : Prop :=
  match m s with Done (a, s') => Q a s' | _ => False end.

Section wp.
Context {S : Type}.

Lemma wp_ret {A} (a : A) (s : S) Q : Q a s -> wp (mret a) s Q.
Proof. done. Qed.

Lemma wp_bind {A B} (m : M S A) (f : A -> M S B) s Q :
  wp m s (fun a s' => wp (f a) s' Q) -> wp (m ≫= f) s Q.
Proof. unfold wp, mbind, M_bind. by destruct (m s) as [[a s']| |]. Qed.

Lemma wp_mono {A} (m : M S A) s (Q Q' : A -> S -> Prop) :
  wp m s Q -> (forall a s', Q a s' -> Q' a s') -> wp m s Q'.
Proof. unfold wp. destruct (m s) as [[a s']| |]; auto. Qed.

Lemma wp_of_option {A} (o : option A) a (s : S) Q :
  o = Some a -> Q a s -> wp (of_option o) s Q.
Proof. intros -> ?. done. Qed.

Lemma wp_gets {A} (f : S -> A) s (Q : A -> S -> Prop) : Q (f s) s -> wp (gets f) s Q.
Proof. done. Qed.

Lemma wp_intro {A} (m : M S A) s a s' (Q : A -> S -> Prop) :
  m s = Done (a, s') -> Q a s' -> wp m s Q.
Proof. unfold wp. by intros ->. Qed.

Lemma wp_elim {A} (m : M S A) s (Q : A -> S -> Prop) :
  wp m s Q -> exists a s', m s = Done (a, s') /\ Q a s'.
Proof. unfold wp. destruct (m s) as [[a s']| |]; naive_solver. Qed.
End wp.

(** [m] does not run out of fuel from [s] (it may panic). *)
Definition ends {S A} (m : M S A) (s : S) : Prop := m s <> Timeout.

Section ends.
Context {S : Type}.

Lemma ends_ret {A} (a : A) (s : S) : ends (mret a) s.
Proof. done. Qed.

Lemma ends_panic {A} (s : S) : ends (@panic S A) s.
Proof. done. Qed.

Lemma ends_of_option {A} (o : option A) (s : S) : ends (of_option o) s.
Proof. by destruct o. Qed.

Lemma ends_bind {A B} (m : M S A) (f : A -> M S B) s :
  ends m s -> (forall a s', m s = Done (a, s') -> ends (f a) s') -> ends (m ≫= f) s.
Proof. unfold ends, mbind, M_bind. destruct (m s) as [[a s']| |]; auto. Qed.

Lemma wp_ends {A} (m : M S A) s Q : wp m s Q -> ends m s.
Proof. unfold wp, ends. by destruct (m s) as [[a s']| |]. Qed.
End ends.

Create HintDb ends.
#[export] Hint Resolve ends_ret ends_panic ends_of_option : ends.

(** Partial correctness, with a proof obligation [T] for running out of fuel:
    what [m] returns satisfies [Q]; it may panic; it times out only if [T]. *)
Definition pwp {S A} (T : Prop) (m : M S A) (s : S) (Q : A -> S -> Prop) : Prop :=
  match m s with Done (a, s') => Q a s' | Panic => True | Timeout => T end.

Section pwp.
Context {S : Type} {T : Prop}.

Lemma pwp_ret {A} (a : A) (s : S) Q : Q a s -> pwp T (mret a) s Q.
Proof. done. Qed.

Lemma pwp_panic {A} (s : S) (Q : A -> S -> Prop) : pwp T panic s Q.
Proof. done. Qed.

Lemma pwp_bind {A B} (m : M S A) (f : A -> M S B) s Q :
  pwp T m s (fun a s' => pwp T (f a) s' Q) -> pwp T (m ≫= f) s Q.
Proof. unfold pwp, mbind, M_bind. by destruct (m s) as [[a s']| |]. Qed.

Lemma pwp_mono {A} (m : M S A) s (Q Q' : A -> S -> Prop) :
  pwp T m s Q -> (forall a s', Q a s' -> Q' a s') -> pwp T m s Q'.
Proof. unfold pwp. destruct (m s) as [[a s']| |]; auto. Qed.

Lemma pwp_weaken {A} (T' : Prop) (m : M S A) s (Q : A -> S -> Prop) :
  (T -> T') -> pwp T m s Q -> pwp T' m s Q.
Proof. unfold pwp. destruct (m s) as [[a s']| |]; auto. Qed.

Lemma pwp_of_option {A} (o : option A) (s : S) (Q : A -> S -> Prop) :
  (forall a, o = Some a -> Q a s) -> pwp T (of_option o) s Q.
Proof. destruct o; simpl; [|done]. intros H. by apply H. Qed.

Lemma pwp_gets {A} (f : S -> A) s (Q : A -> S -> Prop) : Q (f s) s -> pwp T (gets f) s Q.
Proof. done. Qed.

Lemma pwp_modify (f : S -> S) s (Q : unit -> S -> Prop) : Q tt (f s) -> pwp T (modify f) s Q.
Proof. done. Qed.

Lemma pwp_wp {A} (m : M S A) s (Q : A -> S -> Prop) : wp m s Q -> pwp T m s Q.
Proof. unfold pwp, wp. by destruct (m s) as [[a s']| |]. Qed.

Lemma pwp_intro {A} (m : M S A) s (Q : A -> S -> Prop) :
  ends m s -> (forall a s', m s = Done (a, s') -> Q a s') -> pwp T m s Q.
Proof. unfold pwp, ends. destruct (m s) as [[a s']| |]; naive_solver. Qed.

Lemma pwp_ends {A} (m : M S A) s (Q : A -> S -> Prop) :
  ends m s -> (match m s with Done (a, s') => Q a s' | _ => True end) -> pwp T m s Q.
Proof. unfold pwp, ends. destruct (m s) as [[a s']| |]; done. Qed.

Lemma pwp_elim {A} (m : M S A) s (Q : A -> S -> Prop) a s' :
  pwp T m s Q -> m s = Done (a, s') -> Q a s'.
Proof. unfold pwp. intros H E. by rewrite E in H. Qed.
End pwp.
