(* ===== verification/GoSlice.v ===== *)
(** * Go byte slices over a shared heap of arrays

    A slice of the source is a window of a backing array which it may share
    with other slices: [append] writes in place when the capacity allows it,
    an indexed write is seen through every slice over the same array, and a
    reslice is bounded by the capacity, not by the length.  The contract VM
    relies on all three (vm/map.go, vm/array.go, vm/vm.go), so the model keeps
    the arrays in a heap and passes slice headers around. *)

From S2P Require Import Prelude.

(** The arrays allocated so far, by allocation order. *)
Abbreviation heap := (list bytes).

Record slice := mkSlice { s_arr : nat; s_off : nat; s_len : nat; s_cap : nat }.

Definition nil_slice : slice := mkSlice 0 0 0 0.

#[global] Instance slice_eq_dec : EqDecision slice.
Proof. solve_decision. Defined.

(** What the Go specification leaves to the runtime: the capacity of the array
    that a growing [append] allocates, and that of a [[]byte(string)]
    conversion.  They are only known to be sufficient. *)
Class GoRuntime := {
  grow_cap : nat -> nat -> nat;   (* old capacity, needed length *)
  conv_cap : nat -> nat;
  grow_cap_ge old need : (need <= grow_cap old need)%nat;
  conv_cap_ge n : (n <= conv_cap n)%nat
}.

(** The growth policy of the Go 1.14 runtime (its small size classes). *)
Definition size_classes : list nat :=
  [8; 16; 32; 48; 64; 80; 96; 112; 128; 144; 160; 176; 192; 208; 224; 240; 256;
   288; 320; 352; 384; 416; 448; 480; 512; 576; 640; 704; 768; 896; 1024]%nat.
Definition round_up_size (n : nat) : nat :=
  default n (head (filter (fun c => n <= c)%nat size_classes)).
Definition go_grow (old need : nat) : nat :=
  if (2 * old <? need)%nat then round_up_size need
  else if (old <? 1024)%nat then round_up_size (2 * old)
  else Nat.max need (old + old / 4).

Lemma round_up_size_ge n : (n <= round_up_size n)%nat.
Proof.
  unfold round_up_size. destruct (filter _ _) as [|c l] eqn:E; simpl; [lia|].
  assert (c ∈ filter (fun c => n <= c)%nat size_classes) as Hc by (rewrite E; set_solver).
  by apply list_elem_of_filter in Hc as [? _].
Qed.

#[global, refine] Instance go_runtime_114 : GoRuntime :=
  {| grow_cap := go_grow; conv_cap n := round_up_size n |}.
Proof.
  - intros old need. unfold go_grow.
    destruct (Nat.ltb_spec (2 * old) need).
    { apply round_up_size_ge. }
    destruct (Nat.ltb_spec old 1024); [|lia].
    pose proof (round_up_size_ge (2 * old)). lia.
  - apply round_up_size_ge.
Defined.

(** ** Operations *)

Definition contents (h : heap) (s : slice) : bytes :=
  match h !! s_arr s with
  | Some a => sublist (s_off s) (s_len s) a
  | None => []
  end.

(** [len(s)] as a Go int. *)
Definition len (s : slice) : Z := Z.of_nat (s_len s).

(** The bytes of [s], as [copy], [append] and the pure conversions read them. *)
Definition read (s : slice) : M heap bytes := gets (fun h => contents h s).

(** [s[i]]: panics out of range. *)
Definition index (s : slice) (i : Z) : M heap byte :=
  if (0 <=? i) && (i <? len s) then
    bs ← read s; of_option (bs !! Z.to_nat i)
  else panic.

(** [s[i] = b] *)
Definition set_index (s : slice) (i : Z) (b : byte) : M heap unit :=
  if (0 <=? i) && (i <? len s) then
    modify (alter (<[(s_off s + Z.to_nat i)%nat := b]>) (s_arr s))
  else panic.

(** [s[lo:hi]]: [hi] is checked against the capacity. *)
Definition reslice (s : slice) (lo hi : Z) : option slice :=
  if (0 <=? lo) && (lo <=? hi) && (hi <=? Z.of_nat (s_cap s)) then
    Some (mkSlice (s_arr s) (s_off s + Z.to_nat lo) (Z.to_nat (hi - lo))
                  (s_cap s - Z.to_nat lo))
  else None.

(** A fresh array that holds [bs], of capacity [cap]. *)
Definition alloc (bs : bytes) (cap : nat) : M heap slice := fun h =>
  Done (mkSlice (length h) 0 (length bs) (Nat.max (length bs) cap),
        h ++ [bs ++ zeros (cap - length bs)]).

(** [[]byte{...}] and [make([]byte, n)]. *)
Definition slice_lit (bs : bytes) : M heap slice := alloc bs (length bs).

Section runtime.
Context `{!GoRuntime}.

(** [[]byte("...")] *)
Definition slice_of_string (s : string) : M heap slice :=
  alloc (str_bytes s) (conv_cap (length (str_bytes s))).

(** [append(s, bs...)] *)
Definition append (s : slice) (bs : bytes) : M heap slice := fun h =>
  if (s_len s + length bs <=? s_cap s)%nat then
    Done (mkSlice (s_arr s) (s_off s) (s_len s + length bs) (s_cap s),
          alter (splice (s_off s + s_len s) bs) (s_arr s) h)
  else
    let bs' := contents h s ++ bs in
    alloc bs' (grow_cap (s_cap s) (length bs')) h.

(** [append(s, t...)] *)
Definition append_slice (s t : slice) : M heap slice :=
  bs ← read t; append s bs.
End runtime.

(** ** Well-formed slices and heaps that only grow *)

Definition wf_slice (h : heap) (s : slice) : Prop :=
  (s_len s <= s_cap s)%nat /\
  (s_cap s = 0%nat \/
   exists a, h !! s_arr s = Some a /\ (s_off s + s_cap s <= length a)%nat).

(** Arrays are never freed and never change their size. *)
Definition heap_le (h h' : heap) : Prop :=
  forall i a, h !! i = Some a -> exists a', h' !! i = Some a' /\ length a' = length a.

#[global] Instance heap_le_preorder : PreOrder heap_le.
Proof.
  split.
  - intros h i a ?. eauto.
  - intros h1 h2 h3 H12 H23 i a (a' & (a'' & ? & ?)%H23 & ?)%H12. exists a''. split; congruence.
Qed.

Lemma wf_slice_le h h' s : heap_le h h' -> wf_slice h s -> wf_slice h' s.
Proof.
  intros Hle [? [?|(a & (a' & ? & ?)%Hle & ?)]]; split; auto.
  right. exists a'. split; [done|lia].
Qed.

Lemma wf_nil h : wf_slice h nil_slice.
Proof. split; [done|by left]. Qed.

Lemma contents_nil h : contents h nil_slice = [].
Proof. unfold contents. by destruct (_ !! _). Qed.

Lemma heap_le_app h h' : heap_le h (h ++ h').
Proof. intros i a H. exists a. split; [by apply lookup_app_l_Some|done]. Qed.

Lemma heap_le_alter h i f :
  (forall a, h !! i = Some a -> length (f a) = length a) -> heap_le h (alter f i h).
Proof.
  intros Hf j a Ha. destruct (decide (i = j)) as [->|].
  - exists (f a). rewrite list_lookup_alter_eq, Ha. auto.
  - exists a. by rewrite list_lookup_alter_ne.
Qed.

Lemma contents_length h s : wf_slice h s -> length (contents h s) = s_len s.
Proof.
  intros [? [Hc|(a & Ha & ?)]]; unfold contents.
  - destruct (h !! s_arr s); [|simpl; lia].
    unfold sublist. rewrite length_take. lia.
  - rewrite Ha. apply length_sublist. lia.
Qed.

Lemma contents_app h h' s : wf_slice h s -> contents (h ++ h') s = contents h s.
Proof.
  intros [? [Hc|(a & Ha & ?)]]; unfold contents.
  - assert (s_len s = 0%nat) as -> by lia.
    by destruct (_ !! _), (_ !! _).
  - by rewrite (lookup_app_l_Some _ _ _ _ Ha), Ha.
Qed.

Lemma wf_contents_cons h s b bs :
  wf_slice h s -> contents h s = b :: bs -> (0 < s_len s)%nat.
Proof. intros Hwf E. rewrite <-(contents_length h s Hwf), E. simpl. lia. Qed.

(** ** Specifications of the operations *)

Section specs.
Context `{!GoRuntime}.
Implicit Types (h : heap) (s t : slice).

(** The spare capacity of [s] does not overlap the window of [t]. *)
Definition clear_of_spare (s t : slice) : Prop :=
  s_arr t <> s_arr s \/ (s_off t + s_len t <= s_off s + s_len s)%nat \/
  (s_off s + s_cap s <= s_off t)%nat \/ s_len t = 0%nat.

Lemma alloc_spec' bs cap h Q :
  (forall s h', s_arr s = length h -> s_len s = length bs -> s_off s = 0%nat ->
     (s_cap s = Nat.max (length bs) cap)%nat ->
     wf_slice h' s -> contents h' s = bs -> heap_le h h' ->
     (forall t, wf_slice h t -> contents h' t = contents h t) ->
     (exists x, h' = h ++ [x]) -> Q s h') ->
  wp (alloc bs cap) h Q.
Proof.
  intros HQ. apply HQ; simpl; try done.
  - split; [simpl; lia|]. right. eexists. simpl. split.
    + by rewrite lookup_app_r, Nat.sub_diag by lia.
    + unfold zeros. rewrite length_app, length_replicate. lia.
  - unfold contents. simpl. rewrite lookup_app_r, Nat.sub_diag by lia. simpl.
    unfold sublist. by rewrite drop_0, take_app_length.
  - apply heap_le_app.
  - intros. by apply contents_app.
  - eauto.
Qed.

Lemma alloc_spec bs cap h Q :
  (forall s h', s_arr s = length h -> s_len s = length bs -> s_off s = 0%nat ->
     (s_cap s = Nat.max (length bs) cap)%nat ->
     wf_slice h' s -> contents h' s = bs -> heap_le h h' ->
     (forall t, wf_slice h t -> contents h' t = contents h t) -> Q s h') ->
  wp (alloc bs cap) h Q.
Proof. intros HQ. apply alloc_spec'. eauto. Qed.

(** In place, over the same array, or in a fresh array. *)
Definition append_shape h s s' h' : Prop :=
  (s_arr s' = s_arr s /\ s_off s' = s_off s /\ s_cap s' = s_cap s /\
     exists f, h' = alter f (s_arr s) h /\ (s_cap s = 0%nat -> h' = h)) \/
  (s_arr s' = length h /\ exists x, h' = h ++ [x]).

Lemma append_spec s bs h Q :
  wf_slice h s ->
  (forall s' h', wf_slice h' s' -> contents h' s' = contents h s ++ bs ->
     s_len s' = (s_len s + length bs)%nat -> heap_le h h' ->
     append_shape h s s' h' ->
     (forall t, wf_slice h t -> clear_of_spare s t -> contents h' t = contents h t) ->
     Q s' h') ->
  wp (append s bs) h Q.
Proof.
  intros Hwf HQ. unfold append. destruct (Nat.leb_spec (s_len s + length bs) (s_cap s)) as [Hle|Hgt].
  - unfold wp. simpl.
    assert (Hap : heap_le h (alter (splice (s_off s + s_len s) bs) (s_arr s) h)).
    { apply heap_le_alter. intros a Ha. destruct Hwf as [? [?|(a' & ? & ?)]].
      - assert (length bs = 0%nat) as ->%length_zero_iff_nil by lia.
        unfold splice. simpl. by rewrite Nat.add_0_r, take_drop.
      - simplify_eq. apply length_splice. lia. }
    assert (Hwf' : wf_slice (alter (splice (s_off s + s_len s) bs) (s_arr s) h)
                     (mkSlice (s_arr s) (s_off s) (s_len s + length bs) (s_cap s))).
    { apply (wf_slice_le _ _ s Hap) in Hwf as [? Hor]. split; [simpl; lia|].
      destruct Hor; [by left|by right]. }
    apply HQ; try done.
    + unfold contents. simpl. rewrite list_lookup_alter_eq.
      destruct Hwf as [? [?|(a & -> & ?)]].
      * assert (length bs = 0%nat) as ->%length_zero_iff_nil by lia.
        assert (s_len s = 0%nat) as -> by lia.
        by destruct (h !! s_arr s).
      * simpl. rewrite <-sublist_app, sublist_splice_same by lia.
        f_equal. apply sublist_splice_disjoint; lia.
    + left. do 3 (split; [done|]). eexists. split; [done|]. intros Hc0.
      assert (length bs = 0%nat) as ->%length_zero_iff_nil by lia.
      apply list_eq. intros j. destruct (decide (s_arr s = j)) as [->|];
        [|by rewrite list_lookup_alter_ne].
      rewrite list_lookup_alter_eq. destruct (h !! j) as [a|]; [|done].
      simpl. unfold splice. simpl. by rewrite Nat.add_0_r, take_drop.
    + intros t Ht Hclear. unfold contents.
      destruct (decide (s_arr t = s_arr s)) as [Heq|]; [rewrite Heq|by rewrite list_lookup_alter_ne].
      rewrite list_lookup_alter_eq. destruct (h !! s_arr s) as [a|] eqn:Ha; [|done]. simpl.
      destruct Hwf as [? [?|(a' & ? & ?)]]; simplify_eq.
      * assert (length bs = 0%nat) as ->%length_zero_iff_nil by lia.
        unfold splice. simpl. by rewrite Nat.add_0_r, take_drop.
      * destruct (decide (s_len t = 0%nat)) as [->|]; [done|].
        apply sublist_splice_disjoint; [lia|]. destruct Hclear as [?|[?|[?|?]]]; lia.
  - apply alloc_spec'. intros s' h' Harr Hlen _ _ Hwf' Hc Hle Hfr Hsh.
    apply HQ; auto; [|by right]. rewrite Hlen, length_app, contents_length by done. lia.
Qed.

(** The array of [s] was allocated after [h0], or [s] owns no array: what is
    written through [s] is not seen by the slices that existed in [h0]. *)
Definition fresh (h0 : heap) (s : slice) : Prop :=
  (length h0 <= s_arr s)%nat \/ s_cap s = 0%nat.

Lemma fresh_prefix h0 h1 s : h0 `prefix_of` h1 -> fresh h1 s -> fresh h0 s.
Proof. intros ?%prefix_length [?|?]; [left; lia|by right]. Qed.

Lemma contents_prefix h h' s : h `prefix_of` h' -> wf_slice h s -> contents h' s = contents h s.
Proof. intros [k ->] ?. by apply contents_app. Qed.

Lemma prefix_heap_le h h' : h `prefix_of` h' -> heap_le h h'.
Proof. intros [k ->]. apply heap_le_app. Qed.

Lemma prefix_alter h0 h f i :
  h0 `prefix_of` h -> (length h0 <= i)%nat -> h0 `prefix_of` alter f i h.
Proof.
  intros [k ->] Hi. exists (alter f (i - length h0)%nat k).
  apply list_eq. intros j. destruct (decide (j < length h0)%nat).
  - rewrite list_lookup_alter_ne, !lookup_app_l by lia. done.
  - rewrite (lookup_app_r h0) by lia. destruct (decide (i = j)) as [->|].
    + by rewrite !list_lookup_alter_eq, lookup_app_r by lia.
    + by rewrite !list_lookup_alter_ne, lookup_app_r by lia.
Qed.

Lemma alloc_fresh_spec bs cap h0 h Q :
  h0 `prefix_of` h ->
  (forall s h', wf_slice h' s -> contents h' s = bs -> h0 `prefix_of` h' -> h `prefix_of` h' ->
     fresh h0 s -> Q s h') ->
  wp (alloc bs cap) h Q.
Proof.
  intros Hpre HQ. apply alloc_spec'. intros s h' Harr _ _ _ Hwf Hc _ _ [x ->].
  assert (h `prefix_of` h ++ [x]) by by apply prefix_app_r.
  apply HQ; auto; [by etrans|]. left. rewrite Harr. by apply prefix_length.
Qed.

Lemma append_shape_prefix h0 h s s' h' :
  h0 `prefix_of` h -> append_shape h s s' h' -> fresh h0 s -> h0 `prefix_of` h' /\ fresh h0 s'.
Proof.
  intros Hpre [(Ha & _ & Hcap & f & -> & Hnil)|(Ha & x & ->)] Hfresh.
  - split; [|unfold fresh in *; by rewrite Ha, Hcap].
    destruct Hfresh as [?|Hc0]; [by apply prefix_alter|by rewrite Hnil].
  - split; [by apply prefix_app_r|]. left. rewrite Ha. by apply prefix_length.
Qed.

(** What is clear of the spare capacity stays clear of what is left of it. *)
Lemma clear_of_spare_append h s s' h' t :
  append_shape h s s' h' -> (s_len s <= s_len s')%nat -> wf_slice h t ->
  clear_of_spare s t -> clear_of_spare s' t.
Proof.
  intros [(Ha & Ho & Hc & _)|(Ha & _)] Hlen Hwf Hcl; unfold clear_of_spare in *.
  - rewrite Ha, Ho, Hc. destruct Hcl as [?|[?|[?|?]]]; auto. right; left. lia.
  - rewrite Ha. destruct Hwf as [? [?|(a & ?%lookup_lt_Some & _)]]; [|left; lia].
    right; right; right. lia.
Qed.

Lemma fresh_clear h s t : fresh h s -> wf_slice h t -> s_cap s <> 0%nat -> clear_of_spare s t.
Proof.
  intros [?|?] [? [?|(a & ?%lookup_lt_Some & _)]] ?; unfold clear_of_spare; try lia.
Qed.

Lemma append_fresh_spec h0 s bs h Q :
  h0 `prefix_of` h -> fresh h0 s -> wf_slice h s ->
  (forall s' h', wf_slice h' s' -> contents h' s' = contents h s ++ bs ->
     h0 `prefix_of` h' -> fresh h0 s' -> heap_le h h' -> Q s' h') ->
  wp (append s bs) h Q.
Proof.
  intros Hpre Hfresh Hwf HQ. apply append_spec; [done|].
  intros s' h' Hwf' Hc' _ Hle Hsh _. destruct (append_shape_prefix h0 h s s' h') as [? ?]; auto.
Qed.

Lemma fresh_nil h0 : fresh h0 nil_slice.
Proof. by right. Qed.

Lemma read_spec s h (Q : bytes -> heap -> Prop) : Q (contents h s) h -> wp (read s) h Q.
Proof. done. Qed.

Lemma append_slice_spec s t h Q :
  wf_slice h s ->
  (forall s' h', wf_slice h' s' -> contents h' s' = contents h s ++ contents h t ->
     s_len s' = (s_len s + length (contents h t))%nat -> heap_le h h' ->
     append_shape h s s' h' ->
     (forall u, wf_slice h u -> clear_of_spare s u -> contents h' u = contents h u) ->
     Q s' h') ->
  wp (append_slice s t) h Q.
Proof.
  intros ? HQ. unfold append_slice. apply wp_bind, read_spec. by apply append_spec.
Qed.

Lemma index_spec s i h b (Q : byte -> heap -> Prop) :
  contents h s !! Z.to_nat i = Some b -> 0 <= i < len s -> Q b h -> wp (index s i) h Q.
Proof.
  intros Hb Hi HQ. unfold index.
  destruct (Z.leb_spec 0 i), (Z.ltb_spec i (len s)); try lia. simpl.
  apply wp_bind, read_spec. by eapply wp_of_option.
Qed.

Lemma reslice_Some s lo hi :
  0 <= lo <= hi -> hi <= Z.of_nat (s_cap s) ->
  reslice s lo hi = Some (mkSlice (s_arr s) (s_off s + Z.to_nat lo)
                            (Z.to_nat (hi - lo)) (s_cap s - Z.to_nat lo)).
Proof.
  intros. unfold reslice.
  destruct (Z.leb_spec 0 lo), (Z.leb_spec lo hi), (Z.leb_spec hi (Z.of_nat (s_cap s))); lia || done.
Qed.

Lemma reslice_inv s lo hi s' :
  reslice s lo hi = Some s' ->
  0 <= lo <= hi /\ hi <= Z.of_nat (s_cap s) /\
  s' = mkSlice (s_arr s) (s_off s + Z.to_nat lo) (Z.to_nat (hi - lo)) (s_cap s - Z.to_nat lo).
Proof.
  unfold reslice.
  destruct (Z.leb_spec 0 lo), (Z.leb_spec lo hi), (Z.leb_spec hi (Z.of_nat (s_cap s)));
    simpl; intros [= <-]; lia || auto.
Qed.

Lemma wf_reslice h s lo hi s' : reslice s lo hi = Some s' -> wf_slice h s -> wf_slice h s'.
Proof.
  intros (? & ? & ->)%reslice_inv [? Hor]. split; simpl; [lia|].
  destruct Hor as [?|(a & ? & ?)]; [left; lia|right; exists a; split; [done|lia]].
Qed.

(** Within the length, a reslice is the corresponding window of the bytes. *)
Lemma contents_reslice h s lo hi s' :
  reslice s lo hi = Some s' -> hi <= len s ->
  contents h s' = sublist (Z.to_nat lo) (Z.to_nat (hi - lo)) (contents h s).
Proof.
  unfold len. intros (? & ? & ->)%reslice_inv ?. unfold contents. simpl.
  destruct (h !! s_arr s) as [a|].
  - rewrite sublist_sublist by lia. done.
  - by unfold sublist; rewrite drop_nil, take_nil.
Qed.

(** Reslicing within the length, as one step of a specification. *)
Lemma reslice_spec s lo hi h (Q : slice -> heap -> Prop) :
  wf_slice h s -> 0 <= lo <= hi -> hi <= len s ->
  (forall t, wf_slice h t -> s_arr t = s_arr s -> len t = hi - lo ->
     (s_off t + s_len t <= s_off s + s_len s)%nat ->
     contents h t = sublist (Z.to_nat lo) (Z.to_nat (hi - lo)) (contents h s) -> Q t h) ->
  wp (of_option (reslice s lo hi)) h Q.
Proof.
  intros Hwf Hlo Hhi HQ. pose proof Hwf as [Hcap _]. unfold len in *.
  destruct (reslice s lo hi) as [t|] eqn:E.
  - apply HQ; [by eapply wf_reslice| | | |by eapply contents_reslice];
      apply reslice_inv in E as (_ & _ & ->); simpl; unfold len; simpl; lia || done.
  - rewrite reslice_Some in E by lia. done.
Qed.

(** [tmp := append(tmp, m[:lo]...); m' = append(tmp, m[hi:]...)] from an
    empty [tmp]: a fresh slice without the bytes from [lo] to [hi]. *)
Lemma cut_spec {B} m lo hi pre mid post h (f : slice -> M heap B) (Q : B -> heap -> Prop) :
  wf_slice h m -> contents h m = pre ++ mid ++ post ->
  lo = Z.of_nat (length pre) -> hi = Z.of_nat (length pre + length mid) ->
  (forall m' h', wf_slice h' m' -> contents h' m' = pre ++ post -> h `prefix_of` h' ->
     fresh h m' -> wp (f m') h' Q) ->
  wp (before ← of_option (reslice m 0 lo);
      tmp ← append_slice nil_slice before;
      after ← of_option (reslice m hi (len m));
      m' ← append_slice tmp after;
      f m') h Q.
Proof.
  intros Hwf Hc -> -> HQ.
  assert (len m = Z.of_nat (length pre + length mid + length post)) as Hlen
    by (unfold len; rewrite <-(contents_length h m Hwf), Hc, !length_app; lia).
  apply wp_bind, reslice_spec; [done|lia|lia|]. intros before _ _ _ _ Hb.
  apply wp_bind, wp_bind, read_spec, (append_fresh_spec h); [done|apply fresh_nil|apply wf_nil|].
  intros tmp h1 Hwf1 Hc1 Hp1 Hf1 _.
  apply wp_bind, reslice_spec; [by eapply wf_slice_le; [apply prefix_heap_le|]|lia|lia|].
  intros after _ _ _ _ Ha.
  apply wp_bind, wp_bind, read_spec, (append_fresh_spec h); [done..|].
  intros m' h2 Hwf2 Hc2 Hp2 Hf2 _. apply HQ; [done| |done..].
  rewrite Hc2, Hc1, Ha, Hb, (contents_prefix h h1 m), Hc, contents_nil, app_nil_l by done.
  rewrite sublist_prefix by (change (Z.to_nat 0) with 0%nat; lia). f_equal.
  rewrite app_assoc. apply sublist_suffix; rewrite ?length_app; lia.
Qed.

Lemma set_index_spec s i b h Q :
  wf_slice h s -> 0 <= i < len s ->
  (forall h', heap_le h h' -> length h' = length h ->
     contents h' s = <[Z.to_nat i := b]> (contents h s) ->
     (forall t, s_arr t <> s_arr s -> contents h' t = contents h t) ->
     (forall h0, h0 `prefix_of` h -> fresh h0 s -> h0 `prefix_of` h') -> Q () h') ->
  wp (set_index s i b) h Q.
Proof.
  unfold len. intros [? Hor] Hi HQ. unfold set_index, len.
  destruct (Z.leb_spec 0 i), (Z.ltb_spec i (Z.of_nat (s_len s))); try lia. simpl.
  destruct Hor as [?|(a & Ha & ?)]; [lia|].
  apply HQ.
  - apply heap_le_alter. intros. apply length_insert.
  - apply length_alter.
  - unfold contents. rewrite list_lookup_alter_eq, Ha. simpl.
    apply list_eq. intros j. destruct (decide (j < s_len s)%nat).
    + rewrite lookup_sublist by done.
      destruct (decide (j = Z.to_nat i)) as [->|].
      * rewrite !list_lookup_insert_eq; rewrite ?length_sublist; lia || done.
      * rewrite !list_lookup_insert_ne, lookup_sublist by lia. done.
    + rewrite !lookup_ge_None_2; [done| |].
      * rewrite length_insert, length_sublist by lia. lia.
      * rewrite length_sublist; [lia|]. rewrite length_insert. lia.
  - intros t Ht. unfold contents. by rewrite list_lookup_alter_ne by done.
  - intros h0 ? [?|?]; [by apply prefix_alter|lia].
Qed.
End specs.

(** ** The operations never shrink the heap *)

Create HintDb heap_le.

Section respects_heap_le.
Context `{!GoRuntime}.

Lemma read_le s : respects heap_le (read s).
Proof. apply respects_gets, _. Qed.

Lemma index_le s i : respects heap_le (index s i).
Proof.
  unfold index. destruct (_ && _); [|apply respects_panic].
  apply respects_bind; [apply _|apply read_le|]. intros. apply respects_of_option, _.
Qed.

Lemma set_index_le s i b : respects heap_le (set_index s i b).
Proof.
  unfold set_index. destruct (_ && _); [|apply respects_panic].
  intros h [] h' [= <-]. apply heap_le_alter. intros. apply length_insert.
Qed.

Lemma alloc_le bs cap : respects heap_le (alloc bs cap).
Proof. intros h s h' [= <- <-]. apply heap_le_app. Qed.
End respects_heap_le.
#[export] Hint Resolve read_le index_le set_index_le alloc_le : heap_le.
