(* ===== verification/VMUtils.v ===== *)
(** * vm/utils.go: conversions between byte slices, integers and big integers

    A [big.Int] is a [Z].  A conversion that only reads its argument is a pure
    function of the bytes of the slice; one that returns a new slice is an
    operation on the heap. *)

From S2P Require Import Prelude GoSlice.

Definition UINT16_MAX : Z := 65535.

Definition UInt16ToByteArray (element : Z) : bytes := le_bytes 2 element.

Definition ByteArrayToUI16 (element : bytes) : Z * error :=
  if bool_decide (element = []) then (0, None)
  else if negb (length element =? 2)%nat then
    (0, Some "byte array to uint16 invalid parameters provided")
  else (le_val element, None).

(** [ByteArrayToInt]: left-pads to 8 bytes; [make] panics above 8 bytes. *)
Definition ByteArrayToInt (element : bytes) : option Z :=
  if (length element <=? 8)%nat then
    Some (to_int64 (be_val (zeros (8 - length element) ++ element)))
  else None.

Definition UInt64ToByteArray (element : Z) : M heap slice :=
  slice_lit (be_bytes 8 element).

(** The bytes of [BoolToByteArray]. *)
Definition bool_bytes (value : bool) : bytes :=
  [if value then Byte.x01 else Byte.x00].
Definition BoolToByteArray (value : bool) : M heap slice := slice_lit (bool_bytes value).

(** [ba[0] == 1] *)
Definition ByteArrayToBool (ba : bytes) : option bool :=
  match ba with
  | [] => None
  | b :: _ => Some (bool_decide (b = Byte.x01))
  end.

Definition SignedBigIntConversion (ba : bytes) (err : error) : option (Z * error) :=
  match err with
  | Some _ => Some (0, err)
  | None =>
      match ba with
      | [] => None
      | sign :: val =>
          if bool_decide (sign <> Byte.x01) && bool_decide (sign <> Byte.x00) then
            Some (0, Some "Invalid signing bit")
          else
            let result := be_val val in
            Some (if bool_decide (sign = Byte.x01) then - result else result, None)
      end
  end.

Definition UnsignedBigIntConversion (ba : bytes) (err : error) : Z * error :=
  match err with
  | Some _ => (0, err)
  | None => (be_val ba, None)
  end.

(** The bytes of [SignedByteArrayConversion]: sign byte, then the magnitude. *)
Definition signed_bytes (bi : Z) : bytes :=
  (if bool_decide (0 <= bi) then Byte.x00 else Byte.x01) :: min_bytes (Z.abs bi).

Definition SignedByteArrayConversion `{!GoRuntime} (bi : Z) : M heap slice :=
  result ← (if bool_decide (Z.sgn bi = 0) || bool_decide (Z.sgn bi = 1)
            then slice_lit [Byte.x00] else slice_lit [Byte.x01]);
  append result (min_bytes (Z.abs bi)).

(** [BigIntToPushableBytes]: operand of a PUSH of [element]. *)
Definition BigIntToPushableBytes (element : Z) : bytes :=
  let b := min_bytes (Z.abs element) in
  let baseLength := mkb (Z.of_nat (length b)) in
  let sign := if bool_decide (0 <= element < 2 ^ 64) then Byte.x00 else Byte.x01 in
  baseLength :: sign :: b.

(** ** Length-prefixed byte strings

    Arrays and maps encode each element with its uint16 length in front. *)

Definition enc_elem (e : bytes) : bytes := le_bytes 2 (Z.of_nat (length e)) ++ e.
Definition enc_elems (els : list bytes) : bytes := concat (map enc_elem els).
Lemma enc_elems_app l1 l2 : enc_elems (l1 ++ l2) = enc_elems l1 ++ enc_elems l2.
Proof. unfold enc_elems. by rewrite map_app, concat_app. Qed.

Lemma enc_elems_cons e l : enc_elems (e :: l) = le_bytes 2 (Z.of_nat (length e)) ++ e ++ enc_elems l.
Proof. unfold enc_elems, enc_elem. cbn [map concat]. by rewrite <-app_assoc. Qed.

Lemma length_enc_elems_delete els i e :
  els !! i = Some e ->
  length (enc_elems els) = (length (enc_elems (delete i els)) + 2 + length e)%nat.
Proof.
  intros He. rewrite delete_take_drop, <-(take_drop_middle els i e He) at 1.
  rewrite !enc_elems_app, enc_elems_cons, !length_app, length_le_bytes. lia.
Qed.

(** ** Properties *)

Lemma ByteArrayToUI16_2 (a b : byte) : ByteArrayToUI16 [a; b] = (le_val [a; b], None).
Proof. reflexivity. Qed.

Lemma ByteArrayToUI16_bounds l v e : ByteArrayToUI16 l = (v, e) -> 0 <= v <= UINT16_MAX.
Proof.
  unfold ByteArrayToUI16, UINT16_MAX. case_bool_decide; [intros [= <- <-]; lia|].
  destruct (Nat.eqb_spec (length l) 2) as [E|]; simpl; intros [= <- <-]; [|lia].
  pose proof (le_val_bound l). rewrite E in *. lia.
Qed.

Lemma ByteArrayToUI16_roundtrip n :
  is_u16 n -> ByteArrayToUI16 (UInt16ToByteArray n) = (n, None).
Proof.
  intros. unfold ByteArrayToUI16, UInt16ToByteArray.
  assert (length (le_bytes 2 n) = 2%nat) as E by apply length_le_bytes.
  rewrite bool_decide_eq_false_2 by (intros ?%(f_equal length); simpl in *; lia).
  rewrite E. simpl. by rewrite le_val_bytes.
Qed.

Lemma UInt16ToByteArray_pair n : exists a b, UInt16ToByteArray n = [a; b].
Proof. unfold UInt16ToByteArray, le_bytes. simpl. eauto. Qed.

Lemma ByteArrayToInt_2 l : length l = 2%nat -> ByteArrayToInt l = Some (be_val l).
Proof.
  intros E. unfold ByteArrayToInt. rewrite E. simpl (2 <=? 8)%nat. cbv iota.
  rewrite be_val_zeros_app. pose proof (be_val_bound l) as Hb. rewrite E in Hb.
  change (2 ^ (8 * Z.of_nat 2)) with 65536 in Hb.
  by rewrite to_int64_nonneg by lia.
Qed.

Lemma SignedBigIntConversion_signed_bytes z :
  SignedBigIntConversion (signed_bytes z) None = Some (z, None).
Proof.
  unfold signed_bytes. simpl. rewrite be_val_min_bytes by lia.
  repeat case_bool_decide; simpl; try congruence; do 2 f_equal; lia.
Qed.

Lemma length_signed_bytes z : length (signed_bytes z) = S (nbytes (Z.abs z)).
Proof. unfold signed_bytes. simpl. by rewrite length_min_bytes. Qed.

Section specs.
Context `{!GoRuntime}.

Lemma slice_lit_spec bs h Q :
  (forall s h', s_arr s = length h -> s_len s = length bs -> s_cap s = length bs ->
     wf_slice h' s -> contents h' s = bs -> heap_le h h' ->
     (forall t, wf_slice h t -> contents h' t = contents h t) -> Q s h') ->
  wp (slice_lit bs) h Q.
Proof.
  intros HQ. apply alloc_spec. intros. apply HQ; auto.
  by rewrite Nat.max_id in *.
Qed.

(** The result is a new slice; the arrays of the caller do not change. *)
Lemma SignedByteArrayConversion_spec z h Q :
  (forall s h', wf_slice h' s -> contents h' s = signed_bytes z -> h `prefix_of` h' ->
     fresh h s -> Q s h') ->
  wp (SignedByteArrayConversion z) h Q.
Proof.
  intros HQ. unfold SignedByteArrayConversion.
  set (sign := if bool_decide (0 <= z) then Byte.x00 else Byte.x01).
  replace (if bool_decide (Z.sgn z = 0) || bool_decide (Z.sgn z = 1)
           then slice_lit [Byte.x00] else slice_lit [Byte.x01]) with (slice_lit [sign])
    by (subst sign; repeat case_bool_decide; simpl; auto; lia).
  apply wp_bind, (alloc_fresh_spec _ _ h h); [done|]. intros s h1 Hwf Hc Hle _ Hf.
  apply (append_fresh_spec h); [done..|]. intros s' h2 Hwf' Hc' Hle' Hf' _.
  apply HQ; [done|by rewrite Hc', Hc|done..].
Qed.

(** The two size bytes after the tag of an array or a map: reading them, and
    overwriting them one at a time. *)
Lemma read_size_spec {B} tag h m n rest (f : bytes -> M heap B) (Q : B -> heap -> Prop) :
  wf_slice h m -> contents h m = tag :: le_bytes 2 n ++ rest ->
  wp (f (UInt16ToByteArray n)) h Q ->
  wp (sz ← of_option (reslice m 1 3); bs ← read sz; f bs) h Q.
Proof.
  intros Hwf Hc HQ.
  assert (3 <= len m) by (unfold len; rewrite <-(contents_length h m Hwf), Hc; simpl; lia).
  apply wp_bind, reslice_spec; [done|lia|lia|]. intros t _ _ _ _ Ht.
  apply wp_bind, read_spec. rewrite Ht, Hc.
  change (tag :: le_bytes 2 n ++ rest) with ([tag] ++ UInt16ToByteArray n ++ rest).
  by rewrite sublist_mid.
Qed.

Lemma write_size_spec tag h m n n' rest (Q : unit -> heap -> Prop) :
  wf_slice h m -> contents h m = tag :: le_bytes 2 n ++ rest ->
  (forall h', heap_le h h' -> wf_slice h' m ->
     contents h' m = tag :: le_bytes 2 n' ++ rest ->
     (forall h0, h0 `prefix_of` h -> fresh h0 m -> h0 `prefix_of` h') -> Q () h') ->
  wp (b0 ← of_option (UInt16ToByteArray n' !! 0%nat);
      set_index m 1 b0;;
      b1 ← of_option (UInt16ToByteArray n' !! 1%nat);
      set_index m 2 b1) h Q.
Proof.
  intros Hwf Hc HQ. unfold UInt16ToByteArray, le_bytes in *. simpl in *.
  assert (3 <= len m) by (unfold len; rewrite <-(contents_length h m Hwf), Hc; simpl; lia).
  apply wp_bind, wp_ret. apply wp_bind, set_index_spec; [done|lia|].
  intros h1 Hle1 _ Hc1 _ Hp1. apply wp_bind, wp_ret.
  apply set_index_spec; [by eapply wf_slice_le|lia|]. intros h2 Hle2 _ Hc2 _ Hp2.
  apply HQ; [by etrans|by do 2 (eapply wf_slice_le; [done|])| |by eauto].
  rewrite Hc2, Hc1, Hc. done.
Qed.
End specs.
