(* ===== verification/VMStack.v ===== *)
(** * vm/stack.go and vm/call_stack.go: the two stacks of the contract VM *)

From S2P Require Import Prelude GoSlice.

(** ** The evaluation stack

    The elements are slice headers in the order of the Go slice (the top of the
    stack is the last one); the memory accounting is in uint32. *)

Record Stack := mkStack { elems : list slice; memoryUsage : Z; memoryMax : Z }.

Definition NewStack : Stack := mkStack [] 0 1000000.

Module Stack.
Definition GetLength (s : Stack) : Z := Z.of_nat (length (elems s)).

Definition hasEnoughMemory (s : Stack) (elementSize : Z) : bool :=
  u32 (u32 elementSize + memoryUsage s) <=? memoryMax s.

Definition Push (s : Stack) (element : slice) : Stack * error :=
  if hasEnoughMemory s (len element) then
    (mkStack (elems s ++ [element]) (u32 (memoryUsage s + u32 (len element))) (memoryMax s),
     None)
  else (s, Some "Stack out of memory").

Definition PopIndexAt (s : Stack) (index : Z) : option (Stack * (slice * error)) :=
  if index <=? GetLength s then
    element ← (if 0 <=? index then elems s !! Z.to_nat index else None);
    Some (mkStack (take (Z.to_nat index) (elems s) ++ drop (Z.to_nat index + 1) (elems s))
            (u32 (memoryUsage s - u32 (len element))) (memoryMax s),
          (element, None))
  else Some (s, (nil_slice, Some "index out of bounds")).

Definition Pop (s : Stack) : Stack * (slice * error) :=
  match last (elems s) with
  | Some element =>
      (mkStack (take (length (elems s) - 1) (elems s))
         (u32 (memoryUsage s - u32 (len element))) (memoryMax s),
       (element, None))
  | None => (s, (nil_slice, Some "pop() on empty stack"))
  end.

Definition PeekBytes (s : Stack) : slice * error :=
  match last (elems s) with
  | Some element => (element, None)
  | None => (nil_slice, Some "peek() on empty Stack")
  end.
End Stack.

(** ** The call stack *)

Record Frame := mkFrame { variables : gmap Z Z; returnAddress : Z }.

(** Frames in the order of the Go slice: the current one is the last. *)
Definition CallStack : Type := list Frame.

Definition NewCallStack : CallStack := [].

Module CallStack.
Definition Push (cs : CallStack) (element : Frame) : CallStack := cs ++ [element].

Definition Pop (cs : CallStack) : CallStack * (option Frame * error) :=
  match last cs with
  | Some element => (take (length cs - 1) cs, (Some element, None))
  | None => (cs, (None, Some "pop() on empty callStack"))
  end.

Definition Peek (cs : CallStack) : option Frame * error :=
  match last cs with
  | Some element => (Some element, None)
  | None => (None, Some "peek() on empty callStack")
  end.

(** Writing [frame.variables[k]] through the pointer that [Peek] returned. *)
Definition set_variable (cs : CallStack) (k v : Z) : CallStack :=
  alter (fun f => mkFrame (<[k := v]> (variables f)) (returnAddress f)) (length cs - 1)%nat cs.
End CallStack.

(** ** The memory invariant

    The counter is the total size of the elements and stays below the
    maximum; an element can only be pushed when its size does not wrap the
    uint32 sum, which holds for every slice below four gigabytes. *)

Definition total_size (l : list slice) : Z := foldr (fun x acc => len x + acc) 0 l.

Definition stack_ok (s : Stack) : Prop :=
  memoryMax s = 1000000 /\ memoryUsage s = total_size (elems s) /\
  memoryUsage s <= memoryMax s.

(** Slices whose size cannot wrap the memory check. *)
Definition pushable (x : slice) : Prop := len x < 2 ^ 32 - 1000000.

Lemma len_nonneg x : 0 <= len x.
Proof. unfold len. lia. Qed.

Lemma total_size_app l1 l2 : total_size (l1 ++ l2) = total_size l1 + total_size l2.
Proof. unfold total_size. induction l1 as [|x l IH]; simpl; lia. Qed.

Lemma total_size_nonneg l : 0 <= total_size l.
Proof.
  unfold total_size. induction l as [|x l IH]; simpl; [lia|]. pose proof (len_nonneg x). lia.
Qed.

Lemma total_size_elem x l : x ∈ l -> len x <= total_size l.
Proof.
  intros (l1 & l2 & ->)%list_elem_of_split.
  rewrite total_size_app. pose proof (total_size_nonneg l1). pose proof (total_size_nonneg l2).
  unfold total_size in *. simpl. lia.
Qed.

Lemma take_last {A} (l : list A) x : last l = Some x -> l = take (length l - 1) l ++ [x].
Proof.
  intros (l' & ->)%last_Some. rewrite length_app. simpl.
  rewrite Nat.add_sub, take_app_length. done.
Qed.

Module Stack_proofs.
Import Stack.

Lemma NewStack_ok : stack_ok NewStack.
Proof. done. Qed.

Lemma hasEnoughMemory_spec s n :
  stack_ok s -> 0 <= n < 2 ^ 32 - 1000000 ->
  hasEnoughMemory s n = bool_decide (memoryUsage s + n <= memoryMax s).
Proof.
  intros (Hm & Hu & Hle) Hn. unfold hasEnoughMemory.
  pose proof (total_size_nonneg (elems s)).
  rewrite (wrap_small 32 n), wrap_small by lia.
  destruct (Z.leb_spec (n + memoryUsage s) (memoryMax s)); symmetry;
    [apply bool_decide_eq_true_2|apply bool_decide_eq_false_2]; lia.
Qed.

Lemma Push_inv s x s' e :
  stack_ok s -> pushable x -> Push s x = (s', e) ->
  stack_ok s' /\
  (e = None /\ elems s' = elems s ++ [x] \/ is_Some e /\ s' = s).
Proof.
  intros Hok Hx. unfold Push. pose proof (len_nonneg x).
  rewrite hasEnoughMemory_spec by (auto || (unfold pushable in *; lia)).
  case_bool_decide; intros [= <- <-]; [|by eauto].
  destruct Hok as (Hm & Hu & Hle). pose proof (total_size_nonneg (elems s)).
  unfold pushable in *. rewrite (wrap_small 32 (len x)), wrap_small by lia.
  split; [|by left]. repeat split; simpl; [done| |lia].
  rewrite total_size_app. unfold total_size. simpl. unfold total_size in *. lia.
Qed.

Lemma Push_ok s x :
  stack_ok s -> memoryUsage s + len x <= 1000000 ->
  Push s x = (mkStack (elems s ++ [x]) (memoryUsage s + len x) (memoryMax s), None).
Proof.
  intros Hok Hx. unfold Push. pose proof (len_nonneg x).
  pose proof (total_size_nonneg (elems s)).
  rewrite hasEnoughMemory_spec by (auto || (destruct Hok; lia)).
  destruct Hok as (Hm & Hu & Hle).
  rewrite bool_decide_eq_true_2 by lia.
  by rewrite (wrap_small 32 (len x)), wrap_small by lia.
Qed.

Lemma Pop_inv s s' x e :
  stack_ok s -> Pop s = (s', (x, e)) ->
  stack_ok s' /\
  (e = None /\ elems s = elems s' ++ [x] \/ is_Some e /\ s' = s /\ x = nil_slice /\ elems s = []).
Proof.
  intros Hok. unfold Pop. destruct (last (elems s)) as [y|] eqn:E.
  - intros [= <- <- <-]. apply take_last in E.
    destruct Hok as (Hm & Hu & Hle). rewrite E, total_size_app in Hu.
    unfold total_size in Hu at 2. simpl in Hu.
    pose proof (total_size_nonneg (take (length (elems s) - 1) (elems s))).
    pose proof (len_nonneg y).
    rewrite (wrap_small 32 (len y)), wrap_small by lia.
    split; [|by left]. repeat split; simpl; lia.
  - intros [= <- <- <-]. apply last_None in E. eauto 10.
Qed.

Lemma PopIndexAt_inv s i s' x e :
  stack_ok s -> PopIndexAt s i = Some (s', (x, e)) ->
  stack_ok s' /\
  (e = None /\ 0 <= i < GetLength s /\
     elems s = take (Z.to_nat i) (elems s) ++ [x] ++ drop (Z.to_nat i + 1) (elems s) /\
     elems s' = take (Z.to_nat i) (elems s) ++ drop (Z.to_nat i + 1) (elems s)
   \/ is_Some e /\ s' = s /\ x = nil_slice).
Proof.
  intros Hok. unfold PopIndexAt. destruct (Z.leb_spec i (GetLength s)) as [Hi|].
  - destruct (Z.leb_spec 0 i); [|done].
    destruct (elems s !! Z.to_nat i) as [y|] eqn:E; simpl; [|done].
    intros [= <- <- <-]. pose proof (lookup_lt_Some _ _ _ E).
    apply take_drop_middle in E. replace (S (Z.to_nat i)) with (Z.to_nat i + 1)%nat in E by lia.
    destruct Hok as (Hm & Hu & Hle). rewrite <-E, total_size_app in Hu.
    change (y :: ?l) with ([y] ++ l) in Hu. rewrite total_size_app in Hu.
    unfold total_size in Hu at 2. simpl in Hu.
    pose proof (total_size_nonneg (take (Z.to_nat i) (elems s))).
    pose proof (total_size_nonneg (drop (Z.to_nat i + 1) (elems s))).
    pose proof (len_nonneg y).
    rewrite (wrap_small 32 (len y)), wrap_small by lia.
    split; [repeat split; simpl; rewrite ?total_size_app; lia|].
    left. unfold GetLength. repeat split; [lia|lia|done..].
  - intros [= <- <- <-]. eauto 10.
Qed.
End Stack_proofs.

(** ** Functional behaviour *)

(** Pushing and popping are inverse: the element comes back, and the stack,
    its memory counter included, is the one before. *)
Lemma Pop_Push_raw s x :
  stack_ok s -> memoryUsage s + len x <= 1000000 ->
  Stack.Pop (Stack.Push s x).1 = (s, (x, None)).
Proof.
  intros Hok Hx. rewrite Stack_proofs.Push_ok by done. unfold Stack.Pop. simpl.
  rewrite last_snoc, length_app, Nat.add_sub, take_app_length.
  destruct Hok as (? & ? & ?). pose proof (total_size_nonneg (elems s)).
  pose proof (len_nonneg x).
  rewrite (wrap_small 32 (len x)), wrap_small by lia.
  destruct s as [l u m]; simpl in *. do 2 f_equal. lia.
Qed.
