(* ===== verification/VMArray.v ===== *)
(** * vm/array.go: arrays of byte strings encoded in one byte slice

    An array is a slice [0x02 | size (uint16, little endian) | elements], each
    element preceded by its uint16 length.  The operations work on the encoding
    in place or on fresh copies; every index into the bytes is a uint16. *)

From S2P Require Import Prelude GoSlice VMUtils.

Module Array.
Section operations.
Context `{!GoRuntime}.

Definition NewArray : M heap slice :=
  ba ← slice_lit [Byte.x02];
  size ← slice_lit [Byte.x00; Byte.x00];
  append_slice ba size.

Definition ArrayFromByteArray (arr : slice) : M heap (slice * error) :=
  if len arr =? 0 then mret (nil_slice, Some "not a valid array")
  else
    b ← index arr 0;
    if bool_decide (b <> Byte.x02) then mret (nil_slice, Some "not a valid array")
    else mret (arr, None).

Definition getSize (a : slice) : M heap (Z * error) :=
  if len a <? 3 then mret (0, Some "not a valid array")
  else
    sz ← of_option (reslice a 1 3);
    bs ← read sz;
    match ByteArrayToUI16 bs with
    | (_, Some _) => mret (0, Some "cannot get size of array")
    | (value, None) => mret (value, None)
    end.

Definition setSize (a : slice) (ba : bytes) : M heap unit :=
  b0 ← of_option (ba !! 0%nat);
  set_index a 1 b0;;
  b1 ← of_option (ba !! 1%nat);
  set_index a 2 b1.

Definition IncrementSize (a : slice) : M heap error :=
  '(s, err) ← getSize a;
  match err with
  | Some _ => mret (Some "could not increase size")
  | None => setSize a (UInt16ToByteArray (u16 (s + 1)));; mret None
  end.

Definition DecrementSize (a : slice) : M heap error :=
  '(s, err) ← getSize a;
  match err with
  | Some _ => mret err
  | None =>
      if s <=? 0 then mret (Some "Array size is already 0")
      else setSize a (UInt16ToByteArray (u16 (s - 1)));; mret None
  end.

(** The callbacks of [goToIndex]: they get the array, the byte offset and the
    size of the element, and return the new value of [*a] with their result. *)
Definition action : Type := slice -> Z -> Z -> M heap (slice * (slice * error)).

(** The loop of [goToIndex], with [n] the number of iterations left before
    [currentElement] reaches [index] (it is incremented by one each time, so
    the loop runs at most [index + 1] times). *)
Fixpoint walk (n : nat) (a : slice) (f : action) (index indexOnByteArray currentElement : Z)
  : M heap (slice * (slice * error)) :=
  if (indexOnByteArray <? u16 (len a)) && (currentElement <=? index) then
    sz ← of_option (reslice a indexOnByteArray (u16 (indexOnByteArray + 2)));
    bs ← read sz;
    match ByteArrayToUI16 bs with
    | (_, Some e) => mret (a, (nil_slice, Some e))
    | (elementSize, None) =>
        if currentElement =? index then f a indexOnByteArray elementSize
        else
          match n with
          | O => timeout
          | S n' => walk n' a f index (u16 (indexOnByteArray + u16 (2 + elementSize)))
                         (u16 (currentElement + 1))
          end
    end
  else mret (a, (nil_slice, Some "array internals error")).

Definition goToIndex (a : slice) (index : Z) (f : action) : M heap (slice * (slice * error)) :=
  '(size, err) ← getSize a;
  match err with
  | Some e => mret (a, (nil_slice, Some e))
  | None =>
      if size <? index then mret (a, (nil_slice, Some "array index out of bounds"))
      else walk (Z.to_nat index) a f index 3 0
  end.

Definition at_action : action := fun array i s =>
  el ← of_option (reslice array (u16 (i + 2)) (u16 (u16 (i + 2) + s)));
  mret (array, (el, None)).

Definition At (a : slice) (index : Z) : M heap (slice * error) :=
  '(_, r) ← goToIndex a index at_action; mret r.

Definition Append (a ba : slice) : M heap (slice * error) :=
  if UINT16_MAX <? len ba then mret (a, Some "Element Size overflow")
  else
    sb ← slice_lit (UInt16ToByteArray (u16 (len ba)));
    el ← append_slice sb ba;
    a' ← append_slice a el;
    err ← IncrementSize a';
    mret (a', err).

Definition remove_action : action := fun a k s =>
  before ← of_option (reslice a 0 k);
  tmp ← append_slice nil_slice before;
  after ← of_option (reslice a (u16 (u16 (k + 2) + s)) (len a));
  a' ← append_slice tmp after;
  mret (a', (nil_slice, None)).

Definition Remove (a : slice) (index : Z) : M heap (slice * error) :=
  '(a, (_, err)) ← goToIndex a index remove_action;
  match err with
  | Some _ => mret (a, err)
  | None => err ← DecrementSize a; mret (a, err)
  end.

Definition insert_action (element : slice) : action := fun a i s =>
  before ← of_option (reslice a 0 i);
  tmp ← append_slice nil_slice before;
  '(tmp, _) ← Append tmp element;
  after ← of_option (reslice a i (len a));
  a' ← append_slice tmp after;
  mret (a', (nil_slice, None)).

Definition Insert (a : slice) (index : Z) (element : slice) : M heap (slice * error) :=
  '(a, err) ← Remove a index;
  match err with
  | Some _ => mret (a, err)
  | None => '(a, (_, err)) ← goToIndex a index (insert_action element); mret (a, err)
  end.
End operations.
End Array.

(** ** The abstract array: a list of byte strings *)

Definition enc_array (els : list bytes) : bytes :=
  Byte.x02 :: le_bytes 2 (Z.of_nat (length els)) ++ enc_elems els.

(** The slice [a] holds the encoding of the list [els]. *)
Definition array_repr (h : heap) (a : slice) (els : list bytes) : Prop :=
  wf_slice h a /\ contents h a = enc_array els /\
  Forall (fun e => Z.of_nat (length e) <= UINT16_MAX) els /\
  Z.of_nat (length els) <= UINT16_MAX.

(** The encoding fits in the uint16 offsets of the implementation. *)
Definition array_fits (els : list bytes) : Prop := Z.of_nat (length (enc_array els)) <= UINT16_MAX.

Lemma length_enc_array els : length (enc_array els) = (3 + length (enc_elems els))%nat.
Proof. unfold enc_array. cbn [length]. rewrite length_app, length_le_bytes. lia. Qed.

Lemma array_repr_len h a els :
  array_repr h a els -> len a = 3 + Z.of_nat (length (enc_elems els)).
Proof.
  intros (Hwf & Hc & _). unfold len. rewrite <-(contents_length h a Hwf), Hc, length_enc_array. lia.
Qed.

(** The encoding around the element at [i]. *)
Definition enc_before (els : list bytes) (i : nat) : bytes :=
  Byte.x02 :: le_bytes 2 (Z.of_nat (length els)) ++ enc_elems (take i els).

Lemma enc_array_split els i e :
  els !! i = Some e ->
  enc_array els = enc_before els i ++ le_bytes 2 (Z.of_nat (length e)) ++ e ++ enc_elems (drop (S i) els).
Proof.
  intros Hi. unfold enc_array, enc_before. rewrite <-(take_drop_middle els i e Hi) at 2.
  rewrite enc_elems_app, enc_elems_cons. cbn [app]. by rewrite <-!app_assoc.
Qed.

Lemma length_enc_before els i : length (enc_before els i) = (3 + length (enc_elems (take i els)))%nat.
Proof. unfold enc_before. cbn [length]. rewrite length_app, length_le_bytes. lia. Qed.

Lemma enc_before_all els i : (length els <= i)%nat -> enc_before els i = enc_array els.
Proof. intros. unfold enc_before, enc_array. by rewrite take_ge. Qed.

Lemma length_enc_before_S els i e :
  els !! i = Some e ->
  length (enc_before els (S i)) = (length (enc_before els i) + 2 + length e)%nat.
Proof.
  intros Hi. rewrite !length_enc_before, (take_S_r els i e Hi), enc_elems_app, enc_elems_cons.
  rewrite !length_app, length_le_bytes. simpl. lia.
Qed.

Lemma length_enc_before_le els i : (length (enc_before els i) <= length (enc_array els))%nat.
Proof.
  rewrite length_enc_before, length_enc_array.
  rewrite <-(take_drop i els) at 2. rewrite enc_elems_app, length_app. lia.
Qed.

(** ** Refinement: each operation on the encoding implements the list operation *)

Module Array_proofs.
Import Array.
Section proofs.
Context `{!GoRuntime}.
Implicit Types (h : heap) (a : slice) (els : list bytes).

Lemma ArraygetSize_spec h a els (Q : Z * error -> heap -> Prop) :
  array_repr h a els -> Q (Z.of_nat (length els), None) h -> wp (getSize a) h Q.
Proof.
  intros Hr HQ. pose proof (array_repr_len _ _ _ Hr). destruct Hr as (Hwf & Hc & _ & Hn).
  unfold getSize. destruct (Z.ltb_spec (len a) 3); [lia|].
  apply wp_bind, reslice_spec; [done|lia|lia|]. intros t _ _ _ _ Ht.
  apply wp_bind, read_spec. rewrite Ht, Hc.
  change (Z.to_nat 1) with 1%nat. change (Z.to_nat (3 - 1)) with 2%nat.
  change (enc_array els)
    with ([Byte.x02] ++ UInt16ToByteArray (Z.of_nat (length els)) ++ enc_elems els).
  rewrite sublist_mid by done.
  rewrite ByteArrayToUI16_roundtrip by (unfold UINT16_MAX, is_u16 in *; lia).
  done.
Qed.

(** The two bytes at an element boundary are the length of that element. *)
Lemma element_size h a els i e :
  array_repr h a els -> els !! i = Some e ->
  sublist (length (enc_before els i)) 2 (contents h a) = UInt16ToByteArray (Z.of_nat (length e)) /\
  Z.of_nat (length e) <= UINT16_MAX.
Proof.
  intros (_ & Hc & Hall & _) Hi. rewrite Hc, (enc_array_split els i e Hi). split.
  - by apply sublist_mid.
  - by apply (Forall_lookup_1 _ _ _ _ Hall Hi).
Qed.

Lemma enc_before_bound els i e :
  els !! i = Some e ->
  (length (enc_before els i) + 2 + length e <= length (enc_array els))%nat.
Proof.
  intros Hi. rewrite <-(length_enc_before_S els i e Hi). apply length_enc_before_le.
Qed.

(** One iteration of the loop at an element boundary: the action on the
    wanted element, the next boundary otherwise. *)
Lemma walk_iter n h a els cur i e f (Q : _ -> heap -> Prop) :
  array_repr h a els -> array_fits els -> els !! cur = Some e -> (cur <= i)%nat ->
  wp (if decide (cur = i) then f a (Z.of_nat (length (enc_before els cur))) (Z.of_nat (length e))
      else match n with
           | O => timeout
           | S n' => walk n' a f (Z.of_nat i) (Z.of_nat (length (enc_before els (S cur))))
                          (Z.of_nat (S cur))
           end) h Q ->
  wp (walk n a f (Z.of_nat i) (Z.of_nat (length (enc_before els cur))) (Z.of_nat cur)) h Q.
Proof.
  intros Hr Hfit He Hi HQ. pose proof (array_repr_len _ _ _ Hr) as Hlen.
  pose proof (enc_before_bound els cur e He) as Hb.
  destruct (element_size h a els cur e Hr He) as [Hsz Hxl].
  unfold array_fits, UINT16_MAX in *. rewrite length_enc_array in *.
  pose proof (lookup_lt_Some _ _ _ He) as Hcur.
  assert (Hn : Z.of_nat (length els) <= 65535) by apply Hr.
  pose proof (length_enc_before_S els cur e He) as HS.
  set (off := length (enc_before els cur)) in *.
  replace (walk n) with (walk n) by done. destruct n as [|n]; cbn [walk].
  all: rewrite (wrap_small 16 (len a)) by lia.
  all: rewrite (proj2 (Z.ltb_lt _ _)) by lia; rewrite (proj2 (Z.leb_le _ _)) by lia.
  all: cbn [andb]; cbv iota; rewrite (wrap_small 16 (Z.of_nat off + 2)) by lia.
  all: apply wp_bind, reslice_spec; [apply Hr|lia|lia|]; intros t _ _ _ _ Ht.
  all: apply wp_bind, read_spec; rewrite Ht.
  all: replace (Z.to_nat (_ + 2 - _)) with 2%nat by lia; rewrite Nat2Z.id, Hsz.
  all: rewrite ByteArrayToUI16_roundtrip by (unfold is_u16; lia).
  all: case_decide; [rewrite (proj2 (Z.eqb_eq _ _)) by lia; done|].
  all: rewrite (proj2 (Z.eqb_neq _ _)) by lia; try done.
  rewrite (wrap_small 16 (2 + _)), !(wrap_small 16) by lia.
  by replace (Z.of_nat off + (2 + Z.of_nat (length e)))
    with (Z.of_nat (length (enc_before els (S cur)))) by lia;
  replace (Z.of_nat cur + 1) with (Z.of_nat (S cur)) by lia.
Qed.

Lemma walk_reach n h a els (cur : nat) e f (Q : _ -> heap -> Prop) :
  array_repr h a els -> array_fits els -> els !! (cur + n)%nat = Some e ->
  wp (f a (Z.of_nat (length (enc_before els (cur + n)))) (Z.of_nat (length e))) h Q ->
  wp (walk n a f (Z.of_nat (cur + n)) (Z.of_nat (length (enc_before els cur))) (Z.of_nat cur)) h Q.
Proof.
  intros Hr Hfit. revert cur. induction n as [|n IH]; intros cur He HQ.
  - rewrite Nat.add_0_r in *. eapply walk_iter; [done..|]. by rewrite decide_True.
  - assert (exists x, els !! cur = Some x) as [x Hx]
      by (apply lookup_lt_is_Some; apply lookup_lt_Some in He; lia).
    eapply walk_iter; [done..|lia|]. rewrite decide_False by lia.
    rewrite <-Nat.add_succ_comm in *. by apply IH.
Qed.

(** Past the last element the loop ends with an error. *)
Lemma walk_end n h a els (cur : nat) f (Q : _ -> heap -> Prop) :
  array_repr h a els -> array_fits els -> length els = (cur + n)%nat ->
  Q (a, (nil_slice, Some "array internals error")) h ->
  wp (walk n a f (Z.of_nat (cur + n)) (Z.of_nat (length (enc_before els cur))) (Z.of_nat cur)) h Q.
Proof.
  intros Hr Hfit. revert cur. induction n as [|n IH]; intros cur He HQ.
  - cbn [walk]. pose proof (array_repr_len _ _ _ Hr) as Hlen. unfold array_fits, UINT16_MAX in *.
    rewrite enc_before_all, length_enc_array in * by lia.
    rewrite (wrap_small 16) by lia. by rewrite (proj2 (Z.ltb_ge _ _)) by lia.
  - assert (exists x, els !! cur = Some x) as [x Hx] by (apply lookup_lt_is_Some; lia).
    eapply walk_iter; [done..|lia|]. rewrite decide_False by lia.
    rewrite <-Nat.add_succ_comm in *. by apply IH.
Qed.

(** [goToIndex] calls the action at the element [index], with its offset
    and size, whenever there is such an element. *)
Lemma goToIndex_spec h a els i e f (Q : _ -> heap -> Prop) :
  array_repr h a els -> array_fits els -> els !! i = Some e ->
  wp (f a (Z.of_nat (length (enc_before els i))) (Z.of_nat (length e))) h Q ->
  wp (goToIndex a (Z.of_nat i) f) h Q.
Proof.
  intros Hr Hfit He HQ. unfold goToIndex. apply wp_bind, (ArraygetSize_spec _ _ _ _ Hr).
  pose proof (lookup_lt_Some _ _ _ He).
  rewrite (proj2 (Z.ltb_ge _ _)) by lia. rewrite Nat2Z.id.
  change 0 with (Z.of_nat 0). change 3 with (Z.of_nat (length (enc_before els 0))).
  by apply (walk_reach i h a els 0%nat e).
Qed.

(** At the index one past the end the size check passes, and the loop
    reports the error. *)
Lemma goToIndex_end h a els f (Q : _ -> heap -> Prop) :
  array_repr h a els -> array_fits els ->
  Q (a, (nil_slice, Some "array internals error")) h ->
  wp (goToIndex a (Z.of_nat (length els)) f) h Q.
Proof.
  intros Hr Hfit HQ. unfold goToIndex. apply wp_bind, (ArraygetSize_spec _ _ _ _ Hr).
  rewrite (proj2 (Z.ltb_ge _ _)) by lia. rewrite Nat2Z.id.
  change 0 with (Z.of_nat 0). change 3 with (Z.of_nat (length (enc_before els 0))).
  by apply (walk_end (length els) h a els 0%nat).
Qed.

Lemma ArraysetSize_spec h a n m rest (Q : error -> heap -> Prop) :
  wf_slice h a -> contents h a = Byte.x02 :: le_bytes 2 n ++ rest ->
  (forall h', heap_le h h' -> wf_slice h' a ->
     contents h' a = Byte.x02 :: le_bytes 2 m ++ rest ->
     (forall h0, h0 `prefix_of` h -> fresh h0 a -> h0 `prefix_of` h') -> Q None h') ->
  wp (setSize a (UInt16ToByteArray m);; mret None) h Q.
Proof.
  intros Hwf Hc HQ. apply wp_bind. eapply write_size_spec; [done..|].
  intros. by apply wp_ret, HQ.
Qed.

(** The size of a slice that starts like an array. *)
Lemma header_size h a n rest (Q : Z * error -> heap -> Prop) :
  wf_slice h a -> contents h a = Byte.x02 :: le_bytes 2 n ++ rest -> is_u16 n ->
  Q (n, None) h -> wp (getSize a) h Q.
Proof.
  intros Hwf Hc Hn HQ.
  assert (3 <= len a) by (unfold len; rewrite <-(contents_length h a Hwf), Hc; simpl; lia).
  unfold getSize. destruct (Z.ltb_spec (len a) 3); [lia|].
  eapply read_size_spec; [done..|]. by rewrite ByteArrayToUI16_roundtrip.
Qed.

(** [Append] on anything with an array header: the element goes to the end
    and the size goes up by one, modulo 2^16. *)
Lemma Append_raw_spec h a ba n rest (Q : slice * error -> heap -> Prop) :
  wf_slice h a -> wf_slice h ba -> len ba <= UINT16_MAX -> is_u16 n ->
  contents h a = Byte.x02 :: le_bytes 2 n ++ rest ->
  (forall a' h', heap_le h h' -> wf_slice h' a' ->
     contents h' a' = Byte.x02 :: le_bytes 2 (u16 (n + 1)) ++ rest ++ enc_elem (contents h ba) ->
     (forall h0, h0 `prefix_of` h -> fresh h0 a -> h0 `prefix_of` h') -> Q (a', None) h') ->
  wp (Append a ba) h Q.
Proof.
  intros Hwf Hba Hlen Hn Hc HQ. unfold Append, UINT16_MAX in *.
  destruct (Z.ltb_spec 65535 (len ba)); [lia|].
  assert (len ba = Z.of_nat (length (contents h ba))) as El
    by (unfold len; by rewrite contents_length).
  rewrite El in *. rewrite (wrap_small 16) by lia.
  apply wp_bind, (alloc_fresh_spec _ _ h h); [done|]. intros sb h1 Hwf1 Hc1 Hle1 _ Hf1.
  apply wp_bind, wp_bind, read_spec.
  apply (append_fresh_spec h); [done..|]. intros el h2 Hwf2 Hc2 Hle2 _ _.
  rewrite Hc1, (contents_prefix h h1) in Hc2 by done.
  apply wp_bind, append_slice_spec.
  { by eapply wf_slice_le; [apply prefix_heap_le|]. }
  intros a' h3 Hwf3 Hc3 _ Hle3 Hsh3 _.
  rewrite (contents_prefix h h2 a), Hc, Hc2 in Hc3 by done.
  apply wp_bind. unfold IncrementSize.
  eapply wp_bind, header_size; [done|exact Hc3|done|].
  eapply ArraysetSize_spec; [done|exact Hc3|]. intros h4 Hle4 Hwf4 Hc4 Hp4.
  apply HQ; [|done| |].
  - etrans; [by apply prefix_heap_le|]. by etrans.
  - by rewrite Hc4.
  - intros h0 Hp0 Hf0. destruct (append_shape_prefix h0 h2 a a' h3) as [? ?]; [by etrans|done..|].
    by apply Hp4.
Qed.

Lemma ArrayAppend_spec h a ba els (Q : slice * error -> heap -> Prop) :
  array_repr h a els -> wf_slice h ba -> len ba <= UINT16_MAX ->
  Z.of_nat (length els) < UINT16_MAX ->
  (forall a' h', heap_le h h' -> array_repr h' a' (els ++ [contents h ba]) -> Q (a', None) h') ->
  wp (Append a ba) h Q.
Proof.
  unfold UINT16_MAX in *.
  intros (Hwf & Hc & Hall & Hn) Hba Hlen Hlt HQ.
  eapply Append_raw_spec; [done..| |exact Hc|].
  { unfold is_u16. lia. }
  intros a' h' Hle Hwf' Hc' _. apply HQ; [done|]. unfold array_repr, UINT16_MAX.
  split; [done|]. split; [|split].
  - rewrite Hc', wrap_small by lia. unfold enc_array.
    rewrite enc_elems_app, length_app. unfold enc_elems at 3. simpl.
    by rewrite app_nil_r, Nat2Z.inj_add.
  - apply Forall_app; split; [done|]. constructor; [|done].
    unfold len in Hlen. by rewrite contents_length.
  - rewrite length_app. simpl. lia.
Qed.

Lemma At_spec h a els i e (Q : slice * error -> heap -> Prop) :
  array_repr h a els -> array_fits els -> els !! i = Some e ->
  (forall s, wf_slice h s -> contents h s = e -> Q (s, None) h) ->
  wp (At a (Z.of_nat i)) h Q.
Proof.
  intros Hr Hfit He HQ. unfold At. apply wp_bind. eapply goToIndex_spec; [done..|].
  pose proof (enc_before_bound els i e He). pose proof (array_repr_len _ _ _ Hr).
  unfold array_fits, UINT16_MAX in *. rewrite length_enc_array in *.
  unfold at_action. rewrite (wrap_small 16 (_ + 2)), (wrap_small 16) by lia.
  apply wp_bind, reslice_spec; [apply Hr|lia|lia|]. intros t Hwf _ _ _ Ht.
  apply wp_ret, wp_ret, HQ; [done|]. rewrite Ht.
  destruct Hr as (_ & -> & _). rewrite (enc_array_split els i e He).
  rewrite app_assoc. apply sublist_mid; rewrite ?length_app, ?length_le_bytes; lia.
Qed.

(** What [remove_action] leaves: the header still has the old size. *)
Lemma ArrayRemove_spec h a els i e (Q : slice * error -> heap -> Prop) :
  array_repr h a els -> array_fits els -> els !! i = Some e ->
  (forall a' h', h `prefix_of` h' -> fresh h a' -> array_repr h' a' (delete i els) ->
     Q (a', None) h') ->
  wp (Remove a (Z.of_nat i)) h Q.
Proof.
  intros Hr Hfit He HQ. unfold Remove. apply wp_bind. eapply goToIndex_spec; [done..|].
  pose proof (enc_before_bound els i e He). pose proof (array_repr_len _ _ _ Hr) as Hlen.
  pose proof (lookup_lt_Some _ _ _ He) as Hi.
  unfold array_fits, UINT16_MAX in *. rewrite length_enc_array in *.
  destruct Hr as (Hwf & Hc & Hall & Hn). unfold UINT16_MAX in *. rewrite (enc_array_split els i e He) in Hc.
  unfold remove_action. rewrite (wrap_small 16 (_ + 2)), (wrap_small 16) by lia.
  rewrite (app_assoc (le_bytes _ _)) in Hc.
  eapply cut_spec; [done|exact Hc|done|rewrite length_app, length_le_bytes; lia|].
  intros a' h2 Hwf2 Hc2 Hp2 Hf2. apply wp_ret. apply wp_bind. unfold DecrementSize.
  unfold enc_before in Hc2.
  rewrite <-app_comm_cons, <-app_assoc, <-enc_elems_app, <-delete_take_drop in Hc2.
  eapply wp_bind, header_size; [done|exact Hc2|unfold is_u16; lia|].
  rewrite (proj2 (Z.leb_gt _ _)) by lia. rewrite (wrap_small 16) by lia.
  eapply ArraysetSize_spec; [done|exact Hc2|]. intros h3 Hle3 Hwf3 Hc3 Hp3.
  apply wp_ret, HQ; [by apply Hp3|done|].
  - unfold array_repr, UINT16_MAX. rewrite Hc3. pose proof (length_delete els i ltac:(eauto)).
    split; [done|]. split; [|split; [by apply Forall_delete|lia]].
    unfold enc_array. do 2 f_equal. f_equal. lia.
Qed.

Lemma contents_slice_end h a (t : slice) pre post lo hi :
  contents h t = sublist (Z.to_nat lo) (Z.to_nat (hi - lo)) (contents h a) ->
  contents h a = pre ++ post -> Z.to_nat lo = length pre -> Z.to_nat hi = length (pre ++ post) ->
  0 <= lo <= hi -> contents h t = post.
Proof.
  intros -> -> Hlo Hhi ?. rewrite length_app in Hhi. apply sublist_suffix; lia.
Qed.

(** [Insert] below the last index replaces the element: the old one is
    removed first, the new one goes before what follows it. *)
Lemma Insert_spec h a els i element (Q : slice * error -> heap -> Prop) :
  array_repr h a els -> array_fits els -> wf_slice h element -> len element <= UINT16_MAX ->
  (S i < length els)%nat ->
  (forall a' h', heap_le h h' -> array_repr h' a' (<[i := contents h element]> els) ->
     Q (a', None) h') ->
  wp (Insert a (Z.of_nat i) element) h Q.
Proof.
  intros Hr Hfit Hel Hlel Hi HQ.
  destruct (lookup_lt_is_Some_2 els i) as [e He]; [lia|].
  destruct (lookup_lt_is_Some_2 els (S i)) as [e' He']; [lia|].
  unfold Insert. eapply wp_bind, ArrayRemove_spec; [done..|]. intros a1 h1 Hp1 Hf1 Hr1.
  assert (Hfit1 : array_fits (delete i els)).
  { unfold array_fits in *. rewrite length_enc_array in *.
    pose proof (length_enc_elems_delete els i e He). lia. }
  assert (He1 : delete i els !! i = Some e').
  { rewrite list_lookup_delete_ge; [done|lia]. }
  pose proof (enc_before_bound _ i e' He1). pose proof (array_repr_len _ _ _ Hr1) as Hlen.
  pose proof (lookup_lt_Some _ _ _ He1) as Hi1.
  pose proof (enc_array_split _ i e' He1) as Hsplit.
  rewrite length_enc_array in *.
  eapply wp_bind, goToIndex_spec; [done..|]. unfold insert_action.
  destruct Hr1 as (Hwf1 & Hc1 & Hall1 & Hn1).
  apply wp_bind, reslice_spec; [done|lia|lia|]. intros pre Hwfp _ _ _ Hpre.
  apply wp_bind, wp_bind, read_spec, (append_fresh_spec h1); [done|apply fresh_nil|apply wf_nil|].
  intros tmp h2 Hwf2 Hc2 Hp2 Hf2 _.
  rewrite contents_nil, app_nil_l, Hpre, Hc1, Hsplit in Hc2.
  rewrite sublist_prefix in Hc2 by (change (Z.to_nat 0) with 0%nat; lia).
  assert (Hel2 : wf_slice h2 element /\ contents h2 element = contents h element).
  { assert (h `prefix_of` h2) by by etrans.
    split; [by eapply wf_slice_le; [apply prefix_heap_le|]|by apply contents_prefix]. }
  destruct Hel2 as [Hel2 Hcel2].
  apply wp_bind.
  unfold len in Hlel. rewrite <-(contents_length h2 element), Hcel2 in Hlel by done.
  eapply Append_raw_spec; [done|done| | |exact Hc2|].
  { unfold len. by rewrite <-(contents_length h2 element), Hcel2 by done. }
  { unfold is_u16, UINT16_MAX in *. lia. }
  intros tmp' h3 Hle3 Hwf3 Hc3 Hp3.
  assert (h1 `prefix_of` h3) as Hp13 by by apply Hp3.
  apply wp_bind, reslice_spec; [by eapply wf_slice_le; [apply prefix_heap_le|]|lia|lia|].
  intros post Hwfq _ _ _ Hpost.
  eapply contents_slice_end in Hpost; [|by rewrite (contents_prefix h1 h3), Hc1|lia| |lia];
    [|rewrite <-Hsplit, length_enc_array; lia].
  apply wp_bind, append_slice_spec; [done|]. intros a4 h4 Hwf4 Hc4 _ Hle4 _ _.
  apply wp_ret, wp_ret, HQ.
  - do 2 (etrans; [by apply prefix_heap_le|]). done.
  - rewrite <-enc_elems_cons, <-(drop_S _ _ _ He1) in Hpost.
    assert (Hdel : delete i els = take i els ++ drop (S i) els) by apply delete_take_drop.
    assert (Htl : length (take i els) = i) by (rewrite length_take; lia).
    assert (drop i (delete i els) = drop (S i) els) as Hd
      by (rewrite Hdel; by apply drop_app_length').
    assert (take i (delete i els) = take i els) as Ht
      by (rewrite Hdel; by apply take_app_length').
    assert (Hld : length (delete i els) = (length els - 1)%nat)
      by (apply length_delete; eauto).
    assert (Hnl : Z.of_nat (length els) <= UINT16_MAX) by apply Hr.
    rewrite Hc3, Hpost, Hd, Ht, Hcel2, (wrap_small 16) in Hc4 by (unfold UINT16_MAX in *; lia).
    split; [done|]. rewrite length_insert. split; [|split; [|destruct Hr; naive_solver]].
    + rewrite Hc4. unfold enc_array. rewrite length_insert, insert_take_drop by lia.
      rewrite enc_elems_app, enc_elems_cons. unfold enc_elem.
      rewrite Hld, <-app_comm_cons, <-!app_assoc. do 2 f_equal. f_equal. lia.
    + apply Forall_insert; [apply Hr|done].
Qed.

(** At the last index [Insert] fails after it has removed the element. *)
Lemma Insert_last_spec h a els i element (Q : slice * error -> heap -> Prop) :
  array_repr h a els -> array_fits els -> length els = S i ->
  (forall a' h', h `prefix_of` h' -> array_repr h' a' (take i els) ->
     Q (a', Some "array internals error") h') ->
  wp (Insert a (Z.of_nat i) element) h Q.
Proof.
  intros Hr Hfit Hi HQ. destruct (lookup_lt_is_Some_2 els i) as [e He]; [lia|].
  unfold Insert. eapply wp_bind, ArrayRemove_spec; [done..|]. intros a1 h1 Hp1 _ Hr1.
  assert (delete i els = take i els) as Hd.
  { rewrite delete_take_drop, (drop_ge els) by lia. apply app_nil_r. }
  pose proof (length_enc_elems_delete els i e He).
  assert (i = length (delete i els)) as Hl by (rewrite Hd, length_take; lia).
  apply wp_bind. rewrite Hl at 1. apply goToIndex_end; [done| |].
  - unfold array_fits in *. rewrite length_enc_array in *. lia.
  - apply wp_ret, HQ; [done|]. by rewrite <-Hd.
Qed.
End proofs.
End Array_proofs.
