(* ===== verification/VMMap.v ===== *)
(** * vm/map.go: maps of byte strings encoded in one byte slice

    A map is a slice [0x01 | size (uint16, little endian) | entries], an entry
    being a key and a value, each preceded by its uint16 length.  Offsets are Go
    ints here; a slice expression reads up to the capacity, not the length. *)

From S2P Require Import Prelude GoSlice VMUtils.

Module Map.
Section operations.
Context `{!GoRuntime}.

Definition NewMap : M heap slice := slice_lit [Byte.x01; Byte.x00; Byte.x00].

Definition MapFromByteArray (m : slice) : M heap (slice * error) :=
  if len m <=? 0 then mret (nil_slice, Some "empty map")
  else
    b ← index m 0;
    if bool_decide (b <> Byte.x01) then mret (nil_slice, Some "invalid datatype supplied")
    else mret (m, None).

Definition getSize (m : slice) : M heap (Z * error) :=
  sz ← of_option (reslice m 1 3);
  bs ← read sz;
  match ByteArrayToUI16 bs with
  | (_, Some _) => mret (0, Some "cannot get size of map")
  | (value, None) => mret (value, None)
  end.

Definition setSize (m : slice) (ba : bytes) : M heap unit :=
  b0 ← of_option (ba !! 0%nat);
  set_index m 1 b0;;
  b1 ← of_option (ba !! 1%nat);
  set_index m 2 b1.

(** [log.Fatal] ends the process. *)
Definition IncrementSize (m : slice) : M heap unit :=
  '(s, err) ← getSize m;
  match err with
  | Some _ => panic
  | None => setSize m (UInt16ToByteArray (u16 (s + 1)))
  end.

Definition DecrementSize (m : slice) : M heap error :=
  '(s, err) ← getSize m;
  match err with
  | Some _ => panic
  | None =>
      if s <=? 0 then mret (Some "Map size already 0")
      else setSize m (UInt16ToByteArray (u16 (s - 1)));; mret None
  end.

Definition getElementSize (m : slice) (index : Z) : M heap (Z * error) :=
  sz ← of_option (reslice m index (index + 2));
  bs ← read sz;
  mret (ByteArrayToUI16 bs).

Definition nextElementStartsAt (index elementSize : Z) : Z := index + 2 + elementSize.

Definition getBytesOfElement (m : slice) (startsAt endsBefore : Z) : M heap (slice * error) :=
  if endsBefore <=? startsAt then mret (nil_slice, Some "can't retrieve element")
  else if (len m <? startsAt + 2) || (len m <? endsBefore) then
    mret (nil_slice, Some "map internals error")
  else
    el ← of_option (reslice m (startsAt + 2) endsBefore);
    mret (el, None).

Definition getElement (m : slice) (startsAt : Z) : M heap (slice * Z * error) :=
  '(size, err) ← getElementSize m startsAt;
  match err with
  | Some _ => mret (nil_slice, 0, err)
  | None =>
      let endsBefore := nextElementStartsAt startsAt size in
      '(element, err) ← getBytesOfElement m startsAt endsBefore;
      match err with
      | Some _ => mret (nil_slice, 0, err)
      | None => mret (element, endsBefore, None)
      end
  end.

(** The error of [getElement] is overwritten by that of [getElementSize]:
    on a malformed map the search goes on from offset 0. *)
Fixpoint MapContainsKey_loop (fuel : nat) (m : slice) (key : bytes) (index : Z)
  : M heap (bool * error) :=
  if index <? len m then
    if len m =? 3 then mret (false, None)
    else
      '(k, keyEndsBefore, _) ← getElement m index;
      '(sizeOfValue, err) ← getElementSize m keyEndsBefore;
      match err with
      | Some _ => mret (false, err)
      | None =>
          k ← read k;
          if bool_decide (key = k) then mret (true, None)
          else
            let valueEndsBefore := nextElementStartsAt keyEndsBefore sizeOfValue in
            if index =? valueEndsBefore then mret (false, Some "element sizes are 0")
            else
              match fuel with
              | O => timeout
              | S fuel => MapContainsKey_loop fuel m key valueEndsBefore
              end
      end
  else mret (false, None).

Definition MapContainsKey (fuel : nat) (m key : slice) : M heap (bool * error) :=
  k ← read key; MapContainsKey_loop fuel m k 3.

Definition Append (m key value : slice) : M heap (slice * error) :=
  if (UINT16_MAX <? len key) || (UINT16_MAX <? len value) then
    mret (m, Some "key or value size overflows uint16")
  else
    tmp ← append m (UInt16ToByteArray (u16 (len key)));
    tmp ← append_slice tmp key;
    tmp ← append tmp (UInt16ToByteArray (u16 (len value)));
    tmp ← append_slice tmp value;
    IncrementSize tmp;;
    mret (tmp, None).

Fixpoint GetVal_loop (fuel : nat) (m : slice) (key : bytes) (index : Z)
  : M heap (slice * error) :=
  if index <? len m then
    if len m =? 3 then mret (nil_slice, Some "no elements in map")
    else
      '(k, valueStartsAt, err) ← getElement m index;
      match err with
      | Some _ => mret (nil_slice, err)
      | None =>
          '(v, next, err) ← getElement m valueStartsAt;
          match err with
          | Some _ => mret (nil_slice, err)
          | None =>
              k ← read k;
              if bool_decide (key = k) then mret (v, None)
              else if index =? next then mret (nil_slice, Some "element sizes are 0")
              else
                match fuel with
                | O => timeout
                | S fuel => GetVal_loop fuel m key next
                end
          end
      end
  else mret (nil_slice, Some "key not found").

(** Each iteration advances by at least four bytes: the length of the map is
    enough fuel. *)
Definition GetVal (m key : slice) : M heap (slice * error) :=
  k ← read key; GetVal_loop (s_len m) m k 3.

Fixpoint Remove_loop (fuel : nat) (m : slice) (key : bytes) (index : Z)
  : M heap (slice * error) :=
  if index <? len m then
    if len m =? 3 then mret (m, Some "no elements in map")
    else
      '(k, keyEndsBefore, err) ← getElement m index;
      match err with
      | Some _ => mret (m, err)
      | None =>
          '(sizeOfValue, err) ← getElementSize m keyEndsBefore;
          match err with
          | Some _ => mret (m, err)
          | None =>
              let valueEndsBefore := nextElementStartsAt keyEndsBefore sizeOfValue in
              k ← read k;
              if bool_decide (key = k) then
                before ← of_option (reslice m 0 index);
                tmp ← append_slice nil_slice before;
                after ← of_option (reslice m valueEndsBefore (len m));
                m' ← append_slice tmp after;
                DecrementSize m';;
                mret (m', None)
              else if index =? valueEndsBefore then mret (m, Some "element sizes are 0")
              else
                match fuel with
                | O => timeout
                | S fuel => Remove_loop fuel m key valueEndsBefore
                end
          end
      end
  else mret (m, Some "key not found").

Definition Remove (m key : slice) : M heap (slice * error) :=
  k ← read key; Remove_loop (s_len m) m k 3.

Definition SetVal (m key value : slice) : M heap (slice * error) :=
  '(m, err) ← Remove m key;
  '(m, _) ← Append m key value;
  mret (m, err).
End operations.
End Map.

(** ** The abstract map: the list of its entries, in order *)

Abbreviation entry := (bytes * bytes)%type.
Definition flat (kvs : list entry) : list bytes := kvs ≫= fun kv => [kv.1; kv.2].
Definition enc_map (kvs : list entry) : bytes :=
  Byte.x01 :: le_bytes 2 (Z.of_nat (length kvs)) ++ enc_elems (flat kvs).

Definition entry_ok (kv : entry) : Prop :=
  Z.of_nat (length kv.1) <= UINT16_MAX /\ Z.of_nat (length kv.2) <= UINT16_MAX.

(** The slice [m] holds the encoding of the entries [kvs]. *)
Definition map_repr (h : heap) (m : slice) (kvs : list entry) : Prop :=
  wf_slice h m /\ contents h m = enc_map kvs /\ Forall entry_ok kvs /\
  Z.of_nat (length kvs) <= UINT16_MAX.

Definition lookup_key (kvs : list entry) (k : bytes) : option (nat * entry) :=
  list_find (fun kv => k = kv.1) kvs.

Lemma flat_app l1 l2 : flat (l1 ++ l2) = flat l1 ++ flat l2.
Proof. apply bind_app. Qed.

Lemma flat_cons kv l : flat (kv :: l) = kv.1 :: kv.2 :: flat l.
Proof. reflexivity. Qed.

(** The bytes before entry [i]. *)
Definition map_before (kvs : list entry) (i : nat) : bytes :=
  Byte.x01 :: le_bytes 2 (Z.of_nat (length kvs)) ++ enc_elems (flat (take i kvs)).

Lemma length_enc_elem e : length (enc_elem e) = (2 + length e)%nat.
Proof. unfold enc_elem. by rewrite length_app, length_le_bytes. Qed.

Lemma enc_elems_cons' e l : enc_elems (e :: l) = enc_elem e ++ enc_elems l.
Proof. reflexivity. Qed.

Lemma enc_map_split kvs i kv :
  kvs !! i = Some kv ->
  enc_map kvs = map_before kvs i ++ enc_elem kv.1 ++ enc_elem kv.2 ++ enc_elems (flat (drop (S i) kvs)).
Proof.
  intros Hi. unfold enc_map, map_before. rewrite <-(take_drop_middle kvs i kv Hi) at 2.
  rewrite flat_app, flat_cons, enc_elems_app, !enc_elems_cons', <-app_comm_cons, <-!app_assoc.
  done.
Qed.

Lemma map_before_S kvs i kv :
  kvs !! i = Some kv -> map_before kvs (S i) = map_before kvs i ++ enc_elem kv.1 ++ enc_elem kv.2.
Proof.
  intros Hi. unfold map_before. rewrite (take_S_r kvs i kv Hi), flat_app, enc_elems_app.
  by rewrite flat_cons, !enc_elems_cons', app_nil_r, <-app_comm_cons, <-!app_assoc.
Qed.

Lemma map_before_all kvs i : (length kvs <= i)%nat -> map_before kvs i = enc_map kvs.
Proof. intros. unfold map_before, enc_map. by rewrite take_ge. Qed.

(** ** Refinement: each operation implements that of the list of entries *)

Module Map_proofs.
Import Map.
Section proofs.
Context `{!GoRuntime}.
Implicit Types (h : heap) (m : slice) (kvs : list entry).

Lemma map_repr_len h m kvs :
  map_repr h m kvs -> len m = Z.of_nat (length (enc_map kvs)).
Proof. intros (Hwf & Hc & _). unfold len. by rewrite <-(contents_length h m Hwf), Hc. Qed.

Lemma length_contents_app h m pre x post :
  wf_slice h m -> contents h m = pre ++ x ++ post ->
  len m = Z.of_nat (length pre + length x + length post).
Proof.
  intros Hwf Hc. unfold len. rewrite <-(contents_length h m Hwf), Hc, !length_app. lia.
Qed.

Lemma getElementSize_spec h m pre e post (Q : Z * error -> heap -> Prop) :
  wf_slice h m -> contents h m = pre ++ enc_elem e ++ post ->
  Z.of_nat (length e) <= UINT16_MAX ->
  Q (Z.of_nat (length e), None) h -> wp (getElementSize m (Z.of_nat (length pre))) h Q.
Proof.
  intros Hwf Hc Hle HQ. pose proof (length_contents_app _ _ _ _ _ Hwf Hc) as Hlen.
  rewrite length_enc_elem in Hlen. unfold getElementSize.
  apply wp_bind, reslice_spec; [done|lia|lia|]. intros t _ _ _ _ Ht.
  apply wp_bind, read_spec, wp_ret. rewrite Ht, Hc. unfold enc_elem. rewrite <-app_assoc.
  rewrite sublist_mid by (rewrite ?length_le_bytes; lia).
  unfold UINT16_MAX in *. by rewrite ByteArrayToUI16_roundtrip by (unfold is_u16; lia).
Qed.

Lemma getElement_spec h m pre e post (Q : slice * Z * error -> heap -> Prop) :
  wf_slice h m -> contents h m = pre ++ enc_elem e ++ post ->
  Z.of_nat (length e) <= UINT16_MAX ->
  (forall s, wf_slice h s -> contents h s = e ->
     Q (s, Z.of_nat (length (pre ++ enc_elem e)), None) h) ->
  wp (getElement m (Z.of_nat (length pre))) h Q.
Proof.
  intros Hwf Hc Hle HQ. pose proof (length_contents_app _ _ _ _ _ Hwf Hc) as Hlen.
  rewrite length_enc_elem in Hlen. unfold getElement.
  eapply wp_bind, getElementSize_spec; [done..|]. unfold getBytesOfElement, nextElementStartsAt.
  rewrite (proj2 (Z.leb_gt _ _)) by lia. rewrite !(proj2 (Z.ltb_ge _ _)) by lia. simpl.
  apply wp_bind, wp_bind, reslice_spec; [done|lia|lia|]. intros t Hwft _ _ _ Ht.
  apply wp_ret, wp_ret.
  replace (Z.of_nat (length pre) + 2 + Z.of_nat (length e))
    with (Z.of_nat (length (pre ++ enc_elem e))) in *
    by (rewrite length_app, length_enc_elem; lia).
  apply HQ; [done|]. rewrite Ht, Hc, length_app, length_enc_elem.
  unfold enc_elem. rewrite <-(app_assoc (le_bytes _ _)), app_assoc.
  apply sublist_mid; rewrite ?length_app, ?length_enc_elem, ?length_le_bytes; lia.
Qed.

(** At an entry, both reads return the key and the value. *)
Lemma entry_split h m kvs i kv :
  map_repr h m kvs -> kvs !! i = Some kv ->
  exists post,
    contents h m = map_before kvs i ++ enc_elem kv.1 ++ enc_elem kv.2 ++ post /\
    contents h m = (map_before kvs i ++ enc_elem kv.1) ++ enc_elem kv.2 ++ post /\
    entry_ok kv /\ len m = Z.of_nat (length (map_before kvs (S i)) + length post) /\
    (length (map_before kvs (S i)) =
       length (map_before kvs i) + 4 + length kv.1 + length kv.2)%nat.
Proof.
  intros Hr Hi. pose proof (map_repr_len _ _ _ Hr) as Hlen. destruct Hr as (Hwf & Hc & Hok & _).
  exists (enc_elems (flat (drop (S i) kvs))). rewrite <-!app_assoc, Hc.
  rewrite (enc_map_split kvs i kv Hi) in *. rewrite (map_before_S kvs i kv Hi).
  rewrite !length_app, !length_enc_elem in *.
  repeat split; try lia; by apply (Forall_lookup_1 _ _ _ _ Hok Hi).
Qed.

Lemma map_before_lt kvs i kv h m :
  map_repr h m kvs -> kvs !! i = Some kv ->
  3 < len m /\ Z.of_nat (length (map_before kvs i)) < len m /\
  Z.of_nat (length (map_before kvs i)) <> Z.of_nat (length (map_before kvs (S i))).
Proof.
  intros Hr Hi. destruct (entry_split _ _ _ _ _ Hr Hi) as (post & _ & _ & _ & -> & ->).
  assert (3 <= length (map_before kvs i))%nat by (unfold map_before; simpl; lia).
  lia.
Qed.

(** The searches, from entry [i] on: [k] is looked up in what is left. *)
Definition found_from (kvs : list entry) (i : nat) (k : bytes) : option (nat * entry) :=
  lookup_key (drop i kvs) k.

Lemma found_from_step kvs i kv k :
  kvs !! i = Some kv ->
  found_from kvs i k = if decide (k = kv.1) then Some (0%nat, kv)
                       else prod_map S id <$> found_from kvs (S i) k.
Proof. intros Hi. unfold found_from, lookup_key. rewrite (drop_S _ _ _ Hi). done. Qed.

Lemma found_from_end kvs i k : (length kvs <= i)%nat -> found_from kvs i k = None.
Proof. intros. unfold found_from. by rewrite drop_ge. Qed.

Lemma GetVal_loop_spec n h m kvs i k (Q : slice * error -> heap -> Prop) :
  map_repr h m kvs -> (length kvs - i <= n)%nat -> (i <= length kvs)%nat ->
  match found_from kvs i k with
  | Some (_, kv) => forall s, wf_slice h s -> contents h s = kv.2 -> Q (s, None) h
  | None => Q (nil_slice, Some "key not found") h
  end ->
  wp (GetVal_loop n m k (Z.of_nat (length (map_before kvs i)))) h Q.
Proof.
  intros Hr. revert i. induction n as [|n IH]; intros i Hn Hi HQ.
  all: destruct (kvs !! i) as [kv|] eqn:Hkv; [|
    apply lookup_ge_None in Hkv; cbn [GetVal_loop]; rewrite map_before_all by done;
    rewrite <-(map_repr_len _ _ _ Hr), Z.ltb_irrefl, found_from_end in * by done; exact HQ].
  { apply lookup_lt_Some in Hkv. lia. }
  destruct (entry_split _ _ _ _ _ Hr Hkv) as (post & Hc1 & Hc2 & [? ?] & _ & _).
  destruct (map_before_lt _ _ _ _ _ Hr Hkv) as (? & ? & ?). pose proof (proj1 Hr) as Hwf.
  rewrite (found_from_step _ _ _ _ Hkv) in HQ.
  cbn [GetVal_loop]. rewrite (proj2 (Z.ltb_lt _ _)), (proj2 (Z.eqb_neq _ 3)) by lia.
  eapply wp_bind, getElement_spec; [done..|]. intros sk _ Hsk.
  eapply wp_bind, getElement_spec; [done..|]. intros sv Hwv Hsv.
  rewrite <-app_assoc, <-(map_before_S _ _ _ Hkv).
  apply wp_bind, read_spec. rewrite Hsk. case_decide as Hk.
  - rewrite bool_decide_true by done. by apply HQ.
  - rewrite bool_decide_false, (proj2 (Z.eqb_neq _ _)) by done.
    apply IH; [lia|apply lookup_lt_Some in Hkv; lia|].
    destruct (found_from kvs (S i) k) as [[j kv']|]; exact HQ.
Qed.

Lemma MapContainsKey_loop_spec n h m kvs i k (Q : bool * error -> heap -> Prop) :
  map_repr h m kvs -> (length kvs - i <= n)%nat -> (i <= length kvs)%nat ->
  Q (bool_decide (is_Some (found_from kvs i k)), None) h ->
  wp (MapContainsKey_loop n m k (Z.of_nat (length (map_before kvs i)))) h Q.
Proof.
  intros Hr. revert i. induction n as [|n IH]; intros i Hn Hi HQ.
  all: destruct (kvs !! i) as [kv|] eqn:Hkv; [|
    apply lookup_ge_None in Hkv; cbn [MapContainsKey_loop]; rewrite map_before_all by done;
    rewrite <-(map_repr_len _ _ _ Hr), Z.ltb_irrefl, found_from_end in * by done; exact HQ].
  { apply lookup_lt_Some in Hkv. lia. }
  destruct (entry_split _ _ _ _ _ Hr Hkv) as (post & Hc1 & Hc2 & [? ?] & _ & _).
  destruct (map_before_lt _ _ _ _ _ Hr Hkv) as (? & ? & ?). pose proof (proj1 Hr) as Hwf.
  rewrite (found_from_step _ _ _ _ Hkv) in HQ.
  cbn [MapContainsKey_loop]. rewrite (proj2 (Z.ltb_lt _ _)), (proj2 (Z.eqb_neq _ 3)) by lia.
  eapply wp_bind, getElement_spec; [done..|]. intros sk _ Hsk.
  eapply wp_bind, getElementSize_spec; [done..|]. unfold nextElementStartsAt.
  replace (Z.of_nat (length (map_before kvs i ++ enc_elem kv.1)) + 2 + Z.of_nat (length kv.2))
    with (Z.of_nat (length (map_before kvs (S i))))
    by (rewrite (map_before_S _ _ _ Hkv), !length_app, !length_enc_elem; lia).
  apply wp_bind, read_spec. rewrite Hsk. case_decide as Hk.
  - by rewrite bool_decide_true by done.
  - rewrite bool_decide_false, (proj2 (Z.eqb_neq _ _)) by done.
    apply IH; [lia|apply lookup_lt_Some in Hkv; lia|].
    rewrite (bool_decide_ext _ (is_Some (found_from kvs (S i) k))) in HQ; [done|].
    by rewrite fmap_is_Some.
Qed.

Lemma MapsetSize_spec h m n n' rest (Q : unit -> heap -> Prop) :
  wf_slice h m -> contents h m = Byte.x01 :: le_bytes 2 n ++ rest ->
  (forall h', heap_le h h' -> wf_slice h' m ->
     contents h' m = Byte.x01 :: le_bytes 2 n' ++ rest ->
     (forall h0, h0 `prefix_of` h -> fresh h0 m -> h0 `prefix_of` h') -> Q () h') ->
  wp (setSize m (UInt16ToByteArray n')) h Q.
Proof. apply write_size_spec. Qed.

Lemma MapgetSize_spec h m n rest (Q : Z * error -> heap -> Prop) :
  wf_slice h m -> contents h m = Byte.x01 :: le_bytes 2 n ++ rest -> is_u16 n ->
  Q (n, None) h -> wp (getSize m) h Q.
Proof. intros. eapply read_size_spec; [done..|]. by rewrite ByteArrayToUI16_roundtrip. Qed.

Lemma Remove_loop_spec n h m kvs i k (Q : slice * error -> heap -> Prop) :
  map_repr h m kvs -> (length kvs - i <= n)%nat -> (i <= length kvs)%nat ->
  match found_from kvs i k with
  | Some (j, _) =>
      forall m' h', h `prefix_of` h' -> fresh h m' -> s_cap m' <> 0%nat ->
        map_repr h' m' (delete (i + j)%nat kvs) -> Q (m', None) h'
  | None => Q (m, Some "key not found") h
  end ->
  wp (Remove_loop n m k (Z.of_nat (length (map_before kvs i)))) h Q.
Proof.
  intros Hr. revert i. induction n as [|n IH]; intros i Hn Hi HQ.
  all: destruct (kvs !! i) as [kv|] eqn:Hkv; [|
    apply lookup_ge_None in Hkv; cbn [Remove_loop]; rewrite map_before_all by done;
    rewrite <-(map_repr_len _ _ _ Hr), Z.ltb_irrefl, found_from_end in * by done; exact HQ].
  { apply lookup_lt_Some in Hkv. lia. }
  destruct (entry_split _ _ _ _ _ Hr Hkv) as (post & Hc1 & Hc2 & [? ?] & Hlen & HlS).
  destruct (map_before_lt _ _ _ _ _ Hr Hkv) as (? & ? & ?). pose proof (proj1 Hr) as Hwf.
  rewrite (found_from_step _ _ _ _ Hkv) in HQ.
  cbn [Remove_loop]. rewrite (proj2 (Z.ltb_lt _ _)), (proj2 (Z.eqb_neq _ 3)) by lia.
  eapply wp_bind, getElement_spec; [done..|]. intros sk _ Hsk.
  eapply wp_bind, getElementSize_spec; [done..|]. unfold nextElementStartsAt.
  replace (Z.of_nat (length (map_before kvs i ++ enc_elem kv.1)) + 2 + Z.of_nat (length kv.2))
    with (Z.of_nat (length (map_before kvs (S i))))
    by (rewrite (map_before_S _ _ _ Hkv), !length_app, !length_enc_elem; lia).
  apply wp_bind, read_spec. rewrite Hsk. case_decide as Hk; cycle 1.
  { rewrite bool_decide_false, (proj2 (Z.eqb_neq _ _)) by done.
    apply IH; [lia|apply lookup_lt_Some in Hkv; lia|].
    destruct (found_from kvs (S i) k) as [[j kv']|]; simpl in HQ; [|done].
    by rewrite Nat.add_succ_r in HQ. }
  rewrite bool_decide_true by done. rewrite Nat.add_0_r in HQ. clear IH.
  eapply (cut_spec m _ _ (map_before kvs i) (enc_elem kv.1 ++ enc_elem kv.2) post);
    [exact Hwf|by rewrite Hc1, <-app_assoc|done| |].
  { rewrite HlS, length_app, !length_enc_elem. lia. }
  intros m' h1 Hwf1 Hc' Hp1 Hf1.
  assert (post = enc_elems (flat (drop (S i) kvs))) as ->.
  { destruct Hr as (_ & Hc & _). rewrite Hc, (enc_map_split kvs i kv Hkv) in Hc1.
    by do 3 apply app_inv_head in Hc1. }
  pose proof (lookup_lt_Some _ _ _ Hkv) as Hlt. destruct Hr as (_ & _ & Hok & Hn').
  unfold map_before in Hc'. unfold UINT16_MAX in *.
  rewrite <-app_comm_cons, <-app_assoc, <-enc_elems_app, <-flat_app, <-delete_take_drop in Hc'.
  apply wp_bind. unfold DecrementSize.
  eapply wp_bind, MapgetSize_spec; [done|exact Hc'|unfold is_u16; lia|].
  rewrite (proj2 (Z.leb_gt _ _)), (wrap_small 16) by lia.
  eapply wp_bind, MapsetSize_spec; [done|exact Hc'|]. intros h2 Hle2 Hwf2 Hc2' Hp2.
  apply wp_ret, wp_ret, HQ; [by apply Hp2|done| |].
  - intros Hcap. destruct Hwf2 as [? _]. pose proof (contents_length h2 m') as Hl.
    rewrite Hc2' in Hl. simpl in Hl. destruct Hwf1 as [? ?].
    assert (s_len m' = 0%nat) by lia. unfold wf_slice in Hl. naive_solver lia.
  - pose proof (length_delete kvs i ltac:(eauto)).
    split; [done|]. rewrite Hc2'. unfold UINT16_MAX. split; [|split; [by apply Forall_delete|lia]].
    unfold enc_map. do 2 f_equal. f_equal. lia.
Qed.

(** The number of entries never exceeds the number of bytes: the fuel of the
    loops is enough. *)
Lemma entries_le_len h m kvs : map_repr h m kvs -> (length kvs <= s_len m)%nat.
Proof.
  intros Hr. pose proof (map_repr_len _ _ _ Hr) as Hlen. unfold len in Hlen.
  assert (length kvs <= length (enc_elems (flat kvs)))%nat; [|unfold enc_map in Hlen;
    cbn [length] in Hlen; rewrite length_app in Hlen; lia].
  clear. induction kvs as [|kv l IH]; [done|].
  rewrite flat_cons, !enc_elems_cons', !length_app, length_enc_elem. cbn [length]. lia.
Qed.

Lemma map_before_0 kvs : Z.of_nat (length (map_before kvs 0)) = 3.
Proof. reflexivity. Qed.

Lemma GetVal_spec h m key kvs (Q : slice * error -> heap -> Prop) :
  map_repr h m kvs ->
  match lookup_key kvs (contents h key) with
  | Some (_, kv) => forall s, wf_slice h s -> contents h s = kv.2 -> Q (s, None) h
  | None => Q (nil_slice, Some "key not found") h
  end ->
  wp (GetVal m key) h Q.
Proof.
  intros Hr HQ. unfold GetVal. apply wp_bind, read_spec. rewrite <-(map_before_0 kvs).
  pose proof (entries_le_len _ _ _ Hr).
  eapply GetVal_loop_spec; [done|lia|lia|]. unfold found_from. by rewrite drop_0.
Qed.

Lemma MapContainsKey_spec fuel h m key kvs (Q : bool * error -> heap -> Prop) :
  map_repr h m kvs -> (s_len m <= fuel)%nat ->
  Q (bool_decide (is_Some (lookup_key kvs (contents h key))), None) h ->
  wp (MapContainsKey fuel m key) h Q.
Proof.
  intros Hr Hfuel HQ. unfold MapContainsKey. apply wp_bind, read_spec. rewrite <-(map_before_0 kvs).
  pose proof (entries_le_len _ _ _ Hr).
  eapply MapContainsKey_loop_spec; [done|lia|lia|]. unfold found_from. by rewrite drop_0.
Qed.

Lemma MapRemove_spec h m key kvs (Q : slice * error -> heap -> Prop) :
  map_repr h m kvs ->
  match lookup_key kvs (contents h key) with
  | Some (i, _) =>
      forall m' h', h `prefix_of` h' -> fresh h m' -> s_cap m' <> 0%nat ->
        map_repr h' m' (delete i kvs) -> Q (m', None) h'
  | None => Q (m, Some "key not found") h
  end ->
  wp (Remove m key) h Q.
Proof.
  intros Hr HQ. unfold Remove. apply wp_bind, read_spec. rewrite <-(map_before_0 kvs).
  pose proof (entries_le_len _ _ _ Hr).
  eapply Remove_loop_spec; [done|lia|lia|]. unfold found_from. by rewrite drop_0.
Qed.

(** [Append] writes at the end of [m], in place when there is room: the key
    and the value must not lie in that spare room. *)
Lemma MapAppend_spec h m key value kvs (Q : slice * error -> heap -> Prop) :
  map_repr h m kvs -> wf_slice h key -> wf_slice h value ->
  len key <= UINT16_MAX -> len value <= UINT16_MAX -> Z.of_nat (length kvs) < UINT16_MAX ->
  clear_of_spare m key -> clear_of_spare m value ->
  (forall m' h', heap_le h h' ->
     map_repr h' m' (kvs ++ [(contents h key, contents h value)]) -> Q (m', None) h') ->
  wp (Append m key value) h Q.
Proof.
  intros (Hwf & Hc & Hok & Hn) Hk Hv Hlk Hlv Hlt Hck Hcv HQ. unfold Append.
  assert (len key = Z.of_nat (length (contents h key))) as Elk
    by (unfold len; by rewrite contents_length).
  assert (len value = Z.of_nat (length (contents h value))) as Elv
    by (unfold len; by rewrite contents_length).
  unfold UINT16_MAX in *. rewrite !(proj2 (Z.ltb_ge _ _)) by lia. simpl orb. cbv iota.
  rewrite Elk, Elv in *. rewrite !(wrap_small 16) by lia.
  apply wp_bind, append_spec; [done|]. intros t1 h1 Hwf1 Hc1 Hl1 Hle1 Hs1 Hfr1.
  rewrite <-(Hfr1 value) by done. rewrite <-(Hfr1 key) in Hc1, Hlk by done.
  rewrite <-(Hfr1 value) in Hlv by done. rewrite <-(Hfr1 key), <-(Hfr1 value) in HQ by done.
  assert (clear_of_spare t1 key) as Hck1 by (eapply clear_of_spare_append; [done|lia|done|done]).
  assert (clear_of_spare t1 value) as Hcv1 by (eapply clear_of_spare_append; [done|lia|done|done]).
  apply (wf_slice_le _ _ _ Hle1) in Hk, Hv.
  apply wp_bind, append_slice_spec; [done|]. intros t2 h2 Hwf2 Hc2 Hl2 Hle2 Hs2 Hfr2.
  rewrite <-(Hfr2 value) by done. rewrite <-(Hfr2 value) in HQ, Hlv by done.
  assert (clear_of_spare t2 value) as Hcv2 by (eapply clear_of_spare_append; [done|lia|done|done]).
  apply (wf_slice_le _ _ _ Hle2) in Hv.
  apply wp_bind, append_spec; [done|]. intros t3 h3 Hwf3 Hc3 Hl3 Hle3 Hs3 Hfr3.
  rewrite <-(Hfr3 value) in HQ, Hlv by done. rewrite <-(Hfr3 value) in Hc3 by done.
  apply wp_bind, append_slice_spec; [done|]. intros t4 h4 Hwf4 Hc4 _ Hle4 _ _.
  set (kb := contents h1 key) in *. set (vb := contents h3 value) in *.
  rewrite Hc3, Hc2, Hc1, Hc in Hc4.
  replace (_ ++ vb) with (Byte.x01 :: le_bytes 2 (Z.of_nat (length kvs)) ++
    enc_elems (flat (kvs ++ [(kb, vb)]))) in Hc4; cycle 1.
  { unfold enc_map, UInt16ToByteArray. rewrite flat_app, enc_elems_app, flat_cons.
    rewrite !enc_elems_cons'. unfold enc_elem. rewrite app_nil_r, <-!app_comm_cons, <-!app_assoc.
    done. }
  apply wp_bind. unfold IncrementSize.
  eapply wp_bind, MapgetSize_spec; [done|exact Hc4|unfold is_u16; lia|].
  eapply MapsetSize_spec; [done|exact Hc4|]. intros h5 Hle5 Hwf5 Hc5 _.
  apply wp_ret, HQ; [by do 4 (etrans; [done|])|].
  split; [done|]. rewrite length_app. cbn [length]. unfold UINT16_MAX. split; [|split; [|lia]].
  - rewrite Hc5, wrap_small by lia. unfold enc_map. rewrite length_app. do 2 f_equal. f_equal. simpl. lia.
  - apply Forall_app; split; [done|]. constructor; [|done]. split; simpl; unfold UINT16_MAX; [|].
    + done.
    + done.
Qed.

(** [SetVal] moves the entry of the key to the end, with the new value; a key
    that is not there is appended all the same, and reported. *)
Lemma SetVal_spec h m key value kvs (Q : slice * error -> heap -> Prop) :
  map_repr h m kvs -> wf_slice h key -> wf_slice h value ->
  len key <= UINT16_MAX -> len value <= UINT16_MAX -> Z.of_nat (length kvs) < UINT16_MAX ->
  clear_of_spare m key -> clear_of_spare m value ->
  (forall m' h', heap_le h h' ->
     map_repr h' m' (match lookup_key kvs (contents h key) with
                     | Some (i, _) => delete i kvs
                     | None => kvs
                     end ++ [(contents h key, contents h value)]) ->
     Q (m', match lookup_key kvs (contents h key) with
            | Some _ => None
            | None => Some "key not found"
            end) h') ->
  wp (SetVal m key value) h Q.
Proof.
  intros Hr Hk Hv Hlk Hlv Hlt Hck Hcv HQ. unfold SetVal.
  eapply wp_bind, MapRemove_spec; [done|].
  destruct (lookup_key kvs (contents h key)) as [[i kv]|] eqn:E.
  - intros m1 h1 Hp1 Hf1 Hcap1 Hr1. pose proof (prefix_heap_le _ _ Hp1) as Hle1.
    assert (i < length kvs)%nat as Hi.
    { apply list_find_Some in E as (?%lookup_lt_Some & _). done. }
    rewrite <-(contents_prefix h h1 key), <-(contents_prefix h h1 value) in HQ by done.
    eapply wp_bind, MapAppend_spec; [done|by eapply wf_slice_le..|done|done| | | |].
    { rewrite length_delete by (by apply lookup_lt_is_Some_2). lia. }
    1,2: by eapply fresh_clear.
    intros m2 h2 Hle2 Hr2. apply wp_ret, HQ; [by etrans|done].
  - eapply wp_bind, MapAppend_spec; [done..|]. intros. by apply wp_ret, HQ.
Qed.

(** The searches that do not swallow an error end, whatever the bytes are:
    each iteration moves at least four bytes on. *)
Lemma getElementSize_inv h m i r h' :
  getElementSize m i h = Done (r, h') -> h' = h /\ 0 <= r.1.
Proof.
  unfold getElementSize. intros (t & h1 & Ht & (bs & h2 & Hb & Hr)%bind_inv)%bind_inv.
  destruct (reslice m i (i + 2)); [|done].
  injection Ht as <- <-. injection Hb as <- <-. injection Hr as <- <-.
  split; [done|]. destruct (ByteArrayToUI16 _) eqn:E2. by eapply ByteArrayToUI16_bounds.
Qed.

Lemma getElement_inv h m i s next e h' :
  getElement m i h = Done (s, next, e, h') -> h' = h /\ (e = None -> i + 2 <= next).
Proof.
  unfold getElement. intros ([n err] & h1 & [-> Hn]%getElementSize_inv & H1)%bind_inv.
  destruct err; [by injection H1 as <- <- <- <-|].
  apply bind_inv in H1 as ([el err] & h2 & H1 & H2).
  assert (h2 = h) as ->.
  { unfold getBytesOfElement in H1.
    do 2 (destruct (_ : bool) in H1; [by injection H1|]).
    apply bind_inv in H1 as (t & h3 & Ht & Hr). destruct (reslice m _ _); [|done].
    injection Ht as <- <-. by injection Hr as <- <- <-. }
  unfold nextElementStartsAt in *. simpl in *.
  destruct err; injection H2 as <- <- <- <-; split; try done; intros; lia.
Qed.

Lemma getElementSize_ends h m i : ends (getElementSize m i) h.
Proof. apply ends_bind; [auto with ends|]. intros t h' _. done. Qed.

Lemma getElement_ends h m i : ends (getElement m i) h.
Proof.
  apply ends_bind; [apply getElementSize_ends|]. intros [n err] h' _.
  destruct err; [auto with ends|]. apply ends_bind; [|intros [? []] ? _; auto with ends].
  unfold getBytesOfElement. repeat (case_match; [auto with ends|]).
  apply ends_bind; auto with ends.
Qed.

Lemma GetVal_loop_ends n h m k i :
  len m - i <= Z.of_nat n -> ends (GetVal_loop n m k i) h.
Proof.
  revert i. induction n as [|n IH]; intros i Hn; cbn [GetVal_loop].
  { by rewrite (proj2 (Z.ltb_ge _ _)) by lia. }
  destruct (Z.ltb_spec i (len m)); [|done]. destruct (len m =? 3); [done|].
  apply ends_bind; [apply getElement_ends|]. intros [[sk vs] err] h1 [-> H1]%getElement_inv.
  destruct err; [auto with ends|]. specialize (H1 eq_refl).
  apply ends_bind; [apply getElement_ends|]. intros [[sv next] err] h1 [-> H2]%getElement_inv.
  destruct err; [auto with ends|]. specialize (H2 eq_refl).
  apply ends_bind; [done|]. intros k' h1 [= <- <-].
  repeat (case_match; [auto with ends|]). apply IH. lia.
Qed.

Lemma append_ends s bs h : ends (append s bs) h.
Proof. unfold ends, append. by case_match. Qed.

Lemma set_index_ends s i b h : ends (set_index s i b) h.
Proof. unfold set_index. by case_match. Qed.

Lemma DecrementSize_ends m h : ends (DecrementSize m) h.
Proof.
  apply ends_bind.
  { apply ends_bind; [auto with ends|]. intros. apply ends_bind; [done|]. intros. by repeat case_match. }
  intros [z []] h1 _; [auto with ends|]. case_match; [auto with ends|].
  apply ends_bind; [|auto with ends].
  apply ends_bind; [auto with ends|]. intros. apply ends_bind; [apply set_index_ends|].
  intros. apply ends_bind; [auto with ends|]. intros. apply set_index_ends.
Qed.

Lemma Remove_loop_ends n h m k i :
  len m - i <= Z.of_nat n -> ends (Remove_loop n m k i) h.
Proof.
  revert i. induction n as [|n IH]; intros i Hn; cbn [Remove_loop].
  { by rewrite (proj2 (Z.ltb_ge _ _)) by lia. }
  destruct (Z.ltb_spec i (len m)); [|done]. destruct (len m =? 3); [done|].
  apply ends_bind; [apply getElement_ends|]. intros [[sk vs] err] h1 [-> H1]%getElement_inv.
  destruct err; [auto with ends|]. specialize (H1 eq_refl).
  apply ends_bind; [apply getElementSize_ends|]. intros [z err] h1 [-> H2]%getElementSize_inv.
  destruct err; [auto with ends|].
  apply ends_bind; [done|]. intros k' h1 [= <- <-].
  case_match.
  - apply ends_bind; [auto with ends|]. intros. apply ends_bind; [apply append_ends|].
    intros. apply ends_bind; [auto with ends|]. intros. apply ends_bind; [apply append_ends|].
    intros. apply ends_bind; [apply DecrementSize_ends|]. auto with ends.
  - case_match; [auto with ends|]. apply IH. unfold nextElementStartsAt in *. simpl in *. lia.
Qed.

Lemma GetVal_ends h m key : ends (GetVal m key) h.
Proof. apply ends_bind; [done|]. intros. apply GetVal_loop_ends. unfold len. lia. Qed.

Lemma Remove_ends h m key : ends (Remove m key) h.
Proof. apply ends_bind; [done|]. intros. apply Remove_loop_ends. unfold len. lia. Qed.
End proofs.
End Map_proofs.

(** ** The search that swallows an error can go on for ever

    A map whose second key runs past its end: [getElement] fails, the search
    goes on from offset 3, and reaches the same key again. *)

Definition looping_map : bytes :=
  [Byte.x01; Byte.x00; Byte.x00; Byte.x00; Byte.x00; Byte.x00; Byte.x00; Byte.xff; Byte.xff].

Section looping.
Context (h : heap) (m : slice) (key : bytes).
Context (Hwf : wf_slice h m) (Hm : contents h m = looping_map) (Hkey : key <> []).

Lemma looping_map_len : len m = 9.
Proof using Hwf Hm. unfold len. by rewrite <-(contents_length h m Hwf), Hm. Qed.

Lemma looping_size i n :
  0 <= i <= 7 -> ByteArrayToUI16 (sublist (Z.to_nat i) 2 looping_map) = (n, None) ->
  Map.getElementSize m i h = Done ((n, None), h).
Proof using Hwf Hm.
  intros Hi Hn. pose proof looping_map_len as Hl.
  enough (wp (Map.getElementSize m i) h (fun r h' => r = (n, None) /\ h' = h)) as (? & ? & -> & -> & ->)%wp_elim
    by done.
  unfold Map.getElementSize. apply wp_bind, reslice_spec; [done|lia|lia|].
  intros t _ _ _ _ Ht. apply wp_bind, read_spec, wp_ret. rewrite Ht, Hm.
  by replace (Z.to_nat (i + 2 - i)) with 2%nat by lia.
Qed.

Lemma looping_element3 :
  exists s, Map.getElement m 3 h = Done ((s, 5, None), h) /\ contents h s = [].
Proof using Hwf Hm.
  pose proof looping_map_len as Hl.
  enough (wp (Map.getElement m 3) h (fun r h' => r.1.2 = 5 /\ r.2 = None /\ h' = h /\ contents h r.1.1 = []))
    as ([[s n] e] & ? & -> & ? & ? & -> & ?)%wp_elim by (simpl in *; subst; eauto).
  apply (Map_proofs.getElement_spec h m [Byte.x01; Byte.x00; Byte.x00] []
           [Byte.x00; Byte.x00; Byte.xff; Byte.xff]); [done|done|done|].
  intros s _ Hs. done.
Qed.

Lemma looping_element7 : Map.getElement m 7 h = Done ((nil_slice, 0, Some "map internals error"), h).
Proof using Hwf Hm.
  unfold Map.getElement. rewrite (bind_Done _ _ _ (65535, None) h).
  2: { by apply looping_size. }
  unfold Map.getBytesOfElement. by rewrite looping_map_len.
Qed.

Lemma MapContainsKey_diverges fuel :
  Map.MapContainsKey_loop fuel m key 3 h = Timeout /\
  Map.MapContainsKey_loop fuel m key 7 h = Timeout.
Proof using Hwf Hm Hkey.
  pose proof looping_map_len as Hl. destruct looping_element3 as (s & H3 & Hs).
  induction fuel as [|fuel [IH3 IH7]]; split; cbn [Map.MapContainsKey_loop]; rewrite Hl.
  all: cbn [Z.ltb Z.eqb Z.compare Pos.compare Pos.compare_cont Pos.eqb].
  all: first [rewrite (bind_Done _ _ _ _ _ H3) | rewrite (bind_Done _ _ _ _ _ looping_element7)].
  all: first [rewrite (bind_Done _ _ _ (0, None) h) by by apply looping_size
             |rewrite (bind_Done _ _ _ (1, None) h) by by apply looping_size].
  all: rewrite (bind_Done _ _ _ [] h)
    by (unfold read, gets; rewrite ?Hs, ?contents_nil; done).
  all: case_bool_decide as Hb; [by destruct Hkey|done].
Qed.
End looping.
