(* ===== verification/VMContext.v ===== *)
(** * vm/vm.go, protocol/vm_context.go: what the VM sees of the chain

    The VM runs against the interface [Context]; the implementation of the
    miner is a copy of the called account and of the transaction, with a
    journal of the writes to contract variables. *)

From S2P Require Import Prelude GoSlice VMStack.

(** ** The interface *)

Class VMContext (C : Type) := {
  GetContract : C -> slice;
  GetContractVariable : C -> Z -> M heap (slice * error);
  SetContractVariable : C -> Z -> slice -> M heap (C * error);
  GetAddress : C -> bytes;
  GetIssuer : C -> bytes;
  GetBalance : C -> Z;
  GetSender : C -> bytes;
  GetAmount : C -> Z;
  GetTransactionData : C -> slice;
  GetFee : C -> Z;
  GetSig1 : C -> bytes
}.

(** What the VM relies on: the slices it is given exist and are not absurdly
    large, reading a variable does not touch existing data, and a write changes
    nothing but the journal of the context. *)
Class ContextLaws (C : Type) `{!VMContext C} := {
  ctx_ok : heap -> C -> Prop;
  ctx_ok_le h h' c : heap_le h h' -> ctx_ok h c -> ctx_ok h' c;
  GetContract_ok h c : ctx_ok h c -> wf_slice h (GetContract c);
  GetTransactionData_ok h c : ctx_ok h c -> wf_slice h (GetTransactionData c);
  GetFee_ok h c : ctx_ok h c -> is_u64 (GetFee c);
  fixed_length h c : ctx_ok h c ->
    length (GetAddress c) = 64%nat /\ length (GetIssuer c) = 32%nat /\
    length (GetSender c) = 32%nat;
  GetContractVariable_ok h c i Q :
    ctx_ok h c -> 0 <= i ->
    (forall v e h', h `prefix_of` h' -> wf_slice h' v -> pushable v -> Q (v, e) h') ->
    wp (GetContractVariable c i) h Q;
  SetContractVariable_ok h c i v Q :
    ctx_ok h c -> 0 <= i -> wf_slice h v ->
    (forall c' e h', h `prefix_of` h' -> ctx_ok h' c' -> GetContract c' = GetContract c ->
       Q (c', e) h') ->
    wp (SetContractVariable c i v) h Q
}.

(** ** protocol.Context *)

Record Change := NewChange { ch_index : Z; ch_value : slice }.

Definition GetChange (c : Change) : Z * slice := (ch_index c, ch_value c).

(** The fields of the embedded Account and FundsTx that the VM can reach. *)
Record Context := mkContext {
  Contract : slice;
  ContractVariables : list slice;
  Address : bytes;
  Issuer : bytes;
  Balance : Z;
  changes : list Change;
  From : bytes;
  Amount : Z;
  Fee : Z;
  Data : slice;
  Sig1 : bytes
}.

(** [NewContext(account, fundsTx)] *)
Definition NewContext (contract : slice) (variables : list slice) (address issuer : bytes)
    (balance : Z) (from : bytes) (amount fee : Z) (data : slice) (sig1 : bytes) : Context :=
  mkContext contract variables address issuer balance [] from amount fee data sig1.

Definition set_changes (c : Context) (l : list Change) : Context :=
  mkContext (Contract c) (ContractVariables c) (Address c) (Issuer c) (Balance c) l
    (From c) (Amount c) (Fee c) (Data c) (Sig1 c).

Definition set_variables (c : Context) (l : list slice) : Context :=
  mkContext (Contract c) l (Address c) (Issuer c) (Balance c) (changes c)
    (From c) (Amount c) (Fee c) (Data c) (Sig1 c).

(** [make] and [copy]: a fresh array with the bytes of [v]. *)
Definition copy_slice (v : slice) : M heap slice := bs ← read v; slice_lit bs.

Definition Context_GetContractVariable (c : Context) (index : Z) : M heap (slice * error) :=
  if (Z.of_nat (length (ContractVariables c)) <=? index) || (index <? 0) then
    mret (nil_slice, Some "Index out of bounds")
  else
    variable ← of_option (ContractVariables c !! Z.to_nat index);
    cp ← copy_slice variable;
    mret (cp, None).

Definition Context_SetContractVariable (c : Context) (index : Z) (value : slice)
    : M heap (Context * error) :=
  if Z.of_nat (length (ContractVariables c)) <=? index then
    mret (c, Some "Index out of bounds")
  else
    cp ← copy_slice value;
    mret (set_changes c (changes c ++ [NewChange index cp]), None).

(** [c.ContractVariables[i] = value] panics out of range. *)
Fixpoint persist (variables : list slice) (l : list Change) : option (list slice) :=
  match l with
  | [] => Some variables
  | change :: l =>
      let '(i, value) := GetChange change in
      if (0 <=? i) && (i <? Z.of_nat (length variables)) then
        persist (<[Z.to_nat i := value]> variables) l
      else None
  end.

Definition PersistChanges (c : Context) : option Context :=
  set_variables c <$> persist (ContractVariables c) (changes c).

#[global] Instance Context_VMContext : VMContext Context := {
  GetContract := Contract;
  GetContractVariable := Context_GetContractVariable;
  SetContractVariable := Context_SetContractVariable;
  GetAddress := Address;
  GetIssuer := Issuer;
  GetBalance := Balance;
  GetSender := From;
  GetAmount := Amount;
  GetTransactionData := Data;
  GetFee := Fee;
  GetSig1 := Sig1
}.

(** ** The implementation keeps the promises of the interface *)

Definition var_ok (h : heap) (v : slice) : Prop := wf_slice h v /\ pushable v.

(** A journalled write always hits a variable of the account. *)
Definition change_ok (h : heap) (n : nat) (c : Change) : Prop :=
  0 <= ch_index c < Z.of_nat n /\ wf_slice h (ch_value c).

Record context_ok (h : heap) (c : Context) : Prop := {
  co_contract : wf_slice h (Contract c);
  co_variables : Forall (var_ok h) (ContractVariables c);
  co_data : wf_slice h (Data c);
  co_fee : is_u64 (Fee c);
  co_address : length (Address c) = 64%nat;
  co_issuer : length (Issuer c) = 32%nat;
  co_from : length (From c) = 32%nat;
  co_changes : Forall (change_ok h (length (ContractVariables c))) (changes c)
}.

Lemma context_ok_le h h' c : heap_le h h' -> context_ok h c -> context_ok h' c.
Proof.
  intros Hle []. split; try done.
  - by eapply wf_slice_le.
  - eapply Forall_impl; [done|]. intros v [? ?]. split; [by eapply wf_slice_le|done].
  - by eapply wf_slice_le.
  - eapply Forall_impl; [done|]. intros v [? ?]. split; [done|by eapply wf_slice_le].
Qed.

Lemma copy_slice_spec v h Q :
  (forall s h', wf_slice h' s -> contents h' s = contents h v ->
     s_len s = length (contents h v) -> h `prefix_of` h' -> Q s h') ->
  wp (copy_slice v) h Q.
Proof.
  intros HQ. apply wp_bind, read_spec, alloc_spec'. intros s h' _ Hlen _ _ Hwf Hc _ _ [x ->].
  apply HQ; [done..|by apply prefix_app_r].
Qed.

Lemma contents_pushable h v : wf_slice h v -> pushable v ->
  Z.of_nat (length (contents h v)) < 2 ^ 32 - 1000000.
Proof. intros ? ?. unfold pushable, len in *. by rewrite contents_length. Qed.

Lemma Context_GetContractVariable_spec h c i Q :
  context_ok h c -> 0 <= i ->
  (forall v e h', h `prefix_of` h' -> wf_slice h' v -> pushable v -> Q (v, e) h') ->
  wp (Context_GetContractVariable c i) h Q.
Proof.
  intros Hc Hi HQ. unfold Context_GetContractVariable.
  destruct (Z.leb_spec (Z.of_nat (length (ContractVariables c))) i); simpl.
  { apply wp_ret, HQ; [done|apply wf_nil|done]. }
  rewrite (proj2 (Z.ltb_ge _ _)) by lia.
  destruct (lookup_lt_is_Some_2 (ContractVariables c) (Z.to_nat i)) as [v Hv]; [lia|].
  pose proof (Forall_lookup_1 _ _ _ _ (co_variables _ _ Hc) Hv) as [Hwf Hp].
  eapply wp_bind, wp_of_option; [done|]. apply wp_bind, copy_slice_spec.
  intros s h' Hs _ Hlen Hpre. apply wp_ret, HQ; [done..|].
  pose proof (contents_pushable h v Hwf Hp). unfold pushable, len. lia.
Qed.

Lemma Context_SetContractVariable_spec h c i v Q :
  context_ok h c -> 0 <= i -> wf_slice h v ->
  (forall c' e h', h `prefix_of` h' -> context_ok h' c' ->
     c' = c /\ is_Some e \/
     (e = None /\ exists cp, c' = set_changes c (changes c ++ [NewChange i cp]) /\
        contents h' cp = contents h v) -> Q (c', e) h') ->
  wp (Context_SetContractVariable c i v) h Q.
Proof.
  intros Hc Hi Hv HQ. unfold Context_SetContractVariable.
  destruct (Z.leb_spec (Z.of_nat (length (ContractVariables c))) i).
  { apply wp_ret, HQ; [done|done|by left]. }
  apply wp_bind, copy_slice_spec. intros s h' Hs Hcs _ Hpre.
  apply wp_ret, HQ; [done| |right; eauto].
  apply prefix_heap_le in Hpre. apply (context_ok_le _ _ _ Hpre) in Hc. destruct Hc.
  split; try done. simpl. apply Forall_app; split; [done|]. constructor; [|done].
  split; [simpl; lia|done].
Qed.

#[global, refine] Instance Context_laws : ContextLaws Context := {| ctx_ok := context_ok |}.
Proof.
  - apply context_ok_le.
  - by intros h c [].
  - by intros h c [].
  - by intros h c [].
  - by intros h c [].
  - apply Context_GetContractVariable_spec.
  - intros h c i v Q Hc Hi Hv HQ. apply Context_SetContractVariable_spec; [done..|].
    intros c' e h' Hpre Hc' [[-> _]|(_ & cp & -> & _)]; by apply HQ.
Defined.

(** ** The journal is always replayable *)

Lemma persist_total vs l h :
  Forall (change_ok h (length vs)) l -> exists vs', persist vs l = Some vs' /\ length vs' = length vs.
Proof.
  revert vs. induction l as [|[i v] l IH]; intros vs Hall; simpl; [eauto|].
  apply Forall_cons in Hall as [[Hi _] Hall]. simpl in Hi.
  rewrite (proj2 (Z.leb_le _ _)), (proj2 (Z.ltb_lt _ _)) by lia. simpl.
  destruct (IH (<[Z.to_nat i:=v]> vs)) as (vs' & -> & Hl); [by rewrite length_insert|].
  exists vs'. split; [done|]. by rewrite Hl, length_insert.
Qed.

(** The last journalled value of a variable wins; the others keep theirs. *)
Definition last_change (l : list Change) (i : nat) : option slice :=
  last (omap (fun c => if decide (ch_index c = Z.of_nat i) then Some (ch_value c) else None) l).

Lemma last_cons_default {A} (x : A) l : last (x :: l) = Some (default x (last l)).
Proof. revert x. induction l as [|y l IH]; intros x; [done|]. simpl in *. rewrite IH. by destruct (last l). Qed.

Lemma persist_lookup vs l vs' i :
  persist vs l = Some vs' -> (i < length vs)%nat ->
  vs' !! i = match last_change l i with Some v => Some v | None => vs !! i end.
Proof.
  revert vs. induction l as [|[j v] l IH]; intros vs Hp Hi; simpl in Hp; [by simplify_eq|].
  destruct (Z.leb_spec 0 j), (Z.ltb_spec j (Z.of_nat (length vs))); simpl in Hp; try done.
  rewrite (IH _ Hp) by by rewrite length_insert.
  unfold last_change. simpl. case_decide as Hj.
  - subst j. rewrite Nat2Z.id, list_lookup_insert_eq by done. rewrite last_cons_default.
    by destruct (last _).
  - destruct (last _); [done|]. apply list_lookup_insert_ne. lia.
Qed.
