(* ===== verification/VM.v ===== *)
(** * vm/op_codes.go and vm/vm.go: the machine, its opcodes and its helpers

    One value of [VM] is the Go struct together with the heap its slices live
    in.  The instructions are in VMInstr.v, the main loop in VMExec.v. *)

From S2P Require Import Prelude GoSlice VMUtils VMStack VMContext.

(** ** op_codes.go *)

Inductive opcode :=
| PUSH | DUP | ROLL | POP | ADD | SUB | MULT | DIV | MOD | NEG | EQ | NEQ | LT | GT | LTE | GTE
| SHIFTL | SHIFTR | NOP | JMP | JMPIF | CALL | CALLIF | CALLEXT | RET | SIZE | STORE | SSTORE
| LOAD | SLOAD | ADDRESS | ISSUER | BALANCE | CALLER | CALLVAL | CALLDATA | NEWMAP | MAPHASKEY
| MAPPUSH | MAPGETVAL | MAPSETVAL | MAPREMOVE | NEWARR | ARRAPPEND | ARRINSERT | ARRREMOVE
| ARRAT | SHA3 | CHECKSIG | ERRHALT | HALT.

#[global] Instance opcode_eq_dec : EqDecision opcode.
Proof. solve_decision. Defined.

Inductive argtype := BYTES | BYTE | LABEL | ADDR.

Record OpCode := mkOpCode {
  op_code : opcode; Name : string; Nargs : Z; ArgTypes : list argtype;
  gasPrice : Z; gasFactor : Z
}.

Definition OpCodes : list OpCode := [
  mkOpCode PUSH "push" 1 [BYTES] 1 1;
  mkOpCode DUP "dup" 0 [] 1 2;
  mkOpCode ROLL "roll" 1 [BYTE] 1 2;
  mkOpCode POP "pop" 0 [] 1 1;
  mkOpCode ADD "add" 0 [] 1 2;
  mkOpCode SUB "sub" 0 [] 1 2;
  mkOpCode MULT "mult" 0 [] 1 2;
  mkOpCode DIV "div" 0 [] 1 2;
  mkOpCode MOD "mod" 0 [] 1 2;
  mkOpCode NEG "neg" 0 [] 1 2;
  mkOpCode EQ "eq" 0 [] 1 2;
  mkOpCode NEQ "neq" 0 [] 1 2;
  mkOpCode LT "lt" 0 [] 1 2;
  mkOpCode GT "gt" 0 [] 1 2;
  mkOpCode LTE "lte" 0 [] 1 2;
  mkOpCode GTE "gte" 0 [] 1 2;
  mkOpCode SHIFTL "shiftl" 1 [BYTE] 1 2;
  mkOpCode SHIFTR "shiftl" 1 [BYTE] 1 2;
  mkOpCode NOP "nop" 0 [] 1 1;
  mkOpCode JMP "jmp" 1 [LABEL] 1 1;
  mkOpCode JMPIF "jmpif" 1 [LABEL] 1 1;
  mkOpCode CALL "call" 2 [LABEL; BYTE] 1 1;
  mkOpCode CALLIF "callif" 2 [LABEL; BYTE] 1 1;
  mkOpCode CALLEXT "callext" 3 [ADDR; BYTE; BYTE; BYTE; BYTE; BYTE] 1000 2;
  mkOpCode RET "ret" 0 [] 1 1;
  mkOpCode SIZE "size" 0 [] 1 1;
  mkOpCode STORE "store" 0 [] 1 2;
  mkOpCode SSTORE "sstore" 1 [BYTE] 1000 2;
  mkOpCode LOAD "load" 1 [BYTE] 1 2;
  mkOpCode SLOAD "sload" 1 [BYTE] 10 2;
  mkOpCode ADDRESS "address" 0 [] 1 1;
  mkOpCode ISSUER "issuer" 0 [] 1 1;
  mkOpCode BALANCE "balance" 0 [] 1 1;
  mkOpCode CALLER "caller" 0 [] 1 1;
  mkOpCode CALLVAL "callval" 0 [] 1 1;
  mkOpCode CALLDATA "calldata" 0 [] 1 1;
  mkOpCode NEWMAP "newmap" 0 [] 1 2;
  mkOpCode MAPHASKEY "maphaskey" 0 [] 1 2;
  mkOpCode MAPPUSH "mappush" 0 [] 1 2;
  mkOpCode MAPGETVAL "mapgetval" 0 [] 1 2;
  mkOpCode MAPSETVAL "mapsetval" 0 [] 1 2;
  mkOpCode MAPREMOVE "mapremove" 0 [] 1 2;
  mkOpCode NEWARR "newarr" 0 [] 1 2;
  mkOpCode ARRAPPEND "arrappend" 0 [] 1 2;
  mkOpCode ARRINSERT "arrinsert" 0 [] 1 2;
  mkOpCode ARRREMOVE "arrremove" 0 [] 1 2;
  mkOpCode ARRAT "arrat" 0 [] 1 2;
  mkOpCode SHA3 "sha3" 0 [] 1 2;
  mkOpCode CHECKSIG "checksig" 0 [] 1 2;
  mkOpCode ERRHALT "errhalt" 0 [] 0 1;
  mkOpCode HALT "halt" 0 [] 0 1
].

(** ** The machine *)

Record VM (C : Type) := mkVM {
  code : slice;
  pc : Z;
  fee : Z;
  evaluationStack : Stack;
  callStack : CallStack;
  context : C;
  vheap : heap
}.
Arguments mkVM {C} _ _ _ _ _ _ _.
Arguments code {C} _.
Arguments pc {C} _.
Arguments fee {C} _.
Arguments evaluationStack {C} _.
Arguments callStack {C} _.
Arguments context {C} _.
Arguments vheap {C} _.

Definition NewVM {C} (c : C) (h : heap) : VM C :=
  mkVM nil_slice 0 0 NewStack NewCallStack c h.

(** How an instruction leaves the loop: on to the next one, or [return b]. *)
Inductive status := Continue | Return (b : bool).

#[global] Instance status_eq_dec : EqDecision status.
Proof. solve_decision. Defined.

Section setters.
Context {C : Type}.
Definition set_pc (v : VM C) (x : Z) : VM C :=
  mkVM (code v) x (fee v) (evaluationStack v) (callStack v) (context v) (vheap v).
Definition set_fee (v : VM C) (x : Z) : VM C :=
  mkVM (code v) (pc v) x (evaluationStack v) (callStack v) (context v) (vheap v).
Definition set_stack (v : VM C) (x : Stack) : VM C :=
  mkVM (code v) (pc v) (fee v) x (callStack v) (context v) (vheap v).
Definition set_callStack (v : VM C) (x : CallStack) : VM C :=
  mkVM (code v) (pc v) (fee v) (evaluationStack v) x (context v) (vheap v).
Definition set_context (v : VM C) (x : C) : VM C :=
  mkVM (code v) (pc v) (fee v) (evaluationStack v) (callStack v) x (vheap v).
Definition set_heap (v : VM C) (x : heap) : VM C :=
  mkVM (code v) (pc v) (fee v) (evaluationStack v) (callStack v) (context v) x.
Definition set_code (v : VM C) (x : slice) : VM C :=
  mkVM x (pc v) (fee v) (evaluationStack v) (callStack v) (context v) (vheap v).
End setters.

(** The cryptography of the Go library and of x/crypto. *)
Class Crypto := {
  sha3_256 : bytes -> bytes;
  (** [ecdsa.Verify] on the curve P256: public key x and y, hash, r, s. *)
  ecdsa_verify : Z -> Z -> bytes -> Z -> Z -> bool;
  sha3_256_length bs : length (sha3_256 bs) = 32%nat
}.

Section machine.
Context `{!GoRuntime} {C : Type}.
Abbreviation MV := (M (VM C)).

(** Heap operations run on the heap of the machine. *)
Definition on_heap {A} (m : M heap A) : MV A := fun v =>
  match m (vheap v) with
  | Done (a, h) => Done (a, set_heap v h)
  | Panic => Panic
  | Timeout => Timeout
  end.

Definition Push (x : slice) : MV error := fun v =>
  let '(s, err) := Stack.Push (evaluationStack v) x in Done (err, set_stack v s).

Definition Pop : MV (slice * error) := fun v =>
  let '(s, r) := Stack.Pop (evaluationStack v) in Done (r, set_stack v s).

Definition PopIndexAt (i : Z) : MV (slice * error) := fun v =>
  match Stack.PopIndexAt (evaluationStack v) i with
  | Some (s, r) => Done (r, set_stack v s)
  | None => Panic
  end.

(** [vm.evaluationStack.Push([]byte(msg))], the error ignored. *)
Definition push_string (msg : string) : MV unit :=
  s ← on_heap (slice_of_string msg); Push s;; mret tt.

Definition fetch : MV (byte * error) :=
  c ← gets code; tempPc ← gets pc;
  if tempPc <? len c then
    modify (fun v => set_pc v (pc v + 1));;
    b ← on_heap (index c tempPc);
    mret (b, None)
  else mret (Byte.x00, Some "Instruction set out of bounds").

Definition fetchMany (argument : Z) : MV (slice * error) :=
  c ← gets code; tempPc ← gets pc;
  if argument <? len c - tempPc then
    modify (fun v => set_pc v (pc v + argument));;
    s ← of_option (reslice c tempPc (tempPc + argument));
    mret (s, None)
  else mret (nil_slice, Some "Instruction set out of bounds").

Fixpoint checkErrors (errorLocation : string) (errors : list error) : MV bool :=
  match errors with
  | [] => mret true
  | Some e :: _ => push_string (errorLocation +:+ ": " +:+ e);; mret false
  | None :: errors => checkErrors errorLocation errors
  end.

(** The gas for an element that is popped, in steps of 64 bytes. *)
Definition gasCost (op : OpCode) (x : slice) : Z :=
  u64 (gasFactor op * u64 ((len x + 64 - 1) / 64)).

(** The charge common to the three pops: [false] is out of gas. *)
Definition charge (op : OpCode) (x : slice) : MV bool :=
  f ← gets fee;
  if to_int64 (u64 (f - gasCost op x)) <? 0 then mret false
  else modify (fun v => set_fee v (u64 (fee v - gasCost op x)));; mret true.

Definition PopBytes (op : OpCode) : MV (slice * error) :=
  '(x, err) ← Pop;
  match err with
  | Some _ => mret (nil_slice, err)
  | None =>
      ok ← charge op x;
      if (ok : bool) then mret (x, None) else mret (nil_slice, Some "Out of gas")
  end.

Definition PopSignedBigInt (op : OpCode) : MV (Z * error) :=
  '(x, err) ← Pop;
  match err with
  | Some _ => mret (0, err)
  | None =>
      ok ← charge op x;
      if (ok : bool) then
        bs ← on_heap (read x); of_option (SignedBigIntConversion bs None)
      else mret (0, Some "Out of gas")
  end.

Definition PopUnsignedBigInt (op : OpCode) : MV (Z * error) :=
  '(x, err) ← Pop;
  match err with
  | Some _ => mret (0, err)
  | None =>
      ok ← charge op x;
      if (ok : bool) then
        bs ← on_heap (read x); mret (UnsignedBigIntConversion bs None)
      else mret (0, Some "Out of gas")
  end.

Definition GetErrorMsg : MV bytes :=
  s ← gets evaluationStack;
  match Stack.PeekBytes s with
  | (_, Some _) => mret (str_bytes "Peek on empty Stack")
  | (tos, None) => on_heap (read tos)
  end.

(** ** The error exits of the instructions

    [vm.evaluationStack.Push([]byte(opCode.Name + ": " + err.Error()))] and
    [return false], after a call or after [checkErrors]. *)

Definition fail (op : OpCode) (e : string) : MV status :=
  push_string (Name op +:+ ": " +:+ e);; mret (Return false).

Definition try {A} (op : OpCode) (m : MV (A * error)) (k : A -> MV status) : MV status :=
  '(a, err) ← m;
  match err with Some e => fail op e | None => k a end.

Definition check (op : OpCode) (errors : list error) (k : MV status) : MV status :=
  ok ← checkErrors (Name op) errors;
  if (ok : bool) then k else mret (Return false).

Definition push_or_fail (op : OpCode) (x : slice) : MV status :=
  err ← Push x;
  match err with Some e => fail op e | None => mret Continue end.

(** A push whose error is ignored. *)
Definition push_ignore (x : slice) : MV status := Push x;; mret Continue.

Definition push_bool (b : bool) : MV status :=
  x ← on_heap (BoolToByteArray b); push_ignore x.
End machine.

Declare Scope vm_scope.
Delimit Scope vm_scope with vm.
#[global] Open Scope vm_scope.
Notation "x <~ m 'or_fail' op ; k" := (try op m (fun x => k))
  (at level 20, m at level 100, op at level 9, k at level 200, right associativity) : vm_scope.
