(* ===== verification/VMInstr.v ===== *)
(** * vm/vm.go: the instructions, one definition per case of the switch

    The calls are in the order of the source, with its error handling: what
    has been popped or fetched before an error stays popped and fetched. *)

From S2P Require Import Prelude GoSlice VMUtils VMStack VMArray VMMap VMContext VM.

Section instructions.
Context `{!GoRuntime} `{!Crypto} {C : Type} `{!VMContext C}.
(** Fuel of the search of MAPHASKEY, the one loop that may not end. *)
Context (map_fuel : nat).
Abbreviation MV := (M (VM C)).
Implicit Types (op : OpCode).

(** ** Stack *)

Definition exec_PUSH op : MV status :=
  '(arg, errArg1) ← fetch;
  let byteCount := bval arg + 1 in
  '(bytes, errArg2) ← fetchMany byteCount;
  check op [errArg1; errArg2] (push_or_fail op bytes).

Definition exec_DUP op : MV status :=
  '(tos, err) ← PopBytes op;
  check op [err]
    (err ← Push tos;
     match err with Some e => fail op e | None => push_or_fail op tos end).

Definition exec_ROLL op : MV status :=
  '(arg, err) ← fetch;
  stack ← gets evaluationStack;
  let index := Stack.GetLength stack - (bval arg + 2) in
  check op [err]
    (if negb (index =? -1) then
       if Stack.GetLength stack <=? bval arg then fail op "index out of bounds"
       else newTos <~ PopIndexAt index or_fail op; push_or_fail op newTos
     else mret Continue).

Definition exec_POP op : MV status :=
  '(_, rerr) ← PopBytes op;
  check op [rerr] (mret Continue).

(** ** Arithmetic on signed big integers *)

(** The operands of a binary operation, the right one on top. *)
Definition pop2_signed op (k : Z -> Z -> MV status) : MV status :=
  '(rhs, rerr) ← PopSignedBigInt op;
  '(lhs, lerr) ← PopSignedBigInt op;
  check op [rerr; lerr] (k lhs rhs).

Definition pop2_unsigned op (k : Z -> Z -> MV status) : MV status :=
  '(rhs, rerr) ← PopUnsignedBigInt op;
  '(lhs, lerr) ← PopUnsignedBigInt op;
  check op [rerr; lerr] (k lhs rhs).

Definition push_signed op (z : Z) : MV status :=
  x ← on_heap (SignedByteArrayConversion z); push_or_fail op x.

Definition exec_ADD op : MV status :=
  pop2_signed op (fun lhs rhs => push_signed op (lhs + rhs)).

Definition exec_SUB op : MV status :=
  pop2_signed op (fun lhs rhs => push_signed op (lhs - rhs)).

Definition exec_MULT op : MV status :=
  pop2_signed op (fun lhs rhs => push_signed op (lhs * rhs)).

(** [big.Int.Div] and [big.Int.Mod]: Euclidean division. *)
Definition bigint_Div (x y : Z) : Z := Z.sgn y * (x / Z.abs y).
Definition bigint_Mod (x y : Z) : Z := x mod Z.abs y.

Definition exec_DIV op : MV status :=
  pop2_signed op (fun lhs rhs =>
    if rhs =? 0 then fail op "Division by Zero"
    else push_signed op (bigint_Div lhs rhs)).

Definition exec_MOD op : MV status :=
  pop2_signed op (fun lhs rhs =>
    if rhs =? 0 then fail op "Division by Zero"
    else push_signed op (bigint_Mod lhs rhs)).

Definition exec_NEG op : MV status :=
  tos <~ PopSignedBigInt op or_fail op;
  (x ← on_heap (SignedByteArrayConversion (- tos)); push_ignore x).

(** ** Comparisons: EQ and NEQ compare the bytes, sign included *)

Definition exec_EQ op : MV status :=
  pop2_unsigned op (fun lhs rhs => push_bool (lhs =? rhs)).

Definition exec_NEQ op : MV status :=
  pop2_unsigned op (fun lhs rhs => push_bool (negb (lhs =? rhs))).

Definition exec_LT op : MV status :=
  pop2_signed op (fun lhs rhs => push_bool (lhs <? rhs)).

Definition exec_GT op : MV status :=
  pop2_signed op (fun lhs rhs => push_bool (rhs <? lhs)).

Definition exec_LTE op : MV status :=
  pop2_signed op (fun lhs rhs => push_bool (lhs <=? rhs)).

Definition exec_GTE op : MV status :=
  pop2_signed op (fun lhs rhs => push_bool (rhs <=? lhs)).

(** ** Shifts: the count is in the code *)

Definition exec_SHIFTL op : MV status :=
  '(nrOfShifts, errArg) ← fetch;
  '(tos, errStack) ← PopSignedBigInt op;
  check op [errArg; errStack] (push_signed op (Z.shiftl tos (bval nrOfShifts))).

Definition exec_SHIFTR op : MV status :=
  '(nrOfShifts, errArg) ← fetch;
  '(tos, errStack) ← PopSignedBigInt op;
  check op [errArg; errStack] (push_signed op (Z.shiftr tos (bval nrOfShifts))).

(** ** Control flow *)

Definition exec_NOP op : MV status :=
  '(_, err) ← fetch;
  match err with Some e => fail op e | None => mret Continue end.

Definition jump (target : Z) : MV unit := modify (fun v => set_pc v target).

Definition exec_JMP op : MV status :=
  '(nextInstruction, err) ← fetchMany 2;
  check op [err]
    (bs ← on_heap (read nextInstruction);
     jump (be_val bs);;
     mret Continue).

Definition exec_JMPIF op : MV status :=
  '(nextInstruction, errArg) ← fetchMany 2;
  '(rhs, errStack) ← PopBytes op;
  check op [errArg; errStack]
    (rb ← on_heap (read rhs);
     cond ← of_option (ByteArrayToBool rb);
     if (cond : bool) then
       bs ← on_heap (read nextInstruction);
       target ← of_option (ByteArrayToInt bs);
       jump target;; mret Continue
     else mret Continue).

(** [for i := int(argsToLoad) - 1; i >= 0; i--]: [n] arguments are left. *)
Fixpoint pop_args op (n : nat) (variables : gmap Z Z) : MV (gmap Z Z * error) :=
  match n with
  | O => mret (variables, None)
  | S i =>
      '(x, err) ← PopUnsignedBigInt op;
      match err with
      | Some _ => mret (variables, err)
      | None => pop_args op i (<[Z.of_nat i := x]> variables)
      end
  end.

(** What CALL and a taken CALLIF do with the target and the argument count. *)
Definition enter_function op (returnAddressBytes : slice) (argsToLoad : byte) : MV status :=
  bs ← on_heap (read returnAddressBytes);
  let returnAddress := be_val bs in
  c ← gets code;
  if (returnAddress =? 0) || (len c <? returnAddress) then fail op "ReturnAddress out of bounds"
  else
    here ← gets pc;
    variables <~ pop_args op (Z.to_nat (bval argsToLoad)) ∅ or_fail op;
    (modify (fun v => set_callStack v (CallStack.Push (callStack v) (mkFrame variables here)));;
     jump returnAddress;;
     mret Continue).

Definition exec_CALL op : MV status :=
  '(returnAddressBytes, errArg1) ← fetchMany 2;
  '(argsToLoad, errArg2) ← fetch;
  check op [errArg1; errArg2] (enter_function op returnAddressBytes argsToLoad).

Definition exec_CALLIF op : MV status :=
  '(returnAddressBytes, errArg1) ← fetchMany 2;
  '(argsToLoad, errArg2) ← fetch;
  '(rhs, errStack) ← PopBytes op;
  check op [errArg1; errArg2; errStack]
    (rb ← on_heap (read rhs);
     cond ← of_option (ByteArrayToBool rb);
     if (cond : bool) then enter_function op returnAddressBytes argsToLoad
     else mret Continue).

(** The external call itself is not implemented in the source. *)
Definition exec_CALLEXT op : MV status :=
  '(_, errArg1) ← fetchMany 32;
  '(_, errArg2) ← fetchMany 4;
  '(_, errArg3) ← fetch;
  check op [errArg1; errArg2; errArg3] (mret Continue).

Definition exec_RET op : MV status :=
  cs ← gets callStack;
  let '(callstackTos, err) := CallStack.Peek cs in
  check op [err]
    (modify (fun v => set_callStack v (CallStack.Pop (callStack v)).1);;
     frame ← of_option callstackTos;
     jump (returnAddress frame);;
     mret Continue).

(** ** Memory and storage *)

Definition exec_SIZE op : MV status :=
  element <~ PopBytes op or_fail op;
  (size ← on_heap (UInt64ToByteArray (u64 (len element)));
   push_or_fail op size).

Definition exec_STORE op : MV status :=
  '(address, errArgs) ← fetch;
  '(rhs, errStack) ← PopSignedBigInt op;
  check op [errArgs; errStack]
    (cs ← gets callStack;
     match CallStack.Peek cs with
     | (_, Some e) => fail op e
     | (_, None) =>
         modify (fun v => set_callStack v
           (CallStack.set_variable (callStack v) (bval address) rhs));;
         mret Continue
     end).

Definition exec_SSTORE op : MV status :=
  '(index, errArgs) ← fetch;
  '(value, errStack) ← PopBytes op;
  check op [errArgs; errStack]
    (c ← gets context;
     '(c', err) ← on_heap (SetContractVariable c (bval index) value);
     modify (fun v => set_context v c');;
     match err with Some e => fail op e | None => mret Continue end).

Definition exec_LOAD op : MV status :=
  '(address, errArg) ← fetch;
  cs ← gets callStack;
  let '(callstackTos, errCallStack) := CallStack.Peek cs in
  check op [errArg; errCallStack]
    (frame ← of_option callstackTos;
     push_signed op (default 0 (variables frame !! bval address))).

Definition exec_SLOAD op : MV status :=
  '(index, err) ← fetch;
  check op [err]
    (c ← gets context;
     value <~ on_heap (GetContractVariable c (bval index)) or_fail op;
     push_or_fail op value).

(** ** The transaction and the account *)

(** A push of bytes that the context returns by value. *)
Definition push_bytes op (bs : bytes) : MV status :=
  x ← on_heap (slice_lit bs); push_or_fail op x.

Definition exec_ADDRESS op : MV status :=
  c ← gets context; push_bytes op (GetAddress c).

Definition exec_ISSUER op : MV status :=
  c ← gets context; push_bytes op (GetIssuer c).

Definition exec_BALANCE op : MV status :=
  c ← gets context; push_bytes op (le_bytes 8 (GetBalance c)).

Definition exec_CALLER op : MV status :=
  c ← gets context; push_bytes op (GetSender c).

Definition exec_CALLVAL op : MV status :=
  c ← gets context; push_bytes op (le_bytes 8 (GetAmount c)).

(** Each iteration advances by at least two bytes. *)
Fixpoint calldata_loop op (fuel : nat) (td : slice) (i : Z) : MV status :=
  if i <? len td then
    b ← on_heap (index td i);
    let length := bval b in
    if len td - i - 1 <=? length then fail op "Index out of bounds"
    else
      x ← of_option (reslice td (i + 1) (i + length + 2));
      err ← Push x;
      match err with
      | Some e => fail op e
      | None =>
          b ← on_heap (index td i);
          match fuel with
          | O => timeout
          | S fuel => calldata_loop op fuel td (i + (bval b + 1) + 1)
          end
      end
  else mret Continue.

Definition exec_CALLDATA op : MV status :=
  c ← gets context;
  let td := GetTransactionData c in
  calldata_loop op (s_len td) td 0.

(** ** Maps *)

Definition exec_NEWMAP op : MV status :=
  m ← on_heap Map.NewMap; push_or_fail op m.

Definition exec_MAPHASKEY op : MV status :=
  mba <~ PopBytes op or_fail op;
  m <~ on_heap (Map.MapFromByteArray mba) or_fail op;
  k <~ PopBytes op or_fail op;
  result <~ on_heap (Map.MapContainsKey map_fuel m k) or_fail op;
  push_bool result.

(** A heap operation that returns the new value of the map or array. *)
Definition updated (m : M heap (slice * error)) : MV (slice * error) := on_heap m.

Definition exec_MAPPUSH op : MV status :=
  mba <~ PopBytes op or_fail op;
  k <~ PopBytes op or_fail op;
  v <~ PopBytes op or_fail op;
  m <~ on_heap (Map.MapFromByteArray mba) or_fail op;
  m <~ updated (Map.Append m k v) or_fail op;
  push_or_fail op m.

Definition exec_MAPGETVAL op : MV status :=
  mapAsByteArray <~ PopBytes op or_fail op;
  k <~ PopBytes op or_fail op;
  m <~ on_heap (Map.MapFromByteArray mapAsByteArray) or_fail op;
  v <~ on_heap (Map.GetVal m k) or_fail op;
  push_or_fail op v.

Definition exec_MAPSETVAL op : MV status :=
  mapAsByteArray <~ PopBytes op or_fail op;
  m <~ on_heap (Map.MapFromByteArray mapAsByteArray) or_fail op;
  k <~ PopBytes op or_fail op;
  v <~ PopBytes op or_fail op;
  m <~ updated (Map.SetVal m k v) or_fail op;
  push_or_fail op m.

Definition exec_MAPREMOVE op : MV status :=
  mapAsByteArray <~ PopBytes op or_fail op;
  k <~ PopBytes op or_fail op;
  m <~ on_heap (Map.MapFromByteArray mapAsByteArray) or_fail op;
  m <~ updated (Map.Remove m k) or_fail op;
  push_or_fail op m.

(** ** Arrays *)

Definition exec_NEWARR op : MV status :=
  a ← on_heap Array.NewArray; push_ignore a.

Definition exec_ARRAPPEND op : MV status :=
  '(a, aerr) ← PopBytes op;
  '(v, verr) ← PopBytes op;
  check op [verr; aerr]
    (arr <~ on_heap (Array.ArrayFromByteArray a) or_fail op;
     ('(arr, err) ← on_heap (Array.Append arr v);
      match err with
      | Some _ => fail op "Invalid argument size of ARRAPPEND"
      | None => push_or_fail op arr
      end)).

(** [ByteArrayToUI16(i)] on the bytes of [i]. *)
Definition index_of (i : slice) : MV (Z * error) :=
  bs ← on_heap (read i); mret (ByteArrayToUI16 bs).

Definition exec_ARRINSERT op : MV status :=
  a <~ PopBytes op or_fail op;
  i <~ PopBytes op or_fail op;
  if 2 <? len i then fail op "Wrong index size"
  else
    element <~ PopBytes op or_fail op;
    arr <~ on_heap (Array.ArrayFromByteArray a) or_fail op;
    index <~ index_of i or_fail op;
    size <~ on_heap (Array.getSize arr) or_fail op;
    if size <=? index then fail op "Index out of bounds"
    else
      arr <~ updated (Array.Insert arr index element) or_fail op;
      push_or_fail op arr.

Definition exec_ARRREMOVE op : MV status :=
  a <~ PopBytes op or_fail op;
  i <~ PopBytes op or_fail op;
  if 2 <? len i then fail op "Wrong index size"
  else
    index <~ index_of i or_fail op;
    arr <~ on_heap (Array.ArrayFromByteArray a) or_fail op;
    arr <~ updated (Array.Remove arr index) or_fail op;
    push_or_fail op arr.

Definition exec_ARRAT op : MV status :=
  a <~ PopBytes op or_fail op;
  i <~ PopBytes op or_fail op;
  index <~ index_of i or_fail op;
  arr <~ on_heap (Array.ArrayFromByteArray a) or_fail op;
  element <~ on_heap (Array.At arr index) or_fail op;
  push_or_fail op element.

(** ** Cryptography *)

Definition exec_SHA3 op : MV status :=
  rhs <~ PopBytes op or_fail op;
  (bs ← on_heap (read rhs);
   push_bytes op (sha3_256 bs)).

Definition exec_CHECKSIG op : MV status :=
  '(publicKeySig, errArg1) ← PopBytes op;
  '(hash, errArg2) ← PopBytes op;
  check op [errArg1; errArg2]
    (if negb (len publicKeySig =? 64) then fail op "Not a valid address"
     else if negb (len hash =? 32) then fail op "Not a valid hash"
     else
       pk ← on_heap (read publicKeySig);
       hb ← on_heap (read hash);
       c ← gets context;
       let sig1 := GetSig1 c in
       push_bool (ecdsa_verify (be_val (take 32 pk)) (be_val (drop 32 pk)) hb
                    (be_val (take 32 sig1)) (be_val (drop 32 sig1)))).

(** ** The switch *)

Definition dispatch op : MV status :=
  match op_code op with
  | PUSH => exec_PUSH op
  | DUP => exec_DUP op
  | ROLL => exec_ROLL op
  | POP => exec_POP op
  | ADD => exec_ADD op
  | SUB => exec_SUB op
  | MULT => exec_MULT op
  | DIV => exec_DIV op
  | MOD => exec_MOD op
  | NEG => exec_NEG op
  | EQ => exec_EQ op
  | NEQ => exec_NEQ op
  | LT => exec_LT op
  | GT => exec_GT op
  | LTE => exec_LTE op
  | GTE => exec_GTE op
  | SHIFTL => exec_SHIFTL op
  | SHIFTR => exec_SHIFTR op
  | NOP => exec_NOP op
  | JMP => exec_JMP op
  | JMPIF => exec_JMPIF op
  | CALL => exec_CALL op
  | CALLIF => exec_CALLIF op
  | CALLEXT => exec_CALLEXT op
  | RET => exec_RET op
  | SIZE => exec_SIZE op
  | STORE => exec_STORE op
  | SSTORE => exec_SSTORE op
  | LOAD => exec_LOAD op
  | SLOAD => exec_SLOAD op
  | ADDRESS => exec_ADDRESS op
  | ISSUER => exec_ISSUER op
  | BALANCE => exec_BALANCE op
  | CALLER => exec_CALLER op
  | CALLVAL => exec_CALLVAL op
  | CALLDATA => exec_CALLDATA op
  | NEWMAP => exec_NEWMAP op
  | MAPHASKEY => exec_MAPHASKEY op
  | MAPPUSH => exec_MAPPUSH op
  | MAPGETVAL => exec_MAPGETVAL op
  | MAPSETVAL => exec_MAPSETVAL op
  | MAPREMOVE => exec_MAPREMOVE op
  | NEWARR => exec_NEWARR op
  | ARRAPPEND => exec_ARRAPPEND op
  | ARRINSERT => exec_ARRINSERT op
  | ARRREMOVE => exec_ARRREMOVE op
  | ARRAT => exec_ARRAT op
  | SHA3 => exec_SHA3 op
  | CHECKSIG => exec_CHECKSIG op
  | ERRHALT => mret (Return false)
  | HALT => mret (Return true)
  end.
End instructions.
