(* ===== verification/VMExec.v ===== *)
(** * vm/vm.go: the fetch-decode-execute loop *)

From S2P Require Import Prelude GoSlice VMUtils VMStack VMArray VMMap VMContext VM VMInstr.

Section exec.
Context `{!GoRuntime} `{!Crypto} {C : Type} `{!VMContext C}.
Context (map_fuel : nat).
Abbreviation MV := (M (VM C)).

(** One iteration of the loop of [Exec], without the tracing. *)
Definition step : MV status :=
  '(byteCode, err) ← fetch;
  match err with
  | Some e => push_string ("vm.exec(): " +:+ e);; mret (Return false)
  | None =>
      match OpCodes !! Z.to_nat (bval byteCode) with
      | None => push_string "vm.exec(): Not a valid opCode";; mret (Return false)
      | Some opCode =>
          f ← gets fee;
          if f <? gasPrice opCode then
            push_string "vm.exec(): out of gas";; mret (Return false)
          else
            modify (fun v => set_fee v (u64 (fee v - gasPrice opCode)));;
            dispatch map_fuel opCode
      end
  end.

Fixpoint run (fuel : nat) : MV bool :=
  match fuel with
  | O => timeout
  | S fuel =>
      st ← step;
      match st with Return b => mret b | Continue => run fuel end
  end.

(** [Exec(false)]: the fuel bounds the number of iterations. *)
Definition Exec (fuel : nat) : MV bool :=
  modify (fun v => set_code v (GetContract (context v)));;
  modify (fun v => set_fee v (GetFee (context v)));;
  c ← gets code;
  if 100000 <? len c then
    push_string "vm.exec(): Instruction set to big";; mret false
  else run fuel.
End exec.
