(* ===== verification/VMSafety.v ===== *)
(** * Safety of the container operations on arbitrary bytes

    The VM runs the operations of arrays and maps on whatever a contract left on
    the stack.  On any well-formed slices, each of them ends (the one exception
    is the key search of MAPHASKEY), never shrinks the heap, and returns a slice
    that exists and whose length is bounded by those of the arguments. *)

From S2P Require Import Prelude GoSlice VMUtils VMStack VMArray VMMap.

(** ** Heap operations on arbitrary well-formed slices *)

Section heap_ops.
Context `{!GoRuntime} {T : Prop}.
Implicit Types (h : heap) (s t : slice).

Lemma pwp_read s h (Q : bytes -> heap -> Prop) :
  wf_slice h s -> (forall bs, Z.of_nat (length bs) = len s -> Q bs h) -> pwp T (read s) h Q.
Proof. intros ? HQ. apply pwp_wp, read_spec, HQ. unfold len. by rewrite contents_length. Qed.

Lemma pwp_index s i h (Q : byte -> heap -> Prop) :
  (forall b, Q b h) -> pwp T (index s i) h Q.
Proof.
  intros HQ. unfold index. destruct (_ && _); [|done].
  apply pwp_bind. apply pwp_gets. by apply pwp_of_option.
Qed.

Lemma pwp_set_index s i b h (Q : unit -> heap -> Prop) :
  (forall h', heap_le h h' -> Q tt h') -> pwp T (set_index s i b) h Q.
Proof.
  intros HQ. unfold set_index. destruct (_ && _); [|done].
  apply pwp_modify, HQ, heap_le_alter. intros. apply length_insert.
Qed.

Lemma pwp_alloc bs cap h (Q : slice -> heap -> Prop) :
  (forall s h', heap_le h h' -> wf_slice h' s -> len s = Z.of_nat (length bs) -> Q s h') ->
  pwp T (alloc bs cap) h Q.
Proof.
  intros HQ. apply pwp_wp, alloc_spec. intros. apply HQ; [done..|]. unfold len. congruence.
Qed.

Lemma pwp_append s bs h (Q : slice -> heap -> Prop) :
  wf_slice h s ->
  (forall s' h', heap_le h h' -> wf_slice h' s' -> len s' = len s + Z.of_nat (length bs) -> Q s' h') ->
  pwp T (append s bs) h Q.
Proof.
  intros ? HQ. apply pwp_wp, append_spec; [done|]. intros s' h' ? _ Hl ? _ _.
  apply HQ; [done..|]. unfold len. rewrite Hl. lia.
Qed.

Lemma pwp_append_slice s t h (Q : slice -> heap -> Prop) :
  wf_slice h s -> wf_slice h t ->
  (forall s' h', heap_le h h' -> wf_slice h' s' -> len s' = len s + len t -> Q s' h') ->
  pwp T (append_slice s t) h Q.
Proof.
  intros ? ? HQ. apply pwp_bind, pwp_read; [done|]. intros bs Hbs.
  apply pwp_append; [done|]. intros s' h' ? ? Hl. apply HQ; [done..|]. lia.
Qed.

Lemma reslice_safe s lo hi t h :
  reslice s lo hi = Some t -> wf_slice h s ->
  wf_slice h t /\ 0 <= lo <= hi /\ len t = hi - lo.
Proof.
  intros Ht Hwf. pose proof (wf_reslice _ _ _ _ _ Ht Hwf).
  apply reslice_inv in Ht as (? & ? & ->). split; [done|]. unfold len. simpl. lia.
Qed.

Lemma pwp_reslice s lo hi h (Q : slice -> heap -> Prop) :
  wf_slice h s ->
  (forall t, wf_slice h t -> 0 <= lo <= hi -> len t = hi - lo -> Q t h) ->
  pwp T (of_option (reslice s lo hi)) h Q.
Proof.
  intros Hwf HQ. apply pwp_of_option. intros t Ht.
  destruct (reslice_safe _ _ _ _ _ Ht Hwf) as (? & ? & ?). by apply HQ.
Qed.
End heap_ops.

(** Carry what is known of the old heap over to the new one. *)
Ltac heap_up :=
  repeat match goal with
  | L : heap_le ?h ?h', H : wf_slice ?h ?x |- _ => apply (wf_slice_le h h' x L) in H
  | L : heap_le ?h ?h', L' : heap_le ?h' ?h'' |- _ =>
      let N := fresh "Hle" in assert (heap_le h h'') as N by (etrans; eassumption); clear L L'
  end.

Ltac hstep :=
  match goal with
  | |- pwp _ (_ ≫= _) _ _ => apply pwp_bind
  | |- pwp _ (mret _) _ _ => apply pwp_ret
  | |- pwp _ panic _ _ => apply pwp_panic
  | |- pwp _ (of_option (reslice _ _ _)) _ _ => apply pwp_reslice; [assumption|intros]
  | |- pwp _ (of_option _) _ _ => apply pwp_of_option; intros ? _
  | |- pwp _ (read _) _ _ => apply pwp_read; [assumption|intros]
  | |- pwp _ (index _ _) _ _ => apply pwp_index; intros
  | |- pwp _ (set_index _ _ _) _ _ => apply pwp_set_index; intros; heap_up
  | |- pwp _ (alloc _ _) _ _ => apply pwp_alloc; intros; heap_up
  | |- pwp _ (slice_lit _) _ _ => apply pwp_alloc; intros; heap_up
  | |- pwp _ (append _ _) _ _ => apply pwp_append; [assumption|intros; heap_up]
  | |- pwp _ (append_slice nil_slice _) _ _ =>
      apply pwp_append_slice; [apply wf_nil|assumption|intros; heap_up]
  | |- pwp _ (append_slice _ _) _ _ => apply pwp_append_slice; [assumption..|intros; heap_up]
  | |- pwp _ (match ?x with _ => _ end) _ _ => destruct x eqn:?
  | |- pwp _ (let '(_, _) := ?x in _) _ _ => destruct x eqn:?
  end.

(** What every operation on a container guarantees: it never shrinks the heap
    and returns a slice that exists, no longer than [B]. *)
Definition hpost (h : heap) (B : Z) (r : slice * error) (h' : heap) : Prop :=
  heap_le h h' /\ wf_slice h' r.1 /\ len r.1 <= B.

Ltac hpost_done :=
  try apply pwp_ret;
  repeat match goal with
  | |- hpost _ _ _ _ => unfold hpost
  | |- _ /\ _ => split
  end; simpl; try assumption; try reflexivity; try apply wf_nil;
  try (unfold len in *; simpl in *; lia).

Section containers.
Context `{!GoRuntime}.
Implicit Types (h : heap) (s t m a : slice).

Lemma MapFromByteArray_safe T m h :
  wf_slice h m -> pwp T (Map.MapFromByteArray m) h (hpost h (len m)).
Proof. intros. unfold Map.MapFromByteArray. pose proof (len_nonneg m). repeat hstep; hpost_done. Qed.

Lemma ArrayFromByteArray_safe T m h :
  wf_slice h m -> pwp T (Array.ArrayFromByteArray m) h (hpost h (len m)).
Proof. intros. unfold Array.ArrayFromByteArray. pose proof (len_nonneg m). repeat hstep; hpost_done. Qed.

Lemma getElementSize_safe T m i h :
  wf_slice h m ->
  pwp T (Map.getElementSize m i) h (fun r h' => h' = h /\ 0 <= r.1 <= UINT16_MAX /\ 0 <= i).
Proof.
  intros. unfold Map.getElementSize. repeat hstep.
  destruct (ByteArrayToUI16 bs) as [n e] eqn:E. apply ByteArrayToUI16_bounds in E. simpl. split; [done|lia].
Qed.

Lemma getElement_safe T m i h :
  wf_slice h m ->
  pwp T (Map.getElement m i) h (fun r h' => h' = h /\ wf_slice h r.1.1 /\ len r.1.1 <= len m /\
    (r.2 = None -> 0 <= i /\ i + 2 <= r.1.2)).
Proof.
  intros. pose proof (len_nonneg m). unfold Map.getElement. apply pwp_bind.
  eapply pwp_mono; [by apply getElementSize_safe|]. intros [n e] h' (-> & ? & ?); simpl in *.
  unfold Map.getBytesOfElement, Map.nextElementStartsAt in *.
  repeat hstep; hpost_done.
  all: done.
Qed.

Lemma GetVal_safe T m key h :
  wf_slice h m -> wf_slice h key ->
  pwp T (Map.GetVal m key) h (hpost h (len m)).
Proof.
  intros Hm Hkey. unfold Map.GetVal. hstep. hstep.
  apply pwp_ends; [apply Map_proofs.GetVal_loop_ends; unfold len; lia|].
  assert (forall n i, pwp True (Map.GetVal_loop n m bs i) h (hpost h (len m))) as Hloop; [|apply Hloop].
  pose proof (len_nonneg m).
  induction n as [|n IH]; intros i; cbn [Map.GetVal_loop].
  all: hstep; [|hpost_done]; hstep; [hpost_done|].
  all: apply pwp_bind; eapply pwp_mono; [by apply getElement_safe|].
  all: intros [[sk next] e] h' (-> & Hsk & _ & _); simpl in *; hstep; [hpost_done|].
  all: apply pwp_bind; eapply pwp_mono; [by apply getElement_safe|].
  all: intros [[sv next'] e'] h' (-> & Hsv & Hl & _); simpl in *; hstep; [hpost_done|].
  all: repeat hstep; hpost_done.
  apply IH.
Qed.

Lemma MapContainsKey_safe fuel m key h :
  wf_slice h m -> wf_slice h key ->
  pwp True (Map.MapContainsKey fuel m key) h (fun r h' => h' = h /\ True).
Proof.
  intros Hm Hkey. unfold Map.MapContainsKey. hstep. hstep.
  generalize 3. induction fuel as [|n IH]; intros i; cbn [Map.MapContainsKey_loop].
  all: hstep; [|done]; hstep; [done|].
  all: apply pwp_bind; eapply pwp_mono; [by apply getElement_safe|].
  all: intros [[sk next] e] h' (-> & Hsk & _ & _); simpl in *.
  all: apply pwp_bind; eapply pwp_mono; [by apply getElementSize_safe|].
  all: intros [sv e'] h' (-> & _); repeat hstep; done.
Qed.

Lemma map_sizes_safe T m h :
  wf_slice h m -> pwp T (Map.IncrementSize m) h (fun _ h' => heap_le h h') /\
                  pwp T (Map.DecrementSize m) h (fun _ h' => heap_le h h').
Proof.
  intros. split; unfold Map.IncrementSize, Map.DecrementSize, Map.getSize, Map.setSize.
  all: repeat hstep; done.
Qed.

Lemma MapAppend_safe T m key value h :
  wf_slice h m -> wf_slice h key -> wf_slice h value ->
  pwp T (Map.Append m key value) h (hpost h (len m + len key + len value + 4)).
Proof.
  intros. pose proof (len_nonneg key). pose proof (len_nonneg value). unfold Map.Append.
  hstep; [hpost_done|]. repeat (hstep; [idtac]).
  eapply pwp_mono; [by apply map_sizes_safe|]. simpl. intros ? hn ?. heap_up. hstep. hpost_done.
Qed.

Lemma MapRemove_safe T m key h :
  wf_slice h m -> wf_slice h key ->
  pwp T (Map.Remove m key) h (hpost h (2 * len m)).
Proof.
  intros Hm Hkey. unfold Map.Remove. hstep. hstep.
  apply pwp_ends; [apply Map_proofs.Remove_loop_ends; unfold len; lia|].
  assert (forall n i, pwp True (Map.Remove_loop n m bs i) h (hpost h (2 * len m))) as Hloop;
    [|apply Hloop].
  pose proof (len_nonneg m).
  induction n as [|n IH]; intros i; cbn [Map.Remove_loop].
  all: destruct (Z.ltb_spec i (len m)); [|repeat hstep; hpost_done]; hstep; [hstep; hpost_done|].
  all: apply pwp_bind; eapply pwp_mono; [by apply getElement_safe|].
  all: intros [[sk next] e] h' (-> & Hsk & _ & _); simpl in *; hstep; [hstep; hpost_done|].
  all: apply pwp_bind; eapply pwp_mono; [by apply getElementSize_safe|].
  all: intros [n' e'] h' (-> & Hn' & Hnx); unfold Map.nextElementStartsAt; simpl in *.
  all: hstep; [hstep; hpost_done|]; hstep; hstep; hstep.
  1,3: repeat (hstep; [idtac]); eapply pwp_mono; [by apply map_sizes_safe|];
    simpl; intros ? hn ?; heap_up; hstep; hpost_done; change (len nil_slice) with 0 in *; lia.
  all: repeat hstep; try by hpost_done.
Qed.

Lemma MapSetVal_safe T m key value h :
  wf_slice h m -> wf_slice h key -> wf_slice h value ->
  pwp T (Map.SetVal m key value) h (hpost h (2 * len m + len key + len value + 4)).
Proof.
  intros. unfold Map.SetVal. apply pwp_bind. eapply pwp_mono; [by apply MapRemove_safe|].
  intros [m1 e1] h1 (? & ? & ?); simpl in *. heap_up.
  apply pwp_bind. eapply pwp_mono; [by apply MapAppend_safe|].
  intros [m2 e2] h2 (? & ? & ?); simpl in *. heap_up. hstep. hpost_done.
Qed.

Lemma getSize_safe T a h :
  wf_slice h a ->
  pwp T (Array.getSize a) h (fun r h' => h' = h /\ 0 <= r.1 <= UINT16_MAX).
Proof.
  intros. unfold Array.getSize, UINT16_MAX. repeat hstep; hpost_done.
  all: apply ByteArrayToUI16_bounds in Heqp; unfold UINT16_MAX in *; lia.
Qed.

Lemma array_sizes_safe T a h :
  wf_slice h a -> pwp T (Array.IncrementSize a) h (fun _ h' => heap_le h h') /\
                  pwp T (Array.DecrementSize a) h (fun _ h' => heap_le h h').
Proof.
  intros. split; unfold Array.IncrementSize, Array.DecrementSize, Array.getSize, Array.setSize.
  all: repeat hstep; done.
Qed.

Lemma NewArray_safe T h :
  pwp T Array.NewArray h (fun s h' => heap_le h h' /\ wf_slice h' s /\ len s = 3).
Proof. unfold Array.NewArray. repeat hstep. hpost_done. Qed.

Lemma ArrayAppend_safe T a ba h :
  wf_slice h a -> wf_slice h ba -> pwp T (Array.Append a ba) h (hpost h (len a + len ba + 2)).
Proof.
  intros. pose proof (len_nonneg ba). unfold Array.Append.
  hstep; [hpost_done|]. repeat (hstep; [idtac]).
  eapply pwp_mono; [by apply array_sizes_safe|]. simpl. intros ? hn ?. heap_up. hstep. hpost_done.
Qed.

(** What holds of the result of an action holds of that of [goToIndex], which
    always calls it before its fuel is used up. *)
Definition action_safe (f : Array.action) (a : slice) (h : heap) (B : Z) : Prop :=
  forall T i n, 0 <= i <= UINT16_MAX -> 0 <= n <= UINT16_MAX ->
    pwp T (f a i n) h (fun r h' => heap_le h h' /\ wf_slice h' r.1 /\ wf_slice h' r.2.1 /\
      len r.1 <= B /\ len r.2.1 <= B).

Lemma walk_safe T f a h B n i off cur :
  wf_slice h a -> len a <= B -> action_safe f a h B ->
  0 <= off <= UINT16_MAX -> 0 <= cur -> i = cur + Z.of_nat n -> i <= UINT16_MAX ->
  pwp T (Array.walk n a f i off cur) h (fun r h' => heap_le h h' /\ wf_slice h' r.1 /\
    wf_slice h' r.2.1 /\ len r.1 <= B /\ len r.2.1 <= B).
Proof.
  intros Hwf HB Hf. revert off cur. pose proof (len_nonneg a).
  induction n as [|n IH]; intros off cur Hoff Hcur Hi Hmax; cbn [Array.walk].
  all: hstep; [|hpost_done]; hstep; hstep; hstep; hstep.
  all: hstep; hstep; [hpost_done|].
  all: apply ByteArrayToUI16_bounds in Heqp; destruct (Z.eqb_spec cur i); [by apply Hf|].
  - lia.
  - unfold UINT16_MAX in *. rewrite (wrap_small 16 (cur + 1)) by lia.
    apply IH; try lia. pose proof (wrap_bounds 16 ltac:(lia) (off + u16 (2 + z))). lia.
Qed.

Lemma goToIndex_safe T f a h B i :
  wf_slice h a -> len a <= B -> action_safe f a h B -> 0 <= i <= UINT16_MAX ->
  pwp T (Array.goToIndex a i f) h (fun r h' => heap_le h h' /\ wf_slice h' r.1 /\
    wf_slice h' r.2.1 /\ len r.1 <= B /\ len r.2.1 <= B).
Proof.
  intros Hwf HB Hf Hi. unfold Array.goToIndex. pose proof (len_nonneg a).
  apply pwp_bind. eapply pwp_mono; [by apply getSize_safe|]. intros [n e] h' [-> Hn]; simpl in *.
  hstep; [hpost_done|]. hstep; [hpost_done|].
  apply walk_safe; auto; unfold UINT16_MAX in *; lia.
Qed.

Lemma ArrayAt_safe T a h i :
  wf_slice h a -> 0 <= i <= UINT16_MAX ->
  pwp T (Array.At a i) h (hpost h (len a + UINT16_MAX)).
Proof.
  intros Hwf Hi. unfold Array.At. apply pwp_bind. pose proof (len_nonneg a).
  eapply pwp_mono; [apply goToIndex_safe with (B := len a + UINT16_MAX);
    [done|unfold UINT16_MAX in *; lia| |done]|].
  - intros T' k n Hk Hn. unfold Array.at_action. repeat hstep. hpost_done.
    all: pose proof (wrap_bounds 16 ltac:(lia) (u16 (k + 2) + n)); unfold UINT16_MAX in *; lia.
  - intros [a' [s e]] h' (? & ? & ? & ? & ?); simpl in *. hstep. hpost_done.
Qed.

Lemma remove_action_safe a h : wf_slice h a -> action_safe Array.remove_action a h (len a + UINT16_MAX).
Proof.
  intros Hwf T k n Hk Hn. unfold Array.remove_action. repeat hstep. hpost_done.
  all: change (len nil_slice) with 0 in *.
  all: pose proof (wrap_bounds 16 ltac:(lia) (u16 (k + 2) + n)); unfold UINT16_MAX in *; lia.
Qed.

Lemma ArrayRemove_safe T a h i :
  wf_slice h a -> 0 <= i <= UINT16_MAX ->
  pwp T (Array.Remove a i) h (hpost h (len a + UINT16_MAX)).
Proof.
  intros Hwf Hi. unfold Array.Remove. apply pwp_bind. pose proof (len_nonneg a).
  eapply pwp_mono; [apply goToIndex_safe with (B := len a + UINT16_MAX);
    [done|unfold UINT16_MAX in *; lia|by apply remove_action_safe|done]|].
  intros [a' [s e]] h' (? & ? & ? & ? & ?); simpl in *. hstep; [hpost_done|].
  apply pwp_bind. eapply pwp_mono; [by apply array_sizes_safe|]. simpl. intros e' hn ?.
  heap_up. hpost_done.
Qed.

Lemma insert_action_safe a x h :
  wf_slice h a -> wf_slice h x ->
  action_safe (Array.insert_action x) a h (len a + len x + UINT16_MAX + 2).
Proof.
  intros Hwf Hx T' k n Hk Hn. unfold Array.insert_action. pose proof (len_nonneg a).
  pose proof (len_nonneg x). do 4 hstep.
  apply pwp_bind. eapply pwp_mono; [by apply ArrayAppend_safe|].
  intros [t2 e2] h2 (? & ? & ?); simpl in *. heap_up. repeat hstep. hpost_done.
  all: change (len nil_slice) with 0 in *; unfold UINT16_MAX in *; lia.
Qed.

Lemma ArrayInsert_safe T a x h i :
  wf_slice h a -> wf_slice h x -> 0 <= i <= UINT16_MAX ->
  pwp T (Array.Insert a i x) h (hpost h (2 * len a + len x + 4 * UINT16_MAX)).
Proof.
  intros Hwf Hx Hi. unfold Array.Insert. apply pwp_bind. pose proof (len_nonneg a).
  pose proof (len_nonneg x).
  eapply pwp_mono; [by apply ArrayRemove_safe|]. intros [a1 e1] h1 (Hle1 & Hwf1 & Hl1).
  simpl in *. heap_up. hstep; [hpost_done|].
  apply pwp_bind. pose proof (len_nonneg a1).
  eapply pwp_mono; [apply goToIndex_safe with (B := len a1 + len x + UINT16_MAX + 2);
    [done|unfold UINT16_MAX in *; lia|by apply insert_action_safe|done]|].
  intros [a' [s e]] h' (? & ? & ? & ? & ?); simpl in *. heap_up. hpost_done.
  unfold UINT16_MAX in *. lia.
Qed.
End containers.
