(* ===== verification/VMInvariant.v ===== *)
(** * The machine invariant and its preservation by every instruction

    On any code whatsoever, an instruction that returns leaves a machine whose
    slices exist, whose memory counter is right and below the limit, whose fee
    is a uint64 that did not grow, and whose code slice is the one it started
    with; only the key search of MAPHASKEY can run for ever. *)

From S2P Require Import Prelude GoSlice VMUtils VMStack VMArray VMMap VMContext VM VMInstr VMExec VMSafety.

Section invariant.
Context `{!GoRuntime} `{!Crypto} {C : Type} `{!VMContext C} `{!ContextLaws C}.
Implicit Types (v : VM C) (x : slice).

(** A variable is a big integer that was an element of the stack. *)
Definition small (z : Z) : Prop := Z.of_nat (nbytes (Z.abs z)) <= 1000000.
Definition frame_ok (f : Frame) : Prop :=
  0 <= returnAddress f /\ map_Forall (fun _ z => small z) (variables f).

Record vm_ok v : Prop := {
  ok_code : wf_slice (vheap v) (code v);
  ok_pc : 0 <= pc v;
  ok_fee : is_u64 (fee v);
  ok_stack : stack_ok (evaluationStack v);
  ok_elems : Forall (wf_slice (vheap v)) (elems (evaluationStack v));
  ok_calls : Forall frame_ok (callStack v);
  ok_context : ctx_ok (vheap v) (context v)
}.

(** What a run of the machine never undoes. *)
Record vm_le v v' : Prop := {
  le_heap : heap_le (vheap v) (vheap v');
  le_fee : fee v' <= fee v;
  le_code : code v' = code v;
  le_contract : GetContract (context v') = GetContract (context v)
}.

#[global] Instance vm_le_preorder : PreOrder vm_le.
Proof.
  split; [by split|]. intros v1 v2 v3 [? ? ? ?] [? ? ? ?]. split; [by etrans|lia|congruence..].
Qed.

Lemma wf_slice_vm_le v v' x : vm_le v v' -> wf_slice (vheap v) x -> wf_slice (vheap v') x.
Proof. intros [] ?. by eapply wf_slice_le. Qed.

(** An element of the stack is no longer than the memory of the machine. *)
Definition elem_ok v x : Prop := wf_slice (vheap v) x /\ len x <= 1000000.

Lemma elem_ok_le v v' x : vm_le v v' -> elem_ok v x -> elem_ok v' x.
Proof. intros ? [? ?]. split; [by eapply wf_slice_vm_le|done]. Qed.

Lemma stack_elem_len s x : stack_ok s -> x ∈ elems s -> len x <= 1000000.
Proof. intros (? & ? & ?) ?%total_size_elem. lia. Qed.

Section specs.
Context {T : Prop}.

(** *** Field updates that keep the invariant *)

Lemma vm_ok_set_pc v p : vm_ok v -> 0 <= p -> vm_ok (set_pc v p) /\ vm_le v (set_pc v p).
Proof. intros [] ?. by do 2 split. Qed.

Lemma vm_ok_set_fee v f :
  vm_ok v -> 0 <= f <= fee v -> vm_ok (set_fee v f) /\ vm_le v (set_fee v f).
Proof. intros [] ?. split; split; simpl; try done; unfold_ranges; lia. Qed.

Lemma vm_ok_set_heap v h :
  vm_ok v -> heap_le (vheap v) h -> vm_ok (set_heap v h) /\ vm_le v (set_heap v h).
Proof.
  intros [] ?. split; split; simpl; try done.
  - by eapply wf_slice_le.
  - eapply Forall_impl; [done|]. intros. by eapply wf_slice_le.
  - by eapply ctx_ok_le.
Qed.

(** *** The primitives *)

Lemma pwp_on_heap {A} (m : M heap A) v R (Q : A -> VM C -> Prop) :
  vm_ok v -> pwp T m (vheap v) R ->
  (forall a h', R a h' -> heap_le (vheap v) h') ->
  (forall a v', vm_ok v' -> vm_le v v' -> R a (vheap v') -> Q a v') ->
  pwp T (on_heap m) v Q.
Proof.
  intros Hok Hm Hle HQ. unfold pwp, on_heap in *.
  destruct (m (vheap v)) as [[a h']| |]; [|done|done].
  destruct (vm_ok_set_heap v h' Hok ltac:(eauto)). by apply HQ.
Qed.

Lemma pwp_Push v x (Q : error -> VM C -> Prop) :
  vm_ok v -> wf_slice (vheap v) x -> pushable x ->
  (forall e v', vm_ok v' -> vm_le v v' -> Q e v') -> pwp T (Push x) v Q.
Proof.
  intros [] ? ? HQ. unfold pwp, Push. destruct (Stack.Push _ x) as [s e] eqn:E.
  apply Stack_proofs.Push_inv in E as [Hs Hcase]; [|done..].
  apply HQ; split; simpl; try done.
  destruct Hcase as [[_ ->]|[_ ->]]; [|done].
  apply Forall_app. split; [done|by apply Forall_singleton].
Qed.

Lemma pwp_Pop v (Q : slice * error -> VM C -> Prop) :
  vm_ok v ->
  (forall x e v', vm_ok v' -> vm_le v v' -> fee v' = fee v -> elem_ok v' x -> Q (x, e) v') ->
  pwp T Pop v Q.
Proof.
  intros [] HQ. unfold pwp, Pop. destruct (Stack.Pop _) as [s [x e]] eqn:E.
  apply Stack_proofs.Pop_inv in E as [Hs Hcase]; [|done].
  destruct Hcase as [[_ El]|(_ & -> & -> & El)].
  - assert (x ∈ elems (evaluationStack v)) as Hx by (rewrite El; set_solver).
    apply HQ; [split; simpl; try done|split; simpl; done|done|].
    + rewrite El in ok_elems0. by apply Forall_app in ok_elems0 as [? _].
    + split; [by apply (proj1 (Forall_forall _ _) ok_elems0)|by apply (stack_elem_len (evaluationStack v))].
  - apply HQ; [by split|by split|done|]. split; [apply wf_nil|done].
Qed.

Lemma pwp_PopIndexAt v i (Q : slice * error -> VM C -> Prop) :
  vm_ok v ->
  (forall x e v', vm_ok v' -> vm_le v v' -> elem_ok v' x -> Q (x, e) v') ->
  pwp T (PopIndexAt i) v Q.
Proof.
  intros [] HQ. unfold pwp, PopIndexAt.
  destruct (Stack.PopIndexAt _ i) as [[s [x e]]|] eqn:E; [|done].
  apply Stack_proofs.PopIndexAt_inv in E as [Hs Hcase]; [|done].
  destruct Hcase as [(_ & _ & El & El')|(_ & -> & ->)].
  - assert (x ∈ elems (evaluationStack v)) as Hx by (rewrite El; set_solver).
    apply HQ; [split; simpl; try done|split; simpl; done|].
    + rewrite El' . apply Forall_app. split; [by apply Forall_take|by apply Forall_drop].
    + split; [by apply (proj1 (Forall_forall _ _) ok_elems0)|by apply (stack_elem_len (evaluationStack v))].
  - apply HQ; [by split|by split|]. split; [apply wf_nil|done].
Qed.

(** The byte that [fetch] returns is the one at the program counter. *)
Definition code_at v (b : byte) : Prop :=
  contents (vheap v) (code v) !! Z.to_nat (pc v) = Some b.

Lemma pwp_fetch_at v (Q : byte * error -> VM C -> Prop) :
  vm_ok v -> (forall b e v', vm_ok v' -> vm_le v v' -> fee v' = fee v ->
                (e = None -> code_at v b) -> Q (b, e) v') ->
  pwp T fetch v Q.
Proof.
  intros Hok HQ. unfold fetch. apply pwp_bind, pwp_gets, pwp_bind, pwp_gets.
  case_match; [|by apply HQ].
  apply pwp_bind, pwp_modify. pose proof (ok_pc v Hok).
  destruct (vm_ok_set_pc v (pc v + 1) Hok ltac:(lia)) as [Hok' Hle'].
  apply pwp_bind. unfold on_heap, pwp, index. simpl.
  destruct (_ && _); [|done]. unfold mbind, M_bind. simpl.
  destruct (contents _ _ !! _) as [b|] eqn:Hb; [|done]. simpl.
  destruct v. by apply HQ.
Qed.

Lemma pwp_fetch v (Q : byte * error -> VM C -> Prop) :
  vm_ok v -> (forall b e v', vm_ok v' -> vm_le v v' -> Q (b, e) v') -> pwp T fetch v Q.
Proof. intros ? HQ. apply pwp_fetch_at; auto. Qed.

Lemma pwp_fetchMany v n (Q : slice * error -> VM C -> Prop) :
  vm_ok v -> 0 <= n ->
  (forall x e v', vm_ok v' -> vm_le v v' -> wf_slice (vheap v') x -> len x <= n -> Q (x, e) v') ->
  pwp T (fetchMany n) v Q.
Proof.
  intros Hok Hn HQ. unfold fetchMany. apply pwp_bind, pwp_gets, pwp_bind, pwp_gets.
  case_match; [|apply HQ; [done|done|apply wf_nil|done]].
  apply pwp_bind, pwp_modify. pose proof (ok_pc v Hok).
  destruct (vm_ok_set_pc v (pc v + n) Hok ltac:(lia)) as [Hok' Hle'].
  apply pwp_bind, pwp_of_option. intros t Ht.
  destruct (reslice_safe _ _ _ _ (vheap v) Ht) as (? & ? & ?); [apply Hok|].
  apply HQ; [done..|lia].
Qed.

Lemma gasCost_bound (op : OpCode) x :
  0 <= gasFactor op <= 2 -> len x <= 1000000 -> 0 <= gasCost op x < 2 ^ 32.
Proof.
  intros ? ?. pose proof (len_nonneg x). unfold gasCost.
  assert (0 <= (len x + 64 - 1) / 64 <= 1000000)
    by (split; [apply Z.div_pos; lia|apply Z.div_le_upper_bound; lia]).
  rewrite (wrap_small 64 ((len x + 64 - 1) / 64)) by lia. rewrite wrap_small by nia. nia.
Qed.

Lemma pwp_charge op v x (Q : bool -> VM C -> Prop) :
  vm_ok v -> 0 <= gasFactor op <= 2 -> elem_ok v x ->
  (forall b v', vm_ok v' -> vm_le v v' -> elem_ok v' x -> Q b v') -> pwp T (charge op x) v Q.
Proof.
  intros Hok Hop Hx HQ. unfold charge. apply pwp_bind, pwp_gets.
  pose proof (gasCost_bound op x Hop (proj2 Hx)) as Hg. pose proof (ok_fee v Hok) as Hf.
  destruct (Z.ltb_spec (to_int64 (u64 (fee v - gasCost op x))) 0) as [|Hnn]; [by apply HQ|].
  apply pwp_bind, pwp_modify. unfold_ranges.
  assert (gasCost op x <= fee v).
  { destruct (Z.le_gt_cases (gasCost op x) (fee v)) as [|Hgt]; [done|]. exfalso.
    apply Z.le_ngt in Hnn. apply Hnn, to_int64_neg_iff. rewrite wrap_idem. unfold wrap.
    rewrite <-(Z.mod_add _ 1) by lia. rewrite Z.mod_small; lia. }
  rewrite wrap_small by lia.
  destruct (vm_ok_set_fee v (fee v - gasCost op x) Hok ltac:(lia)) as [? ?].
  by apply HQ.
Qed.

Lemma pwp_PopBytes op v (Q : slice * error -> VM C -> Prop) :
  vm_ok v -> 0 <= gasFactor op <= 2 ->
  (forall x e v', vm_ok v' -> vm_le v v' -> elem_ok v' x -> Q (x, e) v') ->
  pwp T (PopBytes op) v Q.
Proof.
  intros Hok Hop HQ. apply pwp_bind, pwp_Pop; [done|]. intros x e v1 Hok1 Hle1 _ Hx.
  assert (elem_ok v1 nil_slice) by (split; [apply wf_nil|done]).
  destruct e as [e|]; [by apply HQ|].
  apply pwp_bind, pwp_charge; [done..|]. intros b v2 Hok2 Hle2 Hx2.
  destruct b; apply HQ; try done; try by etrans. split; [apply wf_nil|done].
Qed.

Lemma pwp_PopSignedBigInt op v (Q : Z * error -> VM C -> Prop) :
  vm_ok v -> 0 <= gasFactor op <= 2 ->
  (forall z e v', vm_ok v' -> vm_le v v' -> small z -> Q (z, e) v') ->
  pwp T (PopSignedBigInt op) v Q.
Proof.
  intros Hok Hop HQ. apply pwp_bind, pwp_Pop; [done|]. intros x e v1 Hok1 Hle1 _ Hx.
  destruct e as [e|]; [by apply HQ|].
  apply pwp_bind, pwp_charge; [done..|]. intros b v2 Hok2 Hle2 [Hx2 Hl2].
  destruct b; [|apply HQ; try done; by etrans].
  apply pwp_bind. eapply (pwp_on_heap _ _ (fun bs h' => h' = vheap v2 /\ Z.of_nat (length bs) = len x));
    [done|by apply pwp_read|by intros ? ? [-> _]|].
  intros bs v3 Hok3 Hle3 [_ Hbs]. apply pwp_of_option. intros [z e] Hz.
  apply HQ; [done|by do 2 (etrans; [done|])|].
  destruct bs as [|sign val]; [done|]. unfold SignedBigIntConversion, small in *.
  assert (nbytes (Z.abs (be_val val)) <= length val)%nat as Hn.
  { pose proof (be_val_bound val). apply nbytes_le. rewrite Z.abs_eq by lia. done. }
  simpl in Hbs. repeat case_match; simplify_eq; rewrite ?Z.abs_opp; first [done|lia].
Qed.

Lemma pwp_PopUnsignedBigInt op v (Q : Z * error -> VM C -> Prop) :
  vm_ok v -> 0 <= gasFactor op <= 2 ->
  (forall z e v', vm_ok v' -> vm_le v v' -> small z -> Q (z, e) v') ->
  pwp T (PopUnsignedBigInt op) v Q.
Proof.
  intros Hok Hop HQ. apply pwp_bind, pwp_Pop; [done|]. intros x e v1 Hok1 Hle1 _ Hx.
  destruct e as [e|]; [by apply HQ|].
  apply pwp_bind, pwp_charge; [done..|]. intros b v2 Hok2 Hle2 [Hx2 Hl2].
  destruct b; [|apply HQ; try done; by etrans].
  apply pwp_bind. eapply (pwp_on_heap _ _ (fun bs h' => h' = vheap v2 /\ Z.of_nat (length bs) = len x));
    [done|by apply pwp_read|by intros ? ? [-> _]|].
  intros bs v3 Hok3 Hle3 [_ Hbs]. apply HQ; [done|by do 2 (etrans; [done|])|].
  unfold small. pose proof (be_val_bound bs). pose proof (nbytes_le (be_val bs) (length bs)).
  rewrite Z.abs_eq by lia. lia.
Qed.
End specs.
End invariant.

(** ** Stepping through the instructions *)

(** Carry what is known of the old machine over to the new one. *)
Ltac vm_up :=
  repeat match goal with
  | H : elem_ok _ _ |- _ => destruct H
  | L : vm_le ?v ?v', H : wf_slice (vheap ?v) ?x |- _ => apply (wf_slice_vm_le v v' x L) in H
  | L : vm_le ?v ?v', L' : vm_le ?v' ?v'' |- _ =>
      let N := fresh "Hle" in assert (vm_le v v'') as N by (etrans; eassumption); clear L L'
  end.

Section instructions.
Context `{!GoRuntime} `{!Crypto} {C : Type} `{!VMContext C} `{!ContextLaws C}.
Context {T : Prop}.
Implicit Types (v : VM C) (x : slice) (op : OpCode).

(** The outcome of an instruction: never undone, and good if it goes on. *)
Definition post v0 (st : status) v : Prop := vm_le v0 v /\ (st = Continue -> vm_ok v).

Lemma push_string_le msg v0 v (Q : unit -> VM C -> Prop) :
  vm_le v0 v -> (forall v', vm_le v0 v' -> Q tt v') -> pwp T (push_string msg) v Q.
Proof.
  intros Hle HQ. unfold push_string, pwp, on_heap, slice_of_string, alloc, mbind, M_bind. simpl.
  unfold Push. destruct (Stack.Push _ _) as [s e]. apply HQ. etrans; [done|].
  split; simpl; [apply heap_le_app|lia|done..].
Qed.

Lemma fail_safe op e v0 v : vm_le v0 v -> pwp T (fail op e) v (post v0).
Proof.
  intros Hle. apply pwp_bind. eapply push_string_le; [done|]. intros v' ?.
  apply pwp_ret. by split.
Qed.

Lemma continue_safe v0 v : vm_ok v -> vm_le v0 v -> pwp T (mret Continue) v (post v0).
Proof. intros. apply pwp_ret. by split. Qed.

Lemma return_safe b v0 v : vm_le v0 v -> pwp T (mret (Return b)) v (post v0).
Proof. intros. apply pwp_ret. by split. Qed.

Lemma check_safe op errs (k : M (VM C) status) v0 v :
  vm_le v0 v -> pwp T k v (post v0) -> pwp T (check op errs k) v (post v0).
Proof.
  intros Hle Hk. unfold check. apply pwp_bind.
  induction errs as [|[e|] errs IH]; simpl; [by apply pwp_ret| |done].
  apply pwp_bind. eapply push_string_le; [done|]. intros v' ?.
  apply pwp_ret. by apply return_safe.
Qed.

Lemma try_safe {A} op (m : M (VM C) (A * error)) k v0 v :
  pwp T m v (fun r v' => vm_le v0 v' /\ (r.2 = None -> pwp T (k r.1) v' (post v0))) ->
  pwp T (try op m k) v (post v0).
Proof.
  intros Hm. apply pwp_bind. eapply pwp_mono; [done|]. intros [a [e|]] v' [Hle Hk]; simpl in *.
  - by apply fail_safe.
  - by apply Hk.
Qed.

Lemma push_ignore_safe v0 v x :
  vm_ok v -> vm_le v0 v -> wf_slice (vheap v) x -> pushable x ->
  pwp T (push_ignore x) v (post v0).
Proof.
  intros. apply pwp_bind, pwp_Push; [done..|]. intros e v' ? ?. apply continue_safe; [done|by etrans].
Qed.

Lemma push_or_fail_safe op v0 v x :
  vm_ok v -> vm_le v0 v -> wf_slice (vheap v) x -> pushable x ->
  pwp T (push_or_fail op x) v (post v0).
Proof.
  intros. apply pwp_bind, pwp_Push; [done..|]. intros [e|] v' ? ?.
  - apply fail_safe. by etrans.
  - apply continue_safe; [done|by etrans].
Qed.

Lemma pwp_on_heap_h (m : M heap (slice * error)) v B (Q : slice * error -> VM C -> Prop) :
  vm_ok v -> pwp T m (vheap v) (hpost (vheap v) B) ->
  (forall x e v', vm_ok v' -> vm_le v v' -> wf_slice (vheap v') x -> len x <= B -> Q (x, e) v') ->
  pwp T (on_heap m) v Q.
Proof.
  intros Hok Hm HQ. eapply pwp_on_heap; [done|exact Hm|by intros ? ? []|].
  intros [x e] v' ? ? (? & ? & ?). by apply HQ.
Qed.

(** An operation that only reads. *)
Lemma pwp_on_heap_same {A} (m : M heap A) v (P : A -> Prop) (Q : A -> VM C -> Prop) :
  vm_ok v -> pwp T m (vheap v) (fun a h' => h' = vheap v /\ P a) ->
  (forall a v', vm_ok v' -> vm_le v v' -> P a -> Q a v') -> pwp T (on_heap m) v Q.
Proof.
  intros Hok Hm HQ. eapply pwp_on_heap; [done|exact Hm|by intros ? ? [-> _]|].
  intros a v' ? ? [_ ?]. by apply HQ.
Qed.

Lemma pwp_on_heap_read v x (Q : bytes -> VM C -> Prop) :
  vm_ok v -> wf_slice (vheap v) x ->
  (forall bs v', vm_ok v' -> vm_le v v' -> Z.of_nat (length bs) = len x -> Q bs v') ->
  pwp T (on_heap (read x)) v Q.
Proof.
  intros Hok Hx HQ.
  eapply (pwp_on_heap _ _ (fun bs h' => h' = vheap v /\ Z.of_nat (length bs) = len x));
    [done|by apply pwp_read|by intros ? ? [-> _]|]. intros bs v' ? ? [_ ?]. by apply HQ.
Qed.

Lemma pwp_on_heap_lit v bs (Q : slice -> VM C -> Prop) :
  vm_ok v ->
  (forall x v', vm_ok v' -> vm_le v v' -> wf_slice (vheap v') x -> len x = Z.of_nat (length bs) -> Q x v') ->
  pwp T (on_heap (slice_lit bs)) v Q.
Proof.
  intros Hok HQ.
  eapply (pwp_on_heap _ _ (fun x h' => heap_le (vheap v) h' /\ wf_slice h' x /\ len x = Z.of_nat (length bs)));
    [done|by apply pwp_alloc; auto|by intros ? ? [? _]|]. intros x v' ? ? (_ & ? & ?). by apply HQ.
Qed.

Lemma push_bool_safe b v0 v : vm_ok v -> vm_le v0 v -> pwp T (push_bool b) v (post v0).
Proof.
  intros. apply pwp_bind, pwp_on_heap_lit; [done|]. intros x v' ? ? ? Hx.
  apply push_ignore_safe; [done|by etrans|done|]. unfold pushable. simpl in Hx. lia.
Qed.

Lemma pwp_on_heap_signed v z (Q : slice -> VM C -> Prop) :
  vm_ok v ->
  (forall x v', vm_ok v' -> vm_le v v' -> wf_slice (vheap v') x ->
     len x = 1 + Z.of_nat (nbytes (Z.abs z)) -> Q x v') ->
  pwp T (on_heap (SignedByteArrayConversion z)) v Q.
Proof.
  intros Hok HQ.
  eapply (pwp_on_heap _ _ (fun x h' => heap_le (vheap v) h' /\ wf_slice h' x /\
    len x = 1 + Z.of_nat (nbytes (Z.abs z)))); [done| |by intros ? ? [? _]|].
  - apply pwp_wp, SignedByteArrayConversion_spec. intros s h' Hwf Hc Hp _.
    split; [by apply prefix_heap_le|]. split; [done|].
    unfold len. rewrite <-(contents_length h' s Hwf), Hc, length_signed_bytes. lia.
  - intros x v' ? ? (_ & ? & ?). by apply HQ.
Qed.

Lemma push_signed_safe op z v0 v :
  vm_ok v -> vm_le v0 v -> Z.of_nat (nbytes (Z.abs z)) <= 3000000 ->
  pwp T (push_signed op z) v (post v0).
Proof.
  intros ? ? Hz. apply pwp_bind, pwp_on_heap_signed; [done|]. intros x v' ? ? ? Hx.
  apply push_or_fail_safe; [done|by etrans|done|]. unfold pushable. lia.
Qed.

Lemma push_bytes_safe op bs v0 v :
  vm_ok v -> vm_le v0 v -> Z.of_nat (length bs) <= 1000000 ->
  pwp T (push_bytes op bs) v (post v0).
Proof.
  intros. apply pwp_bind, pwp_on_heap_lit; [done|]. intros x v' ? ? ? Hx.
  apply push_or_fail_safe; [done|by etrans|done|]. unfold pushable. lia.
Qed.

Lemma jump_safe target v0 v :
  vm_ok v -> vm_le v0 v -> 0 <= target ->
  pwp T (jump target;; mret Continue) v (post v0).
Proof.
  intros Hok Hle Ht. destruct (vm_ok_set_pc v target Hok Ht). apply pwp_bind, pwp_modify.
  apply continue_safe; [done|by etrans].
Qed.
End instructions.
