(* ===== verification/VMInstrSafe.v ===== *)
(** * Every instruction keeps the machine invariant

    One lemma per instruction, by stepping through its calls with the
    specifications of VMInvariant.v; then one iteration of the loop. *)

From S2P Require Import Prelude GoSlice VMUtils VMStack VMArray VMMap VMContext VM VMInstr VMExec VMSafety VMInvariant.

Ltac vstep :=
  match goal with
  | |- pwp _ (let '(_, _) := CallStack.Peek ?cs in _) _ _ => destruct (CallStack.Peek cs) eqn:?
  | |- pwp _ (check _ _ _) _ _ => apply check_safe; [assumption|]
  | |- pwp _ (try _ _ _) _ _ => apply try_safe
  | |- _ /\ (_ -> _) => split; [assumption|intros _; simpl]
  | |- pwp _ (fail _ _) _ _ => apply fail_safe; assumption
  | |- pwp _ (mret Continue) _ _ => apply continue_safe; assumption
  | |- pwp _ (mret (Return _)) _ _ => apply return_safe; assumption
  | |- pwp _ (jump _ ;; mret Continue) _ _ => apply jump_safe; [assumption..|]
  | |- pwp _ (push_or_fail _ _) _ _ =>
      apply push_or_fail_safe; [assumption..|unfold pushable]
  | |- pwp _ (push_ignore _) _ _ => apply push_ignore_safe; [assumption..|unfold pushable]
  | |- pwp _ (push_bool _) _ _ => apply push_bool_safe; assumption
  | |- pwp _ (push_signed _ _) _ _ => apply push_signed_safe; [assumption..|]
  | |- pwp _ (push_bytes _ _) _ _ => apply push_bytes_safe; [assumption..|]
  | |- pwp _ (_ ≫= _) _ _ => apply pwp_bind
  | |- pwp _ (gets _) _ _ => apply pwp_gets
  | |- pwp _ fetch _ _ => apply pwp_fetch; [assumption|intros; vm_up]
  | |- pwp _ (fetchMany _) _ _ => apply pwp_fetchMany; [assumption|lia|intros; vm_up]
  | |- pwp _ (PopBytes _) _ _ => apply pwp_PopBytes; [assumption..|intros; vm_up]
  | |- pwp _ (PopSignedBigInt _) _ _ => apply pwp_PopSignedBigInt; [assumption..|intros; vm_up]
  | |- pwp _ (PopUnsignedBigInt _) _ _ => apply pwp_PopUnsignedBigInt; [assumption..|intros; vm_up]
  | |- pwp _ (PopIndexAt _) _ _ => apply pwp_PopIndexAt; [assumption..|intros; vm_up]
  | |- pwp _ (Push _) _ _ => apply pwp_Push; [assumption..|unfold pushable|intros; vm_up]
  | |- pwp _ (on_heap (read _)) _ _ => apply pwp_on_heap_read; [assumption..|intros; vm_up]
  | |- pwp _ (on_heap (slice_lit _)) _ _ => apply pwp_on_heap_lit; [assumption..|intros; vm_up]
  | |- pwp _ (on_heap (SignedByteArrayConversion _)) _ _ =>
      apply pwp_on_heap_signed; [assumption..|intros; vm_up]
  | |- pwp _ (of_option _) _ _ => apply pwp_of_option; intros
  | |- pwp _ (match ?x with _ => _ end) _ _ => destruct x eqn:?
  | |- pwp _ (if ?x then _ else _) _ _ => destruct x eqn:?
  end.

(** The size obligations of the pushes. *)
Ltac size := first [assumption | lia].
Ltac vsolve := repeat vstep; try size.

(** A container operation that satisfies [lem]. *)
Ltac vheap lem :=
  eapply pwp_on_heap_h; [assumption|apply lem; assumption|intros; vm_up; simpl in *].

Lemma abs_div_le x y : 0 < y -> Z.abs (x / y) <= Z.abs x.
Proof.
  intros. pose proof (Z.div_mod x y ltac:(lia)). pose proof (Z.mod_pos_bound x y ltac:(lia)). nia.
Qed.

Lemma be_val_nonneg bs : 0 <= be_val bs.
Proof. apply be_val_bound. Qed.

Lemma ByteArrayToInt_nonneg bs n :
  ByteArrayToInt bs = Some n -> Z.of_nat (length bs) <= 2 -> 0 <= n.
Proof.
  unfold ByteArrayToInt. intros Hn Hl. case_match; simplify_eq.
  rewrite be_val_zeros_app. pose proof (be_val_bound bs).
  assert (2 ^ (8 * Z.of_nat (length bs)) <= 2 ^ 16) by (apply Z.pow_le_mono_r; lia).
  rewrite to_int64_nonneg; lia.
Qed.

Lemma Peek_inv cs o e f :
  CallStack.Peek cs = (o, e) -> o = Some f -> Forall frame_ok cs ->
  last cs = Some f /\ frame_ok f.
Proof.
  unfold CallStack.Peek. intros Hp -> Hcs. destruct (last cs) as [g|] eqn:Hl; simplify_eq.
  split; [done|]. apply last_Some in Hl as [l ->].
  apply Forall_app in Hcs as [_ Hf]. by inversion Hf.
Qed.

Section calls.
Context `{!GoRuntime} `{!Crypto} {C : Type} `{!VMContext C} `{!ContextLaws C}.
Context {T : Prop} (op : OpCode) (Hop : 0 <= gasFactor op <= 2).
Implicit Types (v : VM C).

Lemma pop_args_safe n vars v1 (Q : gmap Z Z * error -> VM C -> Prop) :
  vm_ok v1 -> map_Forall (fun _ z => small z) vars ->
  (forall vars' e v', vm_ok v' -> vm_le v1 v' -> map_Forall (fun _ z => small z) vars' ->
     Q (vars', e) v') ->
  pwp T (pop_args op n vars) v1 Q.
Proof using All.
  revert vars v1. induction n as [|n IH]; intros vars v1 Hok1 Hv HQ; simpl.
  { apply pwp_ret. by apply HQ. }
  apply pwp_bind, pwp_PopUnsignedBigInt; [done..|]. intros z e v2 Hok2 Hle2 Hz.
  destruct e; [by apply HQ|]. apply IH; [done|by apply map_Forall_insert_2|].
  intros vars' e v3 ? ? ?. apply HQ; [done|by etrans|done].
Qed.

Lemma enter_function_safe ra n v0 v1 :
  vm_ok v1 -> vm_le v0 v1 -> wf_slice (vheap v1) ra ->
  pwp T (enter_function op ra n) v1 (post v0).
Proof using All.
  intros Hok Hle Hra. unfold enter_function. repeat vstep.
  match goal with H : vm_ok _ |- _ => pose proof (ok_pc _ H) as Hpc end.
  apply pop_args_safe; [done|apply map_Forall_empty|]. intros vars e v2 Hok2 Hle2 Hvars. vm_up. vstep.
  apply pwp_bind, pwp_modify. apply jump_safe; [| |apply be_val_nonneg].
  - destruct Hok2. split; simpl; try done. unfold CallStack.Push.
    apply Forall_app. split; [done|]. by apply Forall_singleton.
  - etrans; [done|]. by split.
Qed.

Lemma pwp_on_heap_index x i v1 (Q : byte -> VM C -> Prop) :
  vm_ok v1 -> (forall b v', vm_ok v' -> vm_le v1 v' -> Q b v') ->
  pwp T (on_heap (index x i)) v1 Q.
Proof using All.
  intros Hok1 HQ. eapply (pwp_on_heap _ _ (fun _ h' => h' = vheap v1));
    [done| |by intros ? ? ->|intros b v' ? ? _; by apply HQ].
  unfold index. destruct (_ && _); [|done]. apply pwp_bind, pwp_gets. by apply pwp_of_option.
Qed.

Lemma calldata_loop_safe n td i v0 v1 :
  vm_ok v1 -> vm_le v0 v1 -> wf_slice (vheap v1) td -> len td - i <= Z.of_nat n ->
  pwp T (calldata_loop op n td i) v1 (post v0).
Proof using All.
  revert i v1. induction n as [|n IH]; intros i v1 Hok1 Hle1 Hwf Hn; cbn [calldata_loop].
  all: destruct (Z.ltb_spec i (len td)); [|by apply continue_safe].
  { lia. }
  apply pwp_bind, pwp_on_heap_index; [done|]. intros b v2 ? ?. vm_up. vstep; [vstep|].
  apply pwp_bind, pwp_of_option. intros x Hx. pose proof (bval_range b).
  destruct (reslice_safe _ _ _ _ _ Hx Hwf) as (? & ? & ?).
  vstep. vstep; [lia|]. vstep; [vstep|].
  apply pwp_bind, pwp_on_heap_index; [done|]. intros b' v3 ? ?. vm_up.
  pose proof (bval_range b'). apply IH; [done..|lia].
Qed.
Lemma index_of_safe i v1 (Q : Z * error -> VM C -> Prop) :
  vm_ok v1 -> wf_slice (vheap v1) i ->
  (forall n e v', vm_ok v' -> vm_le v1 v' -> 0 <= n <= UINT16_MAX -> Q (n, e) v') ->
  pwp T (index_of i) v1 Q.
Proof.
  intros Hok1 Hi HQ. apply pwp_bind, pwp_on_heap_read; [done..|]. intros bs v' ? ? _.
  apply pwp_ret. destruct (ByteArrayToUI16 bs) as [n e] eqn:E.
  apply HQ; [done..|by eapply ByteArrayToUI16_bounds].
Qed.

End calls.

Section instructions.
Context `{!GoRuntime} `{!Crypto} {C : Type} `{!VMContext C} `{!ContextLaws C}.
Context {T : Prop} (map_fuel : nat).
Context (op : OpCode) (Hop : 0 <= gasFactor op <= 2).
Context (v0 v : VM C) (Hok : vm_ok v) (Hle : vm_le v0 v).

Lemma exec_PUSH_safe : pwp T (exec_PUSH op) v (post v0).
Proof using All. unfold exec_PUSH. vstep. vstep. pose proof (bval_range b). vsolve. Qed.

Lemma exec_DUP_safe : pwp T (exec_DUP op) v (post v0).
Proof using All. unfold exec_DUP. vsolve. Qed.

Lemma exec_ROLL_safe : pwp T (exec_ROLL op) v (post v0).
Proof using All. unfold exec_ROLL. vsolve. Qed.

Lemma exec_POP_safe : pwp T (exec_POP op) v (post v0).
Proof using All. unfold exec_POP. vsolve. Qed.

Lemma pop2_signed_safe k :
  (forall l r v', vm_ok v' -> vm_le v0 v' -> Z.of_nat (nbytes (Z.abs l)) <= 1000000 ->
     Z.of_nat (nbytes (Z.abs r)) <= 1000000 -> pwp T (k l r) v' (post v0)) ->
  pwp T (pop2_signed op k) v (post v0).
Proof using All. intros Hk. unfold pop2_signed. repeat vstep. by apply Hk. Qed.

Lemma pop2_unsigned_safe k :
  (forall l r v', vm_ok v' -> vm_le v0 v' -> pwp T (k l r) v' (post v0)) ->
  pwp T (pop2_unsigned op k) v (post v0).
Proof using All. intros Hk. unfold pop2_unsigned. repeat vstep. by apply Hk. Qed.

Lemma exec_ADD_safe : pwp T (exec_ADD op) v (post v0).
Proof using All.
  apply pop2_signed_safe. intros l r v' ? ? ? ?. vsolve.
  pose proof (nbytes_add (Z.abs l) (Z.abs r)). pose proof (nbytes_mono (Z.abs (l + r)) (Z.abs l + Z.abs r)).
  lia.
Qed.

Lemma exec_SUB_safe : pwp T (exec_SUB op) v (post v0).
Proof using All.
  apply pop2_signed_safe. intros l r v' ? ? ? ?. vsolve.
  pose proof (nbytes_add (Z.abs l) (Z.abs r)). pose proof (nbytes_mono (Z.abs (l - r)) (Z.abs l + Z.abs r)).
  lia.
Qed.

Lemma exec_MULT_safe : pwp T (exec_MULT op) v (post v0).
Proof using All.
  apply pop2_signed_safe. intros l r v' ? ? ? ?. vsolve.
  pose proof (nbytes_mul (Z.abs l) (Z.abs r)). rewrite Z.abs_mul. lia.
Qed.

Lemma exec_DIV_safe : pwp T (exec_DIV op) v (post v0).
Proof using All.
  apply pop2_signed_safe. intros l r v' ? ? ? ?. repeat vstep.
  apply Z.eqb_neq in Heqb. pose proof (abs_div_le l (Z.abs r) ltac:(lia)).
  pose proof (nbytes_mono (Z.abs (bigint_Div l r)) (Z.abs l)).
  unfold bigint_Div in *. rewrite Z.abs_mul in *. lia.
Qed.

Lemma exec_MOD_safe : pwp T (exec_MOD op) v (post v0).
Proof using All.
  apply pop2_signed_safe. intros l r v' ? ? ? ?. repeat vstep.
  apply Z.eqb_neq in Heqb. pose proof (Z.mod_pos_bound l (Z.abs r) ltac:(lia)).
  pose proof (nbytes_mono (Z.abs (bigint_Mod l r)) (Z.abs r)). unfold bigint_Mod in *. lia.
Qed.

Lemma exec_NEG_safe : pwp T (exec_NEG op) v (post v0).
Proof using All. unfold exec_NEG. vsolve. unfold small in *. rewrite Z.abs_opp in *. lia. Qed.

Lemma exec_EQ_safe : pwp T (exec_EQ op) v (post v0).
Proof using All. apply pop2_unsigned_safe. intros. vsolve. Qed.
Lemma exec_NEQ_safe : pwp T (exec_NEQ op) v (post v0).
Proof using All. apply pop2_unsigned_safe. intros. vsolve. Qed.
Lemma exec_LT_safe : pwp T (exec_LT op) v (post v0).
Proof using All. apply pop2_signed_safe. intros. vsolve. Qed.
Lemma exec_GT_safe : pwp T (exec_GT op) v (post v0).
Proof using All. apply pop2_signed_safe. intros. vsolve. Qed.
Lemma exec_LTE_safe : pwp T (exec_LTE op) v (post v0).
Proof using All. apply pop2_signed_safe. intros. vsolve. Qed.
Lemma exec_GTE_safe : pwp T (exec_GTE op) v (post v0).
Proof using All. apply pop2_signed_safe. intros. vsolve. Qed.

Lemma exec_SHIFTL_safe : pwp T (exec_SHIFTL op) v (post v0).
Proof using All.
  unfold exec_SHIFTL. repeat vstep. pose proof (bval_range b). unfold small in *.
  rewrite Z.shiftl_mul_pow2, Z.abs_mul by lia.
  pose proof (nbytes_mul (Z.abs z) (Z.abs (2 ^ bval b))).
  assert (nbytes (Z.abs (2 ^ bval b)) <= 32)%nat; [|lia].
  pose proof (Z.pow_pos_nonneg 2 (bval b)). apply nbytes_le.
  pose proof (Z.pow_lt_mono_r 2 (bval b) 256). simpl Z.of_nat. lia.
Qed.

Lemma exec_SHIFTR_safe : pwp T (exec_SHIFTR op) v (post v0).
Proof using All.
  unfold exec_SHIFTR. repeat vstep. pose proof (bval_range b). unfold small in *.
  rewrite Z.shiftr_div_pow2 by lia. pose proof (Z.pow_pos_nonneg 2 (bval b)).
  pose proof (abs_div_le z (2 ^ bval b)).
  pose proof (nbytes_mono (Z.abs (z / 2 ^ bval b)) (Z.abs z)). lia.
Qed.

(** *** Control flow *)

Lemma exec_NOP_safe : pwp T (exec_NOP op) v (post v0).
Proof using All. unfold exec_NOP. vsolve. Qed.

Lemma exec_JMP_safe : pwp T (exec_JMP op) v (post v0).
Proof using All. unfold exec_JMP. repeat vstep. apply be_val_nonneg. Qed.

Lemma exec_JMPIF_safe : pwp T (exec_JMPIF op) v (post v0).
Proof using All.
  unfold exec_JMPIF. repeat vstep. eapply ByteArrayToInt_nonneg; [done|lia].
Qed.

Lemma exec_CALL_safe : pwp T (exec_CALL op) v (post v0).
Proof using All. unfold exec_CALL. repeat vstep. by apply enter_function_safe. Qed.

Lemma exec_CALLIF_safe : pwp T (exec_CALLIF op) v (post v0).
Proof using All. unfold exec_CALLIF. repeat vstep. by apply enter_function_safe. Qed.

Lemma exec_CALLEXT_safe : pwp T (exec_CALLEXT op) v (post v0).
Proof using All. unfold exec_CALLEXT. repeat vstep. Qed.

Lemma exec_RET_safe : pwp T (exec_RET op) v (post v0).
Proof using All.
  unfold exec_RET. do 4 vstep. apply pwp_bind, pwp_modify. do 2 vstep.
  destruct (Peek_inv _ _ _ _ Heqp ltac:(eassumption) (ok_calls v Hok)) as [Hlast [Hra _]].
  unfold CallStack.Pop. rewrite Hlast. simpl. apply jump_safe; [| |done].
  - destruct Hok. split; simpl; try done. by apply Forall_take.
  - etrans; [done|]. by split.
Qed.

(** *** Memory and storage *)

Lemma exec_SIZE_safe : pwp T (exec_SIZE op) v (post v0).
Proof using All.
  unfold exec_SIZE, UInt64ToByteArray. repeat vstep. rewrite length_be_bytes in *. lia.
Qed.

Lemma exec_STORE_safe : pwp T (exec_STORE op) v (post v0).
Proof using All.
  unfold exec_STORE. repeat vstep. all: apply pwp_modify, continue_safe.
  all: try (etrans; [eassumption|by split]).
  all: match goal with H : vm_ok ?w |- _ => destruct H end; split; simpl; try done.
  all: unfold CallStack.set_variable; apply Forall_alter; [done|]; intros f _ [? ?].
  all: split; [done|by apply map_Forall_insert_2].
Qed.

Lemma exec_SSTORE_safe : pwp T (exec_SSTORE op) v (post v0).
Proof using All.
  unfold exec_SSTORE. repeat vstep. rename v'0 into v1.
  eapply (pwp_on_heap _ _ (fun r h' => heap_le (vheap v1) h' /\ ctx_ok h' r.1 /\
    GetContract r.1 = GetContract (context v1))); [done| |by intros ? ? []|].
  - apply pwp_wp, SetContractVariable_ok; [by apply ok_context|apply bval_range|done|].
    intros c' e' h' ? ? ?. split; [by apply prefix_heap_le|done].
  - intros [c' e'] v2 Hok2 Hle2 (_ & Hc & Hg). simpl in *.
    pose proof (le_contract _ _ Hle2) as Hg2. vm_up. apply pwp_bind, pwp_modify.
    assert (vm_ok (set_context v2 c')) by (destruct Hok2; split; done).
    assert (vm_le v2 (set_context v2 c')) by (split; simpl; [done|lia|done|congruence]).
    vm_up. repeat vstep.
Qed.

Lemma exec_LOAD_safe : pwp T (exec_LOAD op) v (post v0).
Proof using All.
  unfold exec_LOAD. repeat vstep. match goal with H : vm_ok ?w |- _ => pose proof (ok_calls _ H) as Hcs end.
  destruct (Peek_inv _ _ _ _ Heqp ltac:(eassumption) Hcs) as [_ [_ Hv]].
  destruct (variables _ !! bval b) as [z|] eqn:Hz; simpl; [|done].
  specialize (Hv _ _ Hz). unfold small in Hv. lia.
Qed.

Lemma exec_SLOAD_safe : pwp T (exec_SLOAD op) v (post v0).
Proof using All.
  unfold exec_SLOAD. repeat vstep. rename v' into v1.
  eapply (pwp_on_heap _ _ (fun r h' => heap_le (vheap v1) h' /\ wf_slice h' r.1 /\ pushable r.1));
    [done| |by intros ? ? []|].
  - apply pwp_wp, GetContractVariable_ok; [by apply ok_context|apply bval_range|].
    intros x e' h' ? ? ?. split; [by apply prefix_heap_le|done].
  - intros [x e'] v2 Hok2 Hle2 (_ & ? & Hp). simpl in *. vm_up. vsolve.
Qed.

Lemma exec_ADDRESS_safe : pwp T (exec_ADDRESS op) v (post v0).
Proof using All.
  unfold exec_ADDRESS. repeat vstep. destruct (fixed_length _ _ (ok_context v Hok)) as (-> & _). done.
Qed.

Lemma exec_ISSUER_safe : pwp T (exec_ISSUER op) v (post v0).
Proof using All.
  unfold exec_ISSUER. repeat vstep. destruct (fixed_length _ _ (ok_context v Hok)) as (_ & -> & _). done.
Qed.

Lemma exec_CALLER_safe : pwp T (exec_CALLER op) v (post v0).
Proof using All.
  unfold exec_CALLER. repeat vstep. destruct (fixed_length _ _ (ok_context v Hok)) as (_ & _ & ->). done.
Qed.

Lemma exec_BALANCE_safe : pwp T (exec_BALANCE op) v (post v0).
Proof using All. unfold exec_BALANCE. repeat vstep. by rewrite length_le_bytes. Qed.

Lemma exec_CALLVAL_safe : pwp T (exec_CALLVAL op) v (post v0).
Proof using All. unfold exec_CALLVAL. repeat vstep. by rewrite length_le_bytes. Qed.

Lemma exec_CALLDATA_safe : pwp T (exec_CALLDATA op) v (post v0).
Proof using All.
  unfold exec_CALLDATA. repeat vstep. apply calldata_loop_safe; [done..| |unfold len; lia].
  by apply GetTransactionData_ok, ok_context.
Qed.

(** *** Maps and arrays *)

Lemma exec_NEWMAP_safe : pwp T (exec_NEWMAP op) v (post v0).
Proof using All. unfold exec_NEWMAP, Map.NewMap. repeat vstep. simpl in *. lia. Qed.

Lemma exec_MAPPUSH_safe : pwp T (exec_MAPPUSH op) v (post v0).
Proof using All.
  unfold exec_MAPPUSH, updated. repeat vstep. vheap MapFromByteArray_safe. repeat vstep.
  vheap MapAppend_safe. vsolve.
Qed.

Lemma exec_MAPGETVAL_safe : pwp T (exec_MAPGETVAL op) v (post v0).
Proof using All.
  unfold exec_MAPGETVAL. repeat vstep. vheap MapFromByteArray_safe. repeat vstep.
  vheap GetVal_safe. vsolve.
Qed.

Lemma exec_MAPSETVAL_safe : pwp T (exec_MAPSETVAL op) v (post v0).
Proof using All.
  unfold exec_MAPSETVAL, updated. repeat vstep. vheap MapFromByteArray_safe. repeat vstep.
  vheap MapSetVal_safe. vsolve.
Qed.

Lemma exec_MAPREMOVE_safe : pwp T (exec_MAPREMOVE op) v (post v0).
Proof using All.
  unfold exec_MAPREMOVE, updated. repeat vstep. vheap MapFromByteArray_safe. repeat vstep.
  vheap MapRemove_safe. vsolve.
Qed.

Lemma exec_NEWARR_safe : pwp T (exec_NEWARR op) v (post v0).
Proof using All.
  unfold exec_NEWARR. vstep.
  eapply (pwp_on_heap _ _ (fun s h' => heap_le (vheap v) h' /\ wf_slice h' s /\ len s = 3));
    [done|apply NewArray_safe|by intros ? ? []|]. intros s v' ? ? (_ & ? & ?). vm_up. vsolve.
Qed.

Lemma exec_ARRAPPEND_safe : pwp T (exec_ARRAPPEND op) v (post v0).
Proof using All.
  unfold exec_ARRAPPEND. repeat vstep. vheap ArrayFromByteArray_safe. repeat vstep.
  vheap ArrayAppend_safe. vsolve.
Qed.

Lemma exec_ARRREMOVE_safe : pwp T (exec_ARRREMOVE op) v (post v0).
Proof using All.
  unfold exec_ARRREMOVE, updated. repeat vstep. apply index_of_safe; [done..|]. intros. vm_up.
  repeat vstep. vheap ArrayFromByteArray_safe. repeat vstep. vheap ArrayRemove_safe. vsolve.
  unfold UINT16_MAX in *. lia.
Qed.

Lemma exec_ARRAT_safe : pwp T (exec_ARRAT op) v (post v0).
Proof using All.
  unfold exec_ARRAT. repeat vstep. apply index_of_safe; [done..|]. intros. vm_up.
  repeat vstep. vheap ArrayFromByteArray_safe. repeat vstep. vheap ArrayAt_safe. vsolve.
  unfold UINT16_MAX in *. lia.
Qed.

Lemma exec_ARRINSERT_safe : pwp T (exec_ARRINSERT op) v (post v0).
Proof using All.
  unfold exec_ARRINSERT, updated. repeat vstep. vheap ArrayFromByteArray_safe. repeat vstep.
  apply index_of_safe; [done..|]. intros. vm_up. repeat vstep.
  eapply pwp_on_heap_same; [done|by apply getSize_safe|]. intros [size er] v3 ? ? _. vm_up. repeat vstep. vheap ArrayInsert_safe. vsolve.
  unfold UINT16_MAX in *. lia.
Qed.

(** *** Cryptography *)

Lemma exec_SHA3_safe : pwp T (exec_SHA3 op) v (post v0).
Proof using All. unfold exec_SHA3. repeat vstep. by rewrite sha3_256_length. Qed.

Lemma exec_CHECKSIG_safe : pwp T (exec_CHECKSIG op) v (post v0).
Proof using All. unfold exec_CHECKSIG. repeat vstep. Qed.
End instructions.

(** MAPHASKEY is the one instruction whose search may run out of any fuel. *)
Lemma exec_MAPHASKEY_safe `{!GoRuntime} `{!Crypto} {C : Type} `{!VMContext C} `{!ContextLaws C}
    map_fuel op (Hop : 0 <= gasFactor op <= 2) (v0 v : VM C) (Hok : vm_ok v) (Hle : vm_le v0 v) :
  pwp True (exec_MAPHASKEY map_fuel op) v (post v0).
Proof.
  unfold exec_MAPHASKEY. repeat vstep. vheap MapFromByteArray_safe. repeat vstep.
  eapply pwp_on_heap_same; [done|by apply MapContainsKey_safe|].
  intros [b er] v3 ? ? _. vm_up. repeat vstep.
Qed.

(** ** One iteration of the loop *)

Lemma OpCodes_gas n op :
  OpCodes !! n = Some op ->
  0 <= gasFactor op <= 2 /\ 0 <= gasPrice op <= 1000 /\
  (gasPrice op = 0 -> op_code op = ERRHALT \/ op_code op = HALT) /\
  (n < 51)%nat.
Proof.
  intros Hn. pose proof (lookup_lt_Some _ _ _ Hn) as Hlt. change (length OpCodes) with 51%nat in Hlt.
  do 51 (destruct n as [|n]; [injection Hn as <-; simpl; repeat split; try lia; auto|]).
  lia.
Qed.

Section step.
Context `{!GoRuntime} `{!Crypto} {C : Type} `{!VMContext C} `{!ContextLaws C}.
Context (map_fuel : nat).
Implicit Types (v : VM C).

Lemma dispatch_safe (T : Prop) op v0 v :
  0 <= gasFactor op <= 2 -> (op_code op = MAPHASKEY -> T) ->
  vm_ok v -> vm_le v0 v ->
  pwp T (dispatch map_fuel op) v (fun st v' => post v0 st v' /\
    (st = Continue -> op_code op <> ERRHALT /\ op_code op <> HALT)).
Proof.
  intros Hop HT Hok Hle.
  enough (pwp T (dispatch map_fuel op) v (post v0)) as Hpost.
  { unfold pwp in *. destruct (dispatch map_fuel op v) as [[st v']| |] eqn:E; [|done..].
    split; [done|]. intros ->. split; intros Hc; unfold dispatch in E; rewrite Hc in E; done. }
  unfold dispatch. destruct (op_code op) eqn:E;
    [ by apply exec_PUSH_safe
    | by apply exec_DUP_safe
    | by apply exec_ROLL_safe
    | by apply exec_POP_safe
    | by apply exec_ADD_safe
    | by apply exec_SUB_safe
    | by apply exec_MULT_safe
    | by apply exec_DIV_safe
    | by apply exec_MOD_safe
    | by apply exec_NEG_safe
    | by apply exec_EQ_safe
    | by apply exec_NEQ_safe
    | by apply exec_LT_safe
    | by apply exec_GT_safe
    | by apply exec_LTE_safe
    | by apply exec_GTE_safe
    | by apply exec_SHIFTL_safe
    | by apply exec_SHIFTR_safe
    | by apply exec_NOP_safe
    | by apply exec_JMP_safe
    | by apply exec_JMPIF_safe
    | by apply exec_CALL_safe
    | by apply exec_CALLIF_safe
    | by apply exec_CALLEXT_safe
    | by apply exec_RET_safe
    | by apply exec_SIZE_safe
    | by apply exec_STORE_safe
    | by apply exec_SSTORE_safe
    | by apply exec_LOAD_safe
    | by apply exec_SLOAD_safe
    | by apply exec_ADDRESS_safe
    | by apply exec_ISSUER_safe
    | by apply exec_BALANCE_safe
    | by apply exec_CALLER_safe
    | by apply exec_CALLVAL_safe
    | by apply exec_CALLDATA_safe
    | by apply exec_NEWMAP_safe
    | eapply pwp_weaken; [intros _; by apply HT|by apply exec_MAPHASKEY_safe]
    | by apply exec_MAPPUSH_safe
    | by apply exec_MAPGETVAL_safe
    | by apply exec_MAPSETVAL_safe
    | by apply exec_MAPREMOVE_safe
    | by apply exec_NEWARR_safe
    | by apply exec_ARRAPPEND_safe
    | by apply exec_ARRINSERT_safe
    | by apply exec_ARRREMOVE_safe
    | by apply exec_ARRAT_safe
    | by apply exec_SHA3_safe
    | by apply exec_CHECKSIG_safe
    | by apply return_safe
    | by apply return_safe ].
Qed.
End step.
