(* ===== verification/VMLoop.v ===== *)
(** * The main loop: termination, gas and memory

    What the fee buys: every iteration but the last one costs gas, so the loop
    of [Exec] runs at most [fee + 1] times; only the key search of MAPHASKEY,
    which charges no gas for its iterations, can keep it from ending. *)

From S2P Require Import Prelude GoSlice VMUtils VMStack VMArray VMMap VMContext VM VMInstr VMExec VMSafety VMInvariant VMInstrSafe.

Lemma OpCodes_MAPHASKEY n op : OpCodes !! n = Some op -> op_code op = MAPHASKEY -> n = 37%nat.
Proof.
  intros Hn. pose proof (lookup_lt_Some _ _ _ Hn) as Hlt. change (length OpCodes) with 51%nat in Hlt.
  do 51 (destruct n as [|n]; [injection Hn as <-; simpl; intros; done|]). lia.
Qed.

Section loop.
Context `{!GoRuntime} `{!Crypto} {C : Type} `{!VMContext C} `{!ContextLaws C}.
Context (map_fuel : nat).
Implicit Types (v : VM C).

(** The next instruction is MAPHASKEY. *)
Definition at_MAPHASKEY v : Prop := exists b, code_at v b /\ bval b = 37.

Lemma step_safe v :
  vm_ok v ->
  pwp (at_MAPHASKEY v) (step map_fuel) v (fun st v' =>
    vm_le v v' /\ (st = Continue -> vm_ok v' /\ fee v' < fee v)).
Proof.
  intros Hok. unfold step. apply pwp_bind, pwp_fetch_at; [done|]. intros b e v1 Hok1 Hle1 Hfee1 Hb.
  destruct e as [e|].
  { apply pwp_bind. eapply push_string_le; [done|]. intros. by apply pwp_ret. }
  destruct (OpCodes !! _) as [op|] eqn:Hop; cycle 1.
  { apply pwp_bind. eapply push_string_le; [done|]. intros. by apply pwp_ret. }
  destruct (OpCodes_gas _ _ Hop) as (Hgf & Hgp & Hg0 & Hn).
  apply pwp_bind, pwp_gets. destruct (Z.ltb_spec (fee v1) (gasPrice op)).
  { apply pwp_bind. eapply push_string_le; [done|]. intros. by apply pwp_ret. }
  apply pwp_bind, pwp_modify. pose proof (ok_fee v1 Hok1) as Hf. unfold_ranges.
  rewrite wrap_small by lia.
  destruct (vm_ok_set_fee v1 (fee v1 - gasPrice op) Hok1 ltac:(lia)) as [Hok2 Hle2].
  eapply pwp_mono; [eapply dispatch_safe with (v0 := set_fee v1 (fee v1 - gasPrice op)); try done|].
  - intros Hm. exists b. split; [by apply Hb|].
    pose proof (OpCodes_MAPHASKEY _ _ Hop Hm). pose proof (bval_range b). lia.
  - intros st v' [[Hle3 Hok3] Hh]. split; [by do 2 (etrans; [done|])|]. intros ->.
    split; [by apply Hok3|]. pose proof (le_fee _ _ Hle3) as Hf3. simpl in Hf3.
    destruct (Hh eq_refl) as [? ?]. destruct (Z.eq_dec (gasPrice op) 0) as [?%Hg0|]; [naive_solver|lia].
Qed.

(** The machines the loop goes through. *)
Definition next v v' : Prop := step map_fuel v = Done (Continue, v').

Lemma next_safe v v' : vm_ok v -> next v v' -> vm_ok v' /\ vm_le v v' /\ fee v' < fee v.
Proof. intros Hok Hn. pose proof (pwp_elim _ _ _ _ _ (step_safe v Hok) Hn). naive_solver. Qed.

Lemma nexts_safe n v v' :
  vm_ok v -> nsteps next n v v' -> vm_ok v' /\ vm_le v v' /\ Z.of_nat n <= fee v - fee v'.
Proof.
  intros Hok Hn. revert Hok. induction Hn as [|n v1 v2 v3 H1 _ IH]; intros Hok; [split; [done|split; [done|lia]]|].
  destruct (next_safe _ _ Hok H1) as (Hok2 & Hle & ?). destruct (IH Hok2) as (? & ? & ?).
  split; [done|]. split; [by etrans|lia].
Qed.

(** The key search of the next instruction does not end. *)
Definition stuck v : Prop := at_MAPHASKEY v /\ step map_fuel v = Timeout.

Lemma run_safe fuel v :
  vm_ok v -> fee v < Z.of_nat fuel ->
  pwp (exists v', rtc next v v' /\ stuck v') (run map_fuel fuel) v (fun b v' => vm_le v v').
Proof.
  revert v. induction fuel as [|fuel IH]; intros v Hok Hf.
  { pose proof (ok_fee v Hok). unfold_ranges. lia. }
  simpl. apply pwp_bind. pose proof (step_safe v Hok) as Hs. unfold pwp in Hs. unfold pwp at 1.
  destruct (step map_fuel v) as [[st v']| |] eqn:E; [|done|by exists v; split; [apply rtc_refl|split] ].
  destruct Hs as [Hle Hc]. destruct st as [|b]; [|by apply pwp_ret].
  destruct (Hc eq_refl) as [Hok' ?].
  eapply pwp_mono; [eapply pwp_weaken; [|apply IH; [done|lia]]|].
  - intros (w & ? & ?). exists w. split; [by eapply rtc_l|done].
  - intros b w ?. by etrans.
Qed.

Lemma run_stuck fuel v w : rtc next v w -> step map_fuel w = Timeout -> run map_fuel fuel v = Timeout.
Proof.
  intros Hr Hw. revert fuel. induction Hr as [w|v1 v2 w H1 _ IH]; intros [|fuel]; try done; cbn [run]; unfold mbind, M_bind.
  - by rewrite Hw.
  - unfold next in H1. rewrite H1. by apply IH.
Qed.

(** The machine once [Exec] has read the contract and the fee. *)
Definition loaded (c : C) (h : heap) : VM C :=
  set_fee (set_code (NewVM c h) (GetContract c)) (GetFee c).

Lemma loaded_ok c h : ctx_ok h c -> vm_ok (loaded c h).
Proof.
  intros Hc. split; simpl.
  - by apply GetContract_ok.
  - done.
  - by eapply GetFee_ok.
  - apply Stack_proofs.NewStack_ok.
  - constructor.
  - constructor.
  - done.
Qed.

Lemma Exec_loaded fuel c h :
  len (GetContract c) <= 100000 -> Exec map_fuel fuel (NewVM c h) = run map_fuel fuel (loaded c h).
Proof.
  intros Hl. unfold Exec, mbind, M_bind. simpl. by rewrite (proj2 (Z.ltb_ge _ _)) by done.
Qed.
End loop.
