(* ===== verification/VMInstrSpec.v ===== *)
(** * Functional behaviour of the instructions

    What an instruction computes when its operands are there, the fee covers
    them and the result fits in the memory of the stack. *)

From S2P Require Import Prelude GoSlice VMUtils VMStack VMArray VMMap VMContext VM VMInstr VMExec VMSafety VMInvariant VMInstrSafe VMLoop.

(** [MV]-level steps of a total-correctness proof. *)
Lemma wp_modify {S} (f : S -> S) s (Q : unit -> S -> Prop) : Q tt (f s) -> wp (modify f) s Q.
Proof. done. Qed.

Section specs.
Context `{!GoRuntime} `{!Crypto} {C : Type} `{!VMContext C} `{!ContextLaws C}.
Implicit Types (v : VM C) (op : OpCode).

Lemma wp_on_heap {A} (m : M heap A) v (Q : A -> VM C -> Prop) :
  wp m (vheap v) (fun a h => Q a (set_heap v h)) -> wp (on_heap m) v Q.
Proof. unfold wp, on_heap. by destruct (m (vheap v)) as [[a h]| |]. Qed.

(** The machine after a pop of [s] that was charged. *)
Definition popped op v (l : list slice) (s : slice) : VM C :=
  set_fee (set_stack v (mkStack l (memoryUsage (evaluationStack v) - len s)
                          (memoryMax (evaluationStack v)))) (fee v - gasCost op s).

Lemma stack_ok_snoc st l s :
  stack_ok st -> elems st = l ++ [s] ->
  stack_ok (mkStack l (memoryUsage st - len s) (memoryMax st)) /\ 0 <= len s <= memoryUsage st /\
  memoryUsage st <= 1000000.
Proof.
  intros (Hm & Hu & Hle) El. rewrite El, total_size_app in Hu. unfold total_size in Hu at 2.
  simpl in Hu. pose proof (len_nonneg s). pose proof (total_size_nonneg l).
  split; [split; [done|split; simpl; lia]|lia].
Qed.

Lemma wp_Pop v l s (Q : slice * error -> VM C -> Prop) :
  stack_ok (evaluationStack v) -> elems (evaluationStack v) = l ++ [s] ->
  Q (s, None) (set_stack v (mkStack l (memoryUsage (evaluationStack v) - len s)
                              (memoryMax (evaluationStack v)))) ->
  wp Pop v Q.
Proof.
  intros Hok El HQ. destruct (stack_ok_snoc _ _ _ Hok El) as (_ & ? & ?).
  unfold wp, Pop, Stack.Pop. rewrite El, last_snoc, length_app, Nat.add_sub, take_app_length.
  rewrite (wrap_small 32 (len s)), wrap_small by lia. exact HQ.
Qed.

Lemma wp_charge op v x (Q : bool -> VM C -> Prop) :
  0 <= gasCost op x <= fee v -> fee v < 2 ^ 63 ->
  Q true (set_fee v (fee v - gasCost op x)) -> wp (charge op x) v Q.
Proof.
  intros Hg Hf HQ. unfold charge. apply wp_bind, wp_gets.
  rewrite (wrap_small 64 (fee v - _)) by lia. rewrite to_int64_nonneg by lia.
  rewrite (proj2 (Z.ltb_ge _ _)) by lia. apply wp_bind, wp_modify.
  rewrite wrap_small by lia. exact HQ.
Qed.

Section pops.
Context (op : OpCode) (v : VM C) (l : list slice) (s : slice).
Context (Hst : stack_ok (evaluationStack v)) (El : elems (evaluationStack v) = l ++ [s]).
Context (Hop : 0 <= gasFactor op <= 2) (Hg : gasCost op s <= fee v) (Hf : fee v < 2 ^ 63).

Lemma charge_ok (Q : bool -> VM C -> Prop) :
  Q true (popped op v l s) ->
  wp (charge op s) (set_stack v (mkStack l (memoryUsage (evaluationStack v) - len s)
                                   (memoryMax (evaluationStack v)))) Q.
Proof using All.
  intros HQ. destruct (stack_ok_snoc _ _ _ Hst El) as (_ & ? & ?).
  pose proof (gasCost_bound op s Hop ltac:(lia)).
  apply wp_charge; simpl; [lia|lia|exact HQ].
Qed.

Lemma wp_PopBytes (Q : slice * error -> VM C -> Prop) :
  Q (s, None) (popped op v l s) -> wp (PopBytes op) v Q.
Proof using All.
  intros HQ. eapply wp_bind, wp_Pop; [done..|]. apply wp_bind, charge_ok. exact HQ.
Qed.

Lemma wp_PopSignedBigInt z (Q : Z * error -> VM C -> Prop) :
  contents (vheap v) s = signed_bytes z ->
  Q (z, None) (popped op v l s) -> wp (PopSignedBigInt op) v Q.
Proof using All.
  intros Hc HQ. eapply wp_bind, wp_Pop; [done..|]. apply wp_bind, charge_ok.
  apply wp_bind, wp_on_heap, read_spec. simpl. rewrite Hc.
  eapply wp_of_option; [apply SignedBigIntConversion_signed_bytes|].
  destruct v. exact HQ.
Qed.

Lemma wp_PopUnsignedBigInt (Q : Z * error -> VM C -> Prop) :
  Q (be_val (contents (vheap v) s), None) (popped op v l s) -> wp (PopUnsignedBigInt op) v Q.
Proof using All.
  intros HQ. eapply wp_bind, wp_Pop; [done..|]. apply wp_bind, charge_ok.
  apply wp_bind, wp_on_heap, read_spec. simpl. destruct v. exact HQ.
Qed.
End pops.

Lemma wp_push_or_fail op v x (Q : status -> VM C -> Prop) :
  stack_ok (evaluationStack v) -> memoryUsage (evaluationStack v) + len x <= 1000000 ->
  Q Continue (set_stack v (mkStack (elems (evaluationStack v) ++ [x])
    (memoryUsage (evaluationStack v) + len x) (memoryMax (evaluationStack v)))) ->
  wp (push_or_fail op x) v Q.
Proof.
  intros Hst Hm HQ. apply wp_bind. unfold wp, Push. rewrite Stack_proofs.Push_ok by done. done.
Qed.

Lemma length_str_bytes s : length (str_bytes s) = String.length s.
Proof.
  unfold str_bytes, String.list_byte_of_string. rewrite length_map.
  induction s as [|c s IH]; [done|]. simpl. by rewrite IH.
Qed.

(** The error exit, when the message fits on the stack. *)
Lemma wp_fail op e v (Q : status -> VM C -> Prop) :
  stack_ok (evaluationStack v) ->
  memoryUsage (evaluationStack v) + Z.of_nat (String.length (Name op +:+ ": " +:+ e)) <= 1000000 ->
  (forall s v', elems (evaluationStack v') = elems (evaluationStack v) ++ [s] ->
     contents (vheap v') s = str_bytes (Name op +:+ ": " +:+ e) -> Q (Return false) v') ->
  wp (fail op e) v Q.
Proof.
  intros Hst Hm HQ. unfold fail, push_string. apply wp_bind, wp_bind, wp_on_heap, alloc_spec.
  intros s h' _ Hlen _ _ Hwf Hc _ _. apply wp_bind. unfold wp at 1, Push.
  rewrite Stack_proofs.Push_ok; simpl; [|done|].
  - by apply (HQ s).
  - unfold len. rewrite Hlen, length_str_bytes. exact Hm.
Qed.

(** ** The results that the arithmetic instructions push *)

(** What is left of the machine, and what the new top of the stack holds. *)
Definition pushed v (l : list slice) (bs : bytes) (f : Z) v' : Prop :=
  exists s, elems (evaluationStack v') = l ++ [s] /\ contents (vheap v') s = bs /\
    wf_slice (vheap v') s /\ fee v' = f /\ pc v' = pc v /\ callStack v' = callStack v /\
    vheap v `prefix_of` vheap v'.

Lemma wp_push_signed op v z v0 (Q : status -> VM C -> Prop) :
  stack_ok (evaluationStack v) ->
  memoryUsage (evaluationStack v) + 1 + Z.of_nat (nbytes (Z.abs z)) <= 1000000 ->
  pc v = pc v0 -> callStack v = callStack v0 -> vheap v = vheap v0 ->
  (forall v', pushed v0 (elems (evaluationStack v)) (signed_bytes z) (fee v) v' -> Q Continue v') ->
  wp (push_signed op z) v Q.
Proof.
  intros Hst Hm Hpc Hcs Hh HQ. apply wp_bind, wp_on_heap, SignedByteArrayConversion_spec.
  intros s h' Hwf Hc Hpre _. apply wp_push_or_fail; simpl; [done| |].
  - unfold len. rewrite <-(contents_length h' s Hwf), Hc, length_signed_bytes. lia.
  - apply HQ. exists s. simpl. rewrite <-Hh. auto 10.
Qed.

Section binary.
Context (op : OpCode) (v : VM C) (l : list slice) (sl sr : slice) (x y : Z).
Context (Hst : stack_ok (evaluationStack v)).
Context (El : elems (evaluationStack v) = l ++ [sl; sr]).
Context (Hl : contents (vheap v) sl = signed_bytes x) (Hr : contents (vheap v) sr = signed_bytes y).
Context (Hop : 0 <= gasFactor op <= 2).
Context (Hg : gasCost op sl + gasCost op sr <= fee v) (Hf : fee v < 2 ^ 63).

Definition popped2 : VM C := popped op (popped op v (l ++ [sl]) sr) l sl.

Lemma pop2_bounds :
  stack_ok (evaluationStack popped2) /\ 0 <= gasCost op sl /\ 0 <= gasCost op sr /\
  memoryUsage (evaluationStack popped2) = total_size l /\ elems (evaluationStack popped2) = l.
Proof using All.
  change [sl; sr] with ([sl] ++ [sr]) in El. rewrite app_assoc in El.
  destruct (stack_ok_snoc _ _ _ Hst El) as (Hst1 & ? & ?).
  destruct (stack_ok_snoc _ l sl Hst1 eq_refl) as (Hst2 & Hb & _). simpl in Hb.
  pose proof (gasCost_bound op sl Hop ltac:(lia)). pose proof (gasCost_bound op sr Hop ltac:(lia)).
  split; [done|]. split; [lia|]. split; [lia|]. split; [|done]. by destruct Hst2 as (_ & ? & _).
Qed.

Lemma wp_pop2_signed k (Q : status -> VM C -> Prop) :
  wp (k x y) popped2 Q -> wp (pop2_signed op k) v Q.
Proof using All.
  intros HQ. pose proof pop2_bounds as (_ & ? & ? & _).
  assert (El' : elems (evaluationStack v) = (l ++ [sl]) ++ [sr]) by by rewrite <-app_assoc.
  destruct (stack_ok_snoc _ _ _ Hst El') as (Hst1 & _).
  apply wp_bind. eapply wp_PopSignedBigInt; [done..|lia|done|done|].
  apply wp_bind. eapply wp_PopSignedBigInt; [done|done|done|simpl; lia|simpl; lia|done|].
  exact HQ.
Qed.

Lemma wp_pop2_push z (Q : status -> VM C -> Prop) :
  total_size l + 1 + Z.of_nat (nbytes (Z.abs z)) <= 1000000 ->
  (forall v', pushed v l (signed_bytes z) (fee v - gasCost op sr - gasCost op sl) v' ->
     Q Continue v') ->
  wp (push_signed op z) popped2 Q.
Proof using All.
  intros Hm HQ. pose proof pop2_bounds as (Hst2 & _ & _ & Hu & _).
  eapply (wp_push_signed _ _ _ v); [done|by rewrite Hu|done..].
Qed.
End binary.

(** ** Fetching operands *)

Lemma set_heap_same v : set_heap v (vheap v) = v.
Proof. by destruct v. Qed.

Lemma code_at_bound v b : vm_ok v -> code_at v b -> 0 <= pc v < len (code v).
Proof.
  intros Hok ?%lookup_lt_Some. pose proof (ok_pc v Hok). pose proof (ok_code v Hok).
  rewrite contents_length in * by done. unfold len. lia.
Qed.

Lemma wp_fetch v b (Q : byte * error -> VM C -> Prop) :
  vm_ok v -> code_at v b -> Q (b, None) (set_pc v (pc v + 1)) -> wp fetch v Q.
Proof.
  intros Hok Hb HQ. pose proof (code_at_bound v b Hok Hb) as Hpc.
  unfold fetch. apply wp_bind, wp_gets, wp_bind, wp_gets.
  rewrite (proj2 (Z.ltb_lt _ _)) by lia. apply wp_bind, wp_modify, wp_bind, wp_on_heap.
  eapply index_spec; [exact Hb|done|]. simpl. by destruct v.
Qed.

Lemma wp_fetchMany v n (Q : slice * error -> VM C -> Prop) :
  vm_ok v -> 0 <= n < len (code v) - pc v ->
  (forall s, wf_slice (vheap v) s ->
     contents (vheap v) s = sublist (Z.to_nat (pc v)) (Z.to_nat n) (contents (vheap v) (code v)) ->
     Q (s, None) (set_pc v (pc v + n))) ->
  wp (fetchMany n) v Q.
Proof.
  intros Hok Hn HQ. pose proof (ok_pc v Hok). pose proof (ok_code v Hok) as Hwf.
  unfold fetchMany. apply wp_bind, wp_gets, wp_bind, wp_gets.
  rewrite (proj2 (Z.ltb_lt _ _)) by lia. apply wp_bind, wp_modify, wp_bind.
  destruct (reslice (code v) (pc v) (pc v + n)) as [s|] eqn:E.
  - apply HQ; [by eapply wf_reslice|].
    rewrite (contents_reslice _ _ _ _ _ E) by lia. f_equal. lia.
  - rewrite reslice_Some in E by (destruct Hwf; unfold len in *; lia). done.
Qed.

(** ** The arguments of a call *)

Definition gas_of op (xs : list slice) : Z := foldr (fun x acc => gasCost op x + acc) 0 xs.

Lemma gas_of_snoc op xs x : gas_of op (xs ++ [x]) = gas_of op xs + gasCost op x.
Proof. induction xs as [|y xs IH]; simpl in *; [lia|]. unfold gas_of in *. lia. Qed.

Lemma gas_of_nonneg op xs : 0 <= gas_of op xs.
Proof.
  induction xs as [|x xs IH]; unfold gas_of, gasCost in *; simpl; [lia|]. wrap_bounds. lia.
Qed.

Lemma wp_pop_args op args v l vars (Q : gmap Z Z * error -> VM C -> Prop) :
  0 <= gasFactor op <= 2 ->
  stack_ok (evaluationStack v) -> elems (evaluationStack v) = l ++ args ->
  gas_of op args <= fee v -> fee v < 2 ^ 63 ->
  (forall vars' st, stack_ok st -> elems st = l ->
     (forall i a, args !! i = Some a ->
        vars' !! Z.of_nat i = Some (be_val (contents (vheap v) a))) ->
     (forall k, ~ (0 <= k < Z.of_nat (length args)) -> vars' !! k = vars !! k) ->
     Q (vars', None) (set_fee (set_stack v st) (fee v - gas_of op args))) ->
  wp (pop_args op (length args) vars) v Q.
Proof.
  intros Hop. revert v vars Q. induction args as [|x args IH] using rev_ind;
    intros v vars Q Hst El Hg Hf HQ.
  - simpl. rewrite app_nil_r in El. replace v with
      (set_fee (set_stack v (evaluationStack v)) (fee v - gas_of op [])) at 1
      by (destruct v; unfold set_fee; simpl; f_equal; lia).
    by apply wp_ret, HQ.
  - rewrite gas_of_snoc in *. pose proof (gas_of_nonneg op args).
    rewrite app_assoc in El. destruct (stack_ok_snoc _ _ _ Hst El) as (Hst1 & ? & ?).
    pose proof (gasCost_bound op x Hop ltac:(lia)).
    rewrite length_app, Nat.add_1_r. simpl.
    apply wp_bind. eapply wp_PopUnsignedBigInt; [done..|lia|done|].
    apply IH; simpl; [done|done|lia|lia|]. intros vars' st Hst' El' Hin Hout.
    rewrite length_app, Nat.add_1_r in HQ.
    specialize (HQ vars' st Hst' El').
    replace (fee v - gasCost op x - gas_of op args)
      with (fee v - (gas_of op args + gasCost op x)) by lia.
    apply HQ.
    + intros i a [[_ Hi]|[Hi Ha]]%lookup_snoc_Some; [by apply Hin|].
      subst. rewrite Hout by lia. by rewrite lookup_insert_eq.
    + intros k Hk. rewrite Hout by lia. rewrite lookup_insert_ne by lia. done.
Qed.

(** ** The call data *)

(** A parameter of 1 to 256 bytes, preceded by its length minus one. *)
Definition enc_param (p : bytes) : bytes := mkb (Z.of_nat (length p) - 1) :: p.

Lemma wp_calldata_loop op ps n td pre v (Q : status -> VM C -> Prop) :
  wf_slice (vheap v) td -> stack_ok (evaluationStack v) ->
  contents (vheap v) td = pre ++ concat (map enc_param ps) ->
  Forall (fun p : bytes => 1 <= length p <= 256)%nat ps ->
  (length ps <= n)%nat ->
  memoryUsage (evaluationStack v) + Z.of_nat (length (concat ps)) <= 1000000 ->
  (forall v' xs, elems (evaluationStack v') = elems (evaluationStack v) ++ xs ->
     map (contents (vheap v')) xs = ps -> vheap v' = vheap v -> fee v' = fee v -> pc v' = pc v ->
     Q Continue v') ->
  wp (calldata_loop op n td (Z.of_nat (length pre))) v Q.
Proof.
  revert n pre v Q. induction ps as [|p ps IH]; intros n pre v Q Hwf.
  all: intros Hst Hc Hps Hn Hm HQ.
  - assert (len td = Z.of_nat (length pre)) as Hl.
    { unfold len. by rewrite <-(contents_length _ td Hwf), Hc, length_app, Nat.add_0_r. }
    destruct n; cbn [calldata_loop]; rewrite (proj2 (Z.ltb_ge _ _)) by lia.
    all: apply wp_ret, (HQ v []); [by rewrite app_nil_r|done..].
  - apply Forall_cons in Hps as [Hp Hps]. destruct n as [|n]; [simpl in Hn; lia|].
    simpl in Hc, Hm. rewrite length_app in Hm.
    assert (len td = Z.of_nat (length pre + 1 + length p + length (concat (map enc_param ps)))) as Hl.
    { unfold len. rewrite <-(contents_length _ td Hwf), Hc, length_app. simpl.
      rewrite length_app. lia. }
    assert (Hb : wp (index td (Z.of_nat (length pre))) (vheap v)
      (fun b h => b = mkb (Z.of_nat (length p) - 1) /\ h = vheap v)).
    { eapply index_spec; [|lia|done].
      rewrite Nat2Z.id, Hc, lookup_app_r, Nat.sub_diag by lia. done. }
    cbn [calldata_loop]. rewrite (proj2 (Z.ltb_lt _ _)) by lia.
    apply wp_bind, wp_on_heap. eapply wp_mono; [exact Hb|]. intros b h [-> ->].
    rewrite set_heap_same, bval_mkb by lia. rewrite (proj2 (Z.leb_gt _ _)) by lia.
    apply wp_bind. destruct (reslice td _ _) as [x|] eqn:Ex;
      [|rewrite reslice_Some in Ex by (destruct Hwf; unfold len in *; lia); done].
    assert (contents (vheap v) x = p) as Hx.
    { rewrite (contents_reslice _ _ _ _ _ Ex), Hc by lia. unfold enc_param. simpl.
      rewrite cons_middle, app_assoc. apply sublist_mid; rewrite ?length_app; simpl; lia. }
    assert (len x = Z.of_nat (length p)) as Hlx.
    { rewrite <-Hx, contents_length by (by eapply wf_reslice). done. }
    apply wp_bind. unfold wp at 1, Push. rewrite Stack_proofs.Push_ok by (done || lia).
    apply wp_bind, wp_on_heap. eapply wp_mono; [exact Hb|]. intros b h [-> ->].
    rewrite bval_mkb by lia. simpl.
    replace (Z.of_nat (length pre) + (Z.of_nat (length p) - 1 + 1) + 1)
      with (Z.of_nat (length (pre ++ enc_param p)))
      by (unfold enc_param; rewrite length_app; simpl; lia).
    destruct v as [c p0 f st cs ctx h]; simpl in *.
    apply IH; simpl; [done| | |done|lia|lia|]; clear IH.
    + destruct Hst as (? & Hu & ?). split; [done|]. simpl. rewrite total_size_app.
      unfold total_size at 2. simpl. lia.
    + by rewrite Hc, <-app_assoc.
    + intros v' xs El Hxs Hh Hfee Hpc. simpl in *. apply (HQ v' (x :: xs)); [|simpl|done..].
      * by rewrite El, <-app_assoc.
      * by rewrite Hxs, Hh, Hx.
Qed.

(** The instructions that compute an integer from two. *)
Definition arith (o : opcode) : option (Z -> Z -> Z) :=
  match o with
  | ADD => Some Z.add
  | SUB => Some Z.sub
  | MULT => Some Z.mul
  | DIV => Some bigint_Div
  | MOD => Some bigint_Mod
  | _ => None
  end.
End specs.

(** [big.Int] division is Euclidean. *)
Lemma bigint_Div_Mod x y :
  y <> 0 -> x = y * bigint_Div x y + bigint_Mod x y /\ 0 <= bigint_Mod x y < Z.abs y.
Proof.
  intros Hy. unfold bigint_Div, bigint_Mod.
  pose proof (Z.div_mod x (Z.abs y) ltac:(lia)). pose proof (Z.mod_pos_bound x (Z.abs y) ltac:(lia)).
  split; [|done]. rewrite Z.mul_assoc, (Z.mul_comm y (Z.sgn y)).
  replace (Z.sgn y * y) with (Z.abs y) by lia. lia.
Qed.
