(* ===== verification/VMProps.v ===== *)
(** * Properties of the contract VM

    The theorems of the VM, each with a witness on a concrete machine. *)

From S2P Require Import Prelude GoSlice VMUtils VMStack VMArray VMMap VMContext VM VMInstr VMExec VMSafety VMInvariant VMInstrSafe VMLoop VMInstrSpec.

(** ** A concrete machine for the witnesses *)

Module Demo.
(** Stand-ins for the cryptography, which the witnesses do not exercise. *)
#[global] Instance demo_crypto : Crypto :=
  {| sha3_256 _ := zeros 32; ecdsa_verify _ _ _ _ _ := true; sha3_256_length _ := eq_refl |}.

Definition bs (l : list Z) : bytes := map mkb l.
Definition whole (i : nat) (l : list Z) : slice := mkSlice i 0 (length l) (length l).

(** A contract, its call data and its variables, in arrays 0, 1, 2, ... *)
Definition ctx (code data : list Z) (vars : list (list Z)) (gas : Z) : Context :=
  NewContext (whole 0 code) (imap (fun i l => whole (2 + i) l) vars) (zeros 64) (zeros 32)
    0 (zeros 32) 0 gas (whole 1 data) (zeros 64).
Definition hp (code data : list Z) (vars : list (list Z)) : heap := bs code :: bs data :: map bs vars.

Definition start (code data : list Z) (gas : Z) : VM Context :=
  loaded (ctx code data [] gas) (hp code data []).

(** Result, remaining fee and contents of the stack. *)
Definition outcome_of (o : outcome (bool * VM Context)) : option (bool * Z * list bytes) :=
  match o with
  | Done (b, v) => Some (b, fee v, map (contents (vheap v)) (elems (evaluationStack v)))
  | _ => None
  end.

Lemma wf_whole h i l : h !! i = Some (bs l) -> wf_slice h (whole i l).
Proof.
  intros Hi. split; [done|]. right. exists (bs l). split; [done|]. simpl. unfold bs.
  by rewrite length_map.
Qed.

Lemma ctx_good code data gas :
  is_u64 gas -> ctx_ok (hp code data []) (ctx code data [] gas).
Proof.
  intros. split; simpl; try done; try by constructor.
  - by apply wf_whole.
  - by apply wf_whole.
Qed.

Lemma start_good code data gas : is_u64 gas -> vm_ok (start code data gas).
Proof. intros. by apply loaded_ok, ctx_good. Qed.
End Demo.

(** PUSH 2; PUSH 3; ADD; HALT *)
Example exec_add :
  Demo.outcome_of (Exec 10 20 (Demo.start [0;1;0;2; 0;1;0;3; 4; 50] [] 50)) =
  Some (true, 43, [[Byte.x00; Byte.x05]]).
Proof. reflexivity. Qed.

Section props.
Context `{!GoRuntime} `{!Crypto} {C : Type} `{!VMContext C} `{!ContextLaws C}.
Context (map_fuel : nat).

(** C11: gas bounds execution.  With more iterations of fuel than the fee of
    the transaction, the main loop of [Exec] never runs out of them: the run
    does not end exactly when a machine it reaches is at a MAPHASKEY
    instruction whose own key search does not end within its fuel, whatever
    the other instructions, and the MAPHASKEYs that end, do. *)
Theorem Exec_terminates fuel c h :
  ctx_ok h c -> GetFee c < Z.of_nat fuel ->
  Exec map_fuel fuel (NewVM c h) = Timeout <->
  len (GetContract c) <= 100000 /\ exists v, rtc (next map_fuel) (loaded c h) v /\ stuck map_fuel v.
Proof.
  intros Hc Hf. destruct (Z.le_gt_cases (len (GetContract c)) 100000) as [Hl|Hl].
  - rewrite Exec_loaded by done. split.
    + intros Hrun. split; [done|]. pose proof (run_safe map_fuel fuel _ (loaded_ok c h Hc) Hf) as Hs.
      unfold pwp in Hs. by rewrite Hrun in Hs.
    + intros (_ & v & Hr & _ & Hs). by apply (run_stuck _ _ _ v).
  - split; [|intros [? _]; lia]. intros Hrun.
    assert (pwp False (Exec map_fuel fuel) (NewVM c h) (fun _ _ => True)) as Hs.
    { unfold Exec. apply pwp_bind, pwp_modify, pwp_bind, pwp_modify, pwp_bind, pwp_gets. simpl.
      rewrite (proj2 (Z.ltb_lt _ _)) by done.
      apply pwp_bind. by eapply push_string_le. }
    unfold pwp in Hs. by rewrite Hrun in Hs.
Qed.

(** C12: the machine invariant.  Whatever the code, every machine the loop
    reaches from a fresh one has slices that exist, a memory counter that is
    the total size of the stack and at most 1000000 bytes, and a uint64 fee;
    [n] iterations cost at least [n] units of gas, and the code slice is
    still the one of the contract. *)
Theorem reachable_invariant n c h v :
  ctx_ok h c -> nsteps (next map_fuel) n (loaded c h) v ->
  vm_ok v /\
  memoryUsage (evaluationStack v) = total_size (elems (evaluationStack v)) /\
  memoryUsage (evaluationStack v) <= 1000000 /\
  0 <= fee v <= GetFee c - Z.of_nat n /\
  code v = GetContract c.
Proof.
  intros Hc Hn. destruct (nexts_safe map_fuel n _ _ (loaded_ok c h Hc) Hn) as (Hok & Hle & Hfee).
  split; [done|]. destruct (ok_stack v Hok) as (Hm & ? & ?). pose proof (ok_fee v Hok).
  unfold_ranges. simpl in Hfee. split; [done|]. split; [lia|]. split; [lia|].
  by rewrite (le_code _ _ Hle).
Qed.

(** C32: the arithmetic instructions.  ADD, SUB, MULT, DIV and MOD pop the
    encodings of two integers, charge the gas of both, and push the encoding
    of the exact result (Euclidean quotient and remainder for a non-zero
    divisor); no existing array changes. *)
Theorem arithmetic_spec op f (v : VM C) l sl sr x y :
  arith (op_code op) = Some f -> (op_code op = DIV \/ op_code op = MOD -> y <> 0) ->
  0 <= gasFactor op <= 2 ->
  stack_ok (evaluationStack v) -> elems (evaluationStack v) = l ++ [sl; sr] ->
  contents (vheap v) sl = signed_bytes x -> contents (vheap v) sr = signed_bytes y ->
  gasCost op sl + gasCost op sr <= fee v -> fee v < 2 ^ 63 ->
  total_size l + 1 + Z.of_nat (nbytes (Z.abs (f x y))) <= 1000000 ->
  exists v', dispatch map_fuel op v = Done (Continue, v') /\
    pushed v l (signed_bytes (f x y)) (fee v - gasCost op sr - gasCost op sl) v'.
Proof.
  intros Hop Hy Hgf Hst El Hl Hr Hg Hf Hm.
  enough (wp (dispatch map_fuel op) v (fun st v' => st = Continue /\
    pushed v l (signed_bytes (f x y)) (fee v - gasCost op sr - gasCost op sl) v'))
    as (st & v' & E & -> & Hv')%wp_elim by eauto.
  unfold dispatch. destruct (op_code op) eqn:Eo; simplify_eq/=.
  all: eapply wp_pop2_signed; [done..|].
  4,5: rewrite (proj2 (Z.eqb_neq _ _)) by auto.
  all: eapply wp_pop2_push; [done..|]; auto.
Qed.

(** Division by zero is an error exit, not a panic: DIV and MOD report it
    on the stack and stop the execution. *)
Theorem division_by_zero op (v : VM C) l sl sr x :
  op_code op = DIV \/ op_code op = MOD ->
  0 <= gasFactor op <= 2 ->
  stack_ok (evaluationStack v) -> elems (evaluationStack v) = l ++ [sl; sr] ->
  contents (vheap v) sl = signed_bytes x -> contents (vheap v) sr = signed_bytes 0 ->
  gasCost op sl + gasCost op sr <= fee v -> fee v < 2 ^ 63 ->
  total_size l + Z.of_nat (String.length (Name op)) + 20 <= 1000000 ->
  exists v' s, dispatch map_fuel op v = Done (Return false, v') /\
    elems (evaluationStack v') = l ++ [s] /\
    contents (vheap v') s = str_bytes (Name op +:+ ": Division by Zero").
Proof.
  intros Hop Hgf Hst El Hl Hr Hg Hf Hm.
  enough (wp (dispatch map_fuel op) v (fun st v' => st = Return false /\ exists s,
    elems (evaluationStack v') = l ++ [s] /\
    contents (vheap v') s = str_bytes (Name op +:+ ": Division by Zero")))
    as (st & v' & E & -> & s & Hv')%wp_elim by eauto.
  pose proof (pop2_bounds op v l sl sr x 0 Hst El Hl Hr Hgf Hg Hf) as (Hst2 & _ & _ & Hu & El2).
  unfold dispatch. destruct Hop as [->| ->].
  all: eapply wp_pop2_signed; [done..|]; simpl.
  all: apply wp_fail; [done|rewrite Hu, !String.app_length; simpl; lia|].
  all: intros s v' El' Hc'; split; [done|]; exists s; split; [|done].
  all: by rewrite El', El2.
Qed.

(** Calls.  CALL with a valid target pops its arguments, in order, into
    the variables of a new frame that remembers the instruction after the
    call, and jumps. *)
Theorem CALL_spec op (v : VM C) l args hi lo n :
  0 <= gasFactor op <= 2 -> vm_ok v -> op_code op = CALL ->
  sublist (Z.to_nat (pc v)) 3 (contents (vheap v) (code v)) = [hi; lo; n] ->
  0 < be_val [hi; lo] <= len (code v) ->
  elems (evaluationStack v) = l ++ args -> length args = Z.to_nat (bval n) ->
  gas_of op args <= fee v -> fee v < 2 ^ 63 ->
  exists v' vars, dispatch map_fuel op v = Done (Continue, v') /\
    elems (evaluationStack v') = l /\ pc v' = be_val [hi; lo] /\
    callStack v' = callStack v ++ [mkFrame vars (pc v + 3)] /\
    fee v' = fee v - gas_of op args /\ context v' = context v /\
    (forall i a, args !! i = Some a ->
       vars !! Z.of_nat i = Some (be_val (contents (vheap v) a))).
Proof.
  intros Hop Hok Hc Hcode Ht El Hn Hg Hf.
  assert (pc v + 3 <= len (code v) /\ 0 <= pc v) as Hpc.
  { pose proof (f_equal length Hcode) as Hl. unfold sublist in Hl.
    pose proof (ok_code v Hok). pose proof (ok_pc v Hok).
    rewrite length_take, length_drop, contents_length in Hl by done.
    change (length [hi; lo; n]) with 3%nat in Hl. unfold len. lia. }
  assert (code_at (set_pc v (pc v + 2)) n) as Hb.
  { unfold code_at. simpl. replace (Z.to_nat (pc v + 2)) with (Z.to_nat (pc v) + 2)%nat by lia.
    rewrite <-(lookup_sublist _ 3) by lia. by rewrite Hcode. }
  destruct (vm_ok_set_pc v (pc v + 2) Hok ltac:(lia)) as [Hok1 _].
  enough (wp (dispatch map_fuel op) v (fun st v' => st = Continue /\ exists vars,
    elems (evaluationStack v') = l /\ pc v' = be_val [hi; lo] /\
    callStack v' = callStack v ++ [mkFrame vars (pc v + 3)] /\
    fee v' = fee v - gas_of op args /\ context v' = context v /\
    (forall i a, args !! i = Some a ->
       vars !! Z.of_nat i = Some (be_val (contents (vheap v) a)))))
    as (st & v' & E & -> & vars & Hv)%wp_elim by (exists v', vars; auto).
  unfold dispatch. rewrite Hc. unfold exec_CALL.
  apply wp_bind, wp_fetchMany; [done|lia|]. intros ra Hra Hcra.
  eapply wp_bind, wp_fetch; [done|done|]. unfold check. simpl. apply wp_bind, wp_ret.
  unfold enter_function. apply wp_bind, wp_on_heap, read_spec. simpl.
  assert (contents (vheap v) ra = [hi; lo]) as ->.
  { rewrite Hcra. change [hi; lo] with (take 2 [hi; lo; n]). rewrite <-Hcode.
    unfold sublist. by rewrite take_take. }
  apply wp_bind, wp_gets. simpl.
  rewrite (proj2 (Z.eqb_neq _ _)), (proj2 (Z.ltb_ge _ _)) by lia. simpl.
  apply wp_bind, wp_gets. unfold try. apply wp_bind. rewrite <-Hn.
  apply (wp_pop_args _ _ _ l); simpl; [done|apply Hok|done..|].
  intros vars st Hst Hst' Hin _. apply wp_bind, wp_modify. simpl.
  apply wp_bind, wp_modify, wp_ret. split; [done|]. exists vars.
  simpl. repeat split; [done|unfold CallStack.Push; do 3 f_equal; lia|exact Hin].
Qed.

(** RET undoes the jump of a call: it drops the frame and continues at the
    instruction the frame remembers; without a frame it is an error exit. *)
Theorem RET_spec op (v : VM C) :
  op_code op = RET ->
  match last (callStack v) with
  | Some f =>
      exists cs, callStack v = cs ++ [f] /\
      dispatch map_fuel op v = Done (Continue, set_pc (set_callStack v cs) (returnAddress f))
  | None => exists v', dispatch map_fuel op v = Done (Return false, v')
  end.
Proof.
  intros Hop. unfold dispatch. rewrite Hop. unfold exec_RET.
  rewrite (bind_Done _ _ v (callStack v) v) by done. unfold CallStack.Peek.
  destruct (last (callStack v)) as [f|] eqn:Hl.
  - apply last_Some in Hl as [cs Hcs]. exists cs. split; [done|].
    unfold check. simpl. unfold mbind, M_bind, modify, jump, CallStack.Pop. simpl.
    by rewrite Hcs, last_snoc, length_app, Nat.add_sub, take_app_length.
  - match goal with |- exists v', ?m v = _ =>
      enough (wp m v (fun st _ => st = Return false)) as (st & v' & E & ->)%wp_elim by eauto
    end.
    unfold check. simpl. unfold push_string.
    apply wp_bind, wp_bind, wp_bind, wp_on_heap, alloc_spec. intros.
    apply wp_bind. unfold wp at 1, Push. by destruct (Stack.Push _ _).
Qed.

(** CALLDATA pushes exactly the parameters of the transaction: on the
    encoding of a list of parameters of 1 to 256 bytes it leaves them on the
    stack in order, at no extra cost. *)
Theorem CALLDATA_spec op (v : VM C) ps :
  op_code op = CALLDATA -> vm_ok v ->
  contents (vheap v) (GetTransactionData (context v)) = concat (map enc_param ps) ->
  Forall (fun p : bytes => 1 <= length p <= 256)%nat ps ->
  memoryUsage (evaluationStack v) + Z.of_nat (length (concat ps)) <= 1000000 ->
  exists v' xs, dispatch map_fuel op v = Done (Continue, v') /\
    elems (evaluationStack v') = elems (evaluationStack v) ++ xs /\
    map (contents (vheap v')) xs = ps /\ fee v' = fee v /\ pc v' = pc v.
Proof.
  intros Hop Hok Hc Hps Hm.
  set (td := GetTransactionData (context v)) in *.
  assert (wf_slice (vheap v) td) as Hwf by by apply GetTransactionData_ok, ok_context.
  enough (wp (dispatch map_fuel op) v (fun st v' => st = Continue /\ exists xs,
    elems (evaluationStack v') = elems (evaluationStack v) ++ xs /\
    map (contents (vheap v')) xs = ps /\ fee v' = fee v /\ pc v' = pc v))
    as (st & v' & E & -> & xs & Hx)%wp_elim by (exists v', xs; auto).
  unfold dispatch. rewrite Hop. unfold exec_CALLDATA. apply wp_bind, wp_gets. fold td.
  apply (wp_calldata_loop op ps (s_len td) td []); [done|apply Hok|done|done| |done|].
  - rewrite <-(contents_length _ td Hwf), Hc. clear. induction ps as [|p ps IH]; [done|].
    simpl. rewrite length_app. lia.
  - intros v' xs ? ? _ ? ?. split; [done|]. by exists xs.
Qed.
End props.

(** ** The encodings and the containers *)

Section containers.
Context `{!GoRuntime}.

(** Integers survive the trip through the stack: decoding the signed
    encoding gives the integer back, for every integer. *)
Theorem signed_roundtrip z h :
  exists s h', SignedByteArrayConversion z h = Done (s, h') /\ h `prefix_of` h' /\
    SignedBigIntConversion (contents h' s) None = Some (z, None).
Proof.
  enough (wp (SignedByteArrayConversion z) h (fun s h' => h `prefix_of` h' /\
    SignedBigIntConversion (contents h' s) None = Some (z, None)))
    as (s & h' & ? & ? & ?)%wp_elim by eauto.
  apply SignedByteArrayConversion_spec. intros s h' _ -> ? _.
  split; [done|]. apply SignedBigIntConversion_signed_bytes.
Qed.

(** C33: arrays refine lists: on the encoding of a list, [At] reads the element,
    [Remove] deletes it in a fresh copy, and [Append] adds one at the end. *)
Theorem array_refines_list h a els i e x :
  array_repr h a els -> array_fits els -> els !! i = Some e ->
  wf_slice h x -> len x <= UINT16_MAX -> Z.of_nat (length els) < UINT16_MAX ->
  (exists s, Array.At a (Z.of_nat i) h = Done ((s, None), h) /\ contents h s = e) /\
  (exists a' h', Array.Remove a (Z.of_nat i) h = Done ((a', None), h') /\
     array_repr h' a' (delete i els) /\ h `prefix_of` h') /\
  (exists a' h', Array.Append a x h = Done ((a', None), h') /\
     array_repr h' a' (els ++ [contents h x])).
Proof.
  intros Hr Hfit Hi Hx Hlx Hn. split; [|split].
  - enough (wp (Array.At a (Z.of_nat i)) h (fun r h' => exists s, r = (s, None) /\ h' = h /\
      contents h s = e)) as (r & h' & E & s & -> & -> & ?)%wp_elim by eauto.
    eapply Array_proofs.At_spec; eauto.
  - enough (wp (Array.Remove a (Z.of_nat i)) h (fun r h' => exists a', r = (a', None) /\
      array_repr h' a' (delete i els) /\ h `prefix_of` h'))
      as (r & h' & E & s & -> & ? & ?)%wp_elim by eauto 10.
    eapply Array_proofs.ArrayRemove_spec; eauto.
  - enough (wp (Array.Append a x) h (fun r h' => exists a', r = (a', None) /\
      array_repr h' a' (els ++ [contents h x]))) as (r & h' & E & s & -> & ?)%wp_elim by eauto 10.
    eapply Array_proofs.ArrayAppend_spec; eauto.
Qed.

(** [Insert] replaces the element below the last index; at the last index
    it reports an error, after it has removed the element. *)
Theorem array_insert_replaces h a els i x :
  array_repr h a els -> array_fits els -> wf_slice h x -> len x <= UINT16_MAX ->
  (i < length els)%nat ->
  exists a' e h', Array.Insert a (Z.of_nat i) x h = Done ((a', e), h') /\
    if decide (S i < length els)%nat
    then e = None /\ array_repr h' a' (<[i := contents h x]> els)
    else e = Some "array internals error" /\ array_repr h' a' (take i els).
Proof.
  intros Hr Hfit Hx Hlx Hi.
  enough (wp (Array.Insert a (Z.of_nat i) x) h (fun r h' =>
    if decide (S i < length els)%nat
    then r.2 = None /\ array_repr h' r.1 (<[i := contents h x]> els)
    else r.2 = Some "array internals error" /\ array_repr h' r.1 (take i els)))
    as ([a' e] & h' & E & ?)%wp_elim by eauto.
  case_decide.
  - eapply Array_proofs.Insert_spec; eauto.
  - eapply Array_proofs.Insert_last_spec; [done..|lia|]. eauto.
Qed.

(** Looking up in a map: [GetVal] returns the value of the first entry with
    the key or reports that there is none, and [MapContainsKey] agrees with it. *)
Theorem map_lookup_refines h m key kvs fuel :
  map_repr h m kvs -> (s_len m <= fuel)%nat ->
  (exists s e, Map.GetVal m key h = Done ((s, e), h) /\
     match lookup_key kvs (contents h key) with
     | Some (_, kv) => e = None /\ contents h s = kv.2
     | None => e = Some "key not found"
     end) /\
  Map.MapContainsKey fuel m key h =
    Done ((bool_decide (is_Some (lookup_key kvs (contents h key))), None), h).
Proof.
  intros Hr Hfuel. split.
  - enough (wp (Map.GetVal m key) h (fun r h' => h' = h /\
      match lookup_key kvs (contents h key) with
      | Some (_, kv) => r.2 = None /\ contents h r.1 = kv.2
      | None => r.2 = Some "key not found"
      end)) as ([s e] & h' & E & -> & ?)%wp_elim by eauto.
    eapply Map_proofs.GetVal_spec; [done|]. destruct (lookup_key _ _) as [[? ?]|]; eauto.
  - enough (wp (Map.MapContainsKey fuel m key) h (fun r h' => h' = h /\
      r = (bool_decide (is_Some (lookup_key kvs (contents h key))), None)))
      as (r & h' & E & -> & ->)%wp_elim by eauto.
    by eapply Map_proofs.MapContainsKey_spec.
Qed.

(** C34: updating a map: [Remove] deletes the first entry with the key, [Append]
    adds an entry at the end, and [SetVal] does one after the other; on a
    missing key [SetVal] reports the error of [Remove] and still appends. *)
Theorem map_update_refines h m key value kvs :
  map_repr h m kvs -> wf_slice h key -> wf_slice h value ->
  len key <= UINT16_MAX -> len value <= UINT16_MAX -> Z.of_nat (length kvs) < UINT16_MAX ->
  clear_of_spare m key -> clear_of_spare m value ->
  let kvs' := match lookup_key kvs (contents h key) with
              | Some (i, _) => delete i kvs
              | None => kvs
              end in
  let err := match lookup_key kvs (contents h key) with
             | Some _ => None
             | None => Some "key not found"
             end in
  (exists m' h', Map.Remove m key h = Done ((m', err), h') /\ map_repr h' m' kvs') /\
  (exists m' h', Map.Append m key value h = Done ((m', None), h') /\
     map_repr h' m' (kvs ++ [(contents h key, contents h value)])) /\
  (exists m' h', Map.SetVal m key value h = Done ((m', err), h') /\
     map_repr h' m' (kvs' ++ [(contents h key, contents h value)])).
Proof.
  intros Hr Hk Hv Hlk Hlv Hn Hck Hcv kvs' err. split; [|split].
  - enough (wp (Map.Remove m key) h (fun r h' => exists m', r = (m', err) /\
      map_repr h' m' kvs')) as (r & h' & E & m' & -> & ?)%wp_elim by eauto.
    eapply Map_proofs.MapRemove_spec; [done|]. subst kvs' err.
    destruct (lookup_key _ _) as [[? ?]|]; eauto.
  - enough (wp (Map.Append m key value) h (fun r h' => exists m', r = (m', None) /\
      map_repr h' m' (kvs ++ [(contents h key, contents h value)])))
      as (r & h' & E & m' & -> & ?)%wp_elim by eauto.
    eapply Map_proofs.MapAppend_spec; eauto.
  - enough (wp (Map.SetVal m key value) h (fun r h' => exists m', r = (m', err) /\
      map_repr h' m' (kvs' ++ [(contents h key, contents h value)])))
      as (r & h' & E & m' & -> & ?)%wp_elim by eauto.
    eapply Map_proofs.SetVal_spec; eauto.
Qed.

(** The map searches that report their errors end on every byte string,
    well-formed or not. *)
Theorem map_searches_terminate h m key :
  Map.GetVal m key h <> Timeout /\ Map.Remove m key h <> Timeout.
Proof. split; [apply Map_proofs.GetVal_ends|apply Map_proofs.Remove_ends]. Qed.
End containers.

(** ** The journal of contract variables *)

(** Committing a run cannot panic, and writes exactly the journal: after
    any number of [SetContractVariable] calls that succeeded or not, the
    variables are replaced by the last value written to each. *)
Theorem PersistChanges_spec h c :
  ctx_ok h c ->
  exists c', PersistChanges c = Some c' /\
    length (ContractVariables c') = length (ContractVariables c) /\
    forall i, (i < length (ContractVariables c))%nat ->
      ContractVariables c' !! i =
        match last_change (changes c) i with
        | Some v => Some v
        | None => ContractVariables c !! i
        end.
Proof.
  intros Hc. destruct (persist_total (ContractVariables c) (changes c) h) as (vs & E & Hl);
    [apply Hc|].
  exists (set_variables c vs). unfold PersistChanges. rewrite E. split; [done|]. split; [done|].
  intros i Hi. by apply persist_lookup.
Qed.

(** ** What the gas does not bound *)

Module Loop.
(** PUSH 5; PUSH the malformed map; MAPHASKEY; HALT *)
Definition code : list Z := [0;0;5; 0;8;1;0;0;0;0;0;0;255;255; 37; 50].
Definition after (v : VM Context) : VM Context :=
  match step 0 v with Done (_, v') => v' | _ => v end.
Definition v0 : VM Context := Demo.start code [] 50.
Definition v2 : VM Context := after (after v0).

Lemma first_steps map_fuel : next map_fuel v0 (after v0) /\ next map_fuel (after v0) v2.
Proof. split; vm_compute; reflexivity. Qed.

(** The machine inside MAPHASKEY, and its operands. *)
Definition v3 : VM Context := set_fee (set_pc v2 15) 47.
Definition m : slice := mkSlice 0 5 9 11.
Definition key : slice := mkSlice 0 2 1 14.
Definition op : OpCode := mkOpCode MAPHASKEY "maphaskey" 0 [] 1 2.

Lemma try_Done {A} (mm : M (VM Context) (A * error)) k v a v' :
  mm v = Done ((a, None), v') -> try op mm k v = k a v'.
Proof. intros E. unfold try. by rewrite (bind_Done _ _ _ _ _ E). Qed.

Lemma search_diverges map_fuel h :
  h = Demo.hp code [] [] -> Map.MapContainsKey map_fuel m key h = Timeout.
Proof.
  intros ->. unfold Map.MapContainsKey.
  rewrite (bind_Done _ _ _ [Byte.x05] (Demo.hp code [] [])) by reflexivity.
  apply (MapContainsKey_diverges _ m); [|reflexivity|done].
  split; [simpl; lia|]. right. eexists. split; [reflexivity|]. vm_compute. lia.
Qed.

Lemma maphaskey_diverges map_fuel : dispatch map_fuel op v3 = Timeout.
Proof.
  unfold dispatch. simpl. unfold exec_MAPHASKEY.
  erewrite try_Done by (vm_compute; reflexivity).
  erewrite try_Done by (vm_compute; reflexivity).
  erewrite try_Done by (vm_compute; reflexivity).
  unfold try, mbind, M_bind, on_heap. by rewrite search_diverges.
Qed.

Lemma step_diverges map_fuel : step map_fuel v2 = Timeout.
Proof.
  unfold step. rewrite (bind_Done _ _ v2 (Byte.x25, None) (set_pc v2 15)) by (vm_compute; reflexivity).
  change (OpCodes !! Z.to_nat (bval Byte.x25)) with (Some op). cbv iota.
  rewrite (bind_Done _ _ _ 48 (set_pc v2 15)) by (vm_compute; reflexivity).
  change (48 <? gasPrice op) with false. cbv iota.
  rewrite (bind_Done _ _ _ tt v3) by (vm_compute; reflexivity).
  apply maphaskey_diverges.
Qed.
End Loop.

(** The gas does not bound everything: this contract, which pushes a
    malformed map and looks for a key in it, never stops, whatever the fuel. *)
Theorem MAPHASKEY_diverges map_fuel fuel :
  Exec map_fuel fuel (NewVM (Demo.ctx Loop.code [] [] 50) (Demo.hp Loop.code [] [])) = Timeout.
Proof.
  rewrite Exec_loaded by (vm_compute; congruence).
  destruct (Loop.first_steps map_fuel) as [H1 H2].
  destruct fuel as [|fuel]; [done|]. simpl. fold (Demo.start Loop.code [] 50). fold Loop.v0.
  rewrite (bind_Done _ _ _ _ _ H1). destruct fuel as [|fuel]; [done|]. simpl.
  rewrite (bind_Done _ _ _ _ _ H2). destruct fuel as [|fuel]; [done|]. simpl.
  unfold mbind, M_bind. by rewrite Loop.step_diverges.
Qed.

(** Contracts can crash the node: JMPIF and the signed operands index an
    empty element, which SLOAD pushes for an unset variable. *)
Theorem empty_element_panics map_fuel fuel :
  Exec map_fuel (S (S fuel)) (NewVM (Demo.ctx [29;0;9;50] [] [[]] 50) (Demo.hp [29;0;9;50] [] [[]]))
    = Panic.
Proof. vm_compute. reflexivity. Qed.

(** A contract can rewrite itself: MAPPUSH on a map that was pushed from
    the code appends in place, over the instructions that follow. *)
Theorem MAPPUSH_overwrites_code :
  let code := [0;0;5; 0;0;6; 0;2;1;0;0; 38; 50;50;50;50;50]%Z in
  match step 10 (Loop.after (Loop.after (Loop.after (Demo.start code [] 50)))) with
  | Done (Continue, v) =>
      drop 11 (contents (vheap v) (VM.code v)) = Demo.bs [1;0;6;1;0;5] /\
      drop 11 (Demo.bs code) = Demo.bs [38;50;50;50;50;50]
  | _ => False
  end.
Proof. vm_compute. split; reflexivity. Qed.

(** ** Witnesses *)

Lemma Exec_terminates_witness :
  exists v, rtc (next 10)
    (loaded (Demo.ctx Loop.code [] [] 50) (Demo.hp Loop.code [] [])) v /\ stuck 10 v.
Proof.
  apply (Exec_terminates 10 51 (Demo.ctx Loop.code [] [] 50) (Demo.hp Loop.code [] []));
    [apply Demo.ctx_good; vm_compute; split; congruence|reflexivity|vm_compute; reflexivity].
Defined.

Lemma reachable_invariant_witness :
  fee (Loop.after Loop.v0) <= 49 /\ vm_ok (Loop.after Loop.v0).
Proof.
  destruct (reachable_invariant 10 1 (Demo.ctx Loop.code [] [] 50) (Demo.hp Loop.code [] [])
    (Loop.after Loop.v0)) as (Hok & _ & _ & Hf & _).
  - apply Demo.ctx_good. vm_compute. split; congruence.
  - exact (nsteps_once _ _ (proj1 (Loop.first_steps 10))).
  - split; [vm_compute; congruence|exact Hok].
Defined.

(** A machine with the encodings of 7 and -2 on its stack. *)
Definition two_operands (x y : Z) : VM Context :=
  let h := [signed_bytes x; signed_bytes y] in
  let sl := Demo.whole 0 (map bval (signed_bytes x)) in
  let sr := Demo.whole 1 (map bval (signed_bytes y)) in
  mkVM nil_slice 0 10 (mkStack [sl; sr] (len sl + len sr) 1000000) []
    (Demo.ctx [] [] [] 10) h.

Lemma arithmetic_spec_witness :
  exists v', dispatch 0 (mkOpCode DIV "div" 0 [] 1 2) (two_operands 7 (-2)) = Done (Continue, v') /\
    pushed (two_operands 7 (-2)) [] (signed_bytes (-3)) 6 v'.
Proof.
  apply (arithmetic_spec 0 (mkOpCode DIV "div" 0 [] 1 2) bigint_Div (two_operands 7 (-2)) []
    (Demo.whole 0 [0;7]) (Demo.whole 1 [1;2]) 7 (-2));
    try reflexivity; try (vm_compute; congruence); try lia.
  - simpl. lia.
  - repeat split; vm_compute; congruence.
Defined.

Lemma division_by_zero_witness :
  exists v' s, dispatch 0 (mkOpCode MOD "mod" 0 [] 1 2) (two_operands 7 0) = Done (Return false, v') /\
    elems (evaluationStack v') = [] ++ [s] /\
    contents (vheap v') s = str_bytes "mod: Division by Zero".
Proof.
  apply (division_by_zero 0 (mkOpCode MOD "mod" 0 [] 1 2) (two_operands 7 0) []
    (Demo.whole 0 [0;7]) (Demo.whole 1 [0]) 7);
    try reflexivity; try (vm_compute; congruence).
  - by right.
  - simpl. lia.
  - repeat split; vm_compute; congruence.
Defined.

(** PUSH 9; CALL 7 with one argument; HALT; HALT: the machine after the PUSH and
    the fetch of CALL. *)
Definition call_code : list Z := [0;0;9; 21;0;7;1; 50;50].
Definition calling : VM Context :=
  mkVM (Demo.whole 0 call_code) 4 49 (mkStack [mkSlice 0 2 1 7] 1 1000000) []
    (Demo.ctx call_code [] [] 50) (Demo.hp call_code [] []).

Lemma calling_ok : vm_ok calling.
Proof.
  assert (is_u64 50) as H50 by (vm_compute; split; congruence).
  destruct (Demo.start_good call_code [] 50 H50). split; try done.
  apply Forall_singleton. split; [simpl; lia|]. right. eexists. split; [reflexivity|].
  vm_compute. lia.
Qed.

Definition call_op : OpCode := mkOpCode CALL "call" 2 [LABEL; BYTE] 1 1.

Lemma CALL_spec_witness :
  exists v' vars, dispatch 0 call_op calling = Done (Continue, v') /\
    elems (evaluationStack v') = [] /\ pc v' = be_val [Byte.x00; Byte.x07] /\
    callStack v' = callStack calling ++ [mkFrame vars (pc calling + 3)] /\
    fee v' = fee calling - gas_of call_op [mkSlice 0 2 1 7] /\ context v' = context calling /\
    (forall i a, [mkSlice 0 2 1 7] !! i = Some a ->
       vars !! Z.of_nat i = Some (be_val (contents (vheap calling) a))).
Proof.
  apply (CALL_spec 0 call_op calling [] [mkSlice 0 2 1 7] Byte.x00 Byte.x07 Byte.x01).
  - simpl. lia.
  - exact calling_ok.
  - reflexivity.
  - vm_compute. reflexivity.
  - vm_compute. split; congruence.
  - reflexivity.
  - vm_compute. reflexivity.
  - vm_compute. congruence.
  - vm_compute. reflexivity.
Defined.

Lemma RET_spec_witness :
  exists v', dispatch 0 (mkOpCode RET "ret" 0 [] 1 1) Loop.v0 = Done (Return false, v').
Proof. exact (RET_spec 0 (mkOpCode RET "ret" 0 [] 1 1) Loop.v0 eq_refl). Defined.

Definition calldata_op : OpCode := mkOpCode CALLDATA "calldata" 0 [] 1 1.
Definition with_data : VM Context := Demo.start [] [1;7;8;0;9] 50.

Lemma CALLDATA_spec_witness :
  exists v' xs, dispatch 0 calldata_op with_data = Done (Continue, v') /\
    elems (evaluationStack v') = elems (evaluationStack with_data) ++ xs /\
    map (contents (vheap v')) xs = [Demo.bs [7; 8]; Demo.bs [9]] /\
    fee v' = fee with_data /\ pc v' = pc with_data.
Proof.
  apply (CALLDATA_spec 0 calldata_op with_data [Demo.bs [7; 8]; Demo.bs [9]]).
  - reflexivity.
  - apply Demo.start_good. vm_compute. split; congruence.
  - vm_compute. reflexivity.
  - repeat constructor.
  - vm_compute. congruence.
Defined.

Definition demo_array : heap := [enc_array [Demo.bs [1;2]; Demo.bs [3]]; Demo.bs [4]].
Definition arr : slice := mkSlice 0 0 10 10.

Lemma demo_array_repr : array_repr demo_array arr [Demo.bs [1;2]; Demo.bs [3]].
Proof.
  split; [|split; [reflexivity|split; [|vm_compute; congruence]]].
  - split; [simpl; lia|]. right. eexists. split; [reflexivity|]. vm_compute. lia.
  - repeat constructor; vm_compute; congruence.
Qed.

Lemma array_refines_list_witness :
  exists s, Array.At arr 1 demo_array = Done ((s, None), demo_array) /\
    contents demo_array s = Demo.bs [3].
Proof.
  apply (array_refines_list demo_array arr [Demo.bs [1;2]; Demo.bs [3]] 1 (Demo.bs [3])
    (Demo.whole 1 [4])); [exact demo_array_repr|vm_compute; congruence|reflexivity|
    by apply Demo.wf_whole|vm_compute; congruence|vm_compute; congruence].
Defined.

Lemma array_insert_replaces_witness :
  exists a' e h', Array.Insert arr 0 (Demo.whole 1 [4]) demo_array = Done ((a', e), h') /\
    e = None /\ array_repr h' a' [Demo.bs [4]; Demo.bs [3]].
Proof.
  exact (array_insert_replaces demo_array arr [Demo.bs [1;2]; Demo.bs [3]] 0 (Demo.whole 1 [4])
    demo_array_repr ltac:(vm_compute; congruence) ltac:(by apply Demo.wf_whole)
    ltac:(vm_compute; congruence) ltac:(simpl; lia)).
Defined.

Definition demo_map : heap := [enc_map [(Demo.bs [1], Demo.bs [2;3])]; Demo.bs [1]; Demo.bs [9]].
Definition mp : slice := mkSlice 0 0 10 10.

Lemma demo_map_repr : map_repr demo_map mp [(Demo.bs [1], Demo.bs [2;3])].
Proof.
  split; [|split; [reflexivity|split; [|vm_compute; congruence]]].
  - split; [simpl; lia|]. right. eexists. split; [reflexivity|]. vm_compute. lia.
  - repeat constructor; vm_compute; congruence.
Qed.

Lemma map_lookup_refines_witness :
  exists s e, Map.GetVal mp (Demo.whole 1 [1]) demo_map = Done ((s, e), demo_map) /\
    e = None /\ contents demo_map s = Demo.bs [2;3].
Proof.
  apply (map_lookup_refines demo_map mp (Demo.whole 1 [1]) [(Demo.bs [1], Demo.bs [2;3])] 10);
    [exact demo_map_repr|simpl; lia].
Defined.

Lemma map_update_refines_witness :
  exists m' h', Map.SetVal mp (Demo.whole 1 [1]) (Demo.whole 2 [9]) demo_map = Done ((m', None), h') /\
    map_repr h' m' [(Demo.bs [1], Demo.bs [9])].
Proof.
  apply (map_update_refines demo_map mp (Demo.whole 1 [1]) (Demo.whole 2 [9])
    [(Demo.bs [1], Demo.bs [2;3])]); [exact demo_map_repr|by apply Demo.wf_whole|
    by apply Demo.wf_whole|vm_compute; congruence|vm_compute; congruence|vm_compute; congruence| |];
    left; simpl; lia.
Defined.

Lemma PersistChanges_spec_witness :
  exists c', PersistChanges (Demo.ctx [50] [] [] 50) = Some c' /\
    length (ContractVariables c') = 0%nat.
Proof.
  destruct (PersistChanges_spec (Demo.hp [50] [] []) (Demo.ctx [50] [] [] 50)) as (c' & E & Hl & _).
  - apply Demo.ctx_good. vm_compute. split; congruence.
  - exists c'. split; [exact E|exact Hl].
Defined.
