(* ===== verification/VMTrace.v ===== *)
(** * vm/vm.go, vm/mock_context.go: tracing, and the machine of the tests

    [Exec(true)] prints each instruction before it is run. What is printed is
    left out; the reads of the code and the message for an invalid opcode are
    not, since they can panic or change the stack. A run that is traced to its
    end gives the result of the run that is not. *)

From S2P Require Import Prelude GoSlice VMUtils VMStack VMArray VMMap VMContext VM VMInstr VMExec VMSafety VMInvariant VMInstrSafe VMLoop VMProps.

(** ** mock_context.go *)

Definition NewMockContext (byteCode : slice) : Context :=
  mkContext byteCode [] (zeros 64) (zeros 32) 0 [] (zeros 32) 0 50 nil_slice (zeros 64).

Definition MockContext_SetContract (contract : slice) (mc : Context) : Context :=
  mkContext contract (ContractVariables mc) (Address mc) (Issuer mc) (Balance mc) (changes mc)
    (From mc) (Amount mc) (Fee mc) (Data mc) (Sig1 mc).

Definition NewTestVM (byteCode : slice) (h : heap) : VM Context := NewVM (NewMockContext byteCode) h.

Section trace.
Context `{!GoRuntime} `{!Crypto} {C : Type} `{!VMContext C}.
Abbreviation MV := (M (VM C)).

(** One case of the switch; the guards look at the program counter only. *)
Definition trace_arg (argType : argtype) (counter : Z) : MV Z :=
  c ← gets code;
  p ← gets pc;
  let left := len c - p in
  match argType with
  | BYTES =>
      if 0 <? left then
        b ← on_heap (index c (p + 1));
        let nargs := bval b in
        if nargs <? left - 1 then
          of_option (reslice c (p + 2 + counter) (p + nargs + 3 + counter));;
          mret (counter + nargs)
        else mret counter
      else mret counter
  | BYTE =>
      if 0 <? left then on_heap (index c (p + 1 + counter));; mret (counter + 1)
      else mret counter
  | ADDR =>
      if 31 <? left then of_option (reslice c (p + 1 + counter) (p + 33 + counter));; mret (counter + 32)
      else mret counter
  | LABEL =>
      if 1 <? left then of_option (reslice c (p + 1 + counter) (p + 3 + counter));; mret (counter + 2)
      else mret counter
  end.

Fixpoint trace_args (argTypes : list argtype) (counter : Z) : MV unit :=
  match argTypes with
  | [] => mret tt
  | argType :: argTypes => counter ← trace_arg argType counter; trace_args argTypes counter
  end.

(** Without a bounds check the code is read at the program counter. *)
Definition trace : MV unit :=
  c ← gets code;
  p ← gets pc;
  b ← on_heap (index c p);
  match OpCodes !! Z.to_nat (bval b) with
  | None => push_string "Trace: invalid opcode "
  | Some opCode => trace_args (ArgTypes opCode) 0
  end.

Context (map_fuel : nat).

Fixpoint run_traced (fuel : nat) : MV bool :=
  match fuel with
  | O => timeout
  | S fuel =>
      trace;;
      st ← step map_fuel;
      match st with Return b => mret b | Continue => run_traced fuel end
  end.

(** [Exec(true)] *)
Definition Exec_traced (fuel : nat) : MV bool :=
  modify (fun v => set_code v (GetContract (context v)));;
  modify (fun v => set_fee v (GetFee (context v)));;
  c ← gets code;
  if 100000 <? len c then
    push_string "vm.exec(): Instruction set to big";; mret false
  else run_traced fuel.

(** ** What a traced run shows *)

Lemma index_reads c i h b h' : index c i h = Done (b, h') -> h' = h.
Proof.
  unfold index. destruct (_ && _); [|done]. intros (bs & h1 & [= _ <-] & E)%bind_inv.
  destruct (bs !! _); [|done]. by injection E.
Qed.

Lemma on_heap_index c i (v v' : VM C) b : on_heap (index c i) v = Done (b, v') -> v' = v /\ index c i (vheap v) = Done (b, vheap v).
Proof.
  unfold on_heap. destruct (index c i (vheap v)) as [ [x h']| |] eqn:E; [|done..]. intros [= -> <-].
  pose proof (index_reads _ _ _ _ _ E) as ->. by destruct v.
Qed.

Lemma trace_arg_reads t counter (v v' : VM C) k : trace_arg t counter v = Done (k, v') -> v' = v.
Proof.
  unfold trace_arg. intros (c & v1 & [= <- <-] & (p & v2 & [= <- <-] & E)%bind_inv)%bind_inv. cbv zeta in E.
  destruct t; (destruct (_ <? _); [|by injection E]).
  - apply bind_inv in E as (b & v1 & [-> _]%on_heap_index & E). destruct (_ <? _); [|by injection E].
    apply bind_inv in E as (s & v2 & Hs & E). destruct (reslice _ _ _); [|done]. injection Hs as _ <-. by injection E.
  - apply bind_inv in E as (b & v1 & [-> _]%on_heap_index & E). by injection E.
  - apply bind_inv in E as (s & v2 & Hs & E). destruct (reslice _ _ _); [|done]. injection Hs as _ <-. by injection E.
  - apply bind_inv in E as (s & v2 & Hs & E). destruct (reslice _ _ _); [|done]. injection Hs as _ <-. by injection E.
Qed.

Lemma trace_args_reads ts counter (v v' : VM C) u : trace_args ts counter v = Done (u, v') -> v' = v.
Proof.
  revert counter. induction ts as [|t ts IH]; intros counter E; cbn [trace_args] in E; [by injection E|].
  apply bind_inv in E as (k & v1 & ->%trace_arg_reads & E). by eapply IH.
Qed.

Lemma index_app c i h k b h' : index c i h = Done (b, h') -> index c i (h ++ k) = Done (b, h ++ k).
Proof.
  unfold index. destruct (_ && _); [|done]. unfold read, contents, gets, mbind, M_bind.
  destruct (h !! s_arr c) as [a|] eqn:Ea; [|done]. rewrite (lookup_app_l_Some _ _ _ _ Ea).
  destruct (sublist _ _ a !! _); [|done]. cbn. intros [= ->]. done.
Qed.

(** At an opcode that is not one the machine stops with no. *)
Definition stops (v : VM C) : Prop := exists v', step map_fuel v = Done (Return false, v').

Lemma invalid_stops (v : VM C) b k s :
  index (code v) (pc v) (vheap v) = Done (b, vheap v) -> OpCodes !! Z.to_nat (bval b) = None ->
  stops (set_stack (set_heap v (vheap v ++ k)) s).
Proof.
  intros Hi%(index_app _ _ _ k) Hb. pose proof Hi as Hl. unfold index in Hl.
  destruct ((0 <=? pc v) && (pc v <? len (code v))) eqn:E; [|done]. apply andb_true_iff in E as [_ E]. clear Hl.
  eexists. unfold step, fetch, gets, mbind, M_bind. cbn [code pc set_stack set_heap]. rewrite E.
  unfold modify, on_heap. cbn [vheap set_pc set_stack set_heap]. rewrite Hi. unfold mret, M_ret. rewrite Hb.
  unfold push_string, slice_of_string, alloc, on_heap, Push, mbind, M_bind. rewrite (surjective_pairing (Stack.Push _ _)). reflexivity.
Qed.

Lemma trace_result (v v' : VM C) u : trace v = Done (u, v') -> v' = v \/ stops v /\ stops v'.
Proof.
  unfold trace. intros (c & v1 & [= <- <-] & (p & v2 & [= <- <-] & E)%bind_inv)%bind_inv.
  apply bind_inv in E as (b & v1 & [-> Hi]%on_heap_index & E).
  destruct (OpCodes !! Z.to_nat (bval b)) as [op|] eqn:Eb; [left; by eapply trace_args_reads|right]. split.
  - pose proof (invalid_stops v b [] (evaluationStack v) Hi Eb) as Hs. rewrite app_nil_r in Hs. by destruct v.
  - unfold push_string, slice_of_string, alloc, on_heap, Push, mbind, M_bind in E.
    cbn -[Stack.Push] in E. destruct (Stack.Push _ _) as [s e] eqn:Es. injection E as _ <-.
    exact (invalid_stops v b _ s Hi Eb).
Qed.

Lemma run_traced_result fuel (v v' : VM C) b : run_traced fuel v = Done (b, v') ->
  exists v'', run map_fuel fuel v = Done (b, v'') /\ (b = true -> v'' = v').
Proof.
  revert v. induction fuel as [|fuel IH]; intros v E; [done|]. cbn [run_traced run] in *.
  apply bind_inv in E as (u & v1 & [->|[ [w Hw] [w1 Hw1] ] ]%trace_result & E).
  - apply bind_inv in E as (st & v2 & E1 & E). rewrite (bind_Done _ _ _ _ _ E1).
    destruct st as [|b1]; [by apply IH|]. injection E as <- <-. by exists v2.
  - rewrite (bind_Done _ _ _ _ _ Hw1) in E. injection E as <- _. rewrite (bind_Done _ _ _ _ _ Hw). by exists w.
Qed.

(** Tracing changes nothing.  When a traced run comes to its end, the run
    without tracing ends with the same answer in as many steps; and if the
    answer is yes, in the same state. Only at an opcode that is not one does
    the trace leave a message on the stack, and the answer is no. *)
Theorem traced_result fuel (v v' : VM C) b : Exec_traced fuel v = Done (b, v') ->
  exists v'', Exec map_fuel fuel v = Done (b, v'') /\ (b = true -> v'' = v').
Proof.
  unfold Exec_traced, Exec, modify, gets, mbind, M_bind. cbn. destruct (100000 <? _); [|by apply run_traced_result].
  intros E. exists v'. by split.
Qed.
End trace.

(** A code without HALT: the machine stops with an error; traced it panics,
    since the trace reads behind the end of the code. *)
Lemma trace_panics : exists v', Exec 10 5 (NewTestVM (Demo.whole 0 [36]) (Demo.hp [36] [] [])) = Done (false, v') /\
  Exec_traced 10 5 (NewTestVM (Demo.whole 0 [36]) (Demo.hp [36] [] [])) = Panic.
Proof. eexists. split; vm_compute; reflexivity. Qed.

Lemma traced_result_witness : exists v', Exec_traced 10 5 (NewTestVM (Demo.whole 0 [0;0;7;50]) (Demo.hp [0;0;7;50] [] [])) = Done (true, v') /\
  Exec 10 5 (NewTestVM (Demo.whole 0 [0;0;7;50]) (Demo.hp [0;0;7;50] [] [])) = Done (true, v').
Proof.
  destruct (Exec_traced 10 5 (NewTestVM (Demo.whole 0 [0;0;7;50]) (Demo.hp [0;0;7;50] [] []))) as [ [b v']| |] eqn:E;
    [|vm_compute in E; discriminate E..].
  assert (Hb : b = true) by (vm_compute in E; injection E as <- _; reflexivity). subst b.
  destruct (traced_result 10 5 _ _ _ E) as (v'' & H & Hv). exists v'. split; [reflexivity|]. by rewrite H, Hv.
Defined.
