(* ===== verification/Format.v ===== *)
(** * Go's [fmt]: the texts that are hashed

    The repository hashes the text [fmt.Sprintf] prints for a value
    ([protocol.SerializeHashContent], the [SHA3] methods of the transactions)
    and keeps big integers as hexadecimal text (the chameleon-hash parameters).
    This file models what the source uses of [%v] and [%x]: numbers in
    radix 10 and 16, booleans, arrays, slices and structs. *)

From S2P Require Import Prelude.

(** ** Numbers in a radix *)

(** The digits of [n] in base [b], the least significant first. *)
Fixpoint digits_le (b : Z) (fuel : nat) (n : Z) : list Z :=
  match fuel with
  | O => []
  | S fuel => n mod b :: (if n / b =? 0 then [] else digits_le b fuel (n / b))
  end.

(** [n] has no more digits than bits, and at least one. *)
Definition digits (b n : Z) : list Z := rev (digits_le b (S (Z.to_nat (Z.log2 n))) n).

Definition digit_char (d : Z) : byte := if d <? 10 then mkb (48 + d) else mkb (87 + d).

(** The value of a digit: 0-9, a-f and A-F. *)
Definition char_digit (c : byte) : option Z :=
  let v := bval c in
  if (48 <=? v) && (v <=? 57) then Some (v - 48)
  else if (97 <=? v) && (v <=? 102) then Some (v - 87)
  else if (65 <=? v) && (v <=? 70) then Some (v - 55)
  else None.

Definition fmt_nat (b n : Z) : bytes := digit_char <$> digits b n.

(** [%d] and [%x] of a signed number. *)
Definition fmt_int (b n : Z) : bytes :=
  if n <? 0 then Byte.x2d :: fmt_nat b (- n) else fmt_nat b n.

Fixpoint parse_digits (b acc : Z) (s : bytes) : option Z :=
  match s with
  | [] => Some acc
  | c :: s =>
      d ← char_digit c;
      if d <? b then parse_digits b (acc * b + d) s else None
  end.

Definition parse_nat (b : Z) (s : bytes) : option Z :=
  match s with [] => None | _ => parse_digits b 0 s end.

(** [SetString(s, base)] of math/big: an optional sign and digits. *)
Definition parse_int (b : Z) (s : bytes) : option Z :=
  match s with
  | Byte.x2d :: s => Z.opp <$> parse_nat b s
  | Byte.x2b :: s => parse_nat b s
  | _ => parse_nat b s
  end.

(** ** Values and [%v] *)

Inductive goval : Type :=
| VNum (z : Z)
| VBool (b : bool)
| VSeq (l : list goval)
| VStruct (l : list goval).

(** The elements separated by a space. *)
Definition fmt_elems (f : goval -> bytes) : list goval -> bytes :=
  fix go l := match l with
              | [] => []
              | [v] => f v
              | v :: l => f v ++ Byte.x20 :: go l
              end.

Fixpoint fmt_v (v : goval) : bytes :=
  match v with
  | VNum z => fmt_int 10 z
  | VBool true => str_bytes "true"
  | VBool false => str_bytes "false"
  | VSeq l => Byte.x5b :: fmt_elems fmt_v l ++ [Byte.x5d]
  | VStruct l => Byte.x7b :: fmt_elems fmt_v l ++ [Byte.x7d]
  end.

(** A byte array or slice prints its elements as numbers. *)
Definition VBytes (bs : bytes) : goval := VSeq ((fun b => VNum (bval b)) <$> bs).

(** ** Radix lemmas *)

Section radix.
Context (b : Z) (Hb : 2 <= b <= 16).

Lemma char_digit_char d : 0 <= d < 16 -> char_digit (digit_char d) = Some d.
Proof.
  intros Hd. unfold digit_char, char_digit.
  destruct (Z.ltb_spec d 10); rewrite bval_mkb by lia.
  - rewrite (proj2 (Z.leb_le _ _)), (proj2 (Z.leb_le _ _)) by lia. simpl. f_equal. lia.
  - replace ((48 <=? 87 + d) && (87 + d <=? 57)) with false.
    2: { symmetry. apply andb_false_iff. right. apply Z.leb_gt. lia. }
    rewrite (proj2 (Z.leb_le _ _)), (proj2 (Z.leb_le _ _)) by lia. simpl. f_equal. lia.
Qed.

Lemma digits_le_bound fuel n : 0 <= n -> Forall (fun d => 0 <= d < b) (digits_le b fuel n).
Proof using Hb.
  revert n. induction fuel as [|fuel IH]; intros n Hn; simpl; constructor.
  - apply Z.mod_pos_bound. lia.
  - case_match; [constructor|]. apply IH. apply Z.div_pos; lia.
Qed.

Lemma digits_bound n : 0 <= n -> Forall (fun d => 0 <= d < b) (digits b n).
Proof using Hb. intros. unfold digits. by apply Forall_rev, digits_le_bound. Qed.

Lemma digits_nonempty n : digits b n <> [].
Proof.
  unfold digits. simpl. intros E%(f_equal length). rewrite length_app in E. simpl in E. lia.
Qed.

(** The value the digits denote. *)
Fixpoint val_le (l : list Z) : Z := match l with [] => 0 | d :: l => d + b * val_le l end.

Lemma val_digits_le fuel n : 0 <= n < 2 ^ Z.of_nat fuel -> val_le (digits_le b fuel n) = n.
Proof using Hb.
  revert n. induction fuel as [|fuel IH]; intros n Hn; simpl; [simpl in Hn; lia|].
  pose proof (Z.div_mod n b ltac:(lia)). case_match eqn:E.
  - apply Z.eqb_eq in E. simpl. lia.
  - rewrite IH; [lia|]. split; [apply Z.div_pos; lia|].
    apply Z.div_lt_upper_bound; [lia|].
    replace (Z.of_nat (S fuel)) with (1 + Z.of_nat fuel) in Hn by lia.
    rewrite Z.pow_add_r in Hn by lia. nia.
Qed.

Lemma parse_digits_app acc s t :
  parse_digits b acc (s ++ t) = parse_digits b acc s ≫= fun a => parse_digits b a t.
Proof.
  revert acc. induction s as [|c s IH]; intros acc; simpl; [done|].
  destruct (char_digit c); simpl; [|done]. case_match; [apply IH|done].
Qed.

Lemma parse_digits_rev acc l :
  Forall (fun d => 0 <= d < b) l ->
  parse_digits b acc (digit_char <$> rev l) = Some (acc * b ^ Z.of_nat (length l) + val_le l).
Proof using Hb.
  induction 1 as [|d l Hd _ IH]; simpl.
  { f_equal. lia. }
  rewrite fmap_app, parse_digits_app, IH. simpl.
  rewrite char_digit_char by lia. simpl.
  rewrite (proj2 (Z.ltb_lt _ _)) by lia.
  f_equal. replace (Z.of_nat (S (length l))) with (Z.of_nat (length l) + 1) by lia.
  rewrite Z.pow_add_r by lia. lia.
Qed.

Lemma parse_fmt_nat n : 0 <= n -> parse_nat b (fmt_nat b n) = Some n.
Proof using Hb.
  intros Hn. unfold parse_nat, fmt_nat.
  destruct (digits b n) eqn:E; [by apply digits_nonempty in E|]. rewrite <-E. clear E.
  replace (match digit_char <$> digits b n with [] => None | _ :: _ => _ end)
    with (parse_digits b 0 (digit_char <$> digits b n)).
  2: { destruct (digits b n) eqn:E; [by apply digits_nonempty in E|done]. }
  unfold digits. rewrite parse_digits_rev by by apply digits_le_bound.
  f_equal. rewrite Z.mul_0_l, Z.add_0_l. apply val_digits_le. split; [done|].
  rewrite Nat2Z.inj_succ, Z2Nat.id by apply Z.log2_nonneg.
  destruct (decide (n = 0)) as [->|]; [done|]. apply Z.log2_spec. lia.
Qed.

(** Digits are neither signs nor delimiters. *)
Lemma fmt_nat_chars n : 0 <= n ->
  Forall (fun c => exists d, 0 <= d < 16 /\ c = digit_char d) (fmt_nat b n).
Proof using Hb.
  intros Hn. unfold fmt_nat. apply Forall_fmap.
  eapply Forall_impl; [by apply digits_bound|]. intros d Hd. simpl in Hd. exists d. split; [lia|done].
Qed.
End radix.

(** ** [%v] is injective

    A number is followed by a delimiter, so that the text determines the
    value: what is hashed is the content, not an ambiguous rendering of it. *)

Definition delimited (s : bytes) : Prop :=
  match s with [] => True | c :: _ => c = Byte.x20 \/ c = Byte.x5d \/ c = Byte.x7d end.

Section goval_ind.
Context (P : goval -> Prop).
Context (Pnum : forall z, P (VNum z)) (Pbool : forall b, P (VBool b)).
Context (Pseq : forall l, Forall P l -> P (VSeq l)).
Context (Pstruct : forall l, Forall P l -> P (VStruct l)).

Fixpoint goval_ind' (v : goval) : P v :=
  let fix go l : Forall P l :=
    match l with [] => Forall_nil_2 P | v :: l => Forall_cons_2 P v l (goval_ind' v) (go l) end in
  match v with
  | VNum z => Pnum z
  | VBool b => Pbool b
  | VSeq l => Pseq l (go l)
  | VStruct l => Pstruct l (go l)
  end.
End goval_ind.

Lemma digit_char_val d : 0 <= d < 16 ->
  bval (digit_char d) = (if d <? 10 then 48 + d else 87 + d).
Proof. intros. unfold digit_char. case_match; apply bval_mkb; lia. Qed.

(** Two digit strings followed by delimiters. *)
Lemma digits_split_inj s s' t t' :
  Forall (fun c => exists d, 0 <= d < 16 /\ c = digit_char d) s ->
  Forall (fun c => exists d, 0 <= d < 16 /\ c = digit_char d) s' ->
  delimited t -> delimited t' -> s ++ t = s' ++ t' -> s = s' /\ t = t'.
Proof.
  assert (Hno : forall c u, (exists d, 0 <= d < 16 /\ c = digit_char d) ->
    delimited (c :: u) -> False).
  { intros c u (d & Hd & ->) Hdel. pose proof (digit_char_val d Hd) as Hv.
    destruct Hdel as [E|[E|E]]; rewrite E in Hv; revert Hv; case_match; vm_compute (bval _); lia. }
  intros Hs. revert s'. induction Hs as [|c s Hc _ IH]; intros s' Hs' Ht Ht' E.
  - destruct Hs' as [|c' s' Hc']; [done|]. simpl in E. subst t.
    destruct (Hno _ _ Hc' Ht).
  - destruct Hs' as [|c' s' Hc' Hs'].
    + simpl in E. subst t'. destruct (Hno _ _ Hc Ht').
    + injection E as -> E. destruct (IH s') as [-> ->]; done.
Qed.

(** The first byte of a number is a sign or a digit. *)
Lemma fmt_nat_cons b n : 2 <= b <= 16 -> 0 <= n ->
  exists d s, 0 <= d < b /\ fmt_nat b n = digit_char d :: s.
Proof.
  intros Hb Hn. pose proof (digits_bound b Hb n Hn) as H.
  unfold fmt_nat. destruct (digits b n) as [|d l] eqn:E; [by apply digits_nonempty in E|].
  apply Forall_cons in H as [? _]. by exists d, (digit_char <$> l).
Qed.

Lemma fmt_int_inj b n n' t t' : 2 <= b <= 16 -> delimited t -> delimited t' ->
  fmt_int b n ++ t = fmt_int b n' ++ t' -> n = n' /\ t = t'.
Proof.
  intros Hb Ht Ht' E.
  assert (Hpos : forall m m', 0 <= m -> 0 <= m' ->
    fmt_nat b m ++ t = fmt_nat b m' ++ t' -> m = m' /\ t = t').
  { intros m m' Hm Hm' E'.
    apply digits_split_inj in E' as [E' ->]; [|by apply fmt_nat_chars..|done|done].
    split; [|done]. pose proof (parse_fmt_nat b Hb m Hm) as P.
    rewrite E', parse_fmt_nat in P by done. congruence. }
  assert (Hsign : forall m s u, 0 <= m -> Byte.x2d :: s = fmt_nat b m ++ u -> False).
  { intros m s u Hm E'. destruct (fmt_nat_cons b m Hb Hm) as (d & s' & Hd & Es).
    rewrite Es in E'. injection E' as E' _. pose proof (digit_char_val d ltac:(lia)) as Hv.
    rewrite <-E' in Hv. revert Hv. case_match; vm_compute (bval _); lia. }
  unfold fmt_int in E. destruct (Z.ltb_spec n 0), (Z.ltb_spec n' 0); simpl in E.
  - injection E as E. apply Hpos in E as [? ->]; [split; [lia|done]|lia..].
  - apply Hsign in E; [done|lia].
  - symmetry in E. apply Hsign in E; [done|lia].
  - by apply Hpos in E.
Qed.

(** What a text can start with. *)
Definition head_class (v : goval) (c : byte) : Prop :=
  match v with
  | VNum _ => bval c = 45 \/ 48 <= bval c <= 57
  | VBool b => c = if b then Byte.x74 else Byte.x66
  | VSeq _ => c = Byte.x5b
  | VStruct _ => c = Byte.x7b
  end.

Lemma fmt_v_head v : exists c s, fmt_v v = c :: s /\ head_class v c.
Proof.
  destruct v as [z|b|l|l]; [|destruct b; by do 2 eexists|by do 2 eexists..].
  simpl. unfold fmt_int. case_match; [by do 2 eexists; split; [done|left]|].
  destruct (fmt_nat_cons 10 z) as (d & s & Hd & ->); [lia..|].
  exists (digit_char d), s. split; [done|]. right.
  rewrite digit_char_val by lia. rewrite (proj2 (Z.ltb_lt _ _)); lia.
Qed.

Lemma head_class_kind v v' c : head_class v c -> head_class v' c ->
  match v, v' with
  | VNum _, VNum _ | VSeq _, VSeq _ | VStruct _, VStruct _ => True
  | VBool b, VBool b' => b = b'
  | _, _ => False
  end.
Proof.
  destruct v as [?|[]|?|?], v' as [?|[]|?|?]; simpl; try done; intros H H'; subst;
    repeat match goal with H : context [bval ?x] |- _ => vm_compute (bval x) in H end; lia || done.
Qed.

Lemma head_class_not_delimited v c s : head_class v c -> delimited (c :: s) -> False.
Proof.
  intros H Hd. destruct v as [?|[]|?|?]; simpl in *; destruct Hd as [-> | [-> | -> ] ]; try done;
    revert H; vm_compute (bval _); lia.
Qed.

Lemma fmt_elems_inj l l' c t t' :
  c = Byte.x5d \/ c = Byte.x7d ->
  Forall (fun v => forall v' t t', delimited t -> delimited t' ->
    fmt_v v ++ t = fmt_v v' ++ t' -> v = v' /\ t = t') l ->
  fmt_elems fmt_v l ++ c :: t = fmt_elems fmt_v l' ++ c :: t' -> l = l' /\ t = t'.
Proof.
  intros Hc Hl. revert l'. induction Hl as [|v l Hv _ IH]; intros l' E.
  - destruct l' as [|v' l']; [by injection E as ->|]. exfalso.
    destruct (fmt_v_head v') as (h & s & Eh & Hh). simpl in E. rewrite Eh in E.
    assert (h = c) as -> by (by destruct l'; injection E as -> _).
    eapply (head_class_not_delimited v' c t); [done|]. simpl. tauto.
  - destruct l' as [|v' l'].
    { exfalso. destruct (fmt_v_head v) as (h & s & Eh & Hh). simpl in E. rewrite Eh in E.
      assert (h = c) as -> by (by destruct l; injection E as -> _).
      eapply (head_class_not_delimited v c t); [done|]. simpl. tauto. }
    assert (Hrest : forall l t, exists r, delimited r /\
      fmt_elems fmt_v (v :: l) ++ c :: t = fmt_v v ++ r /\
      r = match l with [] => c :: t | _ => Byte.x20 :: fmt_elems fmt_v l ++ c :: t end).
    { intros [|x k] u; eexists; (split; [|split; [|done]]); simpl; [tauto|done|tauto|].
      by rewrite <-app_assoc. }
    assert (Hrest' : fmt_elems fmt_v (v' :: l') ++ c :: t' = fmt_v v' ++
      match l' with [] => c :: t' | _ => Byte.x20 :: fmt_elems fmt_v l' ++ c :: t' end).
    { destruct l'; simpl; [done|]. by rewrite <-app_assoc. }
    destruct (Hrest l t) as (r & Hr & E1 & ->). rewrite E1, Hrest' in E. clear Hrest Hrest' E1.
    apply Hv in E as [<- E]; [|done|destruct l'; simpl; tauto].
    destruct l as [|x l], l' as [|x' l'].
    + by injection E as ->.
    + injection E as E _. destruct Hc; congruence.
    + injection E as E _. destruct Hc; congruence.
    + injection E as E. by destruct (IH (x' :: l') E) as [-> ->].
Qed.

Lemma fmt_v_inj_app v v' t t' : delimited t -> delimited t' ->
  fmt_v v ++ t = fmt_v v' ++ t' -> v = v' /\ t = t'.
Proof.
  revert v' t t'. induction v as [z|b|l IH|l IH] using goval_ind'; intros v' t t' Ht Ht' E.
  all: match goal with |- ?v = _ /\ _ =>
      destruct (fmt_v_head v) as (h & s & Eh & Hh), (fmt_v_head v') as (h' & s' & Eh' & Hh');
      assert (h' = h) as -> by (rewrite Eh, Eh' in E; by injection E as -> _);
      pose proof (head_class_kind _ _ _ Hh Hh') as Hk end; clear Hh Hh' Eh Eh' h s s'.
  all: destruct v' as [z'|b'|l'|l']; try done.
  - apply (fmt_int_inj 10) in E as [-> ->]; [done|lia|done..].
  - subst b'. by apply app_inv_head in E.
  - simpl in E. rewrite <-!app_assoc in E. injection E as E.
    apply fmt_elems_inj in E as [-> ->]; [done|by left|done].
  - simpl in E. rewrite <-!app_assoc in E. injection E as E.
    apply fmt_elems_inj in E as [-> ->]; [done|by right|done].
Qed.

#[global] Instance fmt_v_inj : Inj (=) (=) fmt_v.
Proof.
  intros v v' E. apply (fmt_v_inj_app v v' [] []); [done..|]. by rewrite !app_nil_r.
Qed.

#[global] Instance VBytes_inj : Inj (=) (=) VBytes.
Proof.
  intros l l' [= E]. eapply list_fmap_eq_inj; [|exact E].
  intros x y [= Exy]. by apply byte.unsigned_inj in Exy.
Qed.
