(* ===== verification/Chameleon.v ===== *)
(** * crypto/chameleon_hash.go: the chameleon hash

    Key generation, the hash and the collision finder, with the hexadecimal
    text the parameters are kept in. SHA-256, SHA3 and what a failed
    [SetString] of math/big leaves behind (its documentation says: undefined)
    are parameters; the random numbers are arguments. *)

From Stdlib Require Import Zpow_facts Znumtheory Zcong ZmodInv.
From S2P Require Import Prelude Format.

(** ** External functions *)

Class Digests := {
  sha256 : bytes -> bytes;
  sha3_256 : bytes -> bytes;
  SetString_undefined : bytes -> Z
}.

(** The sizes of the digests. *)
Class DigestLaws `{!Digests} := {
  length_sha256 m : length (sha256 m) = 32%nat;
  length_sha3_256 m : length (sha3_256 m) = 32%nat
}.

(** ** big.Int, as the package uses it *)

Definition HEX_BASE : Z := 16.

(** [z.SetString(s, HEX_BASE)], the success flag ignored. *)
Definition SetString `{!Digests} (s : bytes) : Z :=
  match parse_int HEX_BASE s with Some z => z | None => SetString_undefined s end.

(** [fmt.Sprintf("%x", z)] *)
Definition hex (z : Z) : bytes := fmt_int HEX_BASE z.

(** [z.Exp(x, y, m)] on a fresh [z]: [x^y mod |m|], [x^y] for [m = 0]; a
    negative [y] needs the inverse of [x]. *)
Definition big_Exp (x y m : Z) : Z :=
  if m =? 0 then (if y <=? 0 then 1 else x ^ y)
  else if y <? 0 then
    (if Z.gcd x (Z.abs m) =? 1 then Zpow_mod (Z.invmod x (Z.abs m)) (- y) (Z.abs m) else 0)
  else Zpow_mod x y (Z.abs m).

(** [z.Mod(x, m)] panics for [m = 0]. *)
Definition big_Mod (x m : Z) : option Z := if m =? 0 then None else Some (x mod Z.abs m).

(** [copy(result[:], bs)] into a fresh array of 32 bytes. *)
Definition copy32 (bs : bytes) : bytes := take 32 (bs ++ zeros 32).

(** ** The hash *)

Record ChameleonHashParameters := mkCHParams {
  par_G : bytes;
  par_P : bytes;
  par_Q : bytes;
  par_HK : bytes;
  par_TK : bytes
}.

Record ChameleonHashCheckString := mkCheckString {
  chk_R : bytes;
  chk_S : bytes
}.

Section chameleon.
Context {DG : Digests}.

(** [e = SHA256(message || hex r)] *)
Definition challenge (message : bytes) (r : Z) : Z := be_val (sha256 (message ++ hex r)).

(** [None]: a nil pointer or a zero modulus, the call panics. *)
Definition ChameleonHash (parameters : option ChameleonHashParameters)
    (checkString : option ChameleonHashCheckString) (message : bytes) : option bytes :=
  parameters ← parameters;
  checkString ← checkString;
  let gBig := SetString (par_G parameters) in
  let pBig := SetString (par_P parameters) in
  let qBig := SetString (par_Q parameters) in
  let hkBig := SetString (par_HK parameters) in
  let rBig := SetString (chk_R checkString) in
  let sBig := SetString (chk_S checkString) in
  let eBig := challenge message rBig in
  let hkeBig := big_Exp hkBig eBig pBig in
  let gsBig := big_Exp gBig sBig pBig in
  tmpBig ← big_Mod (hkeBig * gsBig) pBig;
  hBig ← big_Mod (rBig - tmpBig) qBig;
  Some (copy32 (min_bytes hBig)).

#[global] Arguments ChameleonHash : simpl never.

(** [kBig] is the number [rand.Int(rand.Reader, qBig)] draws; it panics for
    [qBig <= 0]. *)
Definition GenerateChCollision (parameters : option ChameleonHashParameters)
    (checkString : option ChameleonHashCheckString) (oldMessage newMessage : bytes)
    (kBig : Z) : option ChameleonHashCheckString :=
  params ← parameters;
  let gBig := SetString (par_G params) in
  let pBig := SetString (par_P params) in
  let qBig := SetString (par_Q params) in
  let tkBig := SetString (par_TK params) in
  if qBig <=? 0 then None
  else
    hash ← ChameleonHash parameters checkString oldMessage;
    let hBig := be_val hash in
    let tmpBig := big_Exp gBig kBig pBig in
    r2Big ← big_Mod (hBig + tmpBig) qBig;
    let eBig := challenge newMessage r2Big in
    tmpBig ← big_Mod (eBig * tkBig) qBig;
    s2Big ← big_Mod (kBig - tmpBig) qBig;
    Some (mkCheckString (hex r2Big) (hex s2Big)).

(** [rand] is the number [rand.Int(rand.Reader, bound)] draws. *)
Definition randgen (rand : Z) : bytes := hex rand.

Definition NewCheckString (rand1 rand2 : Z) : ChameleonHashCheckString :=
  mkCheckString (randgen rand1) (randgen rand2).

(** [pBig] is the random prime, [g0] the number drawn below [pBig], [tkBig]
    the one drawn below [qBig]. *)
Definition keygen (pBig g0 tkBig : Z) : ChameleonHashParameters :=
  let qBig := (pBig - 1) / 2 in
  let gBig := big_Exp g0 2 pBig in
  let hkBig := big_Exp gBig tkBig pBig in
  mkCHParams (hex gBig) (hex pBig) (hex qBig) (hex hkBig) (hex tkBig).

Definition newChameleonHashParameters (pBig g0 tkBig : Z) : ChameleonHashParameters :=
  keygen pBig g0 tkBig.

(** ** Correctness *)

Lemma parse_hex z : 0 <= z -> parse_int HEX_BASE (hex z) = Some z.
Proof.
  intros Hz. unfold hex, fmt_int, parse_int, HEX_BASE.
  rewrite (proj2 (Z.ltb_ge _ _)) by done.
  destruct (fmt_nat_cons 16 z) as (d & s & Hd & E); [lia..|].
  pose proof (parse_fmt_nat 16 ltac:(lia) z Hz) as HP. rewrite E in *.
  assert (digit_char d <> Byte.x2d /\ digit_char d <> Byte.x2b) as [??].
  { split; intros E'%(f_equal bval); rewrite digit_char_val in E' by lia;
      revert E'; case_match; vm_compute (bval _); lia. }
  by destruct (digit_char d) eqn:Ed.
Qed.

Lemma SetString_hex z : 0 <= z -> SetString (hex z) = z.
Proof. intros Hz. unfold SetString. by rewrite parse_hex. Qed.

Lemma big_Exp_pos x y m : 0 < m -> 0 <= y -> big_Exp x y m = x ^ y mod m.
Proof.
  intros. unfold big_Exp. rewrite (proj2 (Z.eqb_neq _ _)), (proj2 (Z.ltb_ge _ _)) by lia.
  rewrite Z.abs_eq by lia. apply Zpow_mod_correct. lia.
Qed.

Lemma big_Mod_pos x m : 0 < m -> big_Mod x m = Some (x mod m).
Proof.
  intros. unfold big_Mod. rewrite (proj2 (Z.eqb_neq _ _)) by lia. by rewrite Z.abs_eq by lia.
Qed.

Lemma length_copy32 bs : length (copy32 bs) = 32%nat.
Proof. unfold copy32, zeros. rewrite length_take, length_app, length_replicate. lia. Qed.

Lemma be_val_copy32 h : 0 <= h -> h = 0 \/ nbytes h = 32%nat -> be_val (copy32 (min_bytes h)) = h.
Proof.
  intros Hh [->|Hn]; [done|]. unfold copy32.
  rewrite take_app_length' by (by rewrite length_min_bytes). by apply be_val_min_bytes.
Qed.

(** Powers of an element of order dividing [q] depend on the exponent mod [q]. *)
Lemma pow_mod_order g p q a b : 1 < p -> 0 < q -> g ^ q mod p = 1 -> 0 <= a -> 0 <= b ->
  a mod q = b mod q -> g ^ a mod p = g ^ b mod p.
Proof.
  intros Hp Hq Hord Ha Hb Hab.
  assert (Hred : forall c, 0 <= c -> g ^ c mod p = g ^ (c mod q) mod p).
  { intros c Hc. rewrite (Z.div_mod c q) at 1 by lia.
    assert (0 <= c / q) by (apply Z.div_pos; lia).
    pose proof (Z.mod_pos_bound c q ltac:(lia)).
    rewrite Z.pow_add_r, Z.pow_mul_r by lia.
    rewrite Z.mul_mod, (Zpower_mod (g ^ q)), Hord, Z.pow_1_l by lia.
    rewrite (Z.mod_small 1), Z.mul_1_l, Z.mod_mod by lia. done. }
  by rewrite (Hred a), (Hred b), Hab.
Qed.

(** A consistent key set: [HK = G^TK mod P], and [G] has order dividing [Q]. *)
Record good_keys (k : ChameleonHashParameters) (g p q tk : Z) : Prop := {
  gk_G : SetString (par_G k) = g;
  gk_P : SetString (par_P k) = p;
  gk_Q : SetString (par_Q k) = q;
  gk_TK : SetString (par_TK k) = tk;
  gk_p : 1 < p;
  gk_q : 0 < q;
  gk_tk : 0 <= tk;
  gk_HK : SetString (par_HK k) = g ^ tk mod p;
  gk_order : g ^ q mod p = 1
}.

Lemma keygen_good p g0 tk :
  Z.prime p -> 2 < p -> 0 < g0 < p -> 0 <= tk ->
  good_keys (keygen p g0 tk) (g0 ^ 2 mod p) p ((p - 1) / 2) tk.
Proof.
  intros Hprime Hp Hg Htk. unfold keygen.
  assert (0 <= (p - 1) / 2) by (apply Z.div_pos; lia).
  pose proof (Z.mod_pos_bound (g0 ^ 2) p ltac:(lia)).
  rewrite !(big_Exp_pos g0 2 p), !(big_Exp_pos _ tk p) by lia.
  pose proof (Z.mod_pos_bound ((g0 ^ 2 mod p) ^ tk) p ltac:(lia)).
  assert (Hodd : p mod 2 = 1).
  { destruct (Z.Even_or_Odd p) as [[k ->] | [k ->] ]; [|rewrite Z.add_comm, Z.mul_comm; apply Z_mod_plus_full].
    destruct (proj2 Hprime 2); [lia|]. exists k. lia. }
  split; simpl; rewrite ?SetString_hex by lia; try done; try lia.
  - apply Z.div_str_pos. lia.
  - rewrite <-Zpower_mod, <-Z.pow_mul_r by lia.
    replace (2 * ((p - 1) / 2)) with (p - 1).
    + apply ZmodInv.Z.fermat_nz; [done|]. rewrite Z.mod_small; lia.
    + pose proof (Z.div_mod (p - 1) 2 ltac:(lia)) as E.
      rewrite Zminus_mod, Hodd in E. change ((1 - 1 mod 2) mod 2) with 0 in E. lia.
Qed.

(** ** The byte form of a hash

    The digits of the hash are copied to the start of the array, so that a
    hash with fewer than 32 bytes is shifted; read back, an array stands for a
    number whose own byte form is the array. *)

Lemma lor_shiftl_add a b n : 0 <= n -> 0 <= a < 2 ^ n -> Z.lor a (Z.shiftl b n) = a + b * 2 ^ n.
Proof.
  intros Hn Ha. rewrite <-Z.shiftl_mul_pow2 by done.
  assert (Hland : Z.land a (Z.shiftl b n) = 0).
  { apply Z.bits_inj'. intros i Hi. rewrite Z.land_spec, Z.bits_0.
    destruct (Z.lt_ge_cases i n).
    - rewrite Z.shiftl_spec_low by done. apply andb_false_r.
    - rewrite <-(Z.mod_small a (2 ^ n)), Z.mod_pow2_bits_high by lia. done. }
  by rewrite Z.add_nocarry_lxor, Z.lxor_lor.
Qed.

Lemma be_val_cons c l : be_val (c :: l) = bval c * 2 ^ (8 * Z.of_nat (length l)) + be_val l.
Proof.
  unfold be_val. simpl. rewrite le_combine_app, length_rev, (Z.mul_comm _ 8).
  rewrite lor_shiftl_add; [|lia|].
  - change (le_combine [c]) with (Z.lor (bval c) (Z.shiftl 0 8)).
    rewrite Z.shiftl_0_l, Z.lor_0_r. lia.
  - pose proof (le_combine_bound (rev l)). by rewrite <-(length_rev l).
Qed.

Lemma be_val_head c l : bval c <> 0 -> 2 ^ (8 * Z.of_nat (length l)) <= be_val (c :: l).
Proof.
  intros Hc. rewrite be_val_cons. pose proof (be_val_bound l). pose proof (bval_range c). nia.
Qed.

Lemma min_bytes_head h : 0 < h -> exists c l, min_bytes h = c :: l /\ bval c <> 0.
Proof.
  intros Hh. pose proof (be_val_min_bytes h ltac:(lia)) as Hv.
  destruct (min_bytes h) as [|c l] eqn:E; [rewrite be_val_nil in Hv; lia|].
  exists c, l. split; [done|]. intros Hc. rewrite be_val_cons, Hc in Hv.
  pose proof (be_val_bound l) as Hb. pose proof (length_min_bytes h) as Hlen.
  rewrite E in Hlen. simpl in Hlen.
  assert (S (length l) <= length l)%nat; [|lia]. rewrite Hlen at 1. apply nbytes_le. lia.
Qed.

Lemma min_bytes_be_val c l : bval c <> 0 -> min_bytes (be_val (c :: l)) = c :: l.
Proof.
  intros Hc. unfold min_bytes. replace (nbytes (be_val (c :: l))) with (length (c :: l)).
  { apply be_bytes_val. }
  apply Nat.le_antisymm.
  - apply nbytes_ge; [simpl; lia|]. pose proof (be_val_head c l Hc).
    replace (Z.of_nat (length (c :: l)) - 1) with (Z.of_nat (length l)) by (rewrite length_cons; lia). done.
  - apply nbytes_le, be_val_bound.
Qed.

Lemma copy32_canonical h : 0 <= h ->
  copy32 (min_bytes (be_val (copy32 (min_bytes h)))) = copy32 (min_bytes h).
Proof.
  intros Hh. destruct (decide (h = 0)) as [->|]; [done|].
  destruct (min_bytes_head h) as (c & l & -> & Hc); [lia|].
  unfold copy32 at 2 3. simpl. rewrite min_bytes_be_val by done.
  unfold copy32. simpl. f_equal. rewrite take_app_le.
  { by rewrite take_take. }
  unfold zeros. rewrite length_take, length_app, length_replicate. lia.
Qed.

(** ** Collisions *)

Lemma ChameleonHash_good k g p q tk c m :
  good_keys k g p q tk -> 0 <= SetString (chk_S c) ->
  ChameleonHash (Some k) (Some c) m = Some (copy32 (min_bytes
    ((SetString (chk_R c) - g ^ (tk * challenge m (SetString (chk_R c)) + SetString (chk_S c)) mod p) mod q))).
Proof.
  intros [] Hs. unfold ChameleonHash. simpl.
  assert (0 <= challenge m (SetString (chk_R c))) by apply be_val_bound.
  rewrite gk_G0, gk_P0, gk_Q0, gk_HK0, !big_Exp_pos by lia.
  rewrite big_Mod_pos by lia. simpl. rewrite big_Mod_pos by lia. simpl.
  do 5 f_equal. rewrite Z.pow_add_r, Z.pow_mul_r by lia.
  rewrite <-Zpower_mod, <-Z.mul_mod by lia. done.
Qed.

(** What the new check string hashes to: the old hash, read as a number and
    reduced modulo [Q]. *)
Lemma collision_hash k g p q tk c old new kBig h :
  good_keys k g p q tk -> 0 <= kBig ->
  ChameleonHash (Some k) (Some c) old = Some h ->
  exists c', GenerateChCollision (Some k) (Some c) old new kBig = Some c' /\
    ChameleonHash (Some k) (Some c') new = Some (copy32 (min_bytes (be_val h mod q))).
Proof.
  intros Hk Hkb Hh. pose proof Hk as []. unfold GenerateChCollision. rewrite Hh. simpl.
  rewrite gk_G0, gk_P0, gk_Q0, gk_TK0. rewrite (proj2 (Z.leb_gt q 0)) by lia.
  rewrite big_Exp_pos, !big_Mod_pos by lia. simpl. do 2 (rewrite big_Mod_pos by lia; simpl).
  set (r2 := (be_val h + _) mod q). set (s2 := (kBig - _) mod q).
  assert (0 <= r2) by (by apply Z.mod_pos_bound). assert (0 <= s2) by (by apply Z.mod_pos_bound).
  eexists. split; [done|].
  rewrite (ChameleonHash_good k g p q tk) by (simpl; rewrite ?SetString_hex; done).
  simpl. rewrite !SetString_hex by done. do 3 f_equal.
  assert (0 <= challenge new r2) by apply be_val_bound.
  rewrite (pow_mod_order g p q _ kBig); [|lia..|].
  - unfold r2. rewrite Zminus_mod_idemp_l. f_equal. lia.
  - unfold s2. rewrite Zplus_mod_idemp_r. unfold Z.sub at 1.
    rewrite (Z.add_comm kBig), Z.add_assoc, <-Zplus_mod_idemp_l.
    replace ((tk * challenge new r2 + - ((challenge new r2 * tk) mod q)) mod q) with 0; [done|].
    rewrite (Z.mul_comm tk), Z.add_opp_r, Zminus_mod_idemp_r, Z.sub_diag. done.
Qed.

Lemma ChameleonHash_canonical k c m h :
  ChameleonHash k c m = Some h -> length h = 32%nat /\ copy32 (min_bytes (be_val h)) = h.
Proof.
  intros Hh. unfold ChameleonHash in Hh. destruct k as [k|]; [|done]. destruct c as [c|]; [|done].
  simpl in Hh. destruct (big_Mod _ (SetString (par_P k))); [|done]. simpl in Hh.
  destruct (big_Mod _ _) as [h'|] eqn:E; [|done]. injection Hh as <-.
  split; [apply length_copy32|]. apply copy32_canonical.
  unfold big_Mod in E. case_match eqn:E0; [done|]. apply Z.eqb_neq in E0. injection E as <-.
  apply Z.mod_pos_bound. lia.
Qed.

(** The collision is one exactly as long as the hash, read as a number, is
    below [Q]. *)
Lemma collision_same_hash k g p q tk c old new kBig h :
  good_keys k g p q tk -> 0 <= kBig ->
  ChameleonHash (Some k) (Some c) old = Some h -> be_val h < q ->
  exists c', GenerateChCollision (Some k) (Some c) old new kBig = Some c' /\
    ChameleonHash (Some k) (Some c') new = Some h.
Proof.
  intros Hk Hkb Hh Hlt. destruct (collision_hash k g p q tk c old new kBig h) as (c' & E & E'); [done..|].
  exists c'. split; [done|]. rewrite E'. pose proof (be_val_bound h).
  rewrite Z.mod_small by lia. f_equal. by apply ChameleonHash_canonical in Hh as [_ ?].
Qed.
End chameleon.
