(* ===== verification/Protocol.v ===== *)
(** * protocol/: accounts, transactions and blocks

    The data the chain is made of, with its hashes and its encodings. A fixed
    array is a list of bytes, a slice that the code compares with nil an
    option. The hashes are SHA3 over the text of [%v] ([Format.v]), for the
    updatable transactions followed by the chameleon hash ([Chameleon.v]). *)

From S2P Require Import Prelude Format Chameleon.

Abbreviation hash := bytes.
Abbreviation address := bytes.
Definition zero_hash : hash := zeros 32.
Definition zero_sig : bytes := zeros 64.

Definition COMM_KEY_LENGTH : nat := 256.
Definition COMM_PROOF_LENGTH : nat := 256.

(** ** Accounts *)

Record Account := mkAccount {
  acc_Address : address;
  acc_Issuer : hash;
  acc_Balance : Z;
  acc_TxCnt : Z;
  acc_IsStaking : bool;
  acc_CommitmentKey : bytes;
  acc_StakingBlockHeight : Z;
  acc_Contract : option bytes;
  acc_ContractVariables : list bytes;
  acc_Parameters : option ChameleonHashParameters
}.

Definition NewAccount (address : address) (issuer : hash) (balance : Z) (isStaking : bool)
    (commitmentKey : bytes) (contract : option bytes) (contractVariables : list bytes)
    (parameters : option ChameleonHashParameters) : Account :=
  mkAccount address issuer balance 0 isStaking commitmentKey 0 contract contractVariables
    parameters.

(** Assignments to the fields of an account. *)
Definition set_Balance (v : Z) (a : Account) : Account :=
  mkAccount (acc_Address a) (acc_Issuer a) v (acc_TxCnt a) (acc_IsStaking a)
    (acc_CommitmentKey a) (acc_StakingBlockHeight a) (acc_Contract a)
    (acc_ContractVariables a) (acc_Parameters a).

Definition set_TxCnt (v : Z) (a : Account) : Account :=
  mkAccount (acc_Address a) (acc_Issuer a) (acc_Balance a) v (acc_IsStaking a)
    (acc_CommitmentKey a) (acc_StakingBlockHeight a) (acc_Contract a)
    (acc_ContractVariables a) (acc_Parameters a).

Definition set_IsStaking (v : bool) (a : Account) : Account :=
  mkAccount (acc_Address a) (acc_Issuer a) (acc_Balance a) (acc_TxCnt a) v
    (acc_CommitmentKey a) (acc_StakingBlockHeight a) (acc_Contract a)
    (acc_ContractVariables a) (acc_Parameters a).

Definition set_CommitmentKey (v : bytes) (a : Account) : Account :=
  mkAccount (acc_Address a) (acc_Issuer a) (acc_Balance a) (acc_TxCnt a) (acc_IsStaking a)
    v (acc_StakingBlockHeight a) (acc_Contract a) (acc_ContractVariables a)
    (acc_Parameters a).

Definition set_StakingBlockHeight (v : Z) (a : Account) : Account :=
  mkAccount (acc_Address a) (acc_Issuer a) (acc_Balance a) (acc_TxCnt a) (acc_IsStaking a)
    (acc_CommitmentKey a) v (acc_Contract a) (acc_ContractVariables a) (acc_Parameters a).

Definition set_ContractVariables (v : list bytes) (a : Account) : Account :=
  mkAccount (acc_Address a) (acc_Issuer a) (acc_Balance a) (acc_TxCnt a) (acc_IsStaking a)
    (acc_CommitmentKey a) (acc_StakingBlockHeight a) (acc_Contract a) v (acc_Parameters a).

(** [Balance += x], [Balance -= x] on a uint64, [TxCnt += 1] and
    [TxCnt -= 1] on a uint32. *)
Definition credit (x : Z) (a : Account) : Account := set_Balance (u64 (acc_Balance a + x)) a.
Definition debit (x : Z) (a : Account) : Account := set_Balance (u64 (acc_Balance a - x)) a.
Definition inc_TxCnt (a : Account) : Account := set_TxCnt (u32 (acc_TxCnt a + 1)) a.
Definition dec_TxCnt (a : Account) : Account := set_TxCnt (u32 (acc_TxCnt a - 1)) a.

(** ** Transactions *)

Record AccTx := mkAccTx {
  atx_Header : Z;
  atx_Fee : Z;
  atx_Issuer : hash;
  atx_PubKey : address;
  atx_Sig : bytes;
  atx_Contract : option bytes;
  atx_ContractVariables : list bytes;
  atx_Parameters : option ChameleonHashParameters;
  atx_CheckString : option ChameleonHashCheckString;
  atx_Data : option bytes
}.

Record FundsTx := mkFundsTx {
  ftx_Header : Z;
  ftx_Amount : Z;
  ftx_Fee : Z;
  ftx_TxCnt : Z;
  ftx_From : hash;
  ftx_To : hash;
  ftx_Sig1 : bytes;
  ftx_Sig2 : bytes;
  ftx_Aggregated : bool;
  ftx_Block : hash;
  ftx_CheckString : option ChameleonHashCheckString;
  ftx_Data : option bytes
}.

Record ConfigTx := mkConfigTx {
  ctx_Header : Z;
  ctx_Id : Z;
  ctx_Payload : Z;
  ctx_Fee : Z;
  ctx_TxCnt : Z;
  ctx_Sig : bytes;
  ctx_CheckString : option ChameleonHashCheckString;
  ctx_Data : option bytes
}.

Record StakeTx := mkStakeTx {
  stx_Header : Z;
  stx_Fee : Z;
  stx_IsStaking : bool;
  stx_Account : hash;
  stx_Sig : bytes;
  stx_CommitmentKey : bytes;
  stx_CheckString : option ChameleonHashCheckString;
  stx_Data : option bytes
}.

Record AggTx := mkAggTx {
  gtx_Amount : Z;
  gtx_Fee : Z;
  gtx_From : list hash;
  gtx_To : list hash;
  gtx_AggregatedTxSlice : list hash;
  gtx_Aggregated : bool;
  gtx_Block : hash;
  gtx_MerkleRoot : hash;
  gtx_CheckString : option ChameleonHashCheckString;
  gtx_Data : option bytes
}.

Record UpdateTx := mkUpdateTx {
  utx_Fee : Z;
  utx_TxToUpdateHash : hash;
  utx_TxToUpdateCheckString : option ChameleonHashCheckString;
  utx_TxToUpdateData : option bytes;
  utx_Issuer : hash;
  utx_Sig : bytes;
  utx_CheckString : option ChameleonHashCheckString;
  utx_Data : option bytes
}.

(** The interface [Transaction], by its dynamic type. *)
Inductive Transaction : Type :=
| TAcc (tx : AccTx)
| TFunds (tx : FundsTx)
| TConfig (tx : ConfigTx)
| TStake (tx : StakeTx)
| TAgg (tx : AggTx)
| TUpdate (tx : UpdateTx).

(** Constructors of the client side. *)
Definition ConstrFundsTx (header amount fee txCnt : Z) (from to : hash)
    (checkString : option ChameleonHashCheckString) (data : option bytes) : FundsTx :=
  mkFundsTx header amount fee txCnt from to zero_sig zero_sig false zero_hash checkString data.

Definition ConstrAccTx (header fee : Z) (issuer : hash) (address : address)
    (contract : option bytes) (contractVariables : list bytes)
    (parameters : option ChameleonHashParameters)
    (checkString : option ChameleonHashCheckString) (data : option bytes) : AccTx :=
  mkAccTx header fee issuer address zero_sig contract contractVariables parameters
    checkString data.

Definition ConstrUpdateTx (fee : Z) (txToUpdateHash : hash)
    (txToUpdateCheckString : option ChameleonHashCheckString) (txToUpdateData : option bytes)
    (issuer : hash) (checkString : option ChameleonHashCheckString) (data : option bytes)
    : UpdateTx :=
  mkUpdateTx fee txToUpdateHash txToUpdateCheckString txToUpdateData issuer zero_sig
    checkString data.

Definition Transaction_TxFee (tx : Transaction) : Z :=
  match tx with
  | TAcc tx => atx_Fee tx
  | TFunds tx => ftx_Fee tx
  | TConfig tx => ctx_Fee tx
  | TStake tx => stx_Fee tx
  | TAgg tx => gtx_Fee tx
  | TUpdate tx => utx_Fee tx
  end.

(** A nil slice and an empty one print alike. *)
Definition VSlice (o : option bytes) : goval := VBytes (default [] o).

Definition VCheckString (c : ChameleonHashCheckString) : goval :=
  VStruct [VBytes (chk_R c); VBytes (chk_S c)].

(** [crypto.ChameleonHashParametersMap], read by the hashes of the
    transactions whose author is an account. *)
Abbreviation ParametersMap := (gmap hash ChameleonHashParameters).

Section hashes.
Context {DG : Digests}.

(** [SerializeHashContent(data)] *)
Definition SerializeHashContent (v : goval) : hash := sha3_256 (fmt_v v).

Definition Account_Hash (a : Account) : hash := SerializeHashContent (VBytes (acc_Address a)).

(** What the SHA3 of a transaction covers. *)
Definition FundsTx_content (tx : FundsTx) : goval :=
  VStruct [VNum (ftx_Header tx); VNum (ftx_Amount tx); VNum (ftx_Fee tx); VNum (ftx_TxCnt tx);
           VBytes (ftx_From tx); VBytes (ftx_To tx); VSlice (ftx_Data tx)].

Definition FundsTx_SHA3 (tx : FundsTx) : hash := SerializeHashContent (FundsTx_content tx).

Definition AccTx_content (tx : AccTx) : goval :=
  VStruct [VNum (atx_Header tx); VBytes (atx_Issuer tx); VNum (atx_Fee tx);
           VBytes (atx_PubKey tx); VSlice (atx_Contract tx);
           VSeq (VBytes <$> atx_ContractVariables tx); VSlice (atx_Data tx)].

Definition AccTx_SHA3 (tx : AccTx) : hash := SerializeHashContent (AccTx_content tx).

Definition ConfigTx_content (tx : ConfigTx) : goval :=
  VStruct [VNum (ctx_Header tx); VNum (ctx_Id tx); VNum (ctx_Payload tx); VNum (ctx_Fee tx);
           VNum (ctx_TxCnt tx)].

Definition ConfigTx_Hash (tx : ConfigTx) : hash := SerializeHashContent (ConfigTx_content tx).

Definition StakeTx_content (tx : StakeTx) : goval :=
  VStruct [VNum (stx_Header tx); VNum (stx_Fee tx); VBool (stx_IsStaking tx);
           VBytes (stx_Account tx); VBytes (stx_CommitmentKey tx)].

Definition StakeTx_Hash (tx : StakeTx) : hash := SerializeHashContent (StakeTx_content tx).

Definition AggTx_content (tx : AggTx) : goval :=
  VStruct [VNum (gtx_Amount tx); VNum (gtx_Fee tx); VSeq (VBytes <$> gtx_From tx);
           VSeq (VBytes <$> gtx_To tx); VBytes (gtx_MerkleRoot tx)].

Definition AggTx_Hash (tx : AggTx) : hash := SerializeHashContent (AggTx_content tx).

(** The check strings are dereferenced. *)
Definition UpdateTx_SHA3 (tx : UpdateTx) : option hash :=
  newCheck ← utx_TxToUpdateCheckString tx;
  check ← utx_CheckString tx;
  Some (SerializeHashContent (VStruct
    [VNum (utx_Fee tx); VBytes (utx_TxToUpdateHash tx); VCheckString newCheck;
     VSlice (utx_TxToUpdateData tx); VBytes (utx_Issuer tx); VCheckString check;
     VSlice (utx_Data tx)])).

Definition FundsTx_ChameleonHash (parameters : option ChameleonHashParameters) (tx : FundsTx)
    : option hash := ChameleonHash parameters (ftx_CheckString tx) (FundsTx_SHA3 tx).

Definition FundsTx_Hash (m : ParametersMap) (tx : FundsTx) : option hash :=
  FundsTx_ChameleonHash (m !! ftx_From tx) tx.

Definition AccTx_ChameleonHash (parameters : option ChameleonHashParameters) (tx : AccTx)
    : option hash := ChameleonHash parameters (atx_CheckString tx) (AccTx_SHA3 tx).

Definition AccTx_Hash (tx : AccTx) : option hash := AccTx_ChameleonHash (atx_Parameters tx) tx.

Definition UpdateTx_ChameleonHash (parameters : option ChameleonHashParameters)
    (tx : UpdateTx) : option hash :=
  sha3 ← UpdateTx_SHA3 tx;
  ChameleonHash parameters (utx_CheckString tx) sha3.

Definition UpdateTx_Hash (m : ParametersMap) (tx : UpdateTx) : option hash :=
  UpdateTx_ChameleonHash (m !! utx_Issuer tx) tx.

(** [tx.Hash()] of the interface; [None] when the call panics. *)
Definition Transaction_Hash (m : ParametersMap) (tx : Transaction) : option hash :=
  match tx with
  | TAcc tx => AccTx_Hash tx
  | TFunds tx => FundsTx_Hash m tx
  | TConfig tx => Some (ConfigTx_Hash tx)
  | TStake tx => Some (StakeTx_Hash tx)
  | TAgg tx => Some (AggTx_Hash tx)
  | TUpdate tx => UpdateTx_Hash m tx
  end.
End hashes.

(** [SetData] and [SetCheckString] of each type, and of the interface. *)
Definition AccTx_SetData (v : option bytes) (tx : AccTx) : AccTx :=
  mkAccTx (atx_Header tx) (atx_Fee tx) (atx_Issuer tx) (atx_PubKey tx) (atx_Sig tx)
    (atx_Contract tx) (atx_ContractVariables tx) (atx_Parameters tx) (atx_CheckString tx) v.
Definition FundsTx_SetData (v : option bytes) (tx : FundsTx) : FundsTx :=
  mkFundsTx (ftx_Header tx) (ftx_Amount tx) (ftx_Fee tx) (ftx_TxCnt tx) (ftx_From tx) (ftx_To
    tx) (ftx_Sig1 tx) (ftx_Sig2 tx) (ftx_Aggregated tx) (ftx_Block tx) (ftx_CheckString tx) v.
Definition ConfigTx_SetData (v : option bytes) (tx : ConfigTx) : ConfigTx :=
  mkConfigTx (ctx_Header tx) (ctx_Id tx) (ctx_Payload tx) (ctx_Fee tx) (ctx_TxCnt tx) (ctx_Sig
    tx) (ctx_CheckString tx) v.
Definition StakeTx_SetData (v : option bytes) (tx : StakeTx) : StakeTx :=
  mkStakeTx (stx_Header tx) (stx_Fee tx) (stx_IsStaking tx) (stx_Account tx) (stx_Sig tx)
    (stx_CommitmentKey tx) (stx_CheckString tx) v.
Definition AggTx_SetData (v : option bytes) (tx : AggTx) : AggTx :=
  mkAggTx (gtx_Amount tx) (gtx_Fee tx) (gtx_From tx) (gtx_To tx) (gtx_AggregatedTxSlice tx)
    (gtx_Aggregated tx) (gtx_Block tx) (gtx_MerkleRoot tx) (gtx_CheckString tx) v.
Definition UpdateTx_SetData (v : option bytes) (tx : UpdateTx) : UpdateTx :=
  mkUpdateTx (utx_Fee tx) (utx_TxToUpdateHash tx) (utx_TxToUpdateCheckString tx)
    (utx_TxToUpdateData tx) (utx_Issuer tx) (utx_Sig tx) (utx_CheckString tx) v.

Definition AccTx_SetCheckString (v : option ChameleonHashCheckString) (tx : AccTx) : AccTx :=
  mkAccTx (atx_Header tx) (atx_Fee tx) (atx_Issuer tx) (atx_PubKey tx) (atx_Sig tx)
    (atx_Contract tx) (atx_ContractVariables tx) (atx_Parameters tx) v (atx_Data tx).
Definition FundsTx_SetCheckString (v : option ChameleonHashCheckString) (tx : FundsTx) : FundsTx :=
  mkFundsTx (ftx_Header tx) (ftx_Amount tx) (ftx_Fee tx) (ftx_TxCnt tx) (ftx_From tx) (ftx_To
    tx) (ftx_Sig1 tx) (ftx_Sig2 tx) (ftx_Aggregated tx) (ftx_Block tx) v (ftx_Data tx).
Definition ConfigTx_SetCheckString (v : option ChameleonHashCheckString) (tx : ConfigTx) : ConfigTx :=
  mkConfigTx (ctx_Header tx) (ctx_Id tx) (ctx_Payload tx) (ctx_Fee tx) (ctx_TxCnt tx) (ctx_Sig
    tx) v (ctx_Data tx).
Definition StakeTx_SetCheckString (v : option ChameleonHashCheckString) (tx : StakeTx) : StakeTx :=
  mkStakeTx (stx_Header tx) (stx_Fee tx) (stx_IsStaking tx) (stx_Account tx) (stx_Sig tx)
    (stx_CommitmentKey tx) v (stx_Data tx).
Definition AggTx_SetCheckString (v : option ChameleonHashCheckString) (tx : AggTx) : AggTx :=
  mkAggTx (gtx_Amount tx) (gtx_Fee tx) (gtx_From tx) (gtx_To tx) (gtx_AggregatedTxSlice tx)
    (gtx_Aggregated tx) (gtx_Block tx) (gtx_MerkleRoot tx) v (gtx_Data tx).
Definition UpdateTx_SetCheckString (v : option ChameleonHashCheckString) (tx : UpdateTx) : UpdateTx :=
  mkUpdateTx (utx_Fee tx) (utx_TxToUpdateHash tx) (utx_TxToUpdateCheckString tx)
    (utx_TxToUpdateData tx) (utx_Issuer tx) (utx_Sig tx) v (utx_Data tx).

(** Assignments to the bookkeeping fields. *)
Definition FundsTx_set_Block (v : hash) (tx : FundsTx) : FundsTx :=
  mkFundsTx (ftx_Header tx) (ftx_Amount tx) (ftx_Fee tx) (ftx_TxCnt tx) (ftx_From tx) (ftx_To
    tx) (ftx_Sig1 tx) (ftx_Sig2 tx) (ftx_Aggregated tx) v (ftx_CheckString tx) (ftx_Data tx).
Definition FundsTx_set_Aggregated (v : bool) (tx : FundsTx) : FundsTx :=
  mkFundsTx (ftx_Header tx) (ftx_Amount tx) (ftx_Fee tx) (ftx_TxCnt tx) (ftx_From tx) (ftx_To
    tx) (ftx_Sig1 tx) (ftx_Sig2 tx) v (ftx_Block tx) (ftx_CheckString tx) (ftx_Data tx).
Definition AggTx_set_Block (v : hash) (tx : AggTx) : AggTx :=
  mkAggTx (gtx_Amount tx) (gtx_Fee tx) (gtx_From tx) (gtx_To tx) (gtx_AggregatedTxSlice tx)
    (gtx_Aggregated tx) v (gtx_MerkleRoot tx) (gtx_CheckString tx) (gtx_Data tx).
Definition AggTx_set_Aggregated (v : bool) (tx : AggTx) : AggTx :=
  mkAggTx (gtx_Amount tx) (gtx_Fee tx) (gtx_From tx) (gtx_To tx) (gtx_AggregatedTxSlice tx) v
    (gtx_Block tx) (gtx_MerkleRoot tx) (gtx_CheckString tx) (gtx_Data tx).

Definition Transaction_SetData (v : option bytes) (tx : Transaction) : Transaction :=
  match tx with
  | TAcc tx => TAcc (AccTx_SetData v tx)
  | TFunds tx => TFunds (FundsTx_SetData v tx)
  | TConfig tx => TConfig (ConfigTx_SetData v tx)
  | TStake tx => TStake (StakeTx_SetData v tx)
  | TAgg tx => TAgg (AggTx_SetData v tx)
  | TUpdate tx => TUpdate (UpdateTx_SetData v tx)
  end.

Definition Transaction_SetCheckString (v : option ChameleonHashCheckString) (tx : Transaction) : Transaction :=
  match tx with
  | TAcc tx => TAcc (AccTx_SetCheckString v tx)
  | TFunds tx => TFunds (FundsTx_SetCheckString v tx)
  | TConfig tx => TConfig (ConfigTx_SetCheckString v tx)
  | TStake tx => TStake (StakeTx_SetCheckString v tx)
  | TAgg tx => TAgg (AggTx_SetCheckString v tx)
  | TUpdate tx => TUpdate (UpdateTx_SetCheckString v tx)
  end.

Definition Transaction_GetData (tx : Transaction) : option bytes :=
  match tx with
  | TAcc tx => atx_Data tx
  | TFunds tx => ftx_Data tx
  | TConfig tx => ctx_Data tx
  | TStake tx => stx_Data tx
  | TAgg tx => gtx_Data tx
  | TUpdate tx => utx_Data tx
  end.

(** ** Fixed-width encodings *)

(** [copy(dst[a:b], src)] for [len(src) >= b - a] is a splice; the encoders
    below write their fields in order, from the first byte to the last. *)
Definition CONFIGTX_SIZE : nat := 83.
Definition STAKETX_SIZE : nat := 106 + COMM_KEY_LENGTH.
Definition FUNDSTX_SIZE : nat := 246.

Definition ConfigTx_Encode (tx : ConfigTx) : bytes :=
  let e := zeros CONFIGTX_SIZE in
  let e := splice 0 [mkb (ctx_Header tx)] e in
  let e := splice 1 [mkb (ctx_Id tx)] e in
  let e := splice 2 (be_bytes 8 (ctx_Payload tx)) e in
  let e := splice 10 (be_bytes 8 (ctx_Fee tx)) e in
  let e := splice 18 [mkb (ctx_TxCnt tx)] e in
  splice 19 (ctx_Sig tx) e.

(** [None] is the nil result for a wrong size. *)
Definition ConfigTx_Decode (e : bytes) : option ConfigTx :=
  if negb (Nat.eqb (length e) CONFIGTX_SIZE) then None
  else
    header ← e !! 0%nat;
    id ← e !! 1%nat;
    txCnt ← e !! 18%nat;
    Some (mkConfigTx (bval header) (bval id) (be_val (sublist 2 8 e)) (be_val (sublist 10 8 e))
      (bval txCnt) (sublist 19 64 e) None None).

Definition StakeTx_Encode (tx : StakeTx) : bytes :=
  let isStaking := if stx_IsStaking tx then 1 else 0 in
  let e := zeros STAKETX_SIZE in
  let e := splice 0 [mkb (stx_Header tx)] e in
  let e := splice 1 (be_bytes 8 (stx_Fee tx)) e in
  let e := splice 9 [mkb isStaking] e in
  let e := splice 10 (stx_Account tx) e in
  let e := splice 42 (stx_Sig tx) e in
  splice 106 (stx_CommitmentKey tx) e.

Definition StakeTx_Decode (e : bytes) : option StakeTx :=
  if negb (Nat.eqb (length e) STAKETX_SIZE) then None
  else
    header ← e !! 0%nat;
    isStakingAsByte ← e !! 9%nat;
    Some (mkStakeTx (bval header) (be_val (sublist 1 8 e))
      (negb (bval isStakingAsByte =? 0)) (sublist 10 32 e) (sublist 42 64 e)
      (sublist 106 COMM_KEY_LENGTH e) None None).

(** [protocol.Encode(data, sliceSize)]: every item is cut or padded to
    [sliceSize] bytes. *)
Definition Encode (data : list bytes) (sliceSize : nat) : bytes :=
  mjoin ((fun item => take sliceSize (item ++ zeros sliceSize)) <$> data).

(** The loop of [protocol.Decode(encodedData, sliceSize)] takes a slice as
    long as one is left. *)
Fixpoint Decode_loop (fuel : nat) (encodedData : bytes) (sliceSize : nat)
    : outcome (list bytes) :=
  match fuel with
  | O => Timeout
  | S fuel =>
      if Nat.leb sliceSize (length encodedData) then
        match Decode_loop fuel (drop sliceSize encodedData) sliceSize with
        | Done data => Done (take sliceSize encodedData :: data)
        | Panic => Panic
        | Timeout => Timeout
        end
      else Done []
  end.

Definition Decode (encodedData : bytes) (sliceSize : nat) : outcome (list bytes) :=
  Decode_loop (S (length encodedData)) encodedData sliceSize.

(** ** Blocks *)

(** [bloom.BloomFilter] is a third-party type: the filter is kept as what its
    [GobEncode] returns. *)
Record Block := mkBlock {
  blk_Header : Z;
  blk_Hash : hash;
  blk_PrevHash : hash;
  blk_HashWithoutTx : hash;
  blk_PrevHashWithoutTx : hash;
  blk_NrElementsBF : Z;
  blk_BloomFilter : option bytes;
  blk_Height : Z;
  blk_Beneficiary : hash;
  blk_Aggregated : bool;
  blk_NrUpdates : Z;
  blk_Nonce : bytes;
  blk_Timestamp : Z;
  blk_MerkleRoot : hash;
  blk_NrAccTx : Z;
  blk_NrConfigTx : Z;
  blk_NrFundsTx : Z;
  blk_NrStakeTx : Z;
  blk_NrAggTx : Z;
  blk_NrUpdateTx : Z;
  blk_SlashedAddress : hash;
  blk_CommitmentProof : bytes;
  blk_ConflictingBlockHash1 : hash;
  blk_ConflictingBlockHash2 : hash;
  blk_ConflictingBlockHashWithoutTx1 : hash;
  blk_ConflictingBlockHashWithoutTx2 : hash;
  blk_StateCopy : gmap hash Account;
  blk_AccTxData : list hash;
  blk_FundsTxData : list hash;
  blk_ConfigTxData : list hash;
  blk_StakeTxData : list hash;
  blk_AggTxData : list hash;
  blk_UpdateTxData : list hash
}.

Definition BLOCK_HASH_LEN : Z := 32.
Definition MIN_BLOCKSIZE : Z := 393 + Z.of_nat COMM_PROOF_LENGTH + 1.

(** [int] is 64 bits wide; the counters are at most 16. *)
Definition GetTxDataSize (b : Block) : Z :=
  blk_NrAccTx b * BLOCK_HASH_LEN + blk_NrFundsTx b * BLOCK_HASH_LEN +
  blk_NrConfigTx b * BLOCK_HASH_LEN + blk_NrStakeTx b * BLOCK_HASH_LEN +
  blk_NrAggTx b * BLOCK_HASH_LEN + blk_NrUpdateTx b * BLOCK_HASH_LEN.

Definition GetBloomFilterSize (b : Block) : Z :=
  match blk_BloomFilter b with Some e => Z.of_nat (length e) | None => 0 end.

Definition GetSize (b : Block) : Z :=
  let size := MIN_BLOCKSIZE + GetTxDataSize b in
  match blk_BloomFilter b with Some e => size + Z.of_nat (length e) | None => size end.

(** Sizes of the Go types: a byte and a bool 1, uint16 2, uint32 4, int64 8,
    an array its length. *)
Definition GetHeaderSize (b : Block) : Z :=
  1 + 32 + 32 + 32 + 32 + 1 + 2 + 4 + 32 + 1 + GetBloomFilterSize b.

Definition GetBodySize (b : Block) : Z :=
  8 + 8 + 32 + 2 + 2 + 2 + 2 + 2 + 32 + Z.of_nat COMM_PROOF_LENGTH + 32 + 32 + 32 + 32 +
  GetTxDataSize b + GetBloomFilterSize b.

Section block_hash.
Context {DG : Digests}.

Definition HashBlock (b : Block) : hash := SerializeHashContent (VStruct
  [VBytes (blk_PrevHash b); VBytes (blk_PrevHashWithoutTx b); VNum (blk_Timestamp b);
   VBytes (blk_Nonce b); VBytes (blk_MerkleRoot b); VBytes (blk_Beneficiary b);
   VBytes (blk_CommitmentProof b); VBytes (blk_SlashedAddress b);
   VBytes (blk_ConflictingBlockHash1 b); VBytes (blk_ConflictingBlockHash2 b);
   VBytes (blk_ConflictingBlockHashWithoutTx1 b);
   VBytes (blk_ConflictingBlockHashWithoutTx2 b); VBool false]).

Definition HashBlockWithoutMerkleRoot (b : Block) : hash := SerializeHashContent (VStruct
  [VBytes (blk_PrevHash b); VBytes (blk_PrevHashWithoutTx b); VNum (blk_Timestamp b);
   VBytes zero_hash; VBytes (blk_Beneficiary b);
   VBytes (blk_CommitmentProof b); VBytes (blk_SlashedAddress b);
   VBytes (blk_ConflictingBlockHash1 b); VBytes (blk_ConflictingBlockHash2 b);
   VBytes (blk_ConflictingBlockHashWithoutTx1 b);
   VBytes (blk_ConflictingBlockHashWithoutTx2 b); VBool true]).
End block_hash.

(** ** Round trips *)

Definition ConfigTx_wf (tx : ConfigTx) : Prop :=
  is_u8 (ctx_Header tx) /\ is_u8 (ctx_Id tx) /\ is_u64 (ctx_Payload tx) /\
  is_u64 (ctx_Fee tx) /\ is_u8 (ctx_TxCnt tx) /\ length (ctx_Sig tx) = 64%nat.

Definition StakeTx_wf (tx : StakeTx) : Prop :=
  is_u8 (stx_Header tx) /\ is_u64 (stx_Fee tx) /\ length (stx_Account tx) = 32%nat /\
  length (stx_Sig tx) = 64%nat /\ length (stx_CommitmentKey tx) = COMM_KEY_LENGTH.

(** Writing the fields in order is concatenating them. *)
Lemma splice_next {A} (off : nat) (pre bs post : list A) :
  off = length pre -> (length bs <= length post)%nat ->
  splice off bs (pre ++ post) = (pre ++ bs) ++ drop (length bs) post.
Proof.
  intros -> Hle. unfold splice. rewrite take_app_length, <-drop_drop, drop_app_length.
  by rewrite app_assoc.
Qed.

Lemma zeros_drop n m : drop n (zeros m) = zeros (m - n).
Proof. unfold zeros. apply drop_replicate. Qed.

Ltac encode_fields :=
  repeat (rewrite splice_next;
    [ rewrite zeros_drop, ?length_be_bytes; cbn [length];
      repeat match goal with H : length ?l = _ |- _ => rewrite H end; cbn [Nat.sub]
    | rewrite ?length_app, ?length_be_bytes; cbn [length];
      repeat match goal with H : length ?l = _ |- _ => rewrite H end; done
    | unfold zeros; rewrite length_replicate, ?length_be_bytes; cbn [length];
      repeat match goal with H : length ?l = _ |- _ => rewrite H end; lia ]).

Lemma ConfigTx_Encode_app tx : length (ctx_Sig tx) = 64%nat ->
  ConfigTx_Encode tx = [mkb (ctx_Header tx)] ++ [mkb (ctx_Id tx)] ++ be_bytes 8 (ctx_Payload tx) ++
    be_bytes 8 (ctx_Fee tx) ++ [mkb (ctx_TxCnt tx)] ++ ctx_Sig tx.
Proof.
  intros Hs. unfold ConfigTx_Encode, CONFIGTX_SIZE.
  rewrite <-(app_nil_l (zeros 83)). encode_fields.
  change (zeros 0) with (@nil byte). by rewrite app_nil_r, <-!app_assoc.
Qed.

Lemma StakeTx_Encode_app tx :
  length (stx_Account tx) = 32%nat -> length (stx_Sig tx) = 64%nat ->
  length (stx_CommitmentKey tx) = COMM_KEY_LENGTH ->
  StakeTx_Encode tx = [mkb (stx_Header tx)] ++ be_bytes 8 (stx_Fee tx) ++
    [mkb (if stx_IsStaking tx then 1 else 0)] ++ stx_Account tx ++ stx_Sig tx ++
    stx_CommitmentKey tx.
Proof.
  unfold COMM_KEY_LENGTH. intros Ha Hs Hc. unfold StakeTx_Encode, STAKETX_SIZE, COMM_KEY_LENGTH.
  rewrite <-(app_nil_l (zeros (106 + 256))). encode_fields.
  change (zeros 0) with (@nil byte). by rewrite app_nil_r, <-!app_assoc.
Qed.

(** A field of a concatenation is the one at its offset. *)
Lemma sublist_at {A} (pre x post : list A) off len :
  off = length pre -> len = length x -> sublist off len (pre ++ x ++ post) = x.
Proof. apply sublist_mid. Qed.

Lemma lookup_at {A} (pre : list A) c post i : i = length pre -> (pre ++ c :: post) !! i = Some c.
Proof. intros ->. by apply list_lookup_middle. Qed.

Lemma ConfigTx_Decode_Encode tx : ConfigTx_wf tx ->
  ConfigTx_Decode (ConfigTx_Encode tx) =
  Some (mkConfigTx (ctx_Header tx) (ctx_Id tx) (ctx_Payload tx) (ctx_Fee tx) (ctx_TxCnt tx)
    (ctx_Sig tx) None None).
Proof.
  intros (Hh & Hi & Hp & Hf & Hc & Hs). unfold_ranges.
  rewrite ConfigTx_Encode_app by done.
  set (P := be_bytes 8 (ctx_Payload tx)). set (F := be_bytes 8 (ctx_Fee tx)).
  assert (length P = 8%nat) as HP by apply length_be_bytes.
  assert (length F = 8%nat) as HF by apply length_be_bytes.
  set (e := [mkb (ctx_Header tx)] ++ _).
  assert (e !! 0%nat = Some (mkb (ctx_Header tx))) as E0 by done.
  assert (e !! 1%nat = Some (mkb (ctx_Id tx))) as E1 by done.
  assert (e !! 18%nat = Some (mkb (ctx_TxCnt tx))) as E18.
  { unfold e. rewrite !app_assoc, <-(app_assoc _ [_] (ctx_Sig tx)).
    apply (lookup_at _ (mkb (ctx_TxCnt tx))). by rewrite !length_app, HP, HF. }
  assert (length e = CONFIGTX_SIZE) as He by (unfold e; by rewrite !length_app, HP, HF, Hs).
  unfold ConfigTx_Decode. rewrite He, E0, E1, E18, Nat.eqb_refl. cbn [negb mbind option_bind].
  rewrite !bval_mkb by done. unfold e. do 2 f_equal.
  - rewrite (app_assoc [_] [_]). rewrite (sublist_at _ P) by done. by apply be_val_bytes.
  - rewrite (app_assoc [_] [_]), (app_assoc _ P).
    rewrite (sublist_at _ F) by (rewrite ?length_app, ?HP; done). by apply be_val_bytes.
  - rewrite !app_assoc. rewrite <-(app_nil_r (ctx_Sig tx)) at 1.
    apply sublist_at; rewrite ?length_app, ?HP, ?HF; done.
Qed.

Lemma StakeTx_Decode_Encode tx : StakeTx_wf tx ->
  StakeTx_Decode (StakeTx_Encode tx) =
  Some (mkStakeTx (stx_Header tx) (stx_Fee tx) (stx_IsStaking tx) (stx_Account tx)
    (stx_Sig tx) (stx_CommitmentKey tx) None None).
Proof.
  intros (Hh & Hf & Ha & Hs & Hc). unfold_ranges.
  rewrite StakeTx_Encode_app by done.
  set (F := be_bytes 8 (stx_Fee tx)). set (st := mkb (if stx_IsStaking tx then 1 else 0)).
  assert (length F = 8%nat) as HF by apply length_be_bytes.
  set (e := [mkb (stx_Header tx)] ++ _).
  assert (e !! 0%nat = Some (mkb (stx_Header tx))) as E0 by done.
  assert (e !! 9%nat = Some st) as E9.
  { unfold e. rewrite app_assoc. apply (lookup_at _ st). by rewrite length_app, HF. }
  assert (length e = STAKETX_SIZE) as He by (unfold e; by rewrite !length_app, HF, Ha, Hs, Hc).
  unfold StakeTx_Decode. rewrite He, E0, E9, Nat.eqb_refl. cbn [negb mbind option_bind].
  rewrite bval_mkb by done. unfold e. do 2 f_equal.
  - rewrite (sublist_at _ F) by done. by apply be_val_bytes.
  - unfold st. rewrite bval_mkb by (by case_match). by destruct (stx_IsStaking tx).
  - rewrite (app_assoc _ F), (app_assoc _ [st]).
    apply sublist_at; rewrite ?length_app, ?HF; done.
  - rewrite (app_assoc _ F), (app_assoc _ [st]), (app_assoc _ (stx_Account tx)).
    apply sublist_at; rewrite ?length_app, ?HF, ?Ha; done.
  - rewrite (app_assoc _ F), (app_assoc _ [st]), (app_assoc _ (stx_Account tx)), (app_assoc _ (stx_Sig tx)).
    rewrite <-(app_nil_r (stx_CommitmentKey tx)) at 1.
    apply sublist_at; rewrite ?length_app, ?HF, ?Ha, ?Hs; done.
Qed.

(** With positive slices the loop ends, and splitting undoes joining. *)
Lemma Decode_loop_join data n fuel :
  (0 < n)%nat -> Forall (fun item => length item = n) data ->
  (length data < fuel)%nat -> Decode_loop fuel (mjoin data) n = Done data.
Proof.
  intros Hn Hdata. revert fuel. induction Hdata as [|x data Hx _ IH]; intros [|fuel] Hf; simpl in *; try lia.
  { by destruct n; [lia|]. }
  rewrite length_app, Hx. destruct (Nat.leb_spec n (n + length (mjoin data))); [|lia].
  rewrite drop_app_length', take_app_length' by done. by rewrite IH by lia.
Qed.

Lemma mjoin_Encode data n : Forall (fun item => length item = n) data ->
  Encode data n = mjoin data.
Proof.
  intros Hd. unfold Encode. f_equal. rewrite <-(list_fmap_id data) at 2.
  apply Forall_fmap_ext_1. eapply Forall_impl; [exact Hd|]. intros x Hx.
  by rewrite take_app_length'.
Qed.

Lemma length_mjoin {A} (data : list (list A)) n : Forall (fun item => length item = n) data ->
  length (mjoin data) = (n * length data)%nat.
Proof.
  induction 1 as [|x data Hx _ IH]; simpl; [lia|]. rewrite length_app, IH. lia.
Qed.

Lemma Decode_Encode data n : (0 < n)%nat -> Forall (fun item => length item = n) data ->
  Decode (Encode data n) n = Done data.
Proof.
  intros Hn Hdata. unfold Decode. rewrite mjoin_Encode by done.
  apply Decode_loop_join; [done..|]. rewrite (length_mjoin _ n) by done. nia.
Qed.

(** A slice size of zero never ends, whatever the fuel. *)
Lemma Decode_zero_diverges encodedData fuel : Decode_loop fuel encodedData 0 = Timeout.
Proof. revert encodedData. induction fuel as [|fuel IH]; intros; simpl; [done|]. by rewrite IH. Qed.
