(* ===== verification/Merkle.v ===== *)
(** * protocol/merkletree.go: the Merkle tree of a block

    The nodes point to their parent, so they live in a store and a pointer is
    an index of it. [buildIntermediate] recurses on ever shorter levels: it
    has fuel. SHA3 is a parameter ([Chameleon.v]). *)

From S2P Require Import Prelude Format Chameleon Protocol.

Abbreviation ptr := nat.

Record Node := mkNode {
  Parent : option ptr;
  Left : option ptr;
  Right : option ptr;
  leaf : bool;
  dup : bool;
  Hash : hash
}.

Record MerkleTree := mkMerkleTree {
  Root : ptr;
  merkleRoot : hash;
  Leafs : list ptr
}.

Abbreviation nodes := (list Node).

Definition new_node (n : Node) : M nodes ptr := fun h => Done (length h, h ++ [n]).
Definition deref (p : ptr) : M nodes Node := h ← get; of_option (h !! p).

Definition set_parent (par : ptr) (n : Node) : Node :=
  mkNode (Some par) (Left n) (Right n) (leaf n) (dup n) (Hash n).
Definition set_dup (n : Node) : Node :=
  mkNode (Parent n) (Left n) (Right n) (leaf n) true (Hash n).
Definition update (p : ptr) (f : Node -> Node) : M nodes unit := modify (fun h => alter f p h).

(** [math.Log2(float64(i))] is an integer for the powers of two, and for 0,
    where it is [-Inf]; the counts here are far below the precision of a
    float64. *)
Definition checkPower2 (i : nat) : bool := Nat.eqb i 0 || Nat.eqb (2 ^ Nat.log2 i) i.

(** [for !checkPower2(l) { l-- }] *)
Fixpoint largest_power2 (l : nat) : nat :=
  if checkPower2 l then l else match l with O => O | S l => largest_power2 l end.

Section merkle.
Context {DG : Digests}.

Fixpoint verifyNode (fuel : nat) (p : ptr) : M nodes hash :=
  match fuel with
  | O => timeout
  | S fuel =>
      n ← deref p;
      if leaf n then mret (Hash n)
      else
        l ← of_option (Left n);
        leftHash ← verifyNode fuel l;
        r ← of_option (Right n);
        rightHash ← verifyNode fuel r;
        mret (sha3_256 (leftHash ++ rightHash))
  end.

(** The loop over the pairs of the first [l] nodes; [inl] is the early return
    of a level of two nodes. An odd rest is an index out of range. *)
Fixpoint pair_up (two : bool) (nl : list ptr) : M nodes (ptr + list ptr) :=
  match nl with
  | [] => mret (inr [])
  | [_] => panic
  | a :: b :: nl =>
      na ← deref a;
      nb ← deref b;
      n ← new_node (mkNode None (Some a) (Some b) false false (sha3_256 (Hash na ++ Hash nb)));
      update a (set_parent n);;
      update b (set_parent n);;
      if two then mret (inl n)
      else
        rest ← pair_up two nl;
        mret (match rest with inl m => inl m | inr l => inr (n :: l) end)
  end.

Fixpoint buildIntermediate (fuel : nat) (nl : list ptr) : M nodes ptr :=
  match fuel with
  | O => timeout
  | S fuel =>
      let l := largest_power2 (length nl) in
      r ← pair_up (Nat.eqb (length nl) 2) (take l nl);
      match r with
      | inl n => mret n
      | inr ns => buildIntermediate fuel (ns ++ drop l nl)
      end
  end.

(** One leaf per non-zero hash. *)
Fixpoint new_leafs (txSlices : list hash) : M nodes (list ptr) :=
  match txSlices with
  | [] => mret []
  | tx :: txSlices =>
      if bool_decide (tx = zero_hash) then new_leafs txSlices
      else
        p ← new_node (mkNode None None None true false tx);
        l ← new_leafs txSlices;
        mret (p :: l)
  end.

(** An odd number of leaves: the last one is listed twice. *)
Definition buildWithContent (fuel : nat) (txSlices : list hash)
    : M nodes (option (ptr * list ptr)) :=
  match txSlices with
  | [] => mret None
  | _ =>
      leafs ← new_leafs txSlices;
      leafs ←
        (if Nat.odd (length leafs) then
           match last leafs with
           | Some p => update p set_dup;; mret (leafs ++ [p])
           | None => panic
           end
         else mret leafs);
      root ← buildIntermediate fuel leafs;
      mret (Some (root, leafs))
  end.

Definition newTree (fuel : nat) (txSlices : list hash) : M nodes (option MerkleTree) :=
  r ← buildWithContent fuel txSlices;
  match r with
  | None => mret None
  | Some (root, leafs) =>
      n ← deref root;
      mret (Some (mkMerkleTree root (Hash n) leafs))
  end.

Definition block_txHashes (b : Block) : list hash :=
  blk_FundsTxData b ++ blk_AccTxData b ++ blk_ConfigTxData b ++ blk_StakeTxData b ++
  blk_AggTxData b ++ blk_UpdateTxData b.

(** [None] is the nil tree of a block without transactions. *)
Definition BuildMerkleTree (fuel : nat) (b : Block) : M nodes (option MerkleTree) :=
  match block_txHashes b with
  | [] => mret None
  | txHashes => newTree fuel txHashes
  end.

Definition BuildAggTxMerkleTree (fuel : nat) (txHashes : list hash)
    : M nodes (option MerkleTree) :=
  match txHashes with
  | [] => mret None
  | _ => newTree fuel txHashes
  end.

Definition MerkleRoot (m : option MerkleTree) : hash :=
  match m with Some m => merkleRoot m | None => zero_hash end.

Definition VerifyTree (fuel : nat) (m : MerkleTree) : M nodes bool :=
  calculatedMerkleRoot ← verifyNode fuel (Root m);
  mret (bool_decide (merkleRoot m = calculatedMerkleRoot)).

Fixpoint GetLeaf_loop (leafs : list ptr) (leafHash : hash) : M nodes (option ptr) :=
  match leafs with
  | [] => mret None
  | p :: leafs =>
      n ← deref p;
      if bool_decide (leafHash = Hash n) then mret (Some p) else GetLeaf_loop leafs leafHash
  end.

Definition GetLeaf (merkleTree : MerkleTree) (leafHash : hash) : M nodes (option ptr) :=
  GetLeaf_loop (Leafs merkleTree) leafHash.

(** Up to the root: at every step the sibling and the parent. *)
Fixpoint GetIntermediate_loop (fuel : nat) (currentNode : ptr) (currentParent : option ptr)
    : M nodes (option (list ptr)) :=
  match fuel with
  | O => timeout
  | S fuel =>
      match currentParent with
      | None => mret (Some [])
      | Some par =>
          parent ← deref par;
          l ← of_option (Left parent);
          r ← of_option (Right parent);
          current ← deref currentNode;
          lnode ← deref l;
          rnode ← deref r;
          if bool_decide (Hash current = Hash lnode) then
            rest ← GetIntermediate_loop fuel par (Parent parent);
            mret ((fun rest => r :: par :: rest) <$> rest)
          else if bool_decide (Hash current = Hash rnode) then
            rest ← GetIntermediate_loop fuel par (Parent parent);
            mret ((fun rest => l :: par :: rest) <$> rest)
          else mret None
      end
  end.

(** [None] is the error. *)
Definition GetIntermediate (fuel : nat) (leaf : ptr) : M nodes (option (list ptr)) :=
  n ← deref leaf;
  GetIntermediate_loop fuel leaf (Parent n).

(** ** Specification: the root as a function of the hashes *)

Fixpoint pair_hashes (hs : list hash) : list hash :=
  match hs with
  | a :: b :: hs => sha3_256 (a ++ b) :: pair_hashes hs
  | hs => []
  end.

Definition next_level (hs : list hash) : list hash :=
  let l := largest_power2 (length hs) in pair_hashes (take l hs) ++ drop l hs.

(** The hash on top of the levels, [None] if there is none within the fuel. *)
Fixpoint top_hash (fuel : nat) (hs : list hash) : option hash :=
  match fuel with
  | O => None
  | S fuel =>
      match hs with
      | [a; b] => Some (sha3_256 (a ++ b))
      | _ => top_hash fuel (next_level hs)
      end
  end.

Definition leaf_hashes (txSlices : list hash) : list hash :=
  let hs := filter (fun tx => tx <> zero_hash) txSlices in
  if Nat.odd (length hs) then hs ++ option_list (last hs) else hs.

(** ** The store: what the links and the bookkeeping marks do not touch *)

Definition strip (n : Node) : Node := mkNode None (Left n) (Right n) (leaf n) false (Hash n).
Definition hash_at (h : nodes) (p : ptr) : option hash := Hash <$> (h !! p).

(** An inner node hashes two older nodes. *)
Definition node_ok (h : nodes) (p : ptr) (n : Node) : Prop :=
  leaf n = true \/
  exists a b x y, leaf n = false /\ Left n = Some a /\ Right n = Some b /\ (a < p)%nat /\ (b < p)%nat /\
    hash_at h a = Some x /\ hash_at h b = Some y /\ Hash n = sha3_256 (x ++ y).

Definition store_ok (h : nodes) : Prop := forall p n, h !! p = Some n -> node_ok h p n.

(** [h'] has every node of [h], with its hash. *)
Definition keeps (h h' : nodes) : Prop := forall p x, hash_at h p = Some x -> hash_at h' p = Some x.

Lemma keeps_refl h : keeps h h.
Proof. by intros p x. Qed.

Lemma keeps_trans h1 h2 h3 : keeps h1 h2 -> keeps h2 h3 -> keeps h1 h3.
Proof. intros H1 H2 p x Hp. by apply H2, H1. Qed.

Lemma keeps_app h k : keeps h (h ++ k).
Proof.
  intros p x Hp. unfold hash_at in *. apply fmap_Some in Hp as (n & Hn & ->).
  by rewrite (lookup_app_l_Some _ _ _ _ Hn).
Qed.

Lemma keeps_Forall2 h h' ps xs :
  keeps h h' -> Forall2 (fun p x => hash_at h p = Some x) ps xs ->
  Forall2 (fun p x => hash_at h' p = Some x) ps xs.
Proof. intros Hk H. eapply Forall2_impl; [exact H|]. intros p x. apply Hk. Qed.

Lemma node_ok_keeps h h' p n : keeps h h' -> node_ok h p n -> node_ok h' p n.
Proof.
  intros Hk [?|(a & b & x & y & ? & ? & ? & ? & ? & ? & ? & ?)]; [by left|right].
  exists a, b, x, y. eauto 20.
Qed.

Lemma hash_at_strip h h' p : strip <$> h = strip <$> h' -> hash_at h p = hash_at h' p.
Proof.
  intros E%(f_equal (fun l => l !! p)). rewrite !list_lookup_fmap in E. unfold hash_at.
  destruct (h !! p), (h' !! p); simpl in *; unfold strip in E; congruence.
Qed.

Lemma store_ok_strip h h' : strip <$> h = strip <$> h' -> store_ok h -> store_ok h'.
Proof.
  intros E Hok p n Hn. pose proof (f_equal (fun l => l !! p) E) as Ep.
  rewrite !list_lookup_fmap, Hn in Ep. destruct (h !! p) as [m|] eqn:Hm; [|done].
  injection Ep as El Er Elf Eh. apply Hok in Hm.
  apply (node_ok_keeps h h') in Hm; [|intros q x; by rewrite (hash_at_strip _ _ q E)].
  unfold node_ok in *. by rewrite <-El, <-Er, <-Elf, <-Eh.
Qed.

Lemma strip_alter (f : Node -> Node) (p : ptr) (h : nodes) : (forall n, strip (f n) = strip n) -> strip <$> alter f p h = strip <$> h.
Proof.
  intros Hf. apply list_eq. intros i. rewrite !list_lookup_fmap, list_lookup_alter.
  case_match; [|done]. subst. destruct (h !! i); simpl; [by rewrite Hf|done].
Qed.

Lemma store_ok_app h n : store_ok h -> node_ok h (length h) n -> store_ok (h ++ [n]).
Proof.
  intros Hok Hn p m Hm. apply (node_ok_keeps h); [apply keeps_app|].
  apply lookup_app_Some in Hm as [Hm|[Hle Hm]]; [by apply Hok|].
  apply list_lookup_singleton_Some in Hm as [? <-].
  by replace p with (length h) by lia.
Qed.

Lemma verifyNode_ok h p x fuel : store_ok h -> hash_at h p = Some x -> (p < fuel)%nat ->
  verifyNode fuel p h = Done (x, h).
Proof.
  intros Hok. revert p x. induction fuel as [|fuel IH]; intros p x Hx Hp; [lia|].
  unfold hash_at in Hx. apply fmap_Some in Hx as (n & Hn & ->). simpl.
  unfold deref, get, mbind, M_bind. rewrite Hn. simpl.
  destruct (Hok p n Hn) as [Hl|(a & b & x & y & Hl & Ha & Hb & ? & ? & Hx & Hy & Hh)]; rewrite Hl; [done|].
  rewrite Ha, Hb. simpl. rewrite (IH a x), (IH b y) by (done || lia). by rewrite Hh.
Qed.

(** ** Joining two nodes, a level, the tree *)

Lemma join_ok {A} h a b x y (f : ptr -> M nodes A) Q :
  store_ok h -> hash_at h a = Some x -> hash_at h b = Some y ->
  (forall h', store_ok h' -> keeps h h' -> hash_at h' (length h) = Some (sha3_256 (x ++ y)) ->
     wp (f (length h)) h' Q) ->
  wp (na ← deref a; nb ← deref b;
      n ← new_node (mkNode None (Some a) (Some b) false false (sha3_256 (Hash na ++ Hash nb)));
      update a (set_parent n);; update b (set_parent n);; f n) h Q.
Proof.
  intros Hok Ha Hb HQ. unfold hash_at in Ha, Hb.
  apply fmap_Some in Ha as (na & Ha & ->). apply fmap_Some in Hb as (nb & Hb & ->).
  unfold deref, get, new_node, update, modify, mbind, M_bind, wp. rewrite Ha. simpl. rewrite Hb. simpl.
  set (n := mkNode _ _ _ _ _ _). set (h1 := h ++ [n]).
  assert (strip <$> alter (set_parent (length h)) b (alter (set_parent (length h)) a h1) = strip <$> h1)
    as E by by rewrite !strip_alter.
  assert (store_ok h1) as Hok1.
  { apply store_ok_app; [done|]. right. exists a, b, (Hash na), (Hash nb).
    unfold hash_at. rewrite Ha, Hb. pose proof (lookup_lt_Some _ _ _ Ha). pose proof (lookup_lt_Some _ _ _ Hb).
    done. }
  apply HQ.
  - eapply store_ok_strip; [symmetry; exact E|done].
  - intros p z Hz. rewrite (hash_at_strip _ _ p E). by apply keeps_app.
  - rewrite (hash_at_strip _ _ _ E). unfold hash_at, h1. by rewrite list_lookup_middle.
Qed.

Lemma pair_up_ok h nl hs k :
  store_ok h -> Forall2 (fun p x => hash_at h p = Some x) nl hs -> length nl = (2 * k)%nat ->
  wp (pair_up false nl) h (fun r h' => store_ok h' /\ keeps h h' /\
    exists ns, r = inr ns /\ Forall2 (fun p x => hash_at h' p = Some x) ns (pair_hashes hs)).
Proof.
  revert h nl hs. induction k as [|k IH]; intros h nl hs Hok Hnl Hlen.
  - destruct Hnl; [|simpl in Hlen; lia]. split; [done|]. split; [apply keeps_refl|]. by exists [].
  - destruct Hnl as [|a x nl hs Ha Hnl]; [simpl in Hlen; lia|].
    destruct Hnl as [|b y nl hs Hb Hnl]; [simpl in Hlen; lia|].
    simpl in Hlen. cbn [pair_up]. apply join_ok with x y; [done..|].
    intros h1 Hok1 Hk1 Hn. apply wp_bind. eapply wp_mono.
    { apply (IH h1 nl hs); [done|by eapply keeps_Forall2|lia]. }
    intros r h' (Hok' & Hk' & ns & -> & Hns). apply wp_ret. split; [done|].
    split; [by eapply keeps_trans|]. exists (length h :: ns). split; [done|]. simpl.
    constructor; [by apply Hk'|done].
Qed.

(** *** The shape of a level *)

Lemma largest_power2_le n : (largest_power2 n <= n)%nat.
Proof. induction n as [|n IH]; simpl; [done|]. case_match; lia. Qed.

Lemma largest_power2_ge n : (2 <= n)%nat -> (2 <= largest_power2 n)%nat.
Proof.
  induction n as [|n IH]; intros Hn; [lia|]. cbn [largest_power2].
  destruct (checkPower2 (S n)) eqn:E; [done|].
  destruct (decide (n = 1%nat)) as [->|]; [done|]. apply IH. lia.
Qed.

Lemma largest_power2_check n : checkPower2 (largest_power2 n) = true.
Proof. induction n as [|n IH]; cbn [largest_power2]; [done|]. by case_match. Qed.

Lemma largest_power2_even n : (2 <= n)%nat -> exists k, largest_power2 n = (2 * k)%nat /\ (1 <= k)%nat.
Proof.
  intros Hn. pose proof (largest_power2_ge n Hn) as Hge. pose proof (largest_power2_check n) as Hc.
  set (l := largest_power2 n) in *. unfold checkPower2 in Hc.
  apply orb_true_iff in Hc as [Hc|Hc]; apply Nat.eqb_eq in Hc; [lia|].
  destruct (Nat.log2 l) as [|m] eqn:El; [simpl in Hc; lia|].
  exists (2 ^ m)%nat. simpl in Hc. split; [lia|]. pose proof (Nat.pow_nonzero 2 m). lia.
Qed.

Lemma length_pair_hashes hs k : length hs = (2 * k)%nat -> length (pair_hashes hs) = k.
Proof.
  revert hs. induction k as [|k IH]; intros [|a [|b hs]] Hlen; simpl in *; try lia.
  by rewrite IH by lia.
Qed.

Lemma length_next_level hs : (3 <= length hs)%nat ->
  (2 <= length (next_level hs) < length hs)%nat.
Proof.
  intros Hlen. unfold next_level. destruct (largest_power2_even (length hs)) as (k & Hk & Hk1); [lia|].
  pose proof (largest_power2_le (length hs)) as Hle. rewrite length_app, length_drop.
  rewrite (length_pair_hashes _ k) by (rewrite length_take; lia). lia.
Qed.

Lemma top_hash_some fuel hs : (2 <= length hs)%nat -> (length hs <= fuel)%nat ->
  exists x, top_hash fuel hs = Some x.
Proof.
  revert hs. induction fuel as [|fuel IH]; intros hs Hlen Hf; [lia|].
  destruct (decide (length hs = 2%nat)) as [E|].
  - destruct hs as [|a [|b [|? ?]]]; simpl in E; try lia. by eexists.
  - destruct (IH (next_level hs)) as [x Hx]; [apply length_next_level; lia|
      pose proof (length_next_level hs ltac:(lia)); lia|].
    exists x. destruct hs as [|a [|b [|? ?]]]; simpl in *; try lia; done.
Qed.

Lemma buildIntermediate_ok fuel h nl hs x :
  store_ok h -> Forall2 (fun p x => hash_at h p = Some x) nl hs -> (2 <= length hs)%nat ->
  top_hash fuel hs = Some x ->
  wp (buildIntermediate fuel nl) h (fun root h' =>
    store_ok h' /\ keeps h h' /\ hash_at h' root = Some x).
Proof.
  revert h nl hs. induction fuel as [|fuel IH]; intros h nl hs Hok Hnl Hlen Hx; [done|].
  pose proof (Forall2_length _ _ _ Hnl) as El. cbn [buildIntermediate].
  destruct (decide (length hs = 2%nat)) as [E|].
  - destruct Hnl as [|a y nl hs Ha Hnl]; [done|]. destruct Hnl as [|b z nl hs Hb Hnl]; [done|].
    destruct Hnl; [|done]. simpl in Hx. injection Hx as <-.
    change (largest_power2 (length [a; b])) with 2%nat. cbn [take length Nat.eqb].
    apply wp_bind. cbn [pair_up]. apply join_ok with y z; [done..|].
    intros h' Hok' Hk Hn. by apply wp_ret.
  - destruct (largest_power2_even (length nl)) as (k & Hk & Hk1); [lia|].
    pose proof (largest_power2_le (length nl)).
    replace (Nat.eqb (length nl) 2) with false by (symmetry; apply Nat.eqb_neq; lia).
    apply wp_bind. eapply wp_mono.
    { apply (pair_up_ok h _ (take (largest_power2 (length nl)) hs) k); [done|by apply Forall2_take|].
      rewrite length_take. lia. }
    intros r h1 (Hok1 & Hk1' & ns & -> & Hns). eapply wp_mono.
    { apply (IH h1 _ (next_level hs)); [done| |apply length_next_level; lia|].
      - unfold next_level. rewrite <-El. apply Forall2_app; [done|].
        apply Forall2_drop. by eapply keeps_Forall2.
      - by destruct hs as [|? [|? [|? ?]]]; simpl in *; try lia. }
    intros root h' (? & ? & ?). split; [done|]. split; [by eapply keeps_trans|done].
Qed.

Lemma filter_all {A} (P : A -> Prop) `{!forall x, Decision (P x)} l : Forall P l -> filter P l = l.
Proof. induction 1; [done|]. rewrite filter_cons_True by done. congruence. Qed.

Lemma new_leafs_ok h txs : store_ok h ->
  wp (new_leafs txs) h (fun l h' => store_ok h' /\ keeps h h' /\
    Forall2 (fun p x => hash_at h' p = Some x) l (filter (fun tx => tx <> zero_hash) txs)).
Proof.
  revert h. induction txs as [|tx txs IH]; intros h Hok; cbn [new_leafs].
  { apply wp_ret. split; [done|]. split; [apply keeps_refl|constructor]. }
  destruct (decide (tx = zero_hash)) as [->|Hne].
  { rewrite bool_decide_eq_true_2, filter_cons_False by naive_solver. by apply IH. }
  rewrite bool_decide_eq_false_2, filter_cons_True by done.
  apply wp_bind. unfold new_node at 1, wp at 1. set (n := mkNode _ _ _ _ _ _).
  apply wp_bind. eapply wp_mono.
  { apply IH. apply store_ok_app; [done|]. by left. }
  intros l h' (Hok' & Hk & Hl). apply wp_ret. split; [done|].
  split; [eapply keeps_trans; [apply keeps_app|exact Hk]|].
  constructor; [|done]. apply Hk. unfold hash_at. by rewrite list_lookup_middle.
Qed.

(** A tree of the hashes [hs]: its root is the hash on top of the levels, and
    checking it from the leaves up succeeds. *)
Lemma length_leaf_hashes txs : filter (fun tx => tx <> zero_hash) txs <> [] ->
  (2 <= length (leaf_hashes txs) <= S (length txs))%nat.
Proof.
  unfold leaf_hashes. intros Hne. set (hs := filter _ _) in *.
  assert (length hs <= length txs)%nat by apply length_filter.
  destruct (Nat.odd (length hs)) eqn:E.
  - destruct (last hs) as [x|] eqn:El; [|by apply last_None in El].
    rewrite length_app. simpl. apply Nat.odd_spec in E as [k E]. lia.
  - destruct hs as [|a [|b hs] ]; [done|done|]. simpl in *. lia.
Qed.

Lemma newTree_ok fuel txs x h : store_ok h ->
  filter (fun tx => tx <> zero_hash) txs <> [] -> top_hash fuel (leaf_hashes txs) = Some x ->
  wp (newTree fuel txs) h (fun r h' => exists t, r = Some t /\ merkleRoot t = x /\
    VerifyTree (length h') t h' = Done (true, h')).
Proof.
  intros Hok Hne Hx. unfold newTree, buildWithContent.
  destruct txs as [|tx txs]; [done|]. set (l0 := tx :: txs) in *.
  apply wp_bind, wp_bind. eapply wp_mono; [by apply new_leafs_ok|].
  intros l h1 (Hok1 & _ & Hl). pose proof (Forall2_length _ _ _ Hl) as El.
  set (hs := filter (fun tx => tx <> zero_hash) l0) in *. apply wp_bind.
  assert (Hlist : wp (if Nat.odd (length l) then
      match last l with Some p => update p set_dup;; mret (l ++ [p]) | None => panic end
      else mret l) h1 (fun l' h2 => store_ok h2 /\
        Forall2 (fun p x => hash_at h2 p = Some x) l' (leaf_hashes l0))).
  { unfold leaf_hashes. fold hs. rewrite <-El. destruct (Nat.odd (length l)) eqn:Eodd; [|by apply wp_ret].
    destruct (last l) as [p|] eqn:Elast; [|by apply last_None in Elast as ->].
    apply last_Some in Elast as (l' & ->). apply Forall2_app_inv_l in Hl as (hs' & hs1 & Hl' & Hp & ->).
    apply Forall2_cons_inv_l in Hp as (y & hs2 & Hp & Hnil & ->).
    apply Forall2_nil_inv_l in Hnil as ->. rewrite last_snoc. simpl.
    assert (E : strip <$> alter set_dup p h1 = strip <$> h1) by by rewrite strip_alter.
    unfold wp, update, modify, mbind, M_bind. simpl. split; [by eapply store_ok_strip|].
    eapply Forall2_impl; [|intros q z Hq; rewrite (hash_at_strip _ _ q E); exact Hq].
    repeat apply Forall2_app; [done|repeat constructor; done..]. }
  eapply wp_mono; [exact Hlist|]. intros l' h2 (Hok2 & Hl').
  apply wp_bind. eapply wp_mono.
  { eapply buildIntermediate_ok; [done|exact Hl'| |exact Hx].
    unfold leaf_hashes. fold hs. destruct hs as [|a [|b hs]]; [done|simpl; lia|].
    destruct (Nat.odd (length (a :: b :: hs))); rewrite ?length_app; cbn [length]; lia. }
  intros root h' (Hok' & _ & Hroot). apply wp_ret.
  pose proof Hroot as Hroot'. unfold hash_at in Hroot'. apply fmap_Some in Hroot' as (n & Hn & ->).
  unfold wp, deref, get, mbind, M_bind. rewrite Hn. simpl.
  eexists. split; [done|]. split; [done|]. unfold VerifyTree. simpl.
  rewrite (bind_Done _ _ _ (Hash n) h').
  - by rewrite bool_decide_eq_true_2.
  - apply verifyNode_ok; [done..|]. by eapply lookup_lt_Some.
Qed.

(** Enough fuel is one more than the number of hashes. *)
Lemma newTree_spec fuel txs h : store_ok h -> filter (fun tx => tx <> zero_hash) txs <> [] ->
  (S (length txs) <= fuel)%nat ->
  exists x t h', top_hash fuel (leaf_hashes txs) = Some x /\ newTree fuel txs h = Done (Some t, h') /\
    merkleRoot t = x /\ VerifyTree (length h') t h' = Done (true, h').
Proof.
  intros Hok Hne Hf. pose proof (length_leaf_hashes txs Hne) as Hl.
  destruct (top_hash_some fuel (leaf_hashes txs)) as [x Hx]; [lia|lia|].
  pose proof (newTree_ok fuel txs x h Hok Hne Hx) as (r & h' & E & t & -> & Hr & Hv)%wp_elim.
  by exists x, t, h'.
Qed.

Lemma leaf_hashes_32 txs : Forall (fun x => length x = 32%nat) txs ->
  Forall (fun x => length x = 32%nat) (leaf_hashes txs).
Proof.
  intros H. assert (Hf : Forall (fun x => length x = 32%nat) (filter (fun tx => tx <> zero_hash) txs)).
  { apply Forall_forall. intros x [_ Hx]%list_elem_of_filter. revert x Hx. by apply Forall_forall. }
  unfold leaf_hashes. destruct (Nat.odd _); [|done]. apply Forall_app. split; [done|].
  destruct (last _) as [x|] eqn:E; [|constructor]. constructor; [|constructor].
  apply last_Some_elem_of in E. revert x E. by apply Forall_forall.
Qed.

(** With non-zero hashes only in name: no tree within any fuel. *)
Lemma newTree_diverges fuel txs h : txs <> [] ->
  filter (fun tx => tx <> zero_hash) txs = [] -> newTree fuel txs h = Timeout.
Proof.
  intros Hne Hz.
  assert (Hleafs : forall h, new_leafs txs h = Done ([], h)).
  { clear Hne. induction txs as [|tx txs IH]; intros h'; [done|]. cbn [new_leafs].
    destruct (decide (tx = zero_hash)); [|by rewrite filter_cons_True in Hz].
    rewrite bool_decide_eq_true_2 by done. apply IH. rewrite filter_cons_False in Hz; naive_solver. }
  assert (Hbuild : forall fuel h, buildIntermediate fuel [] h = Timeout).
  { intros fuel'. induction fuel' as [|fuel' IH]; intros h'; [done|]. apply IH. }
  destruct txs as [|tx txs]; [done|]. unfold newTree, buildWithContent.
  unfold mbind at 1, M_bind at 1. rewrite (bind_Done _ _ _ [] h) by apply Hleafs. simpl.
  unfold mbind, M_bind. simpl. by rewrite Hbuild.
Qed.

(** ** The root binds the leaves

    Two different lists of as many leaves with the same root exhibit a
    collision of SHA3 among the inputs hashed in the two trees. *)

Fixpoint pair_concats (hs : list hash) : list bytes :=
  match hs with
  | a :: b :: hs => (a ++ b) :: pair_concats hs
  | hs => []
  end.

Fixpoint hashed (fuel : nat) (hs : list hash) : list bytes :=
  match fuel with
  | O => []
  | S fuel =>
      match hs with
      | [a; b] => [a ++ b]
      | _ => pair_concats (take (largest_power2 (length hs)) hs) ++ hashed fuel (next_level hs)
      end
  end.

Definition collision_in (l l' : list bytes) : Prop :=
  exists m m', m ∈ l /\ m' ∈ l' /\ m <> m' /\ sha3_256 m = sha3_256 m'.

Lemma collision_in_app k k' l l' : collision_in k k' \/ collision_in l l' ->
  collision_in (k ++ l) (k' ++ l').
Proof.
  unfold collision_in. setoid_rewrite elem_of_app. naive_solver.
Qed.

Lemma pair_hashes_binding hs hs' k :
  length hs = (2 * k)%nat -> length hs' = (2 * k)%nat ->
  Forall (fun x => length x = 32%nat) hs -> Forall (fun x => length x = 32%nat) hs' ->
  pair_hashes hs = pair_hashes hs' ->
  hs = hs' \/ collision_in (pair_concats hs) (pair_concats hs').
Proof.
  revert hs hs'. induction k as [|k IH]; intros [|a [|b hs]] [|a' [|b' hs']] Hl Hl' H32 H32' E;
    simpl in *; try lia; [by left|].
  repeat match goal with H : Forall _ (_ :: _) |- _ => apply Forall_cons in H as [??] end.
  injection E as Eab E.
  destruct (decide (a ++ b = a' ++ b')) as [Eq|Hne].
  - apply app_inj_1 in Eq as [-> ->]; [|congruence].
    destruct (IH hs hs') as [->|(m & m' & ? & ? & ? & ?)]; [lia|lia|done..|by left|].
    right. exists m, m'. rewrite !elem_of_cons. tauto.
  - right. exists (a ++ b), (a' ++ b'). rewrite !elem_of_cons. tauto.
Qed.

Context {DL : DigestLaws}.

Lemma next_level_32 hs : Forall (fun x => length x = 32%nat) hs ->
  Forall (fun x => length x = 32%nat) (next_level hs).
Proof using DL.
  intros H32. unfold next_level. apply Forall_app. split; [|by apply Forall_drop].
  generalize (take (largest_power2 (length hs)) hs). clear - DL. intros l.
  remember (length l) as n eqn:En. revert l En. induction n as [n IH] using lt_wf_ind.
  intros [|a [|b l]] ->; simpl; [constructor..|]. constructor; [apply length_sha3_256|].
  eapply IH; [|done]. simpl. lia.
Qed.

Lemma top_hash_binding fuel hs hs' x :
  length hs = length hs' -> (2 <= length hs)%nat ->
  Forall (fun x => length x = 32%nat) hs -> Forall (fun x => length x = 32%nat) hs' ->
  top_hash fuel hs = Some x -> top_hash fuel hs' = Some x ->
  hs = hs' \/ collision_in (hashed fuel hs) (hashed fuel hs').
Proof using DL.
  revert hs hs'. induction fuel as [|fuel IH]; intros hs hs' Hlen Hge H32 H32' Hx Hx'; [done|].
  destruct (decide (length hs = 2%nat)) as [E2|Hne].
  - destruct hs as [|a [|b [|? ?]]]; simpl in E2; try lia.
    destruct hs' as [|a' [|b' [|? ?]]]; simpl in Hlen; try lia.
    apply (pair_hashes_binding [a; b] [a'; b'] 1); [done..|]. simpl in *. congruence.
  - assert (Hstep : forall l : list hash, length l = length hs ->
      top_hash (S fuel) l = top_hash fuel (next_level l) /\
      hashed (S fuel) l = pair_concats (take (largest_power2 (length l)) l) ++ hashed fuel (next_level l)).
    { intros [|? [|? [|? ?]]] ?; simpl in *; (lia || done). }
    pose proof (Hstep hs eq_refl) as [E1 Eh1]. pose proof (Hstep hs' (eq_sym Hlen)) as [E2 Eh2].
    rewrite Eh1, Eh2. rewrite E1 in Hx. rewrite E2 in Hx'.
    destruct (largest_power2_even (length hs)) as (k & Hk & Hk1); [lia|].
    pose proof (largest_power2_le (length hs)) as Hle.
    assert (length (take (largest_power2 (length hs)) hs) = (2 * k)%nat) as Ht by (rewrite length_take; lia).
    assert (length (take (largest_power2 (length hs')) hs') = (2 * k)%nat) as Ht'
      by (rewrite length_take, <-Hlen; lia).
    destruct (IH (next_level hs) (next_level hs')) as [Enext|Hcol]; try done.
    + unfold next_level. rewrite !length_app, !length_drop, !(length_pair_hashes _ k) by done. by rewrite Hlen.
    + apply length_next_level. lia.
    + by apply next_level_32.
    + by apply next_level_32.
    + unfold next_level in Enext. apply app_inj_1 in Enext as [Ep Ed].
      2: { by rewrite !(length_pair_hashes _ k). }
      destruct (pair_hashes_binding _ _ k Ht Ht') as [Et|Hcol]; [by apply Forall_take..|done| |].
      * left. rewrite <-(take_drop (largest_power2 (length hs)) hs), Et, Ed. apply take_drop.
      * right. apply collision_in_app. by left.
    + right. apply collision_in_app. by right.
Qed.

(** A last leaf listed twice does not show. *)
Lemma leaf_hashes_dup hs x : Forall (fun tx => tx <> zero_hash) (hs ++ [x]) ->
  Nat.even (length hs) = true -> leaf_hashes (hs ++ [x; x]) = leaf_hashes (hs ++ [x]).
Proof.
  intros Hz Hev. unfold leaf_hashes. apply Forall_app in Hz as [Hz [Hx _]%Forall_cons].
  rewrite !filter_all by (rewrite ?Forall_app, ?Forall_cons; naive_solver).
  rewrite !length_app, !Nat.odd_add, <-!Nat.negb_even, Hev, last_snoc.
  simpl. by rewrite <-app_assoc.
Qed.
End merkle.
