(* ===== verification/Node.v ===== *)
(** * The state of a miner

    The package variables of storage/storage.go, miner/blockchain.go,
    miner/blockchainparam.go and crypto/chameleon_hash.go, and the buckets of
    the database. The accounts are reached through [State] only: the map holds
    one pointer per key, so an update through a pointer is an update of the
    map. [RootKeys] keeps, of the account it points to, the address, the only
    field read through it, which is never assigned. *)

From S2P Require Import Prelude Format Chameleon Protocol.

(** Accounts, root keys and the chameleon-hash parameters of the accounts. *)
Record Ledger := mkLedger {
  State : gmap hash Account;
  RootKeys : gmap hash address;
  ChameleonHashParametersMap : ParametersMap
}.

Definition upd_State (f : (gmap hash Account) -> (gmap hash Account)) (l : Ledger) : Ledger :=
  mkLedger (f (State l)) (RootKeys l) (ChameleonHashParametersMap l).
Definition upd_RootKeys (f : (gmap hash address) -> (gmap hash address)) (l : Ledger) : Ledger :=
  mkLedger (State l) (f (RootKeys l)) (ChameleonHashParametersMap l).
Definition upd_ChameleonHashParametersMap (f : ParametersMap -> ParametersMap) (l : Ledger) : Ledger :=
  mkLedger (State l) (RootKeys l) (f (ChameleonHashParametersMap l)).

(** The volatile storage. *)
Record Pool := mkPool {
  txMemPool : gmap hash Transaction;
  txINVALIDMemPool : gmap hash Transaction;
  FundsTxBeforeAggregation : list FundsTx;
  TxcntToTxMap : gmap Z (list hash);
  ReceivedBlockStash : list Block;
  bootstrapReceivedMemPool : gmap hash Transaction
}.

Definition upd_txMemPool (f : (gmap hash Transaction) -> (gmap hash Transaction)) (p : Pool) : Pool :=
  mkPool (f (txMemPool p)) (txINVALIDMemPool p) (FundsTxBeforeAggregation p)
    (TxcntToTxMap p) (ReceivedBlockStash p) (bootstrapReceivedMemPool p).
Definition upd_txINVALIDMemPool (f : (gmap hash Transaction) -> (gmap hash Transaction)) (p : Pool) : Pool :=
  mkPool (txMemPool p) (f (txINVALIDMemPool p)) (FundsTxBeforeAggregation p)
    (TxcntToTxMap p) (ReceivedBlockStash p) (bootstrapReceivedMemPool p).
Definition upd_FundsTxBeforeAggregation (f : (list FundsTx) -> (list FundsTx)) (p : Pool) : Pool :=
  mkPool (txMemPool p) (txINVALIDMemPool p) (f (FundsTxBeforeAggregation p))
    (TxcntToTxMap p) (ReceivedBlockStash p) (bootstrapReceivedMemPool p).
Definition upd_TxcntToTxMap (f : (gmap Z (list hash)) -> (gmap Z (list hash))) (p : Pool) : Pool :=
  mkPool (txMemPool p) (txINVALIDMemPool p) (FundsTxBeforeAggregation p)
    (f (TxcntToTxMap p)) (ReceivedBlockStash p) (bootstrapReceivedMemPool p).
Definition upd_ReceivedBlockStash (f : (list Block) -> (list Block)) (p : Pool) : Pool :=
  mkPool (txMemPool p) (txINVALIDMemPool p) (FundsTxBeforeAggregation p)
    (TxcntToTxMap p) (f (ReceivedBlockStash p)) (bootstrapReceivedMemPool p).
Definition upd_bootstrapReceivedMemPool (f : (gmap hash Transaction) -> (gmap hash Transaction)) (p : Pool) : Pool :=
  mkPool (txMemPool p) (txINVALIDMemPool p) (FundsTxBeforeAggregation p)
    (TxcntToTxMap p) (ReceivedBlockStash p) (f (bootstrapReceivedMemPool p)).

(** The buckets of the database. A bucket of a gob-encoded type keeps the value
    that decoding gives back (see [Storage.v]), one of a type with an encoding of its
    own the bytes. *)
Record Buckets := mkBuckets {
  closedfunds : gmap hash FundsTx;
  closedaccs : gmap hash AccTx;
  closedconfigs : gmap hash bytes;
  closedstakes : gmap hash bytes;
  closedaggregations : gmap hash AggTx;
  closeddeletes : gmap hash UpdateTx;
  openblocks : gmap hash Block;
  closedblocks : gmap hash Block;
  closedblockswithouttx : gmap hash Block;
  lastclosedblock : gmap hash Block;
  blocksbytxhash : gmap hash hash
}.

Definition upd_closedfunds (f : (gmap hash FundsTx) -> (gmap hash FundsTx)) (b : Buckets) : Buckets :=
  mkBuckets (f (closedfunds b)) (closedaccs b) (closedconfigs b) (closedstakes b)
    (closedaggregations b) (closeddeletes b) (openblocks b) (closedblocks b)
    (closedblockswithouttx b) (lastclosedblock b) (blocksbytxhash b).
Definition upd_closedaccs (f : (gmap hash AccTx) -> (gmap hash AccTx)) (b : Buckets) : Buckets :=
  mkBuckets (closedfunds b) (f (closedaccs b)) (closedconfigs b) (closedstakes b)
    (closedaggregations b) (closeddeletes b) (openblocks b) (closedblocks b)
    (closedblockswithouttx b) (lastclosedblock b) (blocksbytxhash b).
Definition upd_closedconfigs (f : (gmap hash bytes) -> (gmap hash bytes)) (b : Buckets) : Buckets :=
  mkBuckets (closedfunds b) (closedaccs b) (f (closedconfigs b)) (closedstakes b)
    (closedaggregations b) (closeddeletes b) (openblocks b) (closedblocks b)
    (closedblockswithouttx b) (lastclosedblock b) (blocksbytxhash b).
Definition upd_closedstakes (f : (gmap hash bytes) -> (gmap hash bytes)) (b : Buckets) : Buckets :=
  mkBuckets (closedfunds b) (closedaccs b) (closedconfigs b) (f (closedstakes b))
    (closedaggregations b) (closeddeletes b) (openblocks b) (closedblocks b)
    (closedblockswithouttx b) (lastclosedblock b) (blocksbytxhash b).
Definition upd_closedaggregations (f : (gmap hash AggTx) -> (gmap hash AggTx)) (b : Buckets) : Buckets :=
  mkBuckets (closedfunds b) (closedaccs b) (closedconfigs b) (closedstakes b) (f
    (closedaggregations b)) (closeddeletes b) (openblocks b) (closedblocks b)
    (closedblockswithouttx b) (lastclosedblock b) (blocksbytxhash b).
Definition upd_closeddeletes (f : (gmap hash UpdateTx) -> (gmap hash UpdateTx)) (b : Buckets) : Buckets :=
  mkBuckets (closedfunds b) (closedaccs b) (closedconfigs b) (closedstakes b)
    (closedaggregations b) (f (closeddeletes b)) (openblocks b) (closedblocks b)
    (closedblockswithouttx b) (lastclosedblock b) (blocksbytxhash b).
Definition upd_openblocks (f : (gmap hash Block) -> (gmap hash Block)) (b : Buckets) : Buckets :=
  mkBuckets (closedfunds b) (closedaccs b) (closedconfigs b) (closedstakes b)
    (closedaggregations b) (closeddeletes b) (f (openblocks b)) (closedblocks b)
    (closedblockswithouttx b) (lastclosedblock b) (blocksbytxhash b).
Definition upd_closedblocks (f : (gmap hash Block) -> (gmap hash Block)) (b : Buckets) : Buckets :=
  mkBuckets (closedfunds b) (closedaccs b) (closedconfigs b) (closedstakes b)
    (closedaggregations b) (closeddeletes b) (openblocks b) (f (closedblocks b))
    (closedblockswithouttx b) (lastclosedblock b) (blocksbytxhash b).
Definition upd_closedblockswithouttx (f : (gmap hash Block) -> (gmap hash Block)) (b : Buckets) : Buckets :=
  mkBuckets (closedfunds b) (closedaccs b) (closedconfigs b) (closedstakes b)
    (closedaggregations b) (closeddeletes b) (openblocks b) (closedblocks b) (f
    (closedblockswithouttx b)) (lastclosedblock b) (blocksbytxhash b).
Definition upd_lastclosedblock (f : (gmap hash Block) -> (gmap hash Block)) (b : Buckets) : Buckets :=
  mkBuckets (closedfunds b) (closedaccs b) (closedconfigs b) (closedstakes b)
    (closedaggregations b) (closeddeletes b) (openblocks b) (closedblocks b)
    (closedblockswithouttx b) (f (lastclosedblock b)) (blocksbytxhash b).
Definition upd_blocksbytxhash (f : (gmap hash hash) -> (gmap hash hash)) (b : Buckets) : Buckets :=
  mkBuckets (closedfunds b) (closedaccs b) (closedconfigs b) (closedstakes b)
    (closedaggregations b) (closeddeletes b) (openblocks b) (closedblocks b)
    (closedblockswithouttx b) (lastclosedblock b) (f (blocksbytxhash b)).

(** System parameters; a record is appended to a slice when they change. *)
Record Parameters := mkParameters {
  BlockHash : hash;
  FeeMinimum : Z;
  BlockSize : Z;
  DiffInterval : Z;
  BlockInterval : Z;
  BlockReward : Z;
  StakingMinimum : Z;
  WaitingMinimum : Z;
  AcceptedTimeDiff : Z;
  SlashingWindowSize : Z;
  SlashReward : Z;
  numIncludedPrevProofs : Z;
  FixedSpace : Z;
  BloomFilterSize : Z
}.

Definition upd_BlockHash (f : hash -> hash) (p : Parameters) : Parameters :=
  mkParameters (f (BlockHash p)) (FeeMinimum p) (BlockSize p) (DiffInterval p) (BlockInterval p)
    (BlockReward p) (StakingMinimum p) (WaitingMinimum p) (AcceptedTimeDiff p)
    (SlashingWindowSize p) (SlashReward p) (numIncludedPrevProofs p) (FixedSpace p)
    (BloomFilterSize p).
Definition upd_FeeMinimum (f : Z -> Z) (p : Parameters) : Parameters :=
  mkParameters (BlockHash p) (f (FeeMinimum p)) (BlockSize p) (DiffInterval p) (BlockInterval p)
    (BlockReward p) (StakingMinimum p) (WaitingMinimum p) (AcceptedTimeDiff p)
    (SlashingWindowSize p) (SlashReward p) (numIncludedPrevProofs p) (FixedSpace p)
    (BloomFilterSize p).
Definition upd_BlockSize (f : Z -> Z) (p : Parameters) : Parameters :=
  mkParameters (BlockHash p) (FeeMinimum p) (f (BlockSize p)) (DiffInterval p) (BlockInterval p)
    (BlockReward p) (StakingMinimum p) (WaitingMinimum p) (AcceptedTimeDiff p)
    (SlashingWindowSize p) (SlashReward p) (numIncludedPrevProofs p) (FixedSpace p)
    (BloomFilterSize p).
Definition upd_DiffInterval (f : Z -> Z) (p : Parameters) : Parameters :=
  mkParameters (BlockHash p) (FeeMinimum p) (BlockSize p) (f (DiffInterval p)) (BlockInterval p)
    (BlockReward p) (StakingMinimum p) (WaitingMinimum p) (AcceptedTimeDiff p)
    (SlashingWindowSize p) (SlashReward p) (numIncludedPrevProofs p) (FixedSpace p)
    (BloomFilterSize p).
Definition upd_BlockInterval (f : Z -> Z) (p : Parameters) : Parameters :=
  mkParameters (BlockHash p) (FeeMinimum p) (BlockSize p) (DiffInterval p) (f (BlockInterval p))
    (BlockReward p) (StakingMinimum p) (WaitingMinimum p) (AcceptedTimeDiff p)
    (SlashingWindowSize p) (SlashReward p) (numIncludedPrevProofs p) (FixedSpace p)
    (BloomFilterSize p).
Definition upd_BlockReward (f : Z -> Z) (p : Parameters) : Parameters :=
  mkParameters (BlockHash p) (FeeMinimum p) (BlockSize p) (DiffInterval p) (BlockInterval p) (f
    (BlockReward p)) (StakingMinimum p) (WaitingMinimum p) (AcceptedTimeDiff p)
    (SlashingWindowSize p) (SlashReward p) (numIncludedPrevProofs p) (FixedSpace p)
    (BloomFilterSize p).
Definition upd_StakingMinimum (f : Z -> Z) (p : Parameters) : Parameters :=
  mkParameters (BlockHash p) (FeeMinimum p) (BlockSize p) (DiffInterval p) (BlockInterval p)
    (BlockReward p) (f (StakingMinimum p)) (WaitingMinimum p) (AcceptedTimeDiff p)
    (SlashingWindowSize p) (SlashReward p) (numIncludedPrevProofs p) (FixedSpace p)
    (BloomFilterSize p).
Definition upd_WaitingMinimum (f : Z -> Z) (p : Parameters) : Parameters :=
  mkParameters (BlockHash p) (FeeMinimum p) (BlockSize p) (DiffInterval p) (BlockInterval p)
    (BlockReward p) (StakingMinimum p) (f (WaitingMinimum p)) (AcceptedTimeDiff p)
    (SlashingWindowSize p) (SlashReward p) (numIncludedPrevProofs p) (FixedSpace p)
    (BloomFilterSize p).
Definition upd_AcceptedTimeDiff (f : Z -> Z) (p : Parameters) : Parameters :=
  mkParameters (BlockHash p) (FeeMinimum p) (BlockSize p) (DiffInterval p) (BlockInterval p)
    (BlockReward p) (StakingMinimum p) (WaitingMinimum p) (f (AcceptedTimeDiff p))
    (SlashingWindowSize p) (SlashReward p) (numIncludedPrevProofs p) (FixedSpace p)
    (BloomFilterSize p).
Definition upd_SlashingWindowSize (f : Z -> Z) (p : Parameters) : Parameters :=
  mkParameters (BlockHash p) (FeeMinimum p) (BlockSize p) (DiffInterval p) (BlockInterval p)
    (BlockReward p) (StakingMinimum p) (WaitingMinimum p) (AcceptedTimeDiff p) (f
    (SlashingWindowSize p)) (SlashReward p) (numIncludedPrevProofs p) (FixedSpace p)
    (BloomFilterSize p).
Definition upd_SlashReward (f : Z -> Z) (p : Parameters) : Parameters :=
  mkParameters (BlockHash p) (FeeMinimum p) (BlockSize p) (DiffInterval p) (BlockInterval p)
    (BlockReward p) (StakingMinimum p) (WaitingMinimum p) (AcceptedTimeDiff p)
    (SlashingWindowSize p) (f (SlashReward p)) (numIncludedPrevProofs p) (FixedSpace p)
    (BloomFilterSize p).
Definition upd_numIncludedPrevProofs (f : Z -> Z) (p : Parameters) : Parameters :=
  mkParameters (BlockHash p) (FeeMinimum p) (BlockSize p) (DiffInterval p) (BlockInterval p)
    (BlockReward p) (StakingMinimum p) (WaitingMinimum p) (AcceptedTimeDiff p)
    (SlashingWindowSize p) (SlashReward p) (f (numIncludedPrevProofs p)) (FixedSpace p)
    (BloomFilterSize p).
Definition upd_FixedSpace (f : Z -> Z) (p : Parameters) : Parameters :=
  mkParameters (BlockHash p) (FeeMinimum p) (BlockSize p) (DiffInterval p) (BlockInterval p)
    (BlockReward p) (StakingMinimum p) (WaitingMinimum p) (AcceptedTimeDiff p)
    (SlashingWindowSize p) (SlashReward p) (numIncludedPrevProofs p) (f (FixedSpace p))
    (BloomFilterSize p).
Definition upd_BloomFilterSize (f : Z -> Z) (p : Parameters) : Parameters :=
  mkParameters (BlockHash p) (FeeMinimum p) (BlockSize p) (DiffInterval p) (BlockInterval p)
    (BlockReward p) (StakingMinimum p) (WaitingMinimum p) (AcceptedTimeDiff p)
    (SlashingWindowSize p) (SlashReward p) (numIncludedPrevProofs p) (FixedSpace p) (f
    (BloomFilterSize p)).

Record timerange := mkTimerange { tr_first : Z; tr_last : Z }.

Record SlashingProof := mkSlashingProof {
  sp_ConflictingBlockHash1 : hash;
  sp_ConflictingBlockHash2 : hash;
  sp_ConflictingBlockHashWithoutTx1 : hash;
  sp_ConflictingBlockHashWithoutTx2 : hash
}.

(** What the miner keeps about the chain; [activeParameters] points to an element
    of [parameterSlice] that is not written to while it is there. *)
Record Chain := mkChain {
  parameterSlice : list Parameters;
  activeParameters : Parameters;
  target : list Z;
  targetTimes : list timerange;
  currentTargetTime : timerange;
  globalBlockCount : Z;
  localBlockCount : Z;
  lastBlock : option Block;
  slashingDict : gmap hash SlashingProof
}.

Definition upd_parameterSlice (f : (list Parameters) -> (list Parameters)) (c : Chain) : Chain :=
  mkChain (f (parameterSlice c)) (activeParameters c) (target c) (targetTimes c)
    (currentTargetTime c) (globalBlockCount c) (localBlockCount c) (lastBlock c) (slashingDict
    c).
Definition upd_activeParameters (f : Parameters -> Parameters) (c : Chain) : Chain :=
  mkChain (parameterSlice c) (f (activeParameters c)) (target c) (targetTimes c)
    (currentTargetTime c) (globalBlockCount c) (localBlockCount c) (lastBlock c) (slashingDict
    c).
Definition upd_target (f : (list Z) -> (list Z)) (c : Chain) : Chain :=
  mkChain (parameterSlice c) (activeParameters c) (f (target c)) (targetTimes c)
    (currentTargetTime c) (globalBlockCount c) (localBlockCount c) (lastBlock c) (slashingDict
    c).
Definition upd_targetTimes (f : (list timerange) -> (list timerange)) (c : Chain) : Chain :=
  mkChain (parameterSlice c) (activeParameters c) (target c) (f (targetTimes c))
    (currentTargetTime c) (globalBlockCount c) (localBlockCount c) (lastBlock c) (slashingDict
    c).
Definition upd_currentTargetTime (f : timerange -> timerange) (c : Chain) : Chain :=
  mkChain (parameterSlice c) (activeParameters c) (target c) (targetTimes c) (f
    (currentTargetTime c)) (globalBlockCount c) (localBlockCount c) (lastBlock c) (slashingDict
    c).
Definition upd_globalBlockCount (f : Z -> Z) (c : Chain) : Chain :=
  mkChain (parameterSlice c) (activeParameters c) (target c) (targetTimes c) (currentTargetTime
    c) (f (globalBlockCount c)) (localBlockCount c) (lastBlock c) (slashingDict c).
Definition upd_localBlockCount (f : Z -> Z) (c : Chain) : Chain :=
  mkChain (parameterSlice c) (activeParameters c) (target c) (targetTimes c) (currentTargetTime
    c) (globalBlockCount c) (f (localBlockCount c)) (lastBlock c) (slashingDict c).
Definition upd_lastBlock (f : (option Block) -> (option Block)) (c : Chain) : Chain :=
  mkChain (parameterSlice c) (activeParameters c) (target c) (targetTimes c) (currentTargetTime
    c) (globalBlockCount c) (localBlockCount c) (f (lastBlock c)) (slashingDict c).
Definition upd_slashingDict (f : (gmap hash SlashingProof) -> (gmap hash SlashingProof)) (c : Chain) : Chain :=
  mkChain (parameterSlice c) (activeParameters c) (target c) (targetTimes c) (currentTargetTime
    c) (globalBlockCount c) (localBlockCount c) (lastBlock c) (f (slashingDict c)).

(** The state of the process. *)
Record Miner := mkMiner {
  ledger : Ledger;
  pool : Pool;
  db : Buckets;
  chain : Chain
}.

Definition upd_ledger (f : Ledger -> Ledger) (m : Miner) : Miner :=
  mkMiner (f (ledger m)) (pool m) (db m) (chain m).
Definition upd_pool (f : Pool -> Pool) (m : Miner) : Miner :=
  mkMiner (ledger m) (f (pool m)) (db m) (chain m).
Definition upd_db (f : Buckets -> Buckets) (m : Miner) : Miner :=
  mkMiner (ledger m) (pool m) (f (db m)) (chain m).
Definition upd_chain (f : Chain -> Chain) (m : Miner) : Miner :=
  mkMiner (ledger m) (pool m) (db m) (f (chain m)).

(** Access to the components in the monad. *)
Definition get_account (h : hash) : M Miner (option Account) := gets (fun m => State (ledger m) !! h).
Definition on_ledger (f : Ledger -> Ledger) : M Miner unit := modify (upd_ledger f).
Definition on_pool (f : Pool -> Pool) : M Miner unit := modify (upd_pool f).
Definition on_db (f : Buckets -> Buckets) : M Miner unit := modify (upd_db f).
Definition on_chain (f : Chain -> Chain) : M Miner unit := modify (upd_chain f).

(** A field of the account a pointer refers to is changed in place. *)
Definition update_account (h : hash) (f : Account -> Account) : M Miner unit :=
  on_ledger (upd_State (alter f h)).

(** Dereference of the pointer [State[h]]. *)
Definition account (h : hash) : M Miner Account := a ← get_account h; of_option a.
