(* ===== verification/Storage.v ===== *)
(** * storage/: accounts, memory pools and database buckets

    The reads and writes of storage/read.go, write.go, delete.go, update.go
    and utils.go. The database (boltdb) is a map per bucket; its encoding
    (encoding/gob) keeps every exported field of what is encoded, a slice
    without elements being decoded as nil. The mutexes guard single
    operations, which are atomic steps here. The statistics on the average
    transaction size are left out. *)

From stdpp Require Import sorting.
From S2P Require Import Prelude Format Chameleon Protocol Node.

(** ** What the database gives back *)

Definition gob_slice (o : option bytes) : option bytes :=
  match o with Some (_ :: _) => o | _ => None end.

(** [Decode(Encode(tx))] of the gob-encoded types. [Encode] of an account
    transaction leaves its contract out, that of an aggregation its check
    string and data. *)
Definition FundsTx_persist (tx : FundsTx) : FundsTx := FundsTx_SetData (gob_slice (ftx_Data tx)) tx.

Definition AccTx_persist (tx : AccTx) : AccTx :=
  mkAccTx (atx_Header tx) (atx_Fee tx) (atx_Issuer tx) (atx_PubKey tx) (atx_Sig tx) None []
    (atx_Parameters tx) (atx_CheckString tx) (gob_slice (atx_Data tx)).

Definition AggTx_persist (tx : AggTx) : AggTx :=
  mkAggTx (gtx_Amount tx) (gtx_Fee tx) (gtx_From tx) (gtx_To tx) (gtx_AggregatedTxSlice tx)
    (gtx_Aggregated tx) (gtx_Block tx) (gtx_MerkleRoot tx) None None.

Definition UpdateTx_persist (tx : UpdateTx) : UpdateTx :=
  mkUpdateTx (utx_Fee tx) (utx_TxToUpdateHash tx) (utx_TxToUpdateCheckString tx)
    (gob_slice (utx_TxToUpdateData tx)) (utx_Issuer tx) (utx_Sig tx) (utx_CheckString tx)
    (gob_slice (utx_Data tx)).

(** The state copy of a block is not serialised. *)
Definition Block_persist (b : Block) : Block :=
  mkBlock (blk_Header b) (blk_Hash b) (blk_PrevHash b) (blk_HashWithoutTx b)
    (blk_PrevHashWithoutTx b) (blk_NrElementsBF b) (blk_BloomFilter b) (blk_Height b)
    (blk_Beneficiary b) (blk_Aggregated b) (blk_NrUpdates b) (blk_Nonce b) (blk_Timestamp b)
    (blk_MerkleRoot b) (blk_NrAccTx b) (blk_NrConfigTx b) (blk_NrFundsTx b) (blk_NrStakeTx b)
    (blk_NrAggTx b) (blk_NrUpdateTx b) (blk_SlashedAddress b) (blk_CommitmentProof b)
    (blk_ConflictingBlockHash1 b) (blk_ConflictingBlockHash2 b)
    (blk_ConflictingBlockHashWithoutTx1 b) (blk_ConflictingBlockHashWithoutTx2 b) ∅
    (blk_AccTxData b) (blk_FundsTxData b) (blk_ConfigTxData b) (blk_StakeTxData b)
    (blk_AggTxData b) (blk_UpdateTxData b).

(** ** Accounts (utils.go) *)

(** The error comes exactly with the nil account. *)
Definition GetAccount (h : hash) : M Miner (option Account * error) :=
  acc ← get_account h;
  match acc with
  | Some acc => mret (Some acc, None)
  | None => mret (None, Some "Acc not in the state.")
  end.

Definition IsRootKey (h : hash) : M Miner bool :=
  gets (fun m => bool_decide (is_Some (RootKeys (ledger m) !! h))).

Definition GetRootAccount (h : hash) : M Miner (option Account * error) :=
  root ← IsRootKey h;
  if (root : bool) then GetAccount h else mret (None, None).

(** ** Reads *)

Definition read_db {A} (bucket : Buckets -> gmap hash A) (h : hash) : M Miner (option A) :=
  gets (fun m => bucket (db m) !! h).

Definition ReadOpenBlock (h : hash) : M Miner (option Block) := read_db openblocks h.
Definition ReadClosedBlock (h : hash) : M Miner (option Block) := read_db closedblocks h.
Definition ReadClosedBlockWithoutTx (h : hash) : M Miner (option Block) :=
  read_db closedblockswithouttx h.

(** The keys of a bucket are kept in byte order. *)
Fixpoint bytes_le (a b : bytes) : bool :=
  match a, b with
  | [], _ => true
  | _, [] => false
  | x :: a, y :: b => (bval x <? bval y) || (bval x =? bval y) && bytes_le a b
  end.
Definition key_le {A} (a b : hash * A) : Prop := bytes_le (fst a) (fst b) = true.
#[global] Instance key_le_dec {A} (a b : hash * A) : Decision (key_le a b) :=
  decide (bytes_le (fst a) (fst b) = true).
Definition ForEach {A} (bucket : gmap hash A) : list (hash * A) :=
  merge_sort key_le (map_to_list bucket).

(** [cb.First()] *)
Definition ReadLastClosedBlock : M Miner (option Block) :=
  gets (fun m => snd <$> head (ForEach (lastclosedblock (db m)))).

(** All closed blocks before they are sorted by height. *)
Definition read_all_closed_blocks (m : Miner) : list Block :=
  match ForEach (lastclosedblock (db m)) with
  | [] => []
  | _ => (snd <$> ForEach (closedblocks (db m))) ++ (snd <$> ForEach (closedblockswithouttx (db m)))
  end.

Definition ReadAllClosedFundsAndAggTransactions : M Miner (list Transaction) :=
  gets (fun m => (TFunds <$> (snd <$> ForEach (closedfunds (db m)))) ++
                 (TAgg <$> (snd <$> ForEach (closedaggregations (db m))))).

Definition ReadReceivedBlockStash : M Miner (list Block) := gets (fun m => ReceivedBlockStash (pool m)).
Definition ReadOpenTx (h : hash) : M Miner (option Transaction) := gets (fun m => txMemPool (pool m) !! h).
Definition ReadINVALIDOpenTx (h : hash) : M Miner (option Transaction) :=
  gets (fun m => txINVALIDMemPool (pool m) !! h).
Definition ReadFundsTxBeforeAggregation : M Miner (list FundsTx) :=
  gets (fun m => FundsTxBeforeAggregation (pool m)).
Definition ReadTxcntToTx (txCnt : Z) : M Miner (list hash) :=
  gets (fun m => default [] (TxcntToTxMap (pool m) !! txCnt)).

(** The buckets are tried in this order. An encoding in [closedconfigs] or
    [closedstakes] always has the size that decoding wants. *)
Definition closed_tx (b : Buckets) (h : hash) : option Transaction :=
  match closedfunds b !! h with
  | Some tx => Some (TFunds tx)
  | None =>
  match closedaccs b !! h with
  | Some tx => Some (TAcc tx)
  | None =>
  match closeddeletes b !! h with
  | Some tx => Some (TUpdate tx)
  | None =>
  match closedconfigs b !! h with
  | Some encodedTx => TConfig <$> ConfigTx_Decode encodedTx
  | None =>
  match closedstakes b !! h with
  | Some encodedTx => TStake <$> StakeTx_Decode encodedTx
  | None => TAgg <$> closedaggregations b !! h
  end end end end end.

Definition ReadClosedTx (h : hash) : M Miner (option Transaction) := gets (fun m => closed_tx (db m) h).

Definition ReadBlockByTxHash (txHash : hash) : M Miner (option Block) :=
  blockHash ← gets (fun m => default zero_hash (blocksbytxhash (db m) !! txHash));
  open ← ReadOpenBlock blockHash;
  match open with
  | Some b => mret (Some b)
  | None => ReadClosedBlock blockHash
  end.

(** ** Writes and deletions *)

Definition WriteOpenBlock (b : Block) : M Miner unit :=
  on_db (upd_openblocks (insert (blk_Hash b) (Block_persist b))).
Definition WriteClosedBlock (b : Block) : M Miner unit :=
  on_db (upd_closedblocks (insert (blk_Hash b) (Block_persist b))).
Definition WriteClosedBlockWithoutTx (b : Block) : M Miner unit :=
  on_db (upd_closedblockswithouttx (insert (blk_HashWithoutTx b) (Block_persist b))).
Definition WriteLastClosedBlock (b : Block) : M Miner unit :=
  on_db (upd_lastclosedblock (insert (blk_Hash b) (Block_persist b))).
Definition WriteBlockHashByTxHash (txHash bHash : hash) : M Miner unit :=
  on_db (upd_blocksbytxhash (insert txHash bHash)).

Definition DeleteOpenBlock (h : hash) : M Miner unit := on_db (upd_openblocks (delete h)).
Definition DeleteClosedBlock (h : hash) : M Miner unit := on_db (upd_closedblocks (delete h)).
Definition DeleteClosedBlockWithoutTx (h : hash) : M Miner unit :=
  on_db (upd_closedblockswithouttx (delete h)).
Definition DeleteLastClosedBlock (h : hash) : M Miner unit :=
  on_db (upd_lastclosedblock (delete h)).
Definition DeleteAllLastClosedBlock : M Miner unit := on_db (upd_lastclosedblock (fun _ => ∅)).

Definition BlockAlreadyInStash (slice : list Block) (newBlockHash : hash) : bool :=
  existsb (fun b => bool_decide (blk_Hash b = newBlockHash)) slice.

(** At most 100 blocks are kept, the oldest is dropped. *)
Definition WriteToReceivedStash (b : Block) : M Miner unit :=
  on_pool (upd_ReceivedBlockStash (fun stash =>
    if BlockAlreadyInStash stash (blk_Hash b) then stash
    else
      let stash := stash ++ [b] in
      if Nat.ltb 100 (length stash) then drop 1 stash else stash)).

Definition WriteFundsTxBeforeAggregation (tx : FundsTx) : M Miner unit :=
  on_pool (upd_FundsTxBeforeAggregation (fun l => l ++ [tx])).
Definition DeleteAllFundsTxBeforeAggregation : M Miner unit :=
  on_pool (upd_FundsTxBeforeAggregation (fun _ => [])).

Section storage.
Context {DG : Digests}.

(** [transaction.Hash()], which may panic. *)
Definition tx_hash (tx : Transaction) : M Miner hash :=
  h ← gets (fun m => Transaction_Hash (ChameleonHashParametersMap (ledger m)) tx);
  of_option h.

Definition WriteTxcntToTx (tx : FundsTx) : M Miner unit :=
  h ← tx_hash (TFunds tx);
  on_pool (upd_TxcntToTxMap (fun m => <[ftx_TxCnt tx := default [] (m !! ftx_TxCnt tx) ++ [h]]> m)).

Definition WriteOpenTx (tx : Transaction) : M Miner unit :=
  h ← tx_hash tx;
  on_pool (upd_txMemPool (insert h tx));;
  match tx with
  | TFunds tx => WriteTxcntToTx tx
  | _ => mret tt
  end.

Definition WriteINVALIDOpenTx (tx : Transaction) : M Miner unit :=
  h ← tx_hash tx;
  on_pool (upd_txINVALIDMemPool (insert h tx)).

(** Funds transactions fetched while the state is being built. *)
Definition WriteBootstrapTxReceived (tx : Transaction) : M Miner unit :=
  h ← tx_hash tx;
  on_pool (upd_bootstrapReceivedMemPool (insert h tx)).

Definition DeleteOpenTx (tx : Transaction) : M Miner unit :=
  h ← tx_hash tx;
  on_pool (upd_txMemPool (delete h)).

Definition DeleteINVALIDOpenTx (tx : Transaction) : M Miner unit :=
  h ← tx_hash tx;
  on_pool (upd_txINVALIDMemPool (delete h)).

(** The bucket is chosen by the type of the transaction. *)
Definition put_closed (h : hash) (tx : Transaction) : Buckets -> Buckets :=
  match tx with
  | TFunds tx => upd_closedfunds (insert h (FundsTx_persist tx))
  | TAcc tx => upd_closedaccs (insert h (AccTx_persist tx))
  | TConfig tx => upd_closedconfigs (insert h (ConfigTx_Encode tx))
  | TStake tx => upd_closedstakes (insert h (StakeTx_Encode tx))
  | TAgg tx => upd_closedaggregations (insert h (AggTx_persist tx))
  | TUpdate tx => upd_closeddeletes (insert h (UpdateTx_persist tx))
  end.

Definition delete_closed (h : hash) (tx : Transaction) : Buckets -> Buckets :=
  match tx with
  | TFunds _ => upd_closedfunds (delete h)
  | TAcc _ => upd_closedaccs (delete h)
  | TConfig _ => upd_closedconfigs (delete h)
  | TStake _ => upd_closedstakes (delete h)
  | TAgg _ => upd_closedaggregations (delete h)
  | TUpdate _ => upd_closeddeletes (delete h)
  end.

Definition WriteClosedTx (tx : Transaction) : M Miner unit :=
  h ← tx_hash tx;
  on_db (put_closed h tx).

Definition DeleteClosedTx (tx : Transaction) : M Miner unit :=
  h ← tx_hash tx;
  on_db (delete_closed h tx).

(** ** Emptying of old blocks (update.go) *)

(** Whether every transaction is closed and marked; a closed transaction of
    another type fails the type assertion. *)
Fixpoint all_aggregated (is_agg : bool) (hs : list hash) : M Miner bool :=
  match hs with
  | [] => mret true
  | txHash :: hs =>
      tx ← ReadClosedTx txHash;
      match tx, is_agg with
      | None, _ => mret false
      | Some (TFunds tx), false =>
          if negb (ftx_Aggregated tx) then mret false else all_aggregated is_agg hs
      | Some (TAgg tx), true =>
          if negb (gtx_Aggregated tx) then mret false else all_aggregated is_agg hs
      | Some _, _ => panic
      end
  end.

Definition empty_block (b : Block) : Block :=
  mkBlock (blk_Header b) (blk_Hash b) (blk_PrevHash b) (blk_HashWithoutTx b)
    (blk_PrevHashWithoutTx b) (blk_NrElementsBF b) (blk_BloomFilter b) (blk_Height b)
    (blk_Beneficiary b) (blk_Aggregated b) (blk_NrUpdates b) (blk_Nonce b) (blk_Timestamp b)
    (blk_MerkleRoot b) (blk_NrAccTx b) (blk_NrConfigTx b) 0 (blk_NrStakeTx b)
    0 (blk_NrUpdateTx b) (blk_SlashedAddress b) (blk_CommitmentProof b)
    (blk_ConflictingBlockHash1 b) (blk_ConflictingBlockHash2 b)
    (blk_ConflictingBlockHashWithoutTx1 b) (blk_ConflictingBlockHashWithoutTx2 b)
    (blk_StateCopy b) (blk_AccTxData b) [] (blk_ConfigTxData b) (blk_StakeTxData b)
    [] (blk_UpdateTxData b).

Definition set_blk_Aggregated (v : bool) (b : Block) : Block :=
  mkBlock (blk_Header b) (blk_Hash b) (blk_PrevHash b) (blk_HashWithoutTx b)
    (blk_PrevHashWithoutTx b) (blk_NrElementsBF b) (blk_BloomFilter b) (blk_Height b)
    (blk_Beneficiary b) v (blk_NrUpdates b) (blk_Nonce b) (blk_Timestamp b)
    (blk_MerkleRoot b) (blk_NrAccTx b) (blk_NrConfigTx b) (blk_NrFundsTx b) (blk_NrStakeTx b)
    (blk_NrAggTx b) (blk_NrUpdateTx b) (blk_SlashedAddress b) (blk_CommitmentProof b)
    (blk_ConflictingBlockHash1 b) (blk_ConflictingBlockHash2 b)
    (blk_ConflictingBlockHashWithoutTx1 b) (blk_ConflictingBlockHashWithoutTx2 b)
    (blk_StateCopy b) (blk_AccTxData b) (blk_FundsTxData b) (blk_ConfigTxData b)
    (blk_StakeTxData b) (blk_AggTxData b) (blk_UpdateTxData b).

(** The block the pointer refers to after the call, and the answer. *)
Definition BlockReadyToAggregate (b : Block) : M Miner (Block * bool) :=
  if (blk_NrAggTx b =? 0) && (blk_NrStakeTx b =? 0) && (blk_NrFundsTx b =? 0) &&
     (blk_NrAccTx b =? 0) && (blk_NrConfigTx b =? 0) then mret (b, true)
  else if (0 <? blk_NrStakeTx b) && (0 <? blk_NrAccTx b) && (0 <? blk_NrConfigTx b) then
    mret (b, false)
  else
    funds ← all_aggregated false (blk_FundsTxData b);
    if negb (funds : bool) then mret (b, false)
    else
      aggs ← all_aggregated true (blk_AggTxData b);
      if negb (aggs : bool) then mret (b, false) else mret (empty_block b, true).

Definition UpdateBlocksToBlocksWithoutTx (b : Block) : M Miner unit :=
  r ← BlockReadyToAggregate b;
  let '(b, ready) := r in
  if (ready : bool) then
    let b := set_blk_Aggregated true b in
    WriteClosedBlockWithoutTx b;;
    DeleteClosedBlock (blk_Hash b)
  else mret tt.

(** ** Keys involved in the transactions of a block (utils.go) *)

(** A transaction of another type, or none at all, fails the assertion. *)
Definition find_tx (txHash : hash) : M Miner (option Transaction) :=
  tx ← ReadClosedTx txHash;
  match tx with
  | Some tx => mret (Some tx)
  | None => ReadOpenTx txHash
  end.

Fixpoint GetAccTxPubKeys (accTxData : list hash) : M Miner (list hash) :=
  match accTxData with
  | [] => mret []
  | txHash :: accTxData =>
      tx ← find_tx txHash;
      match tx with
      | Some (TAcc accTx) =>
          rest ← GetAccTxPubKeys accTxData;
          mret (atx_Issuer accTx :: SerializeHashContent (VBytes (atx_PubKey accTx)) :: rest)
      | _ => panic
      end
  end.

Fixpoint GetFundsTxPubKeys (fundsTxData : list hash) : M Miner (list hash) :=
  match fundsTxData with
  | [] => mret []
  | txHash :: fundsTxData =>
      tx ← find_tx txHash;
      match tx with
      | Some (TFunds fundsTx) =>
          rest ← GetFundsTxPubKeys fundsTxData;
          mret (ftx_From fundsTx :: ftx_To fundsTx :: rest)
      | _ => panic
      end
  end.

Definition GetTxPubKeys (b : Block) : M Miner (list hash) :=
  txPubKeys ← GetAccTxPubKeys (blk_AccTxData b);
  fundsKeys ← GetFundsTxPubKeys (blk_FundsTxData b);
  mret (txPubKeys ++ fundsKeys).
End storage.
