(* ===== verification/Ledger.v ===== *)
(** * Reasoning about the accounts

    The state changes touch the map of accounts only. [with_St] replaces it;
    every primitive of the monad has a rule for executing it forwards ([wp])
    and backwards ([minv]); [total] is the money in the accounts. *)

From S2P Require Import Prelude Format Chameleon Protocol Node Storage.

Definition St (m : Miner) : gmap hash Account := State (ledger m).
Definition with_St (s : gmap hash Account) (m : Miner) : Miner := upd_ledger (upd_State (fun _ => s)) m.

Lemma St_with s m : St (with_St s m) = s.
Proof. done. Qed.

Lemma with_with s s' m : with_St s (with_St s' m) = with_St s m.
Proof. done. Qed.

Lemma with_St_id m : with_St (St m) m = m.
Proof. by destruct m as [[] ? ? ?]. Qed.

Lemma with_St_eq s m : s = St m -> with_St s m = m.
Proof. intros ->. apply with_St_id. Qed.

Lemma ledger_with s m : RootKeys (ledger (with_St s m)) = RootKeys (ledger m) /\
  ChameleonHashParametersMap (ledger (with_St s m)) = ChameleonHashParametersMap (ledger m) /\
  pool (with_St s m) = pool m /\ db (with_St s m) = db m /\ chain (with_St s m) = chain m.
Proof. done. Qed.

(** ** Forward rules *)

Lemma update_account_run h f m : update_account h f m = Done (tt, with_St (alter f h (St m)) m).
Proof. done. Qed.

Lemma get_account_run h m : get_account h m = Done (St m !! h, m).
Proof. done. Qed.

Lemma account_run h a m : St m !! h = Some a -> account h m = Done (a, m).
Proof. intros H. unfold account, get_account, gets, mbind, M_bind. unfold St in H. by rewrite H. Qed.

Lemma account_none h m : St m !! h = None -> account h m = Panic.
Proof. intros H. unfold account, get_account, gets, mbind, M_bind. unfold St in H. by rewrite H. Qed.

Lemma account_bind {A} h a (f : Account -> M Miner A) m :
  St m !! h = Some a -> (account h ≫= f) m = f a m.
Proof. intros H. by rewrite (bind_Done _ _ _ _ _ (account_run h a m H)). Qed.

Lemma update_bind {A} h g (f : unit -> M Miner A) m :
  (update_account h g ≫= f) m = f tt (with_St (alter g h (St m)) m).
Proof. done. Qed.

Lemma GetAccount_run h m :
  GetAccount h m = Done (match St m !! h with Some a => (Some a, None)
                         | None => (None, Some "Acc not in the state."%string) end, m).
Proof. unfold GetAccount, mbind, M_bind, get_account, gets, St. simpl. by destruct (_ !! h). Qed.

Definition is_root (h : hash) (m : Miner) : bool := bool_decide (is_Some (RootKeys (ledger m) !! h)).

Lemma GetRootAccount_run h m :
  GetRootAccount h m =
  if is_root h m then GetAccount h m else Done ((None, None), m).
Proof.
  unfold GetRootAccount, IsRootKey. rewrite (bind_Done _ _ m (is_root h m) m) by done.
  by destruct (is_root h m).
Qed.

(** ** Backwards: what a run that returned went through *)

Lemma ret_inv {S A} (a b : A) (s s' : S) : (mret a : M S A) s = Done (b, s') -> b = a /\ s' = s.
Proof. by intros [= <- <-]. Qed.

Lemma of_option_inv {S A} (o : option A) b (s s' : S) :
  of_option o s = Done (b, s') -> o = Some b /\ s' = s.
Proof. destruct o; [|done]. by intros [= <- <-]. Qed.

Lemma gets_inv {S A} (f : S -> A) b (s s' : S) : gets f s = Done (b, s') -> b = f s /\ s' = s.
Proof. by intros [= <- <-]. Qed.

Lemma account_inv h a m m' : account h m = Done (a, m') -> St m !! h = Some a /\ m' = m.
Proof.
  unfold account. intros H. apply bind_inv in H as (o & m1 & H1 & H2).
  rewrite get_account_run in H1. injection H1 as <- <-. by apply of_option_inv in H2.
Qed.

Lemma update_account_inv h f u m m' : update_account h f m = Done (u, m') ->
  m' = with_St (alter f h (St m)) m.
Proof. rewrite update_account_run. by intros [= _ <-]. Qed.

Lemma GetAccount_inv h r m m' : GetAccount h m = Done (r, m') -> m' = m /\
  r = match St m !! h with Some a => (Some a, None)
      | None => (None, Some "Acc not in the state."%string) end.
Proof. rewrite GetAccount_run. by intros [= <- <-]. Qed.

Lemma GetRootAccount_inv h r m m' : GetRootAccount h m = Done (r, m') -> m' = m /\
  r = if is_root h m then
        match St m !! h with Some a => (Some a, None)
        | None => (None, Some "Acc not in the state."%string) end
      else (None, None).
Proof.
  rewrite GetRootAccount_run. destruct (is_root h m); [apply GetAccount_inv|]. by intros [= <- <-].
Qed.

Ltac minv1 :=
  match goal with
  | H : (_ ≫= _) _ = Done _ |- _ =>
      let a := fresh "x" in let s := fresh "m" in let H1 := fresh H in
      apply bind_inv in H as (a & s & H1 & H)
  | H : mret _ _ = Done (_, _) |- _ => apply ret_inv in H as [? ?]
  | H : of_option _ _ = Done (_, _) |- _ => apply of_option_inv in H as [? ?]
  | H : gets _ _ = Done (_, _) |- _ => apply gets_inv in H as [? ?]
  | H : account _ _ = Done (_, _) |- _ => apply account_inv in H as [? ?]
  | H : get_account _ _ = Done (_, _) |- _ => rewrite get_account_run in H; injection H as ? ?
  | H : GetAccount _ _ = Done (_, _) |- _ => apply GetAccount_inv in H as [? ?]
  | H : GetRootAccount _ _ = Done (_, _) |- _ => apply GetRootAccount_inv in H as [? ?]
  | H : update_account _ _ _ = Done (_, _) |- _ => apply update_account_inv in H
  | H : panic _ = Done _ |- _ => discriminate H
  end; subst; simpl in *.
Ltac minv := repeat minv1.

(** ** Well-formed accounts, and money *)

Definition account_ok (a : Account) : Prop := is_u64 (acc_Balance a) /\ is_u32 (acc_TxCnt a).
Definition ledger_ok (s : gmap hash Account) : Prop := forall h a, s !! h = Some a -> account_ok a.

Lemma ledger_ok_alter f (h : hash) s : (forall a, account_ok a -> account_ok (f a)) ->
  ledger_ok s -> ledger_ok (alter f h s).
Proof.
  intros Hf Hs k a Ha. destruct (decide (k = h)) as [->|].
  - rewrite lookup_alter_eq in Ha. apply fmap_Some in Ha as (b & Hb & ->). eauto.
  - rewrite lookup_alter_ne in Ha by done. eauto.
Qed.

Lemma account_ok_credit x a : account_ok a -> account_ok (credit x a).
Proof. intros [??]. split; [apply wrap_bounds; lia|done]. Qed.
Lemma account_ok_debit x a : account_ok a -> account_ok (debit x a).
Proof. intros [??]. split; [apply wrap_bounds; lia|done]. Qed.
Lemma account_ok_inc a : account_ok a -> account_ok (inc_TxCnt a).
Proof. intros [??]. split; [done|apply wrap_bounds; lia]. Qed.
Lemma account_ok_dec a : account_ok a -> account_ok (dec_TxCnt a).
Proof. intros [??]. split; [done|apply wrap_bounds; lia]. Qed.
#[export] Hint Resolve account_ok_credit account_ok_debit account_ok_inc account_ok_dec ledger_ok_alter : ledger.

(** Credits and debits commute with everything but themselves, and cancel. *)
Lemma debit_credit x a : account_ok a -> debit x (credit x a) = a.
Proof.
  destruct a. intros [??]. unfold debit, credit, set_Balance. simpl in *.
  f_equal. rewrite wrap_add_sub. by apply wrap_small.
Qed.

Lemma credit_debit x a : account_ok a -> credit x (debit x a) = a.
Proof.
  destruct a. intros [??]. unfold debit, credit, set_Balance. simpl in *.
  f_equal. rewrite wrap_sub_add. by apply wrap_small.
Qed.

Lemma dec_inc_TxCnt a : account_ok a -> dec_TxCnt (inc_TxCnt a) = a.
Proof.
  destruct a. intros [??]. unfold dec_TxCnt, inc_TxCnt, set_TxCnt. simpl in *.
  f_equal. rewrite wrap_add_sub. by apply wrap_small.
Qed.

Lemma credit_debit_comm x y a : credit x (debit y a) = debit y (credit x a).
Proof.
  unfold credit, debit, set_Balance. simpl. f_equal.
  autorewrite with wrap. f_equal. lia.
Qed.

Lemma credit_comm x y a : credit x (credit y a) = credit y (credit x a).
Proof. unfold credit, set_Balance. simpl. f_equal. autorewrite with wrap. f_equal. lia. Qed.

Lemma debit_comm x y a : debit x (debit y a) = debit y (debit x a).
Proof. unfold debit, set_Balance. simpl. f_equal. autorewrite with wrap. f_equal. lia. Qed.

Lemma dec_credit_comm x a : dec_TxCnt (credit x a) = credit x (dec_TxCnt a).
Proof. done. Qed.
Lemma dec_debit_comm x a : dec_TxCnt (debit x a) = debit x (dec_TxCnt a).
Proof. done. Qed.

(** Two updates in a row that are one another's inverse. *)
Lemma alter_alter_id (f g : Account -> Account) (h : hash) (s : gmap hash Account) :
  ledger_ok s -> (forall a, account_ok a -> f (g a) = a) -> alter f h (alter g h s) = s.
Proof.
  intros Hs Hfg. apply map_eq. intros k. destruct (decide (k = h)) as [->|].
  - rewrite !lookup_alter_eq. destruct (s !! h) eqn:E; simpl; [|done]. f_equal. eauto.
  - by rewrite !lookup_alter_ne by done.
Qed.

(** Updates that commute as functions commute wherever they happen. *)
Lemma alter_comm (f g : Account -> Account) (h k : hash) (s : gmap hash Account) :
  (forall a, f (g a) = g (f a)) -> alter f h (alter g k s) = alter g k (alter f h s).
Proof.
  intros Hfg. destruct (decide (h = k)) as [->|Hne]; [|by apply alter_alter_ne].
  apply map_eq. intros j. destruct (decide (j = k)) as [->|].
  - rewrite !lookup_alter_eq. destruct (s !! k); simpl; [by rewrite Hfg|done].
  - by rewrite !lookup_alter_ne by done.
Qed.

Definition total (s : gmap hash Account) : Z := map_fold (fun _ a t => acc_Balance a + t) 0 s.

Lemma total_insert_new (h : hash) a s : s !! h = None -> total (<[h := a]> s) = acc_Balance a + total s.
Proof. intros Hn. unfold total.
  apply (map_fold_insert_L (fun (_ : hash) a t => acc_Balance a + t)); [lia|done]. Qed.

Lemma total_delete (h : hash) a s : s !! h = Some a -> total s = acc_Balance a + total (delete h s).
Proof. intros Ha. unfold total.
  apply (map_fold_delete_L (fun (_ : hash) a t => acc_Balance a + t)); [lia|done]. Qed.

Lemma total_alter f (h : hash) a s : s !! h = Some a ->
  total (alter f h s) = total s + (acc_Balance (f a) - acc_Balance a).
Proof.
  intros Ha. rewrite (total_delete h (f a) (alter f h s)) by (by rewrite lookup_alter_eq, Ha).
  rewrite (total_delete h a s Ha), delete_alter_eq. lia.
Qed.

(** Money is counted modulo 2^64, as the balances are. *)
Lemma total_credit x (h : hash) s : is_Some (s !! h) -> u64 (total (alter (credit x) h s)) = u64 (total s + x).
Proof.
  intros [a Ha]. rewrite (total_alter _ h a s Ha). simpl.
  replace (total s + (u64 (acc_Balance a + x) - acc_Balance a))
    with (u64 (acc_Balance a + x) + (total s - acc_Balance a)) by lia.
  rewrite wrap_add_l. f_equal. lia.
Qed.

Lemma total_debit x (h : hash) s : is_Some (s !! h) -> u64 (total (alter (debit x) h s)) = u64 (total s - x).
Proof.
  intros [a Ha]. rewrite (total_alter _ h a s Ha). simpl.
  replace (total s + (u64 (acc_Balance a - x) - acc_Balance a))
    with (u64 (acc_Balance a - x) + (total s - acc_Balance a)) by lia.
  rewrite wrap_add_l. f_equal. lia.
Qed.

Lemma total_inc (h : hash) s : total (alter inc_TxCnt h s) = total s.
Proof.
  destruct (s !! h) as [a|] eqn:Ha.
  - rewrite (total_alter _ h a s Ha). simpl. lia.
  - by rewrite alter_id' by done.
Qed.

Lemma is_Some_alter (f : Account -> Account) (h k : hash) (s : gmap hash Account) :
  is_Some (s !! k) -> is_Some (alter f h s !! k).
Proof.
  intros [a Ha]. destruct (decide (k = h)) as [->|].
  - rewrite lookup_alter_eq, Ha. by eexists.
  - rewrite lookup_alter_ne by done. by eexists.
Qed.
#[export] Hint Resolve is_Some_alter : ledger.

(** ** What a run leaves alone *)

(** Only the pool changed. *)
Definition pool_only (m m' : Miner) : Prop :=
  ledger m' = ledger m /\ db m' = db m /\ chain m' = chain m.

#[export] Instance pool_only_PreOrder : PreOrder pool_only.
Proof. split; unfold pool_only; [done|]. intros m1 m2 m3 (? & ? & ?) (? & ? & ?). split_and!; congruence. Qed.

Lemma pool_only_on_pool f : respects pool_only (on_pool f).
Proof. by intros m u m' [= _ <-]. Qed.

(** A run that does not touch the database. *)
Definition same_db (m m' : Miner) : Prop := db m' = db m.

#[export] Instance same_db_PreOrder : PreOrder same_db.
Proof. split; unfold same_db; [done|]. intros m1 m2 m3 ? ?. congruence. Qed.

Lemma respects_weaken {A} (R R' : relation Miner) (c : M Miner A) :
  (forall m m', R m m' -> R' m m') -> respects R c -> respects R' c.
Proof. intros H Hc m a m' E. by eapply H, Hc. Qed.

Lemma pool_only_db {A} (c : M Miner A) : respects pool_only c -> respects same_db c.
Proof. apply respects_weaken. by intros m m' (_ & ? & _). Qed.

(** Reads, and the other leaves of a program; [frame_step] takes a program
    apart down to them. *)
Create HintDb frame.
#[export] Hint Resolve pool_only_on_pool : frame.
#[export] Hint Extern 1 (respects _ (gets _)) => apply respects_gets, _ : frame.
#[export] Hint Extern 1 (respects _ (mret _)) => apply respects_ret, _ : frame.
#[export] Hint Extern 1 (respects _ (of_option _)) => apply respects_of_option, _ : frame.
#[export] Hint Extern 1 (respects _ panic) => apply respects_panic : frame.
#[export] Hint Extern 1 (respects _ timeout) => apply respects_timeout : frame.

Ltac frame_step :=
  match goal with
  | |- respects _ (_ ≫= _) => apply respects_bind; [apply _| |intros]
  | |- respects _ (match ?x with _ => _ end) => destruct x
  | |- respects _ ((match ?x with _ => _ end) _) => destruct x
  | |- respects _ (let '_ := ?x in _) => destruct x
  | |- respects _ _ => solve [auto with frame]
  end.
Ltac frame := cbv zeta; repeat frame_step.
