(* ===== verification/Params.v ===== *)
(** * miner/blockchainparam.go, configs.go and the configuration transactions

    The system parameters and their history, the configuration transactions
    that change them (miner/state.go, staterollback.go, tx_verification.go),
    and the statistics that adapt the difficulty. *)

From S2P Require Import Prelude Format Chameleon Protocol Node Storage.

(** ** Constants (miner/configs.go, protocol/configtx.go) *)

Definition MAX_MONEY : Z := 9223372036854775807.
Definition BLOCKHASH_SIZE : nat := 32.
Definition FEE_MINIMUM : Z := 1.
Definition BLOCK_SIZE : Z := 5000.
Definition DIFF_INTERVAL : Z := 25.
Definition BLOCK_INTERVAL : Z := 15.
Definition BLOCK_REWARD : Z := 0.
Definition STAKING_MINIMUM : Z := 1000.
Definition WAITING_MINIMUM : Z := 0.
Definition ACCEPTED_TIME_DIFF : Z := 60.
Definition SLASHING_WINDOW_SIZE : Z := 100.
Definition SLASH_REWARD : Z := 2.
Definition NUM_INCL_PREV_PROOFS : Z := 5.
Definition NO_EMPTYING_LENGTH : Z := 100.
Definition FIXED_SPACE : Z := 650.
Definition BLOOM_FILTER_SIZE : Z := 8.

Definition BLOCK_SIZE_ID : Z := 1.
Definition DIFF_INTERVAL_ID : Z := 2.
Definition FEE_MINIMUM_ID : Z := 3.
Definition BLOCK_INTERVAL_ID : Z := 4.
Definition BLOCK_REWARD_ID : Z := 5.
Definition STAKING_MINIMUM_ID : Z := 6.
Definition WAITING_MINIMUM_ID : Z := 7.
Definition ACCEPTANCE_TIME_DIFF_ID : Z := 8.
Definition SLASHING_WINDOW_SIZE_ID : Z := 9.
Definition SLASHING_REWARD_ID : Z := 10.

Definition MIN_BLOCK_SIZE : Z := 1000.
Definition MAX_BLOCK_SIZE : Z := 100000000.
Definition MIN_DIFF_INTERVAL : Z := 3.
Definition MAX_DIFF_INTERVAL : Z := 9223372036854775807.
Definition MIN_FEE_MINIMUM : Z := 0.
Definition MAX_FEE_MINIMUM : Z := 9223372036854775807.
Definition MIN_BLOCK_INTERVAL : Z := 3.
Definition MAX_BLOCK_INTERVAL : Z := 86400.
Definition MIN_BLOCK_REWARD : Z := 0.
Definition MAX_BLOCK_REWARD : Z := 1152921504606846976.
Definition MIN_STAKING_MINIMUM : Z := 5.
Definition MAX_STAKING_MINIMUM : Z := 9223372036854775807.
Definition MIN_WAITING_TIME : Z := 0.
Definition MAX_WAITING_TIME : Z := 100000.
Definition MIN_ACCEPTANCE_TIME_DIFF : Z := 0.
Definition MAX_ACCEPTANCE_TIME_DIFF : Z := 60.
Definition MIN_SLASHING_WINDOW_SIZE : Z := 0.
Definition MAX_SLASHING_WINDOW_SIZE : Z := 10000.
Definition MIN_SLASHING_REWARD : Z := 0.
Definition MAX_SLASHING_REWARD : Z := 1152921504606846976.

Definition NewDefaultParameters : Parameters :=
  mkParameters (zeros BLOCKHASH_SIZE) FEE_MINIMUM BLOCK_SIZE DIFF_INTERVAL BLOCK_INTERVAL
    BLOCK_REWARD STAKING_MINIMUM WAITING_MINIMUM ACCEPTED_TIME_DIFF SLASHING_WINDOW_SIZE
    SLASH_REWARD NUM_INCL_PREV_PROOFS FIXED_SPACE BLOOM_FILTER_SIZE.

(** ** Configuration transactions *)

Definition parameterBoundsChecking (id payload : Z) : bool :=
  let within lo hi := (lo <=? payload) && (payload <=? hi) in
  if id =? BLOCK_SIZE_ID then within MIN_BLOCK_SIZE MAX_BLOCK_SIZE
  else if id =? DIFF_INTERVAL_ID then within MIN_DIFF_INTERVAL MAX_DIFF_INTERVAL
  else if id =? FEE_MINIMUM_ID then within MIN_FEE_MINIMUM MAX_FEE_MINIMUM
  else if id =? BLOCK_INTERVAL_ID then within MIN_BLOCK_INTERVAL MAX_BLOCK_INTERVAL
  else if id =? BLOCK_REWARD_ID then within MIN_BLOCK_REWARD MAX_BLOCK_REWARD
  else if id =? STAKING_MINIMUM_ID then within MIN_STAKING_MINIMUM MAX_STAKING_MINIMUM
  else if id =? WAITING_MINIMUM_ID then within MIN_WAITING_TIME MAX_WAITING_TIME
  else if id =? ACCEPTANCE_TIME_DIFF_ID then
    within MIN_ACCEPTANCE_TIME_DIFF MAX_ACCEPTANCE_TIME_DIFF
  else if id =? SLASHING_WINDOW_SIZE_ID then
    within MIN_SLASHING_WINDOW_SIZE MAX_SLASHING_WINDOW_SIZE
  else if id =? SLASHING_REWARD_ID then within MIN_SLASHING_REWARD MAX_SLASHING_REWARD
  else false.

(** A new staking minimum removes from the validator set every account that
    no longer reaches it. *)
Definition unstake_below (payload : Z) (acc : Account) : Account :=
  if acc_IsStaking acc && (acc_Balance acc <? u64 (0 + payload)) then set_IsStaking false acc
  else acc.

(** The case of the switch that applies; an unknown id changes nothing. *)
Definition change_parameter (tx : ConfigTx) (p : Parameters) : M Miner (Parameters * bool) :=
  let ok := parameterBoundsChecking (ctx_Id tx) (ctx_Payload tx) in
  let set f := mret (if ok then (f (fun _ => ctx_Payload tx) p, true) else (p, false)) in
  if ctx_Id tx =? FEE_MINIMUM_ID then set upd_FeeMinimum
  else if ctx_Id tx =? BLOCK_SIZE_ID then set upd_BlockSize
  else if ctx_Id tx =? BLOCK_REWARD_ID then set upd_BlockReward
  else if ctx_Id tx =? DIFF_INTERVAL_ID then set upd_DiffInterval
  else if ctx_Id tx =? BLOCK_INTERVAL_ID then set upd_BlockInterval
  else if ctx_Id tx =? STAKING_MINIMUM_ID then
    if ok then
      on_ledger (upd_State (fmap (unstake_below (ctx_Payload tx))));;
      mret (upd_StakingMinimum (fun _ => ctx_Payload tx) p, true)
    else mret (p, false)
  else if ctx_Id tx =? WAITING_MINIMUM_ID then set upd_WaitingMinimum
  else if ctx_Id tx =? ACCEPTANCE_TIME_DIFF_ID then set upd_AcceptedTimeDiff
  else if ctx_Id tx =? SLASHING_WINDOW_SIZE_ID then set upd_SlashingWindowSize
  else if ctx_Id tx =? SLASHING_REWARD_ID then set upd_SlashReward
  else mret (p, false).

(** The parameters the pointer refers to after the loop, and [change]. *)
Fixpoint CheckAndChangeParameters (p : Parameters) (configTxSlice : list ConfigTx)
    (change : bool) : M Miner (Parameters * bool) :=
  match configTxSlice with
  | [] => mret (p, change)
  | tx :: configTxSlice =>
      r ← change_parameter tx p;
      let '(p, c) := r in
      CheckAndChangeParameters p configTxSlice (change || c)
  end.

Definition configStateChange (configTxSlice : list ConfigTx) (blockHash : hash)
    : M Miner unit :=
  active ← gets (fun m => activeParameters (chain m));
  match configTxSlice with
  | [] => mret tt
  | _ =>
      r ← CheckAndChangeParameters active configTxSlice false;
      let '(newParameters, change) := r in
      if (change : bool) then
        let newParameters := upd_BlockHash (fun _ => blockHash) newParameters in
        on_chain (upd_parameterSlice (fun l => l ++ [newParameters]));;
        on_chain (upd_activeParameters (fun _ => newParameters))
      else mret tt
  end.

(** [removelast] and [last]: the slice without its last element, and that
    element. *)
Definition configStateChangeRollback (txSlice : list ConfigTx) (blockHash : hash)
    : M Miner unit :=
  match txSlice with
  | [] => mret tt
  | _ =>
      slice ← gets (fun m => parameterSlice (chain m));
      latest ← of_option (last slice);
      if negb (bool_decide (BlockHash latest = blockHash)) then mret tt
      else
        let slice := removelast slice in
        previous ← of_option (last slice);
        on_chain (upd_parameterSlice (fun _ => slice));;
        on_chain (upd_activeParameters (fun _ => previous))
  end.

(** ** Statistics and difficulty *)

(** [log2_round a b]: [math.Log2(float64(a) / float64(b))], plus 0.5 if it is
    positive and minus 0.5 if it is negative, the fraction cut off. *)
Class FloatOps := log2_round : Z -> Z -> Z.

Definition getDifficulty : M Miner Z :=
  t ← gets (fun m => target (chain m));
  of_option (last t).

Section statistics.
Context {FO : FloatOps}.

(** The change is cut to [-3..3] and converted to a uint8. *)
Definition calculateNewDifficulty (t : timerange) : M Miner Z :=
  active ← gets (fun m => activeParameters (chain m));
  let diff_now := to_int64 (tr_last t - tr_first t) in
  let diff_wanted := u64 (BlockInterval active * DiffInterval active) in
  if (diff_now <? 0) && (0 <? diff_wanted) then getDifficulty
  else
    let target_change := log2_round diff_wanted diff_now in
    let target_change := if 3 <? target_change then 3 else if target_change <? -3 then -3 else target_change in
    current ← getDifficulty;
    mret (u8 (u8 target_change + current)).

Definition collectStatistics (b : Block) : M Miner unit :=
  on_chain (upd_globalBlockCount (fun n => to_int64 (n + 1)));;
  on_chain (upd_localBlockCount (fun n => to_int64 (n + 1)));;
  c ← gets chain;
  (if to_int64 (DiffInterval (activeParameters c)) <=? localBlockCount c then
     let current := mkTimerange (tr_first (currentTargetTime c)) (blk_Timestamp b) in
     t ← (if tr_first current =? 0 then of_option (last (target c)) else calculateNewDifficulty current);
     on_chain (upd_target (fun l => l ++ [t]));;
     on_chain (upd_targetTimes (fun l => l ++ [current]));;
     on_chain (upd_localBlockCount (fun _ => 0));;
     on_chain (upd_currentTargetTime (fun _ => mkTimerange (blk_Timestamp b) 0))
   else mret tt);;
  on_chain (upd_lastBlock (fun _ => Some b)).

Definition collectStatisticsRollback (b : Block) : M Miner unit :=
  on_chain (upd_globalBlockCount (fun n => to_int64 (n - 1)));;
  c ← gets chain;
  (if (localBlockCount c =? 0) && negb (globalBlockCount c =? 0) then
     on_chain (upd_localBlockCount (fun _ =>
       to_int64 (to_int64 (DiffInterval (activeParameters c)) - 1)));;
     t ← of_option (last (targetTimes c));
     (if bool_decide (target c = []) then panic else on_chain (upd_target (@removelast _)));;
     on_chain (upd_currentTargetTime (fun cur => mkTimerange (tr_first t) (tr_last cur)));;
     on_chain (upd_targetTimes (@removelast _))
   else on_chain (upd_localBlockCount (fun n => to_int64 (n - 1))));;
  prev ← ReadClosedBlock (blk_PrevHash b);
  on_chain (upd_lastBlock (fun _ => prev)).
End statistics.
