(* ===== verification/StateChange.v ===== *)
(** * miner/state.go and staterollback.go: applying a block to the accounts

    Every state change of a block, with its rollback. An error value is a
    string; a nil pointer that is dereferenced panics. [fundsStateChange] and
    the others are loops over the transactions whose body is a definition of
    its own. *)

From S2P Require Import Prelude Format Chameleon Protocol Node Storage Params.

Definition MIN_STAKING_MINIMUM : Z := Params.MIN_STAKING_MINIMUM.

(** [for _, tx := range txs { ... return err ... }] *)
Fixpoint for_each_err {T} (body : T -> M Miner error) (txs : list T) : M Miner error :=
  match txs with
  | [] => mret None
  | tx :: txs =>
      err ← body tx;
      match err with
      | Some e => mret (Some e)
      | None => for_each_err body txs
      end
  end.

Fixpoint for_each {T} (body : T -> M Miner unit) (txs : list T) : M Miner unit :=
  match txs with
  | [] => mret tt
  | tx :: txs => body tx;; for_each body txs
  end.

(** The same, with the transactions that went through: the [tmp] slices. *)
Fixpoint for_each_tmp {T} (body : T -> M Miner error) (txs : list T) : M Miner (error * list T) :=
  match txs with
  | [] => mret (None, [])
  | tx :: txs =>
      err ← body tx;
      match err with
      | Some e => mret (Some e, [])
      | None => r ← for_each_tmp body txs; mret (fst r, tx :: snd r)
      end
  end.

(** [sort.Sort(ByTxCount(txs))]: package sort is external, and the comparison
    used ([<=]) is not the strict order it asks for, so that only the elements
    of the result are known. *)
Class SortOps := { sort_ByTxCount : list FundsTx -> list FundsTx }.
Class SortLaws `{!SortOps} := { sort_ByTxCount_perm l : Permutation (sort_ByTxCount l) l }.

Section state_change.
Context {DG : Digests}.

(** ** Accounts *)

(** Assigning a nil pointer to the entry of a map reads back as nil. *)
Definition set_parameters (h : hash) (p : option ChameleonHashParameters) : Ledger -> Ledger :=
  upd_ChameleonHashParametersMap (partial_alter (fun _ => p) h).

Definition accTx_change (tx : AccTx) : M Miner error :=
  if negb (atx_Header tx =? 2) then
    let newAcc := NewAccount (atx_PubKey tx) (atx_Issuer tx) 0 false (zeros COMM_KEY_LENGTH)
      (atx_Contract tx) (atx_ContractVariables tx) (atx_Parameters tx) in
    let newAccHash := Account_Hash newAcc in
    acc ← GetAccount newAccHash;
    match fst acc with
    | Some _ => mret (Some "Address already exists in the state.")
    | None =>
        on_ledger (upd_State (insert newAccHash newAcc));;
        on_ledger (set_parameters newAccHash (acc_Parameters newAcc));;
        (if atx_Header tx =? 1 then
           on_ledger (upd_RootKeys (insert newAccHash (acc_Address newAcc)))
         else mret tt);;
        mret None
    end
  else
    let accHash := SerializeHashContent (VBytes (atx_PubKey tx)) in
    acc ← GetAccount accHash;
    match snd acc with
    | Some err => mret (Some err)
    | None => on_ledger (upd_RootKeys (delete accHash));; mret None
    end.

Definition accStateChange (txSlice : list AccTx) : M Miner error := for_each_err accTx_change txSlice.

(** [logger.Fatal] ends the process. *)
Definition accTx_rollback (tx : AccTx) : M Miner unit :=
  let header := atx_Header tx in
  if (header =? 0) || (header =? 1) || (header =? 2) then
    let accHash := SerializeHashContent (VBytes (atx_PubKey tx)) in
    acc ← account accHash;
    on_ledger (upd_State (delete accHash));;
    (if header =? 1 then on_ledger (upd_RootKeys (delete accHash))
     else if header =? 2 then on_ledger (upd_RootKeys (insert accHash (acc_Address acc)))
     else mret tt)
  else mret tt.

Definition accStateChangeRollback (txSlice : list AccTx) : M Miner unit := for_each accTx_rollback txSlice.

(** ** Funds *)

(** The checks on sender and receiver; a later error replaces an earlier one.
    [accReceiver] is read again only outside the initial setup. *)
Definition fundsTx_checks (tx : FundsTx) (initialSetup : bool) (accSender : Account)
    (accReceiver : option Account) : M Miner error :=
  let err := match accReceiver with Some _ => None | None => Some "Acc not in the state." end in
  let err :=
    if negb initialSetup && negb (ftx_Aggregated tx) && negb (ftx_TxCnt tx =? acc_TxCnt accSender) then
      if ftx_TxCnt tx <? acc_TxCnt accSender then err else Some "Sender txCnt does not match."
    else err in
  let err :=
    if negb initialSetup && (acc_Balance accSender <? u64 (ftx_Amount tx + ftx_Fee tx)) then
      Some "Sender does not have enough funds for the Funds transaction."
    else err in
  let err :=
    if acc_IsStaking accSender &&
       (acc_Balance accSender <? u64 (u64 (ftx_Fee tx + MIN_STAKING_MINIMUM) + ftx_Amount tx)) then
      Some "Sender is staking and does not have enough funds in order to fulfill the required staking minimum."
    else err in
  if initialSetup then mret err
  else
    receiver ← of_option accReceiver;
    mret (if MAX_MONEY <? u64 (ftx_Amount tx + acc_Balance receiver) then
            Some "Transaction amount would lead to balance overflow at the receiver account."
          else err).

Definition fundsTx_change (initialSetup : bool) (tx : FundsTx) : M Miner error :=
  txHash ← tx_hash (TFunds tx);
  closed ← ReadClosedTx txHash;
  if bool_decide (is_Some closed) && negb initialSetup then mret None
  else
    root ← GetRootAccount (ftx_From tx);
    match root with
    | (_, Some err) => mret (Some err)
    | (rootAcc, None) =>
        let overflow :=
          match rootAcc with
          | Some acc => MAX_MONEY <? u64 (u64 (acc_Balance acc + ftx_Amount tx) + ftx_Fee tx)
          | None => false
          end in
        if overflow then
          mret (Some "Transaction amount would lead to balance overflow at the receiver (root) account.")
        else
          (if bool_decide (is_Some rootAcc) then
             update_account (ftx_From tx) (credit (ftx_Amount tx));;
             update_account (ftx_From tx) (credit (ftx_Fee tx))
           else mret tt);;
          accSender ← account (ftx_From tx);
          accReceiver ← get_account (ftx_To tx);
          err ← fundsTx_checks tx initialSetup accSender accReceiver;
          match err with
          | Some err =>
              (if bool_decide (is_Some rootAcc) then
                 update_account (ftx_From tx) (debit (ftx_Amount tx));;
                 update_account (ftx_From tx) (debit (ftx_Fee tx))
               else mret tt);;
              mret (Some err)
          | None =>
              update_account (ftx_From tx) inc_TxCnt;;
              update_account (ftx_From tx) (debit (ftx_Amount tx));;
              update_account (ftx_To tx) (credit (ftx_Amount tx));;
              mret None
          end
    end.

Definition fundsStateChange (txSlice : list FundsTx) (initialSetup : bool) : M Miner error :=
  for_each_err (fundsTx_change initialSetup) txSlice.

Definition fundsTx_rollback (tx : FundsTx) : M Miner unit :=
  _ ← account (ftx_From tx);
  update_account (ftx_From tx) dec_TxCnt;;
  update_account (ftx_From tx) (credit (ftx_Amount tx));;
  _ ← account (ftx_To tx);
  update_account (ftx_To tx) (debit (ftx_Amount tx));;
  root ← GetRootAccount (ftx_From tx);
  match fst root with
  | Some _ =>
      update_account (ftx_From tx) (debit (ftx_Amount tx));;
      update_account (ftx_From tx) (debit (ftx_Fee tx))
  | None => mret tt
  end.

Definition fundsStateChangeRollback (txSlice : list FundsTx) : M Miner unit :=
  for_each fundsTx_rollback (rev txSlice).

Definition aggTxStateChange `{!SortOps} (txSlice : list FundsTx) (initialSetup : bool)
    : M Miner error := fundsStateChange (sort_ByTxCount txSlice) initialSetup.

(** ** Stakes *)

Definition stakeTx_change (height : Z) (initialSetup : bool) (tx : StakeTx) : M Miner error :=
  accSender ← account (stx_Account tx);
  active ← gets (fun m => activeParameters (chain m));
  let err := if Bool.eqb (stx_IsStaking tx) (acc_IsStaking accSender)
             then Some "IsStaking state is already set." else None in
  let err :=
    if negb initialSetup && stx_IsStaking tx &&
       (acc_Balance accSender <? u64 (stx_Fee tx + StakingMinimum active)) then
      Some "Sender wants to stake but does not have enough funds in order to fulfill the required staking minimum."
    else err in
  let err :=
    if negb initialSetup && (acc_Balance accSender <? stx_Fee tx) then
      Some "Sender does not have enough funds for the Stake transaction."
    else err in
  match err with
  | Some err => mret (Some err)
  | None =>
      update_account (stx_Account tx) (set_IsStaking (stx_IsStaking tx));;
      update_account (stx_Account tx) (set_CommitmentKey (stx_CommitmentKey tx));;
      update_account (stx_Account tx) (set_StakingBlockHeight height);;
      mret None
  end.

Definition stakeStateChange (txSlice : list StakeTx) (height : Z) (initialSetup : bool)
    : M Miner error := for_each_err (stakeTx_change height initialSetup) txSlice.

Definition stakeTx_rollback (tx : StakeTx) : M Miner unit :=
  accSender ← account (stx_Account tx);
  update_account (stx_Account tx) (set_IsStaking (negb (acc_IsStaking accSender))).

Definition stakeStateChangeRollback (txSlice : list StakeTx) : M Miner unit :=
  for_each stakeTx_rollback (rev txSlice).

(** ** Fees *)

Fixpoint getFundsTxFromAggTx (AggregatedTxSlice : list hash) : M Miner (list FundsTx) :=
  match AggregatedTxSlice with
  | [] => mret []
  | txHash :: hs =>
      trx ← ReadOpenTx txHash;
      rest ← getFundsTxFromAggTx hs;
      mret (match trx with Some (TFunds tx) => tx :: rest | _ => rest end)
  end.

Fixpoint aggregated_funds (aggTxSlice : list AggTx) : M Miner (list FundsTx) :=
  match aggTxSlice with
  | [] => mret []
  | tx :: txs =>
      l ← getFundsTxFromAggTx (gtx_AggregatedTxSlice tx);
      rest ← aggregated_funds txs;
      mret (l ++ rest)
  end.

(** [minerAcc.Balance -= fee] and the like on the pointer read before. *)
Definition take_back (minerHash : hash) (fee : Z) : M Miner unit :=
  _ ← account minerHash; update_account minerHash (debit fee).

Definition give_back (sender : hash) (fee : Z) : M Miner unit :=
  _ ← account sender; update_account sender (credit fee).

Definition collectTxFeesRollback (accTx : list AccTx) (fundsTx : list FundsTx)
    (configTx : list ConfigTx) (stakeTx : list StakeTx) (minerHash : hash) : M Miner unit :=
  for_each (fun tx => take_back minerHash (atx_Fee tx)) accTx;;
  for_each (fun tx => take_back minerHash (ftx_Fee tx);; give_back (ftx_From tx) (ftx_Fee tx)) fundsTx;;
  for_each (fun tx => take_back minerHash (ctx_Fee tx)) configTx;;
  for_each (fun tx => take_back minerHash (stx_Fee tx);; give_back (stx_Account tx) (stx_Fee tx)) stakeTx.

(** A fee created from thin air: account and configuration transactions. *)
Definition collect_minted (minerHash : hash) (fee : Z) : M Miner error :=
  minerAcc ← account minerHash;
  if MAX_MONEY <? u64 (acc_Balance minerAcc + fee) then
    mret (Some "Fee amount would lead to balance overflow at the miner account.")
  else update_account minerHash (credit fee);; mret None.

(** The error of the overflow check is replaced by that of [GetAccount]. *)
Definition collect_funds_fee (minerHash : hash) (tx : FundsTx) : M Miner error :=
  _ ← account minerHash;
  sender ← GetAccount (ftx_From tx);
  match snd sender with
  | Some err => mret (Some err)
  | None =>
      update_account minerHash (credit (ftx_Fee tx));;
      update_account (ftx_From tx) (debit (ftx_Fee tx));;
      mret None
  end.

Definition collect_stake_fee (minerHash : hash) (tx : StakeTx) : M Miner error :=
  _ ← account minerHash;
  sender ← GetAccount (stx_Account tx);
  match snd sender with
  | Some err => mret (Some err)
  | None =>
      update_account (stx_Account tx) (debit (stx_Fee tx));;
      update_account minerHash (credit (stx_Fee tx));;
      mret None
  end.

Definition collectTxFees (accTxSlice : list AccTx) (fundsTxSlice : list FundsTx)
    (configTxSlice : list ConfigTx) (stakeTxSlice : list StakeTx) (aggTxSlice : list AggTx)
    (minerHash : hash) (initialSetup : bool) : M Miner error :=
  minerAcc ← GetAccount minerHash;
  match snd minerAcc with
  | Some err => mret (Some err)
  | None =>
      l ← aggregated_funds aggTxSlice;
      let fundsTxSlice := fundsTxSlice ++ l in
      a ← for_each_tmp (fun tx => collect_minted minerHash (atx_Fee tx)) accTxSlice;
      match a with
      | (Some err, tmpAcc) => collectTxFeesRollback tmpAcc [] [] [] minerHash;; mret (Some err)
      | (None, tmpAcc) =>
      f ← for_each_tmp (collect_funds_fee minerHash) fundsTxSlice;
      match f with
      | (Some err, tmpFunds) => collectTxFeesRollback tmpAcc tmpFunds [] [] minerHash;; mret (Some err)
      | (None, tmpFunds) =>
      c ← for_each_tmp (fun tx => collect_minted minerHash (ctx_Fee tx)) configTxSlice;
      match c with
      | (Some err, tmpConfig) =>
          collectTxFeesRollback tmpAcc tmpFunds tmpConfig [] minerHash;; mret (Some err)
      | (None, tmpConfig) =>
      s ← for_each_tmp (collect_stake_fee minerHash) stakeTxSlice;
      match s with
      | (Some err, tmpStake) =>
          collectTxFeesRollback tmpAcc tmpFunds tmpConfig tmpStake minerHash;; mret (Some err)
      | (None, _) => mret None
      end end end end
  end.

(** ** Rewards *)

Definition collectBlockReward (reward : Z) (minerHash : hash) (initialSetup : bool) : M Miner error :=
  miner ← GetAccount minerHash;
  let '(acc, err) := miner in
  err ← (if initialSetup then mret err
         else
           acc ← of_option acc;
           mret (if MAX_MONEY <? u64 (acc_Balance acc + reward) then
                   Some "Block reward would lead to balance overflow at the miner account."
                 else err));
  match (err : error) with
  | Some err => mret (Some err)
  | None => update_account minerHash (credit reward);; mret None
  end.

Definition collectBlockRewardRollback (reward : Z) (minerHash : hash) : M Miner unit :=
  take_back minerHash reward.

(** A proof is provided when one of the five hashes is set. *)
Definition has_slashing_proof (b : Block) : bool :=
  negb (bool_decide (blk_SlashedAddress b = zero_hash)) ||
  negb (bool_decide (blk_ConflictingBlockHash1 b = zero_hash)) ||
  negb (bool_decide (blk_ConflictingBlockHash2 b = zero_hash)) ||
  negb (bool_decide (blk_ConflictingBlockHashWithoutTx1 b = zero_hash)) ||
  negb (bool_decide (blk_ConflictingBlockHashWithoutTx2 b = zero_hash)).

Definition collectSlashReward (reward : Z) (b : Block) : M Miner error :=
  if has_slashing_proof b then
    minerAcc ← account (blk_Beneficiary b);
    slashed ← GetAccount (blk_SlashedAddress b);
    let err := if MAX_MONEY <? u64 (acc_Balance minerAcc + reward) then
                 Some "Slash reward would lead to balance overflow at the miner account."
               else snd slashed in
    match err with
    | Some err => mret (Some err)
    | None =>
        active ← gets (fun m => activeParameters (chain m));
        update_account (blk_Beneficiary b) (credit reward);;
        update_account (blk_SlashedAddress b) (debit (StakingMinimum active));;
        update_account (blk_SlashedAddress b) (set_IsStaking false);;
        mret None
    end
  else mret None.

Definition collectSlashRewardRollback (reward : Z) (b : Block) : M Miner unit :=
  if has_slashing_proof b then
    _ ← account (blk_Beneficiary b);
    update_account (blk_Beneficiary b) (debit reward);;
    active ← gets (fun m => activeParameters (chain m));
    _ ← account (blk_SlashedAddress b);
    update_account (blk_SlashedAddress b) (credit (StakingMinimum active));;
    update_account (blk_SlashedAddress b) (set_IsStaking true)
  else mret tt.

Definition updateStakingHeight (b : Block) : M Miner error :=
  acc ← GetAccount (blk_Beneficiary b);
  match snd acc with
  | Some err => mret (Some err)
  | None => update_account (blk_Beneficiary b) (set_StakingBlockHeight (blk_Height b));; mret None
  end.
End state_change.
