(* ===== verification/StateLemmas.v ===== *)
(** * What the state changes do, as equations on the accounts

    For every loop body of [StateChange.v]: the exact new accounts when it
    accepts, that an error leaves the state alone, and that the rollback of a
    transaction undoes it. *)

From S2P Require Import Prelude Format Chameleon Protocol Node Storage Params StateChange Ledger.

(** ** Loops *)

Lemma for_each_err_app {T} (body : T -> M Miner error) l k m :
  for_each_err body (l ++ k) m =
  match for_each_err body l m with
  | Done (None, m') => for_each_err body k m'
  | r => r
  end.
Proof.
  revert m. induction l as [|x l IH]; intros m; [done|]. simpl.
  unfold mbind, M_bind. destruct (body x m) as [ [ [e|] m1] | | ]; [done|apply IH|done..].
Qed.

(** An error at some transaction: the ones before it have been applied. *)
Lemma for_each_err_Some {T} (body : T -> M Miner error) l m e m' :
  for_each_err body l m = Done (Some e, m') ->
  exists pre x post m1, l = pre ++ x :: post /\ for_each_err body pre m = Done (None, m1) /\
    body x m1 = Done (Some e, m').
Proof.
  revert m. induction l as [|x l IH]; intros m H; [done|]. simpl in H.
  apply bind_inv in H as (e1 & m1 & H1 & H2). destruct e1 as [e1|].
  - injection H2 as <- <-. by exists [], x, l, m.
  - apply IH in H2 as (pre & y & post & m2 & -> & Hpre & Hy).
    exists (x :: pre), y, post, m2. split; [done|]. split; [|done]. simpl.
    unfold mbind, M_bind. by rewrite H1.
Qed.

(** An invariant of the body is one of the loop. *)
Lemma for_each_err_inv {T} (body : T -> M Miner error) (P : Miner -> Prop) l m e m' :
  (forall x m e m', x ∈ l -> P m -> body x m = Done (e, m') -> P m') ->
  P m -> for_each_err body l m = Done (e, m') -> P m'.
Proof.
  revert m. induction l as [|x l IH]; intros m Hb HP H; [by injection H as _ <-|]. simpl in H.
  apply bind_inv in H as (e1 & m1 & H1 & H2).
  assert (P m1) by (eapply Hb; [by left|exact HP|exact H1]).
  destruct e1 as [e1|]; [by injection H2 as _ <-|].
  eapply IH; [|done|exact H2]. intros y m2 e2 m3 Hy. apply Hb. by right.
Qed.

Lemma for_each_app {T} (body : T -> M Miner unit) l k m :
  for_each body (l ++ k) m = (for_each body l ≫= fun _ => for_each body k) m.
Proof.
  revert m. induction l as [|x l IH]; intros m; [done|]. simpl.
  unfold mbind, M_bind in *. destruct (body x m) as [ [? m1] | | ]; [apply IH|done..].
Qed.

(** ** Funds transactions *)

Section state.
Context {DG : Digests}.

Lemma tx_hash_inv tx h m m' : tx_hash tx m = Done (h, m') ->
  m' = m /\ Transaction_Hash (ChameleonHashParametersMap (ledger m)) tx = Some h.
Proof.
  unfold tx_hash. intros H. apply bind_inv in H as (o & m1 & H1 & H2).
  apply gets_inv in H1 as [-> ->]. by apply of_option_inv in H2 as [? ->].
Qed.

(** Coins are issued to a root account that sends. *)
Definition root_credit (root : bool) (tx : FundsTx) (s : gmap hash Account) : gmap hash Account :=
  if root then alter (credit (ftx_Fee tx)) (ftx_From tx) (alter (credit (ftx_Amount tx)) (ftx_From tx) s)
  else s.

Definition funds_applied (root : bool) (tx : FundsTx) (s : gmap hash Account) : gmap hash Account :=
  alter (credit (ftx_Amount tx)) (ftx_To tx)
    (alter (debit (ftx_Amount tx)) (ftx_From tx)
      (alter inc_TxCnt (ftx_From tx) (root_credit root tx s))).

(** What an accepted transaction has been checked for. *)
Record funds_accepted (init : bool) (tx : FundsTx) (snd rcv : Account) : Prop := {
  fa_count : init = false -> ftx_Aggregated tx = false -> ftx_TxCnt tx <= acc_TxCnt snd;
  fa_funds : init = false -> u64 (ftx_Amount tx + ftx_Fee tx) <= acc_Balance snd;
  fa_stake : acc_IsStaking snd = true ->
    u64 (u64 (ftx_Fee tx + MIN_STAKING_MINIMUM) + ftx_Amount tx) <= acc_Balance snd;
  fa_overflow : init = false -> u64 (ftx_Amount tx + acc_Balance rcv) <= MAX_MONEY
}.

Lemma fundsTx_checks_inv tx init snd rcv m e m' :
  fundsTx_checks tx init snd rcv m = Done (e, m') ->
  m' = m /\ (e = None -> exists r, rcv = Some r /\ funds_accepted init tx snd r).
Proof.
  unfold fundsTx_checks. intros H.
  destruct init; cbn [negb andb] in H.
  - apply ret_inv in H as [-> ->]. split; [done|].
    case_match eqn:Est; [done|]. destruct rcv as [r|]; [|done]. intros _. exists r. split; [done|].
    split; try done. intros Hst. rewrite Hst in Est. by apply Z.ltb_ge in Est.
  - apply bind_inv in H as (r & m1 & H1 & H2). apply of_option_inv in H1 as [-> ->].
    apply ret_inv in H2 as [-> ->]. split; [done|]. intros E. exists r. split; [done|].
    destruct (Z.ltb_spec MAX_MONEY (u64 (ftx_Amount tx + acc_Balance r))); [done|].
    destruct (acc_IsStaking snd && _) eqn:Est; [done|].
    destruct (Z.ltb_spec (acc_Balance snd) (u64 (ftx_Amount tx + ftx_Fee tx))); [done|].
    split; intros; try done.
    + destruct (Z.eqb_spec (ftx_TxCnt tx) (acc_TxCnt snd)); [lia|].
      rewrite H2 in E. simpl in E. destruct (Z.ltb_spec (ftx_TxCnt tx) (acc_TxCnt snd)); [lia|done].
    + rewrite H1 in Est. by apply Z.ltb_ge in Est.
Qed.

Lemma root_credit_undo (root : bool) tx s : ledger_ok s ->
  (if root then alter (debit (ftx_Fee tx)) (ftx_From tx) (alter (debit (ftx_Amount tx)) (ftx_From tx)
     (root_credit root tx s)) else root_credit root tx s) = s.
Proof.
  intros Hs. destruct root; [|done]. unfold root_credit.
  rewrite (alter_comm (debit (ftx_Amount tx)) (credit (ftx_Fee tx)))
    by (intros; symmetry; apply credit_debit_comm).
  rewrite (alter_alter_id (debit (ftx_Amount tx)) (credit (ftx_Amount tx))) by auto using debit_credit.
  apply alter_alter_id; auto using debit_credit.
Qed.

Definition root_limit (root : bool) (tx : FundsTx) (s : gmap hash Account) : Prop :=
  root = true -> exists a, s !! ftx_From tx = Some a /\
    u64 (u64 (acc_Balance a + ftx_Amount tx) + ftx_Fee tx) <= MAX_MONEY.

Definition already_closed (tx : FundsTx) (m : Miner) : Prop :=
  exists h, FundsTx_Hash (ChameleonHashParametersMap (ledger m)) tx = Some h /\
    is_Some (closed_tx (db m) h).

(** The three ways in which the body returns. *)
Inductive funds_result (init : bool) (tx : FundsTx) (m : Miner) : error -> Miner -> Prop :=
| funds_skipped : init = false -> already_closed tx m -> funds_result init tx m None m
| funds_error e : funds_result init tx m (Some e) m
| funds_done snd rcv :
    (init = true \/ ~ already_closed tx m) ->
    root_limit (is_root (ftx_From tx) m) tx (St m) ->
    root_credit (is_root (ftx_From tx) m) tx (St m) !! ftx_From tx = Some snd ->
    root_credit (is_root (ftx_From tx) m) tx (St m) !! ftx_To tx = Some rcv ->
    funds_accepted init tx snd rcv ->
    funds_result init tx m None (with_St (funds_applied (is_root (ftx_From tx) m) tx (St m)) m).

Lemma fundsTx_change_inv init tx m e m' : ledger_ok (St m) ->
  fundsTx_change init tx m = Done (e, m') -> funds_result init tx m e m'.
Proof.
  intros Hok H. unfold fundsTx_change in H.
  apply bind_inv in H as (h & m1 & Hh & H). apply tx_hash_inv in Hh as [-> Hh].
  apply bind_inv in H as (closed & m1 & Hc & H). apply gets_inv in Hc as [-> ->].
  destruct (bool_decide (is_Some (closed_tx (db m) h)) && negb init) eqn:Eskip.
  { apply ret_inv in H as [-> ->]. apply andb_true_iff in Eskip as [Hc Hi].
    apply bool_decide_eq_true in Hc. apply negb_true_iff in Hi.
    apply funds_skipped; [done|]. by exists h. }
  assert (Hfresh : init = true \/ ~ already_closed tx m).
  { destruct init; [by left|right]. intros (h' & Hh' & Hc). simpl in Hh. rewrite Hh' in Hh. injection Hh as ->.
    rewrite bool_decide_eq_true_2 in Eskip by done. done. }
  apply bind_inv in H as ([rootAcc rerr] & m1 & Hr & H). apply GetRootAccount_inv in Hr as [-> Hr].
  destruct rerr as [rerr|]; [minv; apply funds_error|].
  set (root := is_root (ftx_From tx) m) in *.
  assert (Hroot : bool_decide (is_Some rootAcc) = root /\
    (root = true -> exists a, St m !! ftx_From tx = Some a /\ rootAcc = Some a)).
  { destruct root; [|by injection Hr as ->].
    destruct (St m !! ftx_From tx) as [a|]; [|done]. injection Hr as ->. split; [done|]. eauto. }
  destruct Hroot as [Hroot Hacc]. rewrite Hroot in H. clear Hr.
  match goal with H : (if ?b then _ else _) _ = _ |- _ => destruct b eqn:Eover end; [minv; apply funds_error|].
  assert (Hlimit : root_limit root tx (St m)).
  { intros Ht. destruct (Hacc Ht) as (a & Ha & ->). exists a. split; [done|]. by apply Z.ltb_ge in Eover. }
  apply bind_inv in H as (u & m1 & H1 & H).
  assert (m1 = with_St (root_credit root tx (St m)) m) as ->.
  { unfold root_credit. destruct root; [|minv; by rewrite with_St_id]. minv. by rewrite !with_with. }
  clear H1. apply bind_inv in H as (snd & m1 & Hs & H). apply account_inv in Hs as [Hs ->].
  apply bind_inv in H as (rcv & m1 & Hv & H). rewrite get_account_run in Hv. injection Hv as <- <-.
  rewrite St_with in *. apply bind_inv in H as (err & m1 & He & H).
  apply fundsTx_checks_inv in He as [-> He]. destruct err as [err|].
  - pose proof (root_credit_undo root tx (St m) Hok) as Hundo. destruct root.
    + minv. rewrite !with_with, !St_with. rewrite Hundo, with_St_id. apply funds_error.
    + minv. rewrite with_St_id. apply funds_error.
  - destruct (He eq_refl) as (rcv' & Hv & Hacc'). minv. rewrite !with_with, !St_with.
    by apply (funds_done init tx m snd rcv').
Qed.

(** *** The rollback of one transaction *)

Lemma ledger_ok_root_credit root tx s : ledger_ok s -> ledger_ok (root_credit root tx s).
Proof. intros. unfold root_credit. destruct root; auto with ledger. Qed.

Lemma ledger_ok_funds_applied root tx s : ledger_ok s -> ledger_ok (funds_applied root tx s).
Proof. intros. unfold funds_applied. auto using ledger_ok_root_credit with ledger. Qed.

Lemma funds_undo root tx s : ledger_ok s ->
  alter (debit (ftx_Amount tx)) (ftx_To tx) (alter (credit (ftx_Amount tx)) (ftx_From tx)
    (alter dec_TxCnt (ftx_From tx) (funds_applied root tx s))) = root_credit root tx s.
Proof.
  intros Hs. apply (ledger_ok_root_credit root tx) in Hs. unfold funds_applied.
  set (r := root_credit root tx s) in *.
  rewrite (alter_comm dec_TxCnt (credit (ftx_Amount tx)) (ftx_From tx) (ftx_To tx)) by done.
  rewrite (alter_comm (credit (ftx_Amount tx)) (credit (ftx_Amount tx)) (ftx_From tx) (ftx_To tx)) by done.
  rewrite (alter_alter_id (debit (ftx_Amount tx)) (credit (ftx_Amount tx))); [|auto 6 with ledger|auto using debit_credit].
  rewrite (alter_comm dec_TxCnt (debit (ftx_Amount tx))) by done.
  rewrite (alter_alter_id (credit (ftx_Amount tx)) (debit (ftx_Amount tx))); [|auto 6 with ledger|auto using credit_debit].
  apply alter_alter_id; auto using dec_inc_TxCnt.
Qed.

Lemma is_Some_root_credit root tx s h : is_Some (s !! h) -> is_Some (root_credit root tx s !! h).
Proof. unfold root_credit. destruct root; auto with ledger. Qed.

Lemma is_Some_funds_applied root tx s h :
  is_Some (root_credit root tx s !! h) -> is_Some (funds_applied root tx s !! h).
Proof. unfold funds_applied. auto with ledger. Qed.

Lemma fundsTx_rollback_run tx m s : ledger_ok s ->
  is_Some (root_credit (is_root (ftx_From tx) m) tx s !! ftx_From tx) ->
  is_Some (root_credit (is_root (ftx_From tx) m) tx s !! ftx_To tx) ->
  fundsTx_rollback tx (with_St (funds_applied (is_root (ftx_From tx) m) tx s) m) =
  Done (tt, with_St s m).
Proof.
  intros Hs Hfrom Hto. set (root := is_root (ftx_From tx) m) in *.
  pose proof (is_Some_funds_applied _ _ _ _ Hfrom) as [a Ha].
  unfold fundsTx_rollback. rewrite (bind_Done _ _ _ a _) by (by apply account_run).
  rewrite (bind_Done _ _ _ _ _ (update_account_run _ _ _)), with_with, St_with.
  rewrite (bind_Done _ _ _ _ _ (update_account_run _ _ _)), with_with, St_with.
  assert (is_Some (alter (credit (ftx_Amount tx)) (ftx_From tx)
    (alter dec_TxCnt (ftx_From tx) (funds_applied root tx s)) !! ftx_To tx)) as [b Hb].
  { auto using is_Some_funds_applied with ledger. }
  rewrite (bind_Done _ _ _ b _) by (by apply account_run).
  rewrite (bind_Done _ _ _ _ _ (update_account_run _ _ _)), with_with, St_with.
  rewrite funds_undo by done. pose proof (root_credit_undo root tx s Hs) as Hundo.
  unfold mbind at 1, M_bind at 1. rewrite GetRootAccount_run, GetAccount_run, St_with.
  change (is_root _ (with_St _ m)) with root. destruct root.
  - destruct Hfrom as [c Hc]. rewrite Hc. simpl.
    unfold mbind, M_bind. rewrite update_account_run, update_account_run, !with_with, !St_with.
    unfold root_credit in Hundo. by rewrite Hundo.
  - done.
Qed.

(** *** What a successful loop leaves unchanged *)

Definition same_context (m m' : Miner) : Prop := m' = with_St (St m') m.

Lemma same_context_with s m : same_context m (with_St s m).
Proof. done. Qed.

Lemma same_context_refl m : same_context m m.
Proof. unfold same_context. by rewrite with_St_id. Qed.

Lemma same_context_trans m1 m2 m3 : same_context m1 m2 -> same_context m2 m3 -> same_context m1 m3.
Proof. unfold same_context. intros -> ->. done. Qed.

Lemma funds_result_context init tx m e m' : funds_result init tx m e m' -> same_context m m'.
Proof. destruct 1; auto using same_context_refl, same_context_with. Qed.

Lemma funds_result_ok init tx m e m' : ledger_ok (St m) -> funds_result init tx m e m' -> ledger_ok (St m').
Proof. intros Hok. destruct 1; rewrite ?St_with; try done. by apply ledger_ok_funds_applied. Qed.

Lemma already_closed_context m m' tx : same_context m m' -> already_closed tx m' <-> already_closed tx m.
Proof. by intros ->. Qed.

Lemma is_root_context m m' h : same_context m m' -> is_root h m' = is_root h m.
Proof. by intros ->. Qed.

(** The rollback of the loop, for transactions that were all applied. *)
Lemma fundsStateChange_rollback init txs m m' : ledger_ok (St m) ->
  (init = true \/ Forall (fun tx => ~ already_closed tx m) txs) ->
  fundsStateChange txs init m = Done (None, m') ->
  fundsStateChangeRollback txs m' = Done (tt, m).
Proof.
  unfold fundsStateChange, fundsStateChangeRollback. revert m.
  induction txs as [|tx txs IH]; intros m Hok Hfresh H; [by injection H as <-|].
  simpl in H. apply bind_inv in H as (e & m1 & H1 & H2).
  apply fundsTx_change_inv in H1; [|done].
  destruct e as [e|]; [done|]. simpl. rewrite for_each_app.
  pose proof (funds_result_context _ _ _ _ _ H1) as Hctx.
  rewrite (bind_Done _ _ _ tt m1).
  - inversion H1 as [Hi Hc|?|snd rcv Hnc Hlim Hsnd Hrcv Hacc]; subst.
    { exfalso. destruct Hfresh as [?|Hf]; [congruence|]. by apply Forall_cons in Hf as [? _]. }
    simpl. rewrite (bind_Done _ _ _ tt m); [done|].
    rewrite fundsTx_rollback_run; [|done|by eexists..]. by rewrite with_St_id.
  - apply IH; [by eapply funds_result_ok| |done].
    destruct Hfresh as [?|Hf]; [by left|right]. apply Forall_cons in Hf as [_ Hf].
    eapply Forall_impl; [exact Hf|]. intros tx'. by rewrite (already_closed_context m m1).
Qed.

(** *** Conservation *)

Definition skipped (init : bool) (m : Miner) (tx : FundsTx) : bool :=
  negb init &&
  match FundsTx_Hash (ChameleonHashParametersMap (ledger m)) tx with
  | Some h => bool_decide (is_Some (closed_tx (db m) h))
  | None => false
  end.

(** The coins issued: amount and fee of every root transaction applied. *)
Definition minted (init : bool) (m : Miner) (txs : list FundsTx) : Z :=
  foldr (fun tx t => (if skipped init m tx then 0
                      else if is_root (ftx_From tx) m then ftx_Amount tx + ftx_Fee tx else 0) + t) 0 txs.

Lemma skipped_closed init m tx : skipped init m tx = true <-> init = false /\ already_closed tx m.
Proof.
  unfold skipped, already_closed. rewrite andb_true_iff, negb_true_iff.
  destruct (FundsTx_Hash _ tx) as [h|]; [rewrite bool_decide_eq_true|]; naive_solver.
Qed.

Lemma total_funds_applied root tx s :
  is_Some (root_credit root tx s !! ftx_From tx) -> is_Some (root_credit root tx s !! ftx_To tx) ->
  is_Some (s !! ftx_From tx) ->
  u64 (total (funds_applied root tx s)) =
  u64 (total s + (if root then ftx_Amount tx + ftx_Fee tx else 0)).
Proof.
  intros Hf Ht Hs. unfold funds_applied.
  rewrite total_credit by auto with ledger.
  rewrite <-wrap_add_l, total_debit by auto with ledger.
  rewrite wrap_add_l, total_inc. unfold root_credit in *. destruct root.
  - replace (_ - ftx_Amount tx + ftx_Amount tx) with
      (total (alter (credit (ftx_Fee tx)) (ftx_From tx) (alter (credit (ftx_Amount tx)) (ftx_From tx) s))) by lia.
    rewrite total_credit by auto with ledger.
    rewrite <-wrap_add_l, total_credit, wrap_add_l by done. f_equal. lia.
  - f_equal. lia.
Qed.

Lemma fundsStateChange_total init txs m m' : ledger_ok (St m) ->
  fundsStateChange txs init m = Done (None, m') ->
  u64 (total (St m')) = u64 (total (St m) + minted init m txs).
Proof.
  unfold fundsStateChange. revert m.
  induction txs as [|tx txs IH]; intros m Hok H; [injection H as <-; simpl; by rewrite Z.add_0_r|].
  simpl in H. apply bind_inv in H as (e & m1 & H1 & H2).
  apply fundsTx_change_inv in H1; [|done]. destruct e as [e|]; [done|].
  pose proof (funds_result_context _ _ _ _ _ H1) as Hctx.
  rewrite (IH m1 (funds_result_ok _ _ _ _ _ Hok H1) H2).
  assert (minted init m1 txs = minted init m txs) as -> by by rewrite Hctx.
  simpl. rewrite Z.add_assoc, <-(wrap_add_l _ (total (St m) + _)), <-(wrap_add_l _ (total (St m1))). do 2 f_equal.
  inversion H1 as [Hi Hc|?|snd rcv Hnc Hlim Hsnd Hrcv Hacc]; subst.
  - rewrite (proj2 (skipped_closed _ _ _)) by done. f_equal. lia.
  - destruct (skipped init m tx) eqn:E; [apply skipped_closed in E as [-> ?]; naive_solver|].
    rewrite St_with. apply total_funds_applied; [by eexists..|].
    unfold root_credit in Hsnd. destruct (is_root _ m); [|by eexists].
    apply lookup_alter_Some in Hsnd as [(_ & b & Hb & _)|[? _]]; [|done].
    apply lookup_alter_Some in Hb as [(_ & c & Hc & _)|[? _]]; [|done]. by eexists.
Qed.

(** *** Bounds *)

Definition money_ok (s : gmap hash Account) : Prop :=
  forall h a, s !! h = Some a -> 0 <= acc_Balance a <= MAX_MONEY.

Definition amounts_ok (tx : FundsTx) : Prop :=
  0 <= ftx_Amount tx /\ 0 <= ftx_Fee tx /\ ftx_Amount tx + ftx_Fee tx < 2 ^ 64.

Lemma money_ok_alter f (h : hash) s : money_ok s ->
  (forall a, s !! h = Some a -> 0 <= acc_Balance (f a) <= MAX_MONEY) -> money_ok (alter f h s).
Proof.
  intros Hs Hf k a Ha. apply lookup_alter_Some in Ha as [(<- & b & Hb & ->)|[? Ha]]; eauto.
Qed.

Lemma fundsTx_change_money tx m e m' : ledger_ok (St m) -> money_ok (St m) -> amounts_ok tx ->
  fundsTx_change false tx m = Done (e, m') -> money_ok (St m').
Proof.
  intros Hok Hmoney (HA & HF & HAF) H. apply fundsTx_change_inv in H; [|done].
  inversion H as [Hi Hc|?|snd rcv Hnc Hlim Hsnd Hrcv Hacc]; subst; try done.
  rewrite St_with. set (root := is_root _ m) in *.
  assert (Hr : money_ok (root_credit root tx (St m))).
  { unfold root_credit. destruct root; [|done]. destruct (Hlim eq_refl) as (a & Ha & Hle).
    pose proof (Hmoney _ _ Ha). intros k b Hb.
    apply lookup_alter_Some in Hb as [(<- & c & Hc & ->)|[Hne Hb]].
    - rewrite lookup_alter_eq, Ha in Hc. injection Hc as <-. simpl. wrap_bounds. lia.
    - rewrite lookup_alter_ne in Hb by done. eauto. }
  pose proof Hacc as []. pose proof (Hr _ _ Hsnd) as Hsb. pose proof (Hr _ _ Hrcv) as Hrb.
  specialize (fa_funds0 eq_refl). specialize (fa_overflow0 eq_refl).
  rewrite wrap_small in fa_funds0 by (unfold MAX_MONEY in *; lia).
  unfold MAX_MONEY in *. unfold funds_applied.
  apply money_ok_alter; [apply money_ok_alter; [apply money_ok_alter; [done|]|]|].
  - intros a Ha. simpl. eauto.
  - intros a. rewrite lookup_alter_eq, Hsnd. intros [= <-]. simpl.
    rewrite wrap_small by lia. unfold MAX_MONEY. lia.
  - intros a Ha. destruct (decide (ftx_To tx = ftx_From tx)) as [E|Hne].
    + rewrite E, !lookup_alter_eq, Hsnd in Ha. injection Ha as <-. simpl.
      rewrite wrap_sub_add, wrap_small by lia. unfold MAX_MONEY. lia.
    + rewrite !lookup_alter_ne, Hrcv in Ha by done. injection Ha as <-. simpl.
      rewrite Z.add_comm. wrap_bounds. unfold MAX_MONEY. lia.
Qed.

(** *** The whole list *)

(** What the transactions that are not skipped do, one after the other. *)
Definition apply_funds (init : bool) (m : Miner) (txs : list FundsTx) (s : gmap hash Account)
    : gmap hash Account :=
  foldl (fun s tx => if skipped init m tx then s else funds_applied (is_root (ftx_From tx) m) tx s) s txs.

Lemma apply_funds_context init m m' txs s : same_context m m' ->
  apply_funds init m' txs s = apply_funds init m txs s.
Proof. by intros ->. Qed.

Lemma funds_result_applied init tx m m' : funds_result init tx m None m' ->
  m' = with_St (apply_funds init m [tx] (St m)) m.
Proof.
  intros H. inversion H as [Hi Hc| |snd rcv Hnc Hlim Hsnd Hrcv Hacc]; subst; simpl.
  - rewrite (proj2 (skipped_closed _ _ _)) by done. by rewrite with_St_id.
  - destruct (skipped init m tx) eqn:E; [|done]. apply skipped_closed in E as [-> ?]. naive_solver.
Qed.

(** The loop stops at the first transaction it refuses; the ones before it
    stay applied. *)
Lemma fundsStateChange_spec txs init m e m' : ledger_ok (St m) ->
  fundsStateChange txs init m = Done (e, m') ->
  exists pre post, txs = pre ++ post /\ (e = None <-> post = []) /\
    m' = with_St (apply_funds init m pre (St m)) m.
Proof.
  unfold fundsStateChange. revert m. induction txs as [|tx txs IH]; intros m Hok H.
  { injection H as <- <-. exists [], []. by rewrite with_St_eq. }
  simpl in H. apply bind_inv in H as (e1 & m1 & H1 & H2).
  apply fundsTx_change_inv in H1; [|done]. destruct e1 as [e1|].
  - injection H2 as <- <-. inversion H1; subst. exists [], (tx :: txs). simpl. by rewrite with_St_eq.
  - pose proof (funds_result_context _ _ _ _ _ H1) as Hctx.
    destruct (IH m1) as (pre & post & -> & He & ->); [by eapply funds_result_ok|done|].
    exists (tx :: pre), post. split; [done|]. split; [done|].
    rewrite (apply_funds_context _ m) by done.
    apply funds_result_applied in H1 as ->. rewrite with_with, St_with. done.
Qed.

(** Conversely, a transaction of a sender that is not a root account passes
    when the checks do. *)
Lemma fundsTx_checks_accepts init tx snd rcv m : funds_accepted init tx snd rcv ->
  fundsTx_checks tx init snd (Some rcv) m = Done (None, m).
Proof.
  intros [Hc Hf Hs Ho]. unfold fundsTx_checks.
  assert (acc_IsStaking snd && (acc_Balance snd <? u64 (u64 (ftx_Fee tx + MIN_STAKING_MINIMUM) + ftx_Amount tx))
    = false) as ->.
  { destruct (acc_IsStaking snd); [|done]. by apply Z.ltb_ge, Hs. }
  destruct init; [done|]. simpl. rewrite (proj2 (Z.ltb_ge _ _) (Hf eq_refl)), (bind_Done _ _ _ rcv m) by done.
  rewrite (proj2 (Z.ltb_ge _ _) (Ho eq_refl)).
  destruct (ftx_Aggregated tx) eqn:Ea; simpl; [done|].
  destruct (Z.eqb_spec (ftx_TxCnt tx) (acc_TxCnt snd)); simpl; [done|].
  rewrite (proj2 (Z.ltb_lt _ _)); [done|]. specialize (Hc eq_refl eq_refl). lia.
Qed.

Lemma fundsTx_change_accepts init tx m h snd rcv :
  FundsTx_Hash (ChameleonHashParametersMap (ledger m)) tx = Some h -> closed_tx (db m) h = None ->
  is_root (ftx_From tx) m = false -> St m !! ftx_From tx = Some snd -> St m !! ftx_To tx = Some rcv ->
  funds_accepted init tx snd rcv ->
  fundsTx_change init tx m = Done (None, with_St (funds_applied false tx (St m)) m).
Proof.
  intros Hh Hc Hr Hs Ht Ha. unfold fundsTx_change.
  assert (E : tx_hash (TFunds tx) m = Done (h, m)).
  { unfold tx_hash, gets, mbind, M_bind. simpl. by rewrite Hh. }
  rewrite (bind_Done _ _ _ _ _ E), (bind_Done _ _ _ _ _ eq_refl), Hc. simpl.
  erewrite bind_Done by (rewrite GetRootAccount_run, Hr; reflexivity). simpl.
  rewrite (bind_Done _ _ _ _ _ eq_refl), (account_bind _ snd) by done.
  rewrite (bind_Done _ _ _ _ _ (get_account_run _ _)), Ht.
  by rewrite (bind_Done _ _ _ _ _ (fundsTx_checks_accepts init tx snd rcv m Ha)).
Qed.
End state.
