(* ===== verification/FeeLemmas.v ===== *)
(** * Fees and rewards, as sums per account

    A credit or debit adds an integer to a balance modulo 2^64. A sequence of
    them has, for every account, the effect of its sum: this is the meaning of
    [collectTxFees] and of its rollback. *)

From S2P Require Import Prelude Format Chameleon Protocol Node Storage Params StateChange Ledger StateLemmas.

(** ** Sequences of additions to balances *)

Definition add_balance (d : Z) (a : Account) : Account := set_Balance (u64 (acc_Balance a + d)) a.

Abbreviation op := (hash * Z)%type.

Definition apply_ops (ops : list op) (s : gmap hash Account) : gmap hash Account :=
  foldl (fun s o => alter (add_balance (snd o)) (fst o) s) s ops.

(** The sum for one account. *)
Definition delta (ops : list op) (h : hash) : Z :=
  foldr (fun o t => (if bool_decide (fst o = h) then snd o else 0) + t) 0 ops.

Definition op_total (ops : list op) : Z := foldr (fun o t => snd o + t) 0 ops.

Lemma apply_ops_app l k s : apply_ops (l ++ k) s = apply_ops k (apply_ops l s).
Proof. apply foldl_app. Qed.

Lemma delta_app l k h : delta (l ++ k) h = delta l h + delta k h.
Proof. induction l as [|o l IH]; simpl; [done|]. rewrite IH. lia. Qed.

Lemma op_total_app l k : op_total (l ++ k) = op_total l + op_total k.
Proof. induction l as [|o l IH]; simpl; [done|]. rewrite IH. lia. Qed.

Lemma add_balance_add d e a : add_balance d (add_balance e a) = add_balance (e + d) a.
Proof. unfold add_balance, set_Balance. simpl. f_equal. rewrite wrap_add_l. f_equal. lia. Qed.

Lemma add_balance_0 a : account_ok a -> add_balance 0 a = a.
Proof.
  destruct a. intros [??]. unfold add_balance, set_Balance. simpl in *. f_equal.
  rewrite Z.add_0_r. by apply wrap_small.
Qed.

Lemma account_ok_add d a : account_ok a -> account_ok (add_balance d a).
Proof. intros [??]. split; [apply wrap_bounds; lia|done]. Qed.

Lemma ledger_ok_ops ops s : ledger_ok s -> ledger_ok (apply_ops ops s).
Proof.
  revert s. induction ops as [|o ops IH]; intros s Hs; [done|]. simpl. apply IH.
  apply ledger_ok_alter; auto using account_ok_add.
Qed.

Lemma apply_ops_lookup ops s h : ledger_ok s ->
  apply_ops ops s !! h = add_balance (delta ops h) <$> s !! h.
Proof.
  revert s. induction ops as [|[k d] ops IH]; intros s Hs; simpl.
  - destruct (s !! h) eqn:E; simpl; [|done]. by rewrite add_balance_0 by eauto.
  - rewrite IH by (apply ledger_ok_alter; auto using account_ok_add).
    case_bool_decide as E; [subst; rewrite lookup_alter_eq|by rewrite lookup_alter_ne by done].
    destruct (s !! h); simpl; [|done]. by rewrite add_balance_add.
Qed.

(** Only the sums matter. *)
Lemma apply_ops_ext l k s : ledger_ok s -> (forall h, delta l h = delta k h) ->
  apply_ops l s = apply_ops k s.
Proof. intros Hs E. apply map_eq. intros h. by rewrite !apply_ops_lookup, E. Qed.

Lemma apply_ops_id l s : ledger_ok s -> (forall h, delta l h = 0) -> apply_ops l s = s.
Proof. intros Hs E. by rewrite (apply_ops_ext l []). Qed.

Lemma is_Some_apply_ops ops s h : is_Some (apply_ops ops s !! h) <-> is_Some (s !! h).
Proof.
  revert s. induction ops as [|o ops IH]; intros s; [done|]. simpl. rewrite IH.
  apply lookup_alter_is_Some.
Qed.

Lemma total_add d (h : hash) s : is_Some (s !! h) ->
  u64 (total (alter (add_balance d) h s)) = u64 (total s + d).
Proof. apply (total_credit d). Qed.

Lemma total_apply_ops ops s : Forall (fun o : op => is_Some (s !! fst o)) ops ->
  u64 (total (apply_ops ops s)) = u64 (total s + op_total ops).
Proof.
  revert s. induction ops as [|[k d] ops IH]; intros s Hs; simpl; [by rewrite Z.add_0_r|].
  apply Forall_cons in Hs as [Hk Hs]. rewrite IH.
  - rewrite <-wrap_add_l, total_add, wrap_add_l by done. f_equal. lia.
  - eapply Forall_impl; [exact Hs|]. intros o. apply is_Some_alter.
Qed.

(** ** Loops that add to balances *)

Section loops.
Context {T : Type} (ops_of : T -> list op).

Definition ops_all (l : list T) : list op := mjoin (ops_of <$> l).

Lemma ops_all_cons x l : ops_all (x :: l) = ops_of x ++ ops_all l.
Proof. done. Qed.

Lemma ops_all_app l k : ops_all (l ++ k) = ops_all l ++ ops_all k.
Proof. unfold ops_all. by rewrite fmap_app, join_app. Qed.

(** A body that adds when it accepts and does nothing when it does not. *)
Definition adds (body : T -> M Miner error) : Prop := forall x m e m',
  ledger_ok (St m) -> body x m = Done (e, m') ->
  match e with
  | None => m' = with_St (apply_ops (ops_of x) (St m)) m /\
      Forall (fun o : op => is_Some (St m !! fst o)) (ops_of x)
  | Some _ => m' = m
  end.

Lemma for_each_tmp_adds body l m e tmp m' : adds body -> ledger_ok (St m) ->
  for_each_tmp body l m = Done ((e, tmp), m') ->
  m' = with_St (apply_ops (ops_all tmp) (St m)) m /\
  Forall (fun o : op => is_Some (St m !! fst o)) (ops_all tmp) /\ (e = None -> tmp = l).
Proof.
  intros Hbody. revert m e tmp m'. induction l as [|x l IH]; intros m e tmp m' Hok H; simpl in H.
  { injection H as <- <- <-. rewrite with_St_eq by done. done. }
  apply bind_inv in H as (e1 & m1 & H1 & H2). apply Hbody in H1; [|done].
  destruct e1 as [e1|].
  { injection H2 as <- <- <-. subst m1. rewrite with_St_eq by done. done. }
  apply bind_inv in H2 as ([e2 tmp2] & m2 & H2 & H3). injection H3 as <- <- <-.
  destruct H1 as [-> Hx]. apply IH in H2 as (-> & Hall & He); [|rewrite St_with; by apply ledger_ok_ops].
  rewrite St_with, with_with, ops_all_cons, apply_ops_app in *. split; [done|]. split.
  - apply Forall_app. split; [done|]. eapply Forall_impl; [exact Hall|].
    intros o. apply is_Some_apply_ops.
  - intros E. simpl in *. by rewrite He.
Qed.

(** A loop that subtracts again. *)
Definition subtracts (body : T -> M Miner unit) : Prop := forall x m,
  Forall (fun o : op => is_Some (St m !! fst o)) (ops_of x) -> ledger_ok (St m) ->
  exists ops, body x m = Done (tt, with_St (apply_ops ops (St m)) m) /\
    forall h, delta ops h = - delta (ops_of x) h.

Lemma for_each_subtracts body l m : subtracts body -> ledger_ok (St m) ->
  Forall (fun o : op => is_Some (St m !! fst o)) (ops_all l) ->
  exists ops, for_each body l m = Done (tt, with_St (apply_ops ops (St m)) m) /\
    forall h, delta ops h = - delta (ops_all l) h.
Proof.
  intros Hbody. revert m. induction l as [|x l IH]; intros m Hok Hall.
  { exists []. split; [|done]. simpl. by rewrite with_St_id. }
  rewrite ops_all_cons in Hall. apply Forall_app in Hall as [Hx Hall].
  destruct (Hbody x m Hx Hok) as (ops & E & Hd).
  destruct (IH (with_St (apply_ops ops (St m)) m)) as (ops' & E' & Hd').
  - rewrite St_with. by apply ledger_ok_ops.
  - eapply Forall_impl; [exact Hall|]. intros o. rewrite St_with. apply is_Some_apply_ops.
  - exists (ops ++ ops'). split.
    + simpl. rewrite (bind_Done _ _ _ _ _ E), E', with_with, St_with, apply_ops_app. done.
    + intros h. rewrite ops_all_cons, !delta_app, Hd, Hd'. lia.
Qed.
End loops.

(** ** The fees of a block *)

Section fees.
Context {DG : Digests}.

Definition minted_ops (minerHash : hash) (fee : Z) : list op := [(minerHash, fee)].
Definition paid_ops (minerHash sender : hash) (fee : Z) : list op := [(minerHash, fee); (sender, - fee)].

Lemma collect_minted_adds {T} (fee : T -> Z) minerHash :
  adds (fun tx => minted_ops minerHash (fee tx)) (fun tx => collect_minted minerHash (fee tx)).
Proof.
  intros x m e m' Hok H. unfold collect_minted in H.
  apply bind_inv in H as (a & m1 & Ha & H). apply account_inv in Ha as [Ha ->].
  case_match; minv; [done|]. split; [done|]. repeat constructor. by eexists.
Qed.

Lemma collect_funds_fee_adds minerHash :
  adds (fun tx => paid_ops minerHash (ftx_From tx) (ftx_Fee tx)) (collect_funds_fee minerHash).
Proof.
  intros x m e m' Hok H. unfold collect_funds_fee in H.
  apply bind_inv in H as (a & m1 & Ha & H). apply account_inv in Ha as [Ha ->].
  apply bind_inv in H as (r & m1 & Hr & H). apply GetAccount_inv in Hr as [-> ->].
  destruct (St m !! ftx_From x) as [b|] eqn:Hb; simpl in H; minv; [|done].
  rewrite with_with, St_with. split; [done|]. repeat constructor; by eexists.
Qed.

Lemma collect_stake_fee_adds minerHash :
  adds (fun tx => paid_ops minerHash (stx_Account tx) (stx_Fee tx)) (collect_stake_fee minerHash).
Proof.
  intros x m e m' Hok H. unfold collect_stake_fee in H.
  apply bind_inv in H as (a & m1 & Ha & H). apply account_inv in Ha as [Ha ->].
  apply bind_inv in H as (r & m1 & Hr & H). apply GetAccount_inv in Hr as [-> ->].
  destruct (St m !! stx_Account x) as [b|] eqn:Hb; simpl in H; minv; [|done].
  rewrite with_with, St_with. split; [|repeat constructor; by eexists].
  f_equal. change (apply_ops [(stx_Account x, - stx_Fee x); (minerHash, stx_Fee x)] (St m) =
    apply_ops (paid_ops minerHash (stx_Account x) (stx_Fee x)) (St m)).
  apply apply_ops_ext; [done|]. intros h. simpl. lia.
Qed.

Lemma take_back_run minerHash fee m : is_Some (St m !! minerHash) ->
  take_back minerHash fee m = Done (tt, with_St (apply_ops [(minerHash, - fee)] (St m)) m).
Proof. intros [a Ha]. unfold take_back. by rewrite (bind_Done _ _ _ a m) by (by apply account_run). Qed.

Lemma give_back_run sender fee m : is_Some (St m !! sender) ->
  give_back sender fee m = Done (tt, with_St (apply_ops [(sender, fee)] (St m)) m).
Proof. intros [a Ha]. unfold give_back. by rewrite (bind_Done _ _ _ a m) by (by apply account_run). Qed.

Lemma take_back_subtracts {T} (fee : T -> Z) minerHash :
  subtracts (fun tx => minted_ops minerHash (fee tx)) (fun tx => take_back minerHash (fee tx)).
Proof.
  intros x m Hx Hok. apply Forall_cons in Hx as [Hm _]. eexists. rewrite take_back_run by done.
  split; [done|]. intros h. simpl. case_match; lia.
Qed.

Lemma pay_back_subtracts {T} (sender : T -> hash) (fee : T -> Z) minerHash :
  subtracts (fun tx => paid_ops minerHash (sender tx) (fee tx))
    (fun tx => take_back minerHash (fee tx);; give_back (sender tx) (fee tx)).
Proof.
  intros x m Hx Hok. apply Forall_cons in Hx as [Hm Hx]. apply Forall_cons in Hx as [Hs _]. simpl in *.
  exists [(minerHash, - fee x); (sender x, fee x)].
  rewrite (bind_Done _ _ _ _ _ (take_back_run minerHash (fee x) m Hm)).
  rewrite give_back_run, with_with, St_with; [|rewrite St_with; by apply is_Some_apply_ops].
  split; [by rewrite <-apply_ops_app|]. intros h. simpl. repeat case_match; lia.
Qed.

(** What [collectTxFees] does to every account: the miner gets every fee, the
    senders of funds and stake transactions pay theirs. *)
Definition fee_ops (accTxs : list AccTx) (fundsTxs : list FundsTx) (configTxs : list ConfigTx)
    (stakeTxs : list StakeTx) (minerHash : hash) : list op :=
  ops_all (fun tx => minted_ops minerHash (atx_Fee tx)) accTxs ++
  ops_all (fun tx => paid_ops minerHash (ftx_From tx) (ftx_Fee tx)) fundsTxs ++
  ops_all (fun tx => minted_ops minerHash (ctx_Fee tx)) configTxs ++
  ops_all (fun tx => paid_ops minerHash (stx_Account tx) (stx_Fee tx)) stakeTxs.

(** The rollback takes the sums back. *)
Lemma collectTxFeesRollback_run a f c s minerHash m : ledger_ok (St m) ->
  Forall (fun o : op => is_Some (St m !! fst o)) (fee_ops a f c s minerHash) ->
  exists ops, collectTxFeesRollback a f c s minerHash m = Done (tt, with_St (apply_ops ops (St m)) m) /\
    forall h, delta ops h = - delta (fee_ops a f c s minerHash) h.
Proof.
  intros Hok Hall. unfold fee_ops in Hall.
  apply Forall_app in Hall as [Ha Hall]. apply Forall_app in Hall as [Hf Hall].
  apply Forall_app in Hall as [Hc Hs].
  assert (Hnext : forall ops ops' m', ledger_ok (St m') ->
    Forall (fun o : op => is_Some (St m' !! fst o)) ops' ->
    Forall (fun o : op => is_Some (St (with_St (apply_ops ops (St m')) m') !! fst o)) ops').
  { intros ops ops' m' _ Hall. eapply Forall_impl; [exact Hall|]. intros o. rewrite St_with. apply is_Some_apply_ops. }
  unfold collectTxFeesRollback.
  destruct (for_each_subtracts _ _ a m (take_back_subtracts atx_Fee minerHash) Hok Ha) as (o1 & E1 & D1).
  rewrite (bind_Done _ _ _ _ _ E1).
  set (m1 := with_St (apply_ops o1 (St m)) m) in *.
  assert (Hok1 : ledger_ok (St m1)) by by apply ledger_ok_ops.
  destruct (for_each_subtracts _ _ f m1 (pay_back_subtracts ftx_From ftx_Fee minerHash) Hok1 ltac:(by apply Hnext))
    as (o2 & E2 & D2).
  rewrite (bind_Done _ _ _ _ _ E2).
  set (m2 := with_St (apply_ops o2 (St m1)) m1) in *.
  assert (Hok2 : ledger_ok (St m2)) by by apply ledger_ok_ops.
  destruct (for_each_subtracts _ _ c m2 (take_back_subtracts ctx_Fee minerHash) Hok2
    ltac:(by apply Hnext, Hnext)) as (o3 & E3 & D3).
  rewrite (bind_Done _ _ _ _ _ E3).
  set (m3 := with_St (apply_ops o3 (St m2)) m2) in *.
  assert (Hok3 : ledger_ok (St m3)) by by apply ledger_ok_ops.
  destruct (for_each_subtracts _ _ s m3 (pay_back_subtracts stx_Account stx_Fee minerHash) Hok3
    ltac:(by apply Hnext, Hnext, Hnext)) as (o4 & E4 & D4).
  exists (o1 ++ o2 ++ o3 ++ o4). rewrite E4. split.
  - unfold m3, m2, m1. rewrite !with_with, !St_with, <-!apply_ops_app. by rewrite !app_assoc.
  - intros h. unfold fee_ops. rewrite !delta_app, D1, D2, D3, D4. lia.
Qed.

(** Collecting and taking back, whatever was collected so far. *)
Lemma collected_undo a f c s minerHash m : ledger_ok (St m) ->
  Forall (fun o : op => is_Some (St m !! fst o)) (fee_ops a f c s minerHash) ->
  collectTxFeesRollback a f c s minerHash
    (with_St (apply_ops (fee_ops a f c s minerHash) (St m)) m) = Done (tt, m).
Proof.
  intros Hok Hall. set (m' := with_St _ m).
  destruct (collectTxFeesRollback_run a f c s minerHash m') as (ops & -> & Hd).
  - by apply ledger_ok_ops.
  - eapply Forall_impl; [exact Hall|]. intros o. unfold m'. rewrite St_with. apply is_Some_apply_ops.
  - unfold m'. rewrite with_with, St_with, <-apply_ops_app.
    rewrite apply_ops_id, with_St_id; [done|done|]. intros h. rewrite delta_app, Hd. lia.
Qed.

Lemma getFundsTxFromAggTx_run hs m : exists l, getFundsTxFromAggTx hs m = Done (l, m).
Proof.
  induction hs as [|h hs [l IH]]; simpl; [by eexists|].
  unfold ReadOpenTx, gets, mbind, M_bind. rewrite IH. by eexists.
Qed.

Lemma aggregated_funds_run txs m : exists l, aggregated_funds txs m = Done (l, m).
Proof.
  induction txs as [|tx txs [l IH]]; simpl; [by eexists|].
  destruct (getFundsTxFromAggTx_run (gtx_AggregatedTxSlice tx) m) as [k E].
  rewrite (bind_Done _ _ _ _ _ E), (bind_Done _ _ _ _ _ IH). by eexists.
Qed.

Lemma collectTxFees_inv a f c s g minerHash init m e m' : ledger_ok (St m) ->
  collectTxFees a f c s g minerHash init m = Done (e, m') ->
  match e with
  | Some _ => m' = m
  | None => exists l, aggregated_funds g m = Done (l, m) /\
      m' = with_St (apply_ops (fee_ops a (f ++ l) c s minerHash) (St m)) m /\
      Forall (fun o : op => is_Some (St m !! fst o)) (fee_ops a (f ++ l) c s minerHash)
  end.
Proof.
  intros Hok H. unfold collectTxFees in H.
  apply bind_inv in H as (r & m1 & Hr & H). apply GetAccount_inv in Hr as [-> ->].
  destruct (St m !! minerHash) as [acc|]; simpl in H; [|by minv].
  destruct (aggregated_funds_run g m) as [l El]. rewrite (bind_Done _ _ _ _ _ El) in H.
  set (fs := f ++ l) in *.
  assert (Hundo : forall a f c s, Forall (fun o : op => is_Some (St m !! fst o)) (fee_ops a f c s minerHash) ->
    forall m1 u m2, m1 = with_St (apply_ops (fee_ops a f c s minerHash) (St m)) m ->
    collectTxFeesRollback a f c s minerHash m1 = Done (u, m2) -> m2 = m).
  { intros a' f' c' s' Hall m1 u m2 -> Hr. rewrite collected_undo in Hr by done. by injection Hr as _ <-. }
  apply bind_inv in H as ([e1 t1] & m1 & H1 & H).
  apply (for_each_tmp_adds _ _ _ _ _ _ _ (collect_minted_adds atx_Fee minerHash)) in H1
    as (-> & F1 & T1); [|done].
  destruct e1 as [e1|].
  { minv. eapply Hundo in H0; [done| |]; unfold fee_ops; by rewrite !app_nil_r. }
  specialize (T1 eq_refl). subst t1. set (o1 := ops_all _ a) in *.
  apply bind_inv in H as ([e2 t2] & m2 & H2 & H).
  apply (for_each_tmp_adds _ _ _ _ _ _ _ (collect_funds_fee_adds minerHash)) in H2
    as (-> & F2 & T2); [|rewrite St_with; by apply ledger_ok_ops].
  rewrite with_with, St_with in *.
  assert (Hback : forall o o', Forall (fun x : op => is_Some (apply_ops o (St m) !! fst x)) o' ->
    Forall (fun x : op => is_Some (St m !! fst x)) o').
  { intros o o' Hf. eapply Forall_impl; [exact Hf|]. intros x. apply is_Some_apply_ops. }
  apply Hback in F2. rewrite <-apply_ops_app in H.
  destruct e2 as [e2|].
  { minv. eapply Hundo in H0; [done| |]; unfold fee_ops; rewrite !app_nil_r; [|done]. by apply Forall_app. }
  specialize (T2 eq_refl). subst t2. set (o2 := ops_all _ fs) in *.
  apply bind_inv in H as ([e3 t3] & m3 & H3 & H).
  apply (for_each_tmp_adds _ _ _ _ _ _ _ (collect_minted_adds ctx_Fee minerHash)) in H3
    as (-> & F3 & T3); [|rewrite St_with; by apply ledger_ok_ops].
  rewrite with_with, St_with in *. apply Hback in F3. rewrite <-apply_ops_app, <-app_assoc in H.
  destruct e3 as [e3|].
  { minv. eapply Hundo in H0; [done| |]; unfold fee_ops; rewrite !app_nil_r; [|done].
    repeat (apply Forall_app; split; try done). }
  specialize (T3 eq_refl). subst t3. set (o3 := ops_all _ c) in *.
  apply bind_inv in H as ([e4 t4] & m4 & H4 & H).
  apply (for_each_tmp_adds _ _ _ _ _ _ _ (collect_stake_fee_adds minerHash)) in H4
    as (-> & F4 & T4); [|rewrite St_with; by apply ledger_ok_ops].
  rewrite with_with, St_with in *. apply Hback in F4. rewrite <-apply_ops_app, <-!app_assoc in H.
  assert (Hall : Forall (fun x : op => is_Some (St m !! fst x)) (fee_ops a fs c t4 minerHash))
    by (unfold fee_ops; repeat (apply Forall_app; split; try done)).
  destruct e4 as [e4|].
  { minv. eapply Hundo in H0; done. }
  specialize (T4 eq_refl). subst t4. injection H as <- <-. exists l. done.
Qed.

(** The fee of a single funds transaction is always collected. *)
Lemma collect_one_fee tx minerHash s m mnr snd :
  s !! minerHash = Some mnr -> s !! ftx_From tx = Some snd ->
  collectTxFees [] [tx] [] [] [] minerHash false (with_St s m) =
  Done (None, with_St (apply_ops (paid_ops minerHash (ftx_From tx) (ftx_Fee tx)) s) m).
Proof.
  intros Hm Hs. unfold collectTxFees.
  rewrite (bind_Done _ _ _ _ _ (GetAccount_run _ _)), St_with, Hm. simpl.
  assert (E : collect_funds_fee minerHash tx (with_St s m) =
    Done (None, with_St (apply_ops (paid_ops minerHash (ftx_From tx) (ftx_Fee tx)) s) m)).
  { unfold collect_funds_fee. rewrite (account_bind _ mnr) by done.
    rewrite (bind_Done _ _ _ _ _ (GetAccount_run _ _)), St_with, Hs. simpl.
    by rewrite !update_bind, !with_with, !St_with. }
  unfold mbind, M_bind in *. simpl. by rewrite E.
Qed.
End fees.
