(* ===== verification/Validation.v ===== *)
(** * miner/block_validation.go, blockrollback.go, staterollback.go: blocks

    The state part of validating a block and of rolling it back, as sequences
    of the operations of [StateChange.v], with the syntactic checks of a block.
    Fetching the transactions and talking to other miners is not modelled: the
    transactions of the block are given. *)

From stdpp Require Import sorting.
From S2P Require Import Prelude Format Chameleon Protocol Node Storage Params StateChange.

(** ** Data *)

Record blockData := mkBlockData {
  accTxSlice : list AccTx;
  fundsTxSlice : list FundsTx;
  configTxSlice : list ConfigTx;
  stakeTxSlice : list StakeTx;
  aggTxSlice : list AggTx;
  aggregatedFundsTxSlice : list FundsTx;
  updateTxSlice : list UpdateTx;
  block : Block
}.

(** ** Checks *)

(** [validateNoDuplicateTx]: one map of seen hashes through the six lists. *)
Fixpoint no_duplicates (msg : string) (hs : list hash) (seenTxs : gset hash) : error * gset hash :=
  match hs with
  | [] => (None, seenTxs)
  | txHash :: hs =>
      if bool_decide (txHash ∈ seenTxs) then (Some msg, seenTxs)
      else no_duplicates msg hs ({[txHash]} ∪ seenTxs)
  end.

Fixpoint no_duplicates_all (l : list (string * list hash)) (seenTxs : gset hash) : error :=
  match l with
  | [] => None
  | (msg, hs) :: l =>
      match no_duplicates msg hs seenTxs with
      | (Some e, _) => Some e
      | (None, seenTxs) => no_duplicates_all l seenTxs
      end
  end.

Definition validateNoDuplicateTx (b : Block) : error :=
  no_duplicates_all
    [("Duplicate Account Transaction Hash detected.", blk_AccTxData b);
     ("Duplicate Funds Transaction Hash detected.", blk_FundsTxData b);
     ("Duplicate Config Transaction Hash detected.", blk_ConfigTxData b);
     ("Duplicate Stake Transaction Hash detected.", blk_StakeTxData b);
     ("Duplicate Aggregation Transaction Hash detected.", blk_AggTxData b);
     ("Duplicate Delete Transaction Hash detected.", blk_UpdateTxData b)]%string ∅.

(** [systemTime] is the time of the peer network; the differences are int64. *)
Definition timestampCheck (systemTime timestamp : Z) : error :=
  if systemTime <? timestamp then
    if 2 * 3600 <? to_int64 (timestamp - systemTime) then Some "Timestamp was too far in the future."
    else None
  else
    if 10 * 3600 <? to_int64 (systemTime - timestamp) then Some "Timestamp was too far in the past."
    else None.

(** ** Reactivation of emptied blocks *)

Definition set_tx_data (funds aggs : list hash) (b : Block) : Block :=
  mkBlock (blk_Header b) (blk_Hash b) (blk_PrevHash b) (blk_HashWithoutTx b)
    (blk_PrevHashWithoutTx b) (blk_NrElementsBF b) (blk_BloomFilter b) (blk_Height b)
    (blk_Beneficiary b) (blk_Aggregated b) (blk_NrUpdates b) (blk_Nonce b) (blk_Timestamp b)
    (blk_MerkleRoot b) (blk_NrAccTx b) (blk_NrConfigTx b) (blk_NrFundsTx b) (blk_NrStakeTx b)
    (blk_NrAggTx b) (blk_NrUpdateTx b) (blk_SlashedAddress b) (blk_CommitmentProof b)
    (blk_ConflictingBlockHash1 b) (blk_ConflictingBlockHash2 b)
    (blk_ConflictingBlockHashWithoutTx1 b) (blk_ConflictingBlockHashWithoutTx2 b)
    (blk_StateCopy b) (blk_AccTxData b) funds (blk_ConfigTxData b) (blk_StakeTxData b)
    aggs (blk_UpdateTxData b).

(** [sort.Sort(ByHash(l))]: equal elements are identical, so that the result
    of any sort is this one. *)
Definition hash_le (a b : hash) : Prop := bytes_le a b = true.
#[global] Instance hash_le_dec a b : Decision (hash_le a b) := decide (bytes_le a b = true).
Definition sort_ByHash (l : list hash) : list hash := merge_sort hash_le l.

Section validation.
Context {DG : Digests} {SO : SortOps}.

(** Every closed transaction first validated in the block is listed in it
    again. *)
Fixpoint relist (txs : list Transaction) (blockHash : hash) (b : Block) : M Miner Block :=
  match txs with
  | [] => mret b
  | tx :: txs =>
      match tx with
      | TFunds f =>
          if bool_decide (ftx_Block f = blockHash) then
            h ← tx_hash tx;
            WriteClosedTx tx;;
            relist txs blockHash (set_tx_data (blk_FundsTxData b ++ [h]) (blk_AggTxData b) b)
          else relist txs blockHash b
      | TAgg a =>
          if bool_decide (gtx_Block a = blockHash) then
            h ← tx_hash tx;
            WriteClosedTx tx;;
            relist txs blockHash (set_tx_data (blk_FundsTxData b) (blk_AggTxData b ++ [h]) b)
          else relist txs blockHash b
      | _ => relist txs blockHash b
      end
  end.

Definition reactivateHistoricBlockDueToRollback (tx : Transaction) : M Miner unit :=
  blockHash ←
    match tx with
    | TFunds f => WriteClosedTx (TFunds (FundsTx_set_Aggregated false f));; mret (ftx_Block f)
    | TAgg a => WriteClosedTx (TAgg (AggTx_set_Aggregated false a));; mret (gtx_Block a)
    | _ => mret zero_hash
    end;
  found ← ReadClosedBlockWithoutTx blockHash;
  match found with
  | None => mret tt
  | Some b =>
      txs ← ReadAllClosedFundsAndAggTransactions;
      b ← relist txs blockHash b;
      let b := set_tx_data (blk_FundsTxData b) (sort_ByHash (blk_AggTxData b)) b in
      WriteClosedBlock (set_blk_Aggregated false b);;
      DeleteClosedBlockWithoutTx blockHash
  end.

(** ** Rolling back aggregations *)

(** The transactions of one aggregation that this block validated; the others
    are reactivated where they came from. *)
Fixpoint aggregated_in_block (hs : list hash) (blockHash : hash) (acc : list FundsTx)
    : M Miner (list FundsTx) :=
  match hs with
  | [] => mret acc
  | txHash :: hs =>
      trx ← ReadClosedTx txHash;
      match trx with
      | Some (TFunds f) =>
          if bool_decide (ftx_Block f = blockHash) then aggregated_in_block hs blockHash (f :: acc)
          else
            reactivateHistoricBlockDueToRollback (TFunds f);;
            aggregated_in_block hs blockHash acc
      | Some (TAgg a) =>
          reactivateHistoricBlockDueToRollback (TAgg a);;
          aggregated_in_block hs blockHash acc
      | _ => aggregated_in_block hs blockHash acc
      end
  end.

Definition aggTx_rollback (blockHash minerHash : hash) (tx : AggTx) : M Miner unit :=
  funds ← aggregated_in_block (gtx_AggregatedTxSlice tx) blockHash [];
  let funds := sort_ByTxCount funds in
  fundsStateChangeRollback funds;;
  collectTxFeesRollback [] funds [] [] minerHash.

Definition aggregatedStateRollback (txSlice : list AggTx) (blockHash minerHash : hash)
    : M Miner unit := for_each (aggTx_rollback blockHash minerHash) (rev txSlice).

(** ** The state change of a block *)

Definition block_reward : M Miner Z := gets (fun m => BlockReward (activeParameters (chain m))).
Definition slash_reward : M Miner Z := gets (fun m => SlashReward (activeParameters (chain m))).

Definition aggregated_rollback (data : blockData) : M Miner unit :=
  aggregatedStateRollback (aggTxSlice data) (blk_HashWithoutTx (block data))
    (blk_Beneficiary (block data)).

Definition fees_rollback (data : blockData) : M Miner unit :=
  collectTxFeesRollback (accTxSlice data) (fundsTxSlice data) (configTxSlice data)
    (stakeTxSlice data) (blk_Beneficiary (block data)).

(** Each stage that fails undoes the ones before it, in the order given. *)
Definition validateState (data : blockData) (initialSetup : bool) : M Miner error :=
  let b := block data in
  err ← accStateChange (accTxSlice data);
  match err with Some e => mret (Some e) | None =>
  err ← fundsStateChange (fundsTxSlice data) initialSetup;
  match err with
  | Some e => accStateChangeRollback (accTxSlice data);; mret (Some e)
  | None =>
  err ← aggTxStateChange (aggregatedFundsTxSlice data) initialSetup;
  match err with
  | Some e =>
      fundsStateChangeRollback (fundsTxSlice data);;
      accStateChangeRollback (accTxSlice data);; mret (Some e)
  | None =>
  err ← stakeStateChange (stakeTxSlice data) (blk_Height b) initialSetup;
  match err with
  | Some e =>
      fundsStateChangeRollback (fundsTxSlice data);;
      accStateChangeRollback (accTxSlice data);;
      aggregated_rollback data;; mret (Some e)
  | None =>
  err ← collectTxFees (accTxSlice data) (fundsTxSlice data) (configTxSlice data)
          (stakeTxSlice data) (aggTxSlice data) (blk_Beneficiary b) initialSetup;
  match err with
  | Some e =>
      stakeStateChangeRollback (stakeTxSlice data);;
      fundsStateChangeRollback (fundsTxSlice data);;
      aggregated_rollback data;;
      accStateChangeRollback (accTxSlice data);; mret (Some e)
  | None =>
  reward ← block_reward;
  err ← collectBlockReward reward (blk_Beneficiary b) initialSetup;
  match err with
  | Some e =>
      fees_rollback data;;
      stakeStateChangeRollback (stakeTxSlice data);;
      fundsStateChangeRollback (fundsTxSlice data);;
      aggregated_rollback data;;
      accStateChangeRollback (accTxSlice data);; mret (Some e)
  | None =>
  slash ← slash_reward;
  err ← collectSlashReward slash b;
  match err with
  | Some e =>
      collectBlockRewardRollback reward (blk_Beneficiary b);;
      fees_rollback data;;
      stakeStateChangeRollback (stakeTxSlice data);;
      fundsStateChangeRollback (fundsTxSlice data);;
      aggregated_rollback data;;
      accStateChangeRollback (accTxSlice data);; mret (Some e)
  | None =>
  err ← updateStakingHeight b;
  match err with
  | Some e =>
      collectSlashRewardRollback slash b;;
      collectBlockRewardRollback reward (blk_Beneficiary b);;
      fees_rollback data;;
      stakeStateChangeRollback (stakeTxSlice data);;
      fundsStateChangeRollback (fundsTxSlice data);;
      aggregated_rollback data;;
      accStateChangeRollback (accTxSlice data);; mret (Some e)
  | None => mret None
  end end end end end end end end.

(** ** The rollback of a validated block *)

Definition validateStateRollback (data : blockData) : M Miner unit :=
  slash ← slash_reward;
  collectSlashRewardRollback slash (block data);;
  reward ← block_reward;
  collectBlockRewardRollback reward (blk_Beneficiary (block data));;
  fees_rollback data;;
  stakeStateChangeRollback (stakeTxSlice data);;
  fundsStateChangeRollback (fundsTxSlice data);;
  aggregated_rollback data;;
  accStateChangeRollback (accTxSlice data).

(** Reading the transactions of one kind; one of another kind fails the type
    assertion. *)
Fixpoint read_closed_all {T} (assert_type : Transaction -> option T) (msg : string)
    (hs : list hash) : M Miner (error * list T) :=
  match hs with
  | [] => mret (None, [])
  | h :: hs =>
      tx ← ReadClosedTx h;
      match tx with
      | None => mret (Some msg, [])
      | Some tx =>
          t ← of_option (assert_type tx);
          rest ← read_closed_all assert_type msg hs;
          mret (match rest with (None, l) => (None, t :: l) | (Some e, _) => (Some e, []) end)
      end
  end.

Definition as_acc (tx : Transaction) := match tx with TAcc t => Some t | _ => None end.
Definition as_funds (tx : Transaction) := match tx with TFunds t => Some t | _ => None end.
Definition as_config (tx : Transaction) := match tx with TConfig t => Some t | _ => None end.
Definition as_stake (tx : Transaction) := match tx with TStake t => Some t | _ => None end.
Definition as_agg (tx : Transaction) := match tx with TAgg t => Some t | _ => None end.

(** The update transactions are not read: their slice stays nil. *)
Definition preValidateRollback (b : Block) : M Miner (error * blockData) :=
  let none e := mret (Some e, mkBlockData [] [] [] [] [] [] [] b) in
  a ← read_closed_all as_acc "CRITICAL: Validated accTx was not in the confirmed tx storage" (blk_AccTxData b);
  match a with (Some e, _) => none e | (None, accTxs) =>
  f ← read_closed_all as_funds "CRITICAL: Validated fundsTx was not in the confirmed tx storage" (blk_FundsTxData b);
  match f with (Some e, _) => none e | (None, fundsTxs) =>
  c ← read_closed_all as_config "CRITICAL: Validated configTx was not in the confirmed tx storage" (blk_ConfigTxData b);
  match c with (Some e, _) => none e | (None, configTxs) =>
  s ← read_closed_all as_stake "CRITICAL: Validated stakeTx was not in the confirmed tx storage" (blk_StakeTxData b);
  match s with (Some e, _) => none e | (None, stakeTxs) =>
  g ← read_closed_all as_agg "CRITICAL: Aggregated Transaction was not in the confirmed tx storage" (blk_AggTxData b);
  match g with (Some e, _) => none e | (None, aggTxs) =>
  mret (None, mkBlockData accTxs fundsTxs configTxs stakeTxs aggTxs [] [] b)
  end end end end end.

Definition reopen (tx : Transaction) : M Miner unit := WriteOpenTx tx;; DeleteClosedTx tx.

Definition reopen_aggregated (blockHash : hash) (aggregatedTxHash : hash) : M Miner unit :=
  trx ← ReadClosedTx aggregatedTxHash;
  match trx with
  | Some (TFunds f) => if bool_decide (ftx_Block f = blockHash) then reopen (TFunds f) else mret tt
  | Some (TAgg a) => if bool_decide (gtx_Block a = blockHash) then reopen (TAgg a) else mret tt
  | _ => mret tt
  end.

Definition postValidateRollback (data : blockData) : M Miner unit :=
  let b := block data in
  for_each (fun tx => reopen (TAcc tx)) (accTxSlice data);;
  for_each (fun tx => reopen (TFunds tx)) (fundsTxSlice data);;
  for_each (fun tx => reopen (TConfig tx)) (configTxSlice data);;
  for_each (fun tx => reopen (TStake tx)) (stakeTxSlice data);;
  for_each (fun tx =>
    for_each (reopen_aggregated (blk_HashWithoutTx b)) (gtx_AggregatedTxSlice tx);;
    reopen (TAgg tx)) (aggTxSlice data);;
  collectStatisticsRollback b;;
  DeleteClosedBlock (blk_Hash b);;
  WriteToReceivedStash b;;
  DeleteAllLastClosedBlock;;
  prevBlock ← ReadClosedBlock (blk_PrevHash b);
  prevBlock ← match prevBlock with
              | Some p => mret (Some p)
              | None => ReadClosedBlock (blk_PrevHashWithoutTx b)
              end;
  match (prevBlock : option Block) with
  | Some p => WriteLastClosedBlock p
  | None => mret tt
  end.

Definition rollback (b : Block) : M Miner error :=
  r ← preValidateRollback b;
  match r with
  | (Some e, _) => mret (Some e)
  | (None, data) =>
      configStateChangeRollback (configTxSlice data) (blk_Hash b);;
      validateStateRollback data;;
      postValidateRollback data;;
      mret None
  end.
End validation.
