(* ===== verification/PoS.v ===== *)
(** * miner/proofofstake.go: the proof of stake

    The condition on a block and the search for a time that satisfies it. The
    clock and the blocks validated meanwhile are arguments of the search, one
    entry per tick. *)

From S2P Require Import Prelude Format Chameleon Protocol Node Storage Ledger Params.

Section pos.
Context {DG : Digests}.

(** [copy] of the proofs, each to the place after the one before. *)
Fixpoint copy_proofs (prevProofs : list bytes) (index : nat) (hashArgs : bytes) : nat * bytes :=
  match prevProofs with
  | [] => (index, hashArgs)
  | prevProof :: prevProofs =>
      copy_proofs prevProofs (index + COMM_PROOF_LENGTH) (splice index prevProof hashArgs)
  end.

(** Everything but the time, and the index at which the time goes. *)
Definition pos_buffer (prevProofs : list bytes) (height : Z) (commitmentProof : bytes) : nat * bytes :=
  let hashArgs := zeros (length prevProofs * COMM_PROOF_LENGTH + COMM_PROOF_LENGTH + 4 + 8) in
  let '(index, hashArgs) := copy_proofs prevProofs 0 hashArgs in
  let hashArgs := splice index commitmentProof hashArgs in
  let index := (index + COMM_PROOF_LENGTH)%nat in
  let hashArgs := splice index (be_bytes 4 height) hashArgs in
  ((index + 4)%nat, hashArgs).

Definition with_time (buffer : nat * bytes) (timestamp : Z) : bytes :=
  splice (fst buffer) (be_bytes 8 (u64 timestamp)) (snd buffer).

(** The first eight bytes of the hash, divided by the balance. *)
Definition scale (pos : hash) (balance : Z) : hash :=
  splice 0 (be_bytes 8 (be_val (sublist 0 8 pos) / balance)) pos.

(** The bytes check, then the bits check; [None] is an index out of range. *)
Fixpoint bytes_zero (n : nat) (pos : bytes) : option (bool * bytes) :=
  match n with
  | O => Some (true, pos)
  | S n =>
      match pos with
      | [] => None
      | b :: pos => if negb (bval b =? 0) then Some (false, pos) else bytes_zero n pos
      end
  end.

Definition leading_zeros (diff : Z) (pos : hash) : option bool :=
  r ← bytes_zero (Z.to_nat (diff / 8)) pos;
  let '(ok, rest) := r in
  if negb ok then Some false
  else if diff mod 8 =? 0 then Some true
  else
    b ← head rest;
    Some (negb (Z.shiftl 1 (8 - diff mod 8) <=? bval b)).

(** [None] when the balance is zero: the division panics. *)
Definition validateProofOfStake (diff : Z) (prevProofs : list bytes) (height balance : Z)
    (commitmentProof : bytes) (timestamp : Z) : option bool :=
  let hashArgs := with_time (pos_buffer prevProofs height commitmentProof) timestamp in
  let pos := sha3_256 hashArgs in
  if balance =? 0 then None
  else leading_zeros diff (scale pos balance).

(** What the loop sees at a tick: the time, and the last block. *)
Record tick := mkTick { now : Z; tick_lastBlock : option Block }.

(** [None]: no tick arrives any more within the list given. *)
Fixpoint search (ticks : list tick) (cnt : Z) (diff : Z) (prevHash : hash) (buffer : nat * bytes)
    (balance : Z) : option (Z * error) :=
  match ticks with
  | [] => None
  | t :: ticks =>
      let cnt := cnt + 1 in
      if 30 * BLOCK_INTERVAL <=? cnt then Some (-1, Some "Abort mining, Mined too long"%string)
      else
        match tick_lastBlock t with
        | None => Some (-1, Some "Abort mining, No Last Block Found"%string)
        | Some last =>
            if negb (bool_decide (prevHash = blk_Hash last)) then
              Some (-2, Some "Abort mining, another block has been successfully validated in the meantime:"%string)
            else
              let pos := sha3_256 (with_time buffer (now t)) in
              if balance =? 0 then Some (-1, Some "Zero division: Account owns 0 coins."%string)
              else
                ok ← leading_zeros diff (scale pos balance);
                if (ok : bool) then Some (now t, None)
                else search ticks cnt diff prevHash buffer balance
        end
  end.

Definition proofOfStake (ticks : list tick) (diff : Z) (prevHash : hash) (prevProofs : list bytes)
    (height balance : Z) (commitmentProof : bytes) : option (Z * error) :=
  search ticks 0 diff prevHash (pos_buffer prevProofs height commitmentProof) balance.

(** The commitment proofs of the last [n] blocks, the youngest first. *)
Fixpoint latest_proofs (n : nat) (b : Block) : M Miner (list bytes) :=
  match n with
  | O => mret []
  | S n =>
      if 0 <? blk_Height b then
        closedBlock ← ReadClosedBlock (blk_PrevHash b);
        closedBlock ← match closedBlock with
                      | Some c => mret (Some c)
                      | None => ReadClosedBlockWithoutTx (blk_PrevHashWithoutTx b)
                      end;
        match (closedBlock : option Block) with
        | None => mret []
        | Some c => rest ← latest_proofs n c; mret (blk_CommitmentProof c :: rest)
        end
      else mret []
  end.

Definition GetLatestProofs (n : Z) (b : Block) : M Miner (list bytes) := latest_proofs (Z.to_nat n) b.

(** ** The condition as an inequality *)

Lemma bytes_zero_spec n pos : (n <= length pos)%nat ->
  (bytes_zero n pos = Some (true, drop n pos) /\ be_val pos = be_val (drop n pos)) \/
  (exists rest, bytes_zero n pos = Some (false, rest) /\ 2 ^ (8 * Z.of_nat (length pos - n)) <= be_val pos).
Proof.
  revert pos. induction n as [|n IH]; intros pos Hn; [by left|].
  destruct pos as [|b pos]; simpl in Hn; [lia|]. cbn [bytes_zero].
  destruct (Z.eqb_spec (bval b) 0) as [E|Hne]; simpl.
  - rewrite be_val_cons, E, Z.mul_0_l, Z.add_0_l.
    destruct (IH pos) as [?|(rest & ? & ?)]; [lia|by left|right; by exists rest].
  - right. exists pos. split; [done|]. pose proof (be_val_head b pos Hne) as Hv.
    etrans; [|exact Hv]. apply Z.pow_le_mono_r; lia.
Qed.

(** The first [diff] bits are zero exactly when the number is small. *)
Lemma leading_zeros_spec diff pos : 0 <= diff <= 255 -> length pos = 32%nat ->
  leading_zeros diff pos = Some (be_val pos <? 2 ^ (256 - diff)).
Proof.
  intros Hd Hlen. unfold leading_zeros.
  pose proof (Z.div_mod diff 8 ltac:(lia)) as Hdm. pose proof (Z.mod_pos_bound diff 8 ltac:(lia)) as Hm.
  assert (0 <= diff / 8 <= 31) as Hq by (split; [apply Z.div_pos; lia|apply Z.lt_succ_r, Z.div_lt_upper_bound; lia]).
  set (n := Z.to_nat (diff / 8)).
  destruct (bytes_zero_spec n pos) as [[E Hv]|(rest & E & Hv)]; [lia|rewrite E..]; simpl.
  - rewrite Hv. set (rest := drop n pos).
    assert (Hrest : length rest = (32 - n)%nat) by (unfold rest; rewrite length_drop; lia).
    pose proof (be_val_bound rest) as Hb.
    destruct (Z.eqb_spec (diff mod 8) 0) as [E0|Hne].
    { f_equal. symmetry. apply Z.ltb_lt. rewrite Hrest in Hb.
      replace (256 - diff) with (8 * Z.of_nat (32 - n)) by lia. lia. }
    destruct rest as [|b rest']; simpl in Hrest; [lia|]. simpl.
    rewrite be_val_cons. pose proof (be_val_bound rest') as Hb'.
    rewrite Z.shiftl_1_l. replace (256 - diff) with ((8 - diff mod 8) + 8 * Z.of_nat (length rest')) by lia.
    rewrite Z.pow_add_r by lia. f_equal.
    set (B := 2 ^ (8 * Z.of_nat (length rest'))) in *. set (T := 2 ^ (8 - diff mod 8)).
    pose proof (bval_range b).
    destruct (Z.leb_spec T (bval b)); destruct (Z.ltb_spec (bval b * B + be_val rest') (T * B)); simpl; nia || done.
  - f_equal. symmetry. apply Z.ltb_ge. etrans; [|exact Hv].
    apply Z.pow_le_mono_r; [lia|]. rewrite Hlen. lia.
Qed.

Lemma length_scale pos balance : length pos = 32%nat -> length (scale pos balance) = 32%nat.
Proof.
  intros Hlen. unfold scale. rewrite length_splice; [done|]. rewrite length_be_bytes. lia.
Qed.

Lemma be_val_app l k : be_val (l ++ k) = be_val l * 2 ^ (8 * Z.of_nat (length k)) + be_val k.
Proof.
  induction l as [|b l IH]; cbn [app]; [rewrite be_val_nil; lia|]. rewrite !be_val_cons, IH, length_app.
  replace (8 * Z.of_nat (length l + length k)) with (8 * Z.of_nat (length l) + 8 * Z.of_nat (length k)) by lia.
  rewrite Z.pow_add_r by lia. lia.
Qed.

(** Up to 64 bits of difficulty only the scaled prefix counts. *)
Lemma scale_small pos balance diff : length pos = 32%nat -> 0 < balance -> 0 <= diff <= 64 ->
  be_val (scale pos balance) < 2 ^ (256 - diff) <->
  be_val (sublist 0 8 pos) / balance < 2 ^ (64 - diff).
Proof.
  intros Hlen Hb Hd. unfold scale. set (d := be_val (sublist 0 8 pos) / balance).
  unfold splice. rewrite take_0, app_nil_l, length_be_bytes, be_val_app. cbn [Nat.add]. pose proof (be_val_bound (drop 8 pos)) as Hr.
  rewrite length_drop, Hlen in *. simpl in Hr.
  pose proof (be_val_bound (sublist 0 8 pos)) as Hp. rewrite length_sublist in Hp by lia.
  assert (0 <= d < 2 ^ 64) as Hd64.
  { unfold d. split; [apply Z.div_pos; lia|]. apply Z.div_lt_upper_bound; [done|]. simpl in *. nia. }
  rewrite be_val_bytes by (simpl; lia).
  replace (256 - diff) with ((64 - diff) + 192) by lia. rewrite Z.pow_add_r by lia.
  set (T := 2 ^ (64 - diff)). change (8 * Z.of_nat (32 - 8)) with 192 in *.
  change (8 * Z.of_nat 24) with 192 in *. nia.
Qed.

(** The buffers are the concatenation of their parts. *)
Lemma copy_proofs_app prevProofs pre post : Forall (fun p => length p = COMM_PROOF_LENGTH) prevProofs ->
  (length prevProofs * COMM_PROOF_LENGTH <= length post)%nat ->
  copy_proofs prevProofs (length pre) (pre ++ post) =
  ((length pre + length prevProofs * COMM_PROOF_LENGTH)%nat,
   pre ++ mjoin prevProofs ++ drop (length prevProofs * COMM_PROOF_LENGTH) post).
Proof.
  intros Hall. revert pre post. induction Hall as [|p ps Hp _ IH]; intros pre post Hlen.
  { cbn [copy_proofs length Nat.mul mjoin]. rewrite Nat.add_0_r, drop_0. done. }
  cbn [copy_proofs]. simpl length in Hlen. rewrite splice_next by (done || rewrite Hp; lia).
  replace (length pre + COMM_PROOF_LENGTH)%nat with (length (pre ++ p)) by (rewrite length_app, Hp; done).
  rewrite IH by (rewrite length_drop, Hp; lia). rewrite length_app, Hp, drop_drop.
  cbn [mjoin list_join]. rewrite <-!app_assoc. f_equal. cbn [length Nat.mul]. lia.
Qed.

Definition pos_input (prevProofs : list bytes) (commitmentProof : bytes) (height timestamp : Z) : bytes :=
  mjoin prevProofs ++ commitmentProof ++ be_bytes 4 height ++ be_bytes 8 (u64 timestamp).

Lemma with_time_input prevProofs height commitmentProof timestamp :
  Forall (fun p => length p = COMM_PROOF_LENGTH) prevProofs -> length commitmentProof = COMM_PROOF_LENGTH ->
  with_time (pos_buffer prevProofs height commitmentProof) timestamp =
  pos_input prevProofs commitmentProof height timestamp.
Proof.
  intros Hall Hc. unfold pos_buffer.
  set (n := (length prevProofs * COMM_PROOF_LENGTH)%nat).
  pose proof (copy_proofs_app prevProofs [] (zeros (n + COMM_PROOF_LENGTH + 4 + 8)) Hall) as E.
  cbn [length app Nat.add] in E. fold n in E. rewrite E.
  2: { unfold zeros. rewrite length_replicate. lia. }
  rewrite zeros_drop. replace (n + COMM_PROOF_LENGTH + 4 + 8 - n)%nat with (COMM_PROOF_LENGTH + 12)%nat by lia.
  assert (Hn : n = length (mjoin prevProofs)) by (rewrite (length_mjoin _ COMM_PROOF_LENGTH) by done; unfold n; lia).
  rewrite splice_next by (done || rewrite Hc; unfold zeros; rewrite length_replicate; lia).
  rewrite Hc, zeros_drop. replace (COMM_PROOF_LENGTH + 12 - COMM_PROOF_LENGTH)%nat with 12%nat by lia.
  rewrite splice_next; [|by rewrite length_app, Hc, Hn|rewrite length_be_bytes; unfold zeros; rewrite length_replicate; lia].
  rewrite length_be_bytes, zeros_drop. unfold with_time. cbn [fst snd Nat.sub].
  rewrite splice_next; [|rewrite !length_app, Hc, length_be_bytes, <-Hn; lia|rewrite length_be_bytes; unfold zeros; rewrite length_replicate; lia].
  rewrite length_be_bytes, zeros_drop. change (zeros (8 - 8)) with (@nil byte).
  rewrite app_nil_r. unfold pos_input. by rewrite <-!app_assoc.
Qed.

(** The search returns a time that the validation accepts. *)
Lemma search_valid ticks cnt diff prevHash prevProofs height balance commitmentProof t :
  search ticks cnt diff prevHash (pos_buffer prevProofs height commitmentProof) balance = Some (t, None) ->
  validateProofOfStake diff prevProofs height balance commitmentProof t = Some true.
Proof.
  revert cnt. induction ticks as [|k ticks IH]; intros cnt H; [done|]. cbn [search] in H.
  case_match; [done|]. case_match; [|done]. case_match; [done|].
  destruct (balance =? 0) eqn:Eb; [done|].
  destruct (leading_zeros diff _) as [[]|] eqn:El; simpl in H; [|by eapply IH|done].
  injection H as <-. unfold validateProofOfStake. by rewrite Eb.
Qed.

(** It ends: after 450 ticks at the latest. *)
Lemma search_ends ticks cnt diff prevHash buffer balance :
  0 <= diff <= 255 -> (forall m, length (sha3_256 m) = 32%nat) ->
  30 * BLOCK_INTERVAL <= cnt + Z.of_nat (length ticks) -> ticks <> [] ->
  exists r, search ticks cnt diff prevHash buffer balance = Some r.
Proof.
  intros Hd Hsha. revert cnt. induction ticks as [|k ticks IH]; intros cnt Hlen Hne; [done|].
  cbn [search]. case_match eqn:Ec; [by eexists|]. apply Z.leb_gt in Ec.
  case_match; [|by eexists]. case_match; [by eexists|]. case_match; [by eexists|].
  rewrite leading_zeros_spec by (done || by rewrite length_scale). simpl. case_match; [by eexists|].
  apply IH; [simpl in Hlen; lia|]. intros ->. simpl in Hlen. lia.
Qed.

Lemma latest_proofs_length n b m l m' : latest_proofs n b m = Done (l, m') -> m' = m /\ (length l <= n)%nat.
Proof.
  revert b l m'. induction n as [|n IH]; intros b l m' H; cbn [latest_proofs] in H.
  { by injection H as <- <-. }
  case_match; [|injection H as <- <-; split; [done|simpl; lia]].
  apply bind_inv in H as (c1 & m1 & H1 & H). unfold ReadClosedBlock, read_db in H1. apply gets_inv in H1 as [-> ->].
  apply bind_inv in H as (c2 & m2 & H2 & H). assert (m2 = m) as ->.
  { destruct (closedblocks _ !! _); [by injection H2 as _ <-|]. by apply gets_inv in H2 as [_ ->]. }
  destruct c2 as [c|]; [|injection H as <- <-; split; [done|simpl; lia]].
  apply bind_inv in H as (rest & m3 & H3 & H). apply IH in H3 as [-> ?].
  injection H as <- <-. split; [done|simpl; lia].
Qed.
End pos.
