(* ===== verification/BlockLemmas.v ===== *)
(** * What the other stages of a block do

    Accounts, stakes and rewards: the new accounts on acceptance, and how far
    the rollbacks restore the old ones. *)

From S2P Require Import Prelude Format Chameleon Protocol Node Storage Params StateChange.
From S2P Require Import Ledger StateLemmas FeeLemmas Validation.

Section stages.
Context {DG : Digests}.

(** ** Account transactions *)

Definition new_account (tx : AccTx) : Account :=
  NewAccount (atx_PubKey tx) (atx_Issuer tx) 0 false (zeros COMM_KEY_LENGTH)
    (atx_Contract tx) (atx_ContractVariables tx) (atx_Parameters tx).

Definition acc_key (tx : AccTx) : hash := SerializeHashContent (VBytes (atx_PubKey tx)).

(** What one account transaction does to accounts and root keys. *)
Inductive acc_result (tx : AccTx) (m : Miner) : error -> Miner -> Prop :=
| acc_error e : acc_result tx m (Some e) m
| acc_created m' :
    atx_Header tx <> 2 -> St m !! acc_key tx = None ->
    St m' = <[acc_key tx := new_account tx]> (St m) ->
    RootKeys (ledger m') =
      (if atx_Header tx =? 1 then <[acc_key tx := atx_PubKey tx]> (RootKeys (ledger m))
       else RootKeys (ledger m)) ->
    pool m' = pool m -> db m' = db m -> chain m' = chain m ->
    acc_result tx m None m'
| acc_unrooted :
    atx_Header tx = 2 -> is_Some (St m !! acc_key tx) ->
    acc_result tx m None (upd_ledger (upd_RootKeys (delete (acc_key tx))) m).

Lemma accTx_change_inv tx m e m' : accTx_change tx m = Done (e, m') -> acc_result tx m e m'.
Proof.
  unfold accTx_change. intros H. destruct (Z.eqb_spec (atx_Header tx) 2) as [E|Hne]; cbn [negb] in H.
  - apply bind_inv in H as (r & m1 & Hr & H). apply GetAccount_inv in Hr as [-> ->].
    fold (acc_key tx) in H. destruct (St m !! acc_key tx) eqn:Ea; simpl in H.
    + apply bind_inv in H as (u & m1 & H1 & H). injection H1 as <- <-. injection H as <- <-.
      by apply acc_unrooted.
    + injection H as <- <-. apply acc_error.
  - apply bind_inv in H as (r & m1 & Hr & H). apply GetAccount_inv in Hr as [-> ->].
    change (Account_Hash _) with (acc_key tx) in H.
    destruct (St m !! acc_key tx) eqn:Ea; simpl in H; [injection H as <- <-; apply acc_error|].
    apply bind_inv in H as (u & m1 & H1 & H). injection H1 as _ <-.
    apply bind_inv in H as (u1 & m1 & H1 & H). injection H1 as _ <-.
    apply bind_inv in H as (u2 & m1 & H1 & H). injection H as <- <-.
    apply acc_created; [done|done|..]; destruct (Z.eqb_spec (atx_Header tx) 1);
      injection H1 as _ <-; done.
Qed.

Lemma account_ok_new tx : account_ok (new_account tx).
Proof. done. Qed.

Lemma acc_result_facts tx m e m' : ledger_ok (St m) -> acc_result tx m e m' ->
  ledger_ok (St m') /\ total (St m') = total (St m) /\ chain m' = chain m /\ db m' = db m /\ pool m' = pool m.
Proof.
  intros Hok. destruct 1 as [|m' Hh Hn Es Er Ep Ed Ec|]; try done.
  rewrite Es. split; [|split; [|done]].
  - intros h a Ha. apply lookup_insert_Some in Ha as [[_ <-]|[_ Ha]]; [done|eauto].
  - rewrite total_insert_new by done. done.
Qed.

Lemma accStateChange_facts txs m e m' : ledger_ok (St m) -> accStateChange txs m = Done (e, m') ->
  ledger_ok (St m') /\ total (St m') = total (St m) /\ chain m' = chain m /\ db m' = db m /\ pool m' = pool m.
Proof.
  intros Hok H. unfold accStateChange in H.
  eapply (for_each_err_inv accTx_change (fun k => ledger_ok (St k) /\ total (St k) = total (St m) /\
    chain k = chain m /\ db k = db m /\ pool k = pool m)); [|done|exact H].
  intros x k e1 k' _ (Hk & Ht & Hc & Hd & Hp) Hx. apply accTx_change_inv in Hx.
  apply acc_result_facts in Hx as (? & ? & ? & ? & ?); [|done].
  split_and!; congruence || done.
Qed.

(** Headers 0 and 1 create an account: the rollback removes exactly those. *)
Lemma accStateChange_created txs m m' :
  Forall (fun tx => atx_Header tx = 0 \/ atx_Header tx = 1) txs ->
  accStateChange txs m = Done (None, m') ->
  (forall h, St m' !! h = (if bool_decide (h ∈ acc_key <$> txs) then St m' !! h else St m !! h)) /\
  (forall tx, tx ∈ txs -> St m !! acc_key tx = None /\ is_Some (St m' !! acc_key tx)) /\
  NoDup (acc_key <$> txs) /\
  (forall h, RootKeys (ledger m') !! h = RootKeys (ledger m) !! h \/
     exists tx, tx ∈ txs /\ atx_Header tx = 1 /\ acc_key tx = h).
Proof.
  unfold accStateChange. intros Hh. revert m. induction Hh as [|tx txs Hhd _ IH]; intros m H.
  { injection H as <-. split; [done|]. split; [by intros ? ?%elem_of_nil|]. split; [constructor|by left]. }
  simpl in H. apply bind_inv in H as (e & m1 & H1 & H2). apply accTx_change_inv in H1.
  destruct e as [e|]; [done|].
  inversion H1 as [|? Hn Ha Es Er _ _ _|E2 _]; subst; [|rewrite E2 in Hhd; lia].
  destruct (IH m1 H2) as (IHs & IHn & IHd & IHr).
  assert (Hnot : acc_key tx ∉ acc_key <$> txs).
  { intros (tx' & E & Hin)%list_elem_of_fmap. destruct (IHn tx' Hin) as [E' _].
    rewrite <-E, Es, lookup_insert_eq in E'. done. }
  assert (Hin' : St m' !! acc_key tx = Some (new_account tx)).
  { rewrite IHs, bool_decide_eq_false_2, Es, lookup_insert_eq by done. done. }
  split; [|split; [|split]].
  - intros h. rewrite fmap_cons. case_bool_decide as Hin; [done|].
    apply not_elem_of_cons in Hin as [Hne Hin].
    by rewrite IHs, bool_decide_eq_false_2, Es, lookup_insert_ne by done.
  - intros tx' [->|Hin]%elem_of_cons; [split; [done|by eexists]|].
    destruct (IHn tx' Hin) as [E' ?]. split; [|done]. rewrite Es in E'.
    apply lookup_insert_None in E' as [? _]. done.
  - rewrite fmap_cons. by constructor.
  - intros h. destruct (IHr h) as [->|(tx' & ? & ? & ?)]; [|right; exists tx'; by split; [right|] ].
    rewrite Er. destruct (Z.eqb_spec (atx_Header tx) 1); [|by left].
    destruct (decide (h = acc_key tx)) as [->|]; [right; exists tx; by split; [left|]|left].
    by rewrite lookup_insert_ne by done.
Qed.

Lemma accTx_rollback_run tx m : atx_Header tx = 0 \/ atx_Header tx = 1 ->
  is_Some (St m !! acc_key tx) ->
  accTx_rollback tx m = Done (tt, upd_ledger
    (upd_RootKeys (if atx_Header tx =? 1 then delete (acc_key tx) else id))
    (with_St (delete (acc_key tx) (St m)) m)).
Proof.
  intros Hh [a Ha]. unfold accTx_rollback. fold (acc_key tx).
  destruct Hh as [-> | ->]; simpl; by rewrite (bind_Done _ _ _ _ _ (account_run _ _ _ Ha)).
Qed.

(** The accounts of the block are deleted, with the root keys among them. *)
Lemma accStateChangeRollback_deletes txs m :
  Forall (fun tx => atx_Header tx = 0 \/ atx_Header tx = 1) txs -> NoDup (acc_key <$> txs) ->
  (forall tx, tx ∈ txs -> is_Some (St m !! acc_key tx)) ->
  exists m', accStateChangeRollback txs m = Done (tt, m') /\
    (forall h, St m' !! h = if bool_decide (h ∈ acc_key <$> txs) then None else St m !! h) /\
    (forall h, RootKeys (ledger m') !! h = RootKeys (ledger m) !! h \/
       (h ∈ acc_key <$> txs /\ RootKeys (ledger m') !! h = None)) /\
    (forall tx, tx ∈ txs -> atx_Header tx = 1 -> RootKeys (ledger m') !! acc_key tx = None) /\
    pool m' = pool m /\ db m' = db m /\ chain m' = chain m.
Proof.
  intros Hh. revert m. induction Hh as [|tx txs Hhd Hh IH]; intros m Hnd Hin.
  { exists m. split_and!; try done; [by left|]. by intros ? ?%elem_of_nil. }
  rewrite fmap_cons in Hnd. apply NoDup_cons in Hnd as [Hnot Hnd].
  pose proof (accTx_rollback_run tx m Hhd (Hin tx ltac:(by left))) as E.
  set (m1 := upd_ledger _ _) in E.
  destruct (IH m1 Hnd) as (m' & E' & Hs & Hr & Hr1 & Hrest).
  { intros tx' Hx. change (St m1) with (delete (acc_key tx) (St m)).
    rewrite lookup_delete_ne; [apply Hin; by right|]. intros Heq. apply Hnot. rewrite Heq.
    by apply list_elem_of_fmap_2. }
  assert (Hk : forall h, RootKeys (ledger m1) !! h = RootKeys (ledger m) !! h \/
    (h = acc_key tx /\ RootKeys (ledger m1) !! h = None)).
  { intros h. subst m1. simpl. destruct (Z.eqb_spec (atx_Header tx) 1); [|by left].
    destruct (decide (h = acc_key tx)) as [->|]; [right; by rewrite lookup_delete_eq|left].
    by rewrite lookup_delete_ne by done. }
  exists m'. split; [|split; [|split; [|split; [|done] ] ] ].
  - unfold accStateChangeRollback in *. simpl. by rewrite (bind_Done _ _ _ _ _ E).
  - intros h. rewrite Hs, fmap_cons. change (St m1) with (delete (acc_key tx) (St m)).
    destruct (decide (h = acc_key tx)) as [->|Hne].
    + rewrite lookup_delete_eq, (bool_decide_eq_true_2 (_ ∈ _ :: _)) by (by left). by case_bool_decide.
    + rewrite lookup_delete_ne by done. repeat case_bool_decide; set_solver.
  - intros h. rewrite fmap_cons. destruct (Hr h) as [->|[??] ]; [|right; set_solver].
    destruct (Hk h) as [->|[-> ?] ]; [by left|right]. set_solver.
  - intros tx' [->|Hx]%elem_of_cons H1; [|by apply Hr1].
    destruct (Hr (acc_key tx)) as [->|[??] ]; [|done]. subst m1. simpl.
    rewrite H1. simpl. by rewrite lookup_delete_eq.
Qed.

(** ** Stakes *)

Definition stake_set (height : Z) (tx : StakeTx) (a : Account) : Account :=
  set_StakingBlockHeight height (set_CommitmentKey (stx_CommitmentKey tx) (set_IsStaking (stx_IsStaking tx) a)).

(** What an accepted stake transaction has been checked for. *)
Record stake_accepted (init : bool) (p : Parameters) (tx : StakeTx) (a : Account) : Prop := {
  sa_toggles : acc_IsStaking a = negb (stx_IsStaking tx);
  sa_fee : init = false -> stx_Fee tx <= acc_Balance a;
  sa_minimum : init = false -> stx_IsStaking tx = true ->
    u64 (stx_Fee tx + StakingMinimum p) <= acc_Balance a
}.

Lemma stakeTx_change_inv height init tx m e m' : stakeTx_change height init tx m = Done (e, m') ->
  match e with
  | Some _ => m' = m
  | None => exists a, St m !! stx_Account tx = Some a /\
      stake_accepted init (activeParameters (chain m)) tx a /\
      m' = with_St (alter (stake_set height tx) (stx_Account tx) (St m)) m
  end.
Proof.
  unfold stakeTx_change. intros H.
  apply bind_inv in H as (a & m1 & H1 & H). apply account_inv in H1 as [Ha ->].
  apply bind_inv in H as (p & m1 & H1 & H). apply gets_inv in H1 as [-> ->].
  destruct (negb init && (acc_Balance a <? stx_Fee tx)) eqn:Efee; [by minv|].
  destruct (negb init && stx_IsStaking tx && _) eqn:Emin; [by minv|].
  destruct (Bool.eqb _ _) eqn:Eq; [by minv|].
  minv. exists a. split; [done|]. split.
  - split.
    + by destruct (stx_IsStaking tx), (acc_IsStaking a).
    + intros ->. by apply Z.ltb_ge in Efee.
    + intros -> Hs. rewrite Hs in Emin. by apply Z.ltb_ge in Emin.
  - rewrite !with_with, !St_with. f_equal. rewrite !alter_alter_eq. done.
Qed.

Lemma account_ok_stake height tx a : account_ok a -> account_ok (stake_set height tx a).
Proof. done. Qed.

Lemma total_same f (h : hash) s : (forall a, acc_Balance (f a) = acc_Balance a) ->
  total (alter f h s) = total s.
Proof.
  intros Hf. destruct (s !! h) as [a|] eqn:Ha; [|by rewrite alter_id' by done].
  rewrite (total_alter _ h a s Ha), Hf. lia.
Qed.

Lemma stakeStateChange_facts txs height init m e m' : ledger_ok (St m) ->
  stakeStateChange txs height init m = Done (e, m') ->
  ledger_ok (St m') /\ total (St m') = total (St m) /\ same_context m m'.
Proof.
  intros Hok H. unfold stakeStateChange in H.
  eapply (for_each_err_inv _ (fun k => ledger_ok (St k) /\ total (St k) = total (St m) /\ same_context m k));
    [|by split_and!; [done|done|apply same_context_refl]|exact H].
  intros x k e1 k' _ (Hk & Ht & Hc) Hx. apply stakeTx_change_inv in Hx.
  destruct e1 as [e1|]; [by subst|]. destruct Hx as (a & _ & _ & ->). rewrite St_with.
  split_and!; [by apply ledger_ok_alter|by rewrite total_same|].
  eapply same_context_trans; [exact Hc|apply same_context_with].
Qed.

(** ** Rewards *)

Lemma collectBlockReward_inv reward h init m e m' : collectBlockReward reward h init m = Done (e, m') ->
  match e with
  | Some _ => m' = m
  | None => exists a, St m !! h = Some a /\
      (init = false -> u64 (acc_Balance a + reward) <= MAX_MONEY) /\
      m' = with_St (alter (credit reward) h (St m)) m
  end.
Proof.
  unfold collectBlockReward. intros H. apply bind_inv in H as ([acc err] & m1 & H1 & H).
  apply GetAccount_inv in H1 as [-> Hr]. apply bind_inv in H as (err' & m1 & H1 & H).
  destruct (St m !! h) as [a|] eqn:Ha; injection Hr as -> ->.
  - destruct init; minv; [by exists a|].
    destruct (Z.ltb_spec MAX_MONEY (u64 (acc_Balance a + reward))); minv; [done|]. by exists a.
  - destruct init; by minv.
Qed.

Lemma collectBlockReward_undo reward h init m m' : ledger_ok (St m) ->
  collectBlockReward reward h init m = Done (None, m') ->
  collectBlockRewardRollback reward h m' = Done (tt, m).
Proof.
  intros Hok H. apply collectBlockReward_inv in H as (a & Ha & _ & ->).
  unfold collectBlockRewardRollback, take_back.
  rewrite (account_bind _ (credit reward a)) by (by rewrite St_with, lookup_alter_eq, Ha).
  rewrite update_account_run, with_with, St_with, alter_alter_id, with_St_id; auto using debit_credit.
Qed.

Definition slash_set (x : Z) (a : Account) : Account := set_IsStaking false (debit x a).

Definition slashed (reward : Z) (b : Block) (p : Parameters) (s : gmap hash Account) : gmap hash Account :=
  alter (slash_set (StakingMinimum p)) (blk_SlashedAddress b) (alter (credit reward) (blk_Beneficiary b) s).

Lemma collectSlashReward_inv reward b m e m' : collectSlashReward reward b m = Done (e, m') ->
  match e with
  | Some _ => m' = m
  | None =>
      if has_slashing_proof b then
        exists a c, St m !! blk_Beneficiary b = Some a /\ St m !! blk_SlashedAddress b = Some c /\
          u64 (acc_Balance a + reward) <= MAX_MONEY /\
          m' = with_St (slashed reward b (activeParameters (chain m)) (St m)) m
      else m' = m
  end.
Proof.
  unfold collectSlashReward. intros H. destruct (has_slashing_proof b); [|by minv].
  apply bind_inv in H as (a & m1 & H1 & H). apply account_inv in H1 as [Ha ->].
  apply bind_inv in H as (r & m1 & H1 & H). apply GetAccount_inv in H1 as [-> ->].
  destruct (Z.ltb_spec MAX_MONEY (u64 (acc_Balance a + reward))); [by minv|].
  destruct (St m !! blk_SlashedAddress b) as [c|] eqn:Hc; simpl in H; [|by minv].
  minv. exists a, c. split_and!; try done. rewrite !with_with, !St_with. f_equal.
  unfold slashed. by rewrite alter_alter_eq.
Qed.

(** The rollback makes the slashed account a validator, whatever it was. *)
Lemma collectSlashReward_undo reward b m m' : ledger_ok (St m) ->
  (has_slashing_proof b = true -> acc_IsStaking <$> St m !! blk_SlashedAddress b = Some true) ->
  collectSlashReward reward b m = Done (None, m') ->
  collectSlashRewardRollback reward b m' = Done (tt, m).
Proof.
  intros Hok Hst H. apply collectSlashReward_inv in H. unfold collectSlashRewardRollback.
  destruct (has_slashing_proof b); [|by subst].
  destruct H as (a & c & Ha & Hc & _ & ->). specialize (Hst eq_refl).
  set (x := StakingMinimum (activeParameters (chain m))).
  assert (is_Some (slashed reward b (activeParameters (chain m)) (St m) !! blk_Beneficiary b)) as [a' Ha'].
  { unfold slashed. apply is_Some_alter, is_Some_alter. by eexists. }
  rewrite (account_bind _ a'), update_bind, with_with, St_with by done.
  rewrite (bind_Done _ _ _ (activeParameters (chain m)) _) by done. fold x.
  assert (is_Some (alter (debit reward) (blk_Beneficiary b)
    (slashed reward b (activeParameters (chain m)) (St m)) !! blk_SlashedAddress b)) as [c' Hc'].
  { apply is_Some_alter. unfold slashed. apply is_Some_alter, is_Some_alter. by eexists. }
  rewrite (account_bind _ c'), update_bind, with_with, St_with by done.
  rewrite update_account_run, with_with, St_with, with_St_eq; [done|]. unfold slashed. fold x.
  rewrite (alter_comm (debit reward) (slash_set x)) by (intros d; unfold slash_set, debit, set_IsStaking, set_Balance; simpl;
    f_equal; autorewrite with wrap; f_equal; lia).
  rewrite (alter_alter_id (debit reward) (credit reward)) by auto using debit_credit.
  rewrite !alter_alter_eq. apply map_eq. intros k.
  destruct (decide (k = blk_SlashedAddress b)) as [->|]; [|by rewrite lookup_alter_ne by done].
  rewrite lookup_alter_eq, Hc. simpl. f_equal. rewrite Hc in Hst. injection Hst as Hst.
  pose proof (credit_debit x c (Hok _ _ Hc)) as E. unfold compose, slash_set.
  destruct c. unfold set_IsStaking, credit, debit, set_Balance in *. simpl in *. congruence.
Qed.

Lemma updateStakingHeight_inv b m e m' : updateStakingHeight b m = Done (e, m') ->
  match e with
  | Some _ => m' = m /\ St m !! blk_Beneficiary b = None
  | None => m' = with_St (alter (set_StakingBlockHeight (blk_Height b)) (blk_Beneficiary b) (St m)) m
  end.
Proof.
  unfold updateStakingHeight. intros H. apply bind_inv in H as (r & m1 & H1 & H).
  apply GetAccount_inv in H1 as [-> ->]. destruct (St m !! _) eqn:E; simpl in H; by minv.
Qed.
End stages.
