(* ===== verification/Rollback.v ===== *)
(** * Observing the ledger, and undoing the stages of a block

    The rollbacks do not restore everything: the commitment key and the height
    of the last stake are lost, and so are the entries of the chameleon-hash
    parameters. [same_view] relates two states that differ in nothing else.
    Every rollback respects it, so that the rollbacks of a block compose. *)

From S2P Require Import Prelude Format Chameleon Protocol Node Storage Params StateChange.
From S2P Require Import Ledger StateLemmas FeeLemmas Validation BlockLemmas.

(** ** The equivalence *)

Definition settle (a : Account) : Account := set_CommitmentKey [] (set_StakingBlockHeight 0 a).

Definition same_view (m1 m2 : Miner) : Prop :=
  settle <$> St m1 = settle <$> St m2 /\ RootKeys (ledger m1) = RootKeys (ledger m2) /\
  pool m1 = pool m2 /\ db m1 = db m2 /\ chain m1 = chain m2.

#[export] Instance same_view_equiv : Equivalence same_view.
Proof.
  split.
  - done.
  - intros m1 m2 (?&?&?&?&?). by split_and!.
  - intros m1 m2 m3 (?&?&?&?&?) (?&?&?&?&?). split_and!; congruence.
Qed.

(** Outcomes that look the same. *)
Definition outcome_view {A} (R : relation A) (o1 o2 : outcome (A * Miner)) : Prop :=
  match o1, o2 with
  | Done (a, m1), Done (b, m2) => R a b /\ same_view m1 m2
  | Panic, Panic => True
  | Timeout, Timeout => True
  | _, _ => False
  end.

Definition sim {A} (R : relation A) : relation (M Miner A) :=
  (same_view ==> outcome_view R)%signature.

Definition like (a b : Account) : Prop := settle a = settle b.

Lemma sim_ret {A} (R : relation A) a b : R a b -> sim R (mret a) (mret b).
Proof. by intros HR m1 m2 Hm. Qed.

Lemma sim_bind {A B} (R : relation A) (Q : relation B) c d (f g : A -> M Miner B) :
  sim R c d -> (forall a b, R a b -> sim Q (f a) (g b)) -> sim Q (c ≫= f) (d ≫= g).
Proof.
  intros Hc Hf m1 m2 Hm. specialize (Hc m1 m2 Hm). unfold mbind, M_bind, outcome_view in *.
  destruct (c m1) as [ [a m1'] | | ], (d m2) as [ [b m2'] | | ]; try done.
  destruct Hc as [HR Hm']. by apply Hf.
Qed.

(** A sequence of steps without results. *)
Lemma sim_seq {A B} (R : relation A) (Q : relation B) (c : M Miner A) (d : M Miner B) :
  sim R c c -> sim Q d d -> sim Q (c;; d) (c;; d).
Proof. intros Hc Hd. by apply (sim_bind R). Qed.

Lemma sim_gets {A} (f : Miner -> A) :
  (forall m1 m2, same_view m1 m2 -> f m1 = f m2) -> sim eq (gets f) (gets f).
Proof. intros Hf m1 m2 Hm. split; [by apply Hf|done]. Qed.

Lemma same_view_lookup m1 m2 h : same_view m1 m2 ->
  option_Forall2 like (St m1 !! h) (St m2 !! h).
Proof.
  intros (E & _). apply (f_equal (fun s => s !! h)) in E. rewrite !lookup_fmap in E.
  destruct (St m1 !! h), (St m2 !! h); try discriminate E; constructor. by apply (inj Some) in E.
Qed.

Lemma sim_get_account h : sim (option_Forall2 like) (get_account h) (get_account h).
Proof. intros m1 m2 Hm. split; [by apply same_view_lookup|done]. Qed.

Lemma sim_account h : sim like (account h) (account h).
Proof.
  apply (sim_bind (option_Forall2 like)); [apply sim_get_account|].
  intros a b [x y Hxy|]; [by apply sim_ret|]. by intros m1 m2 Hm.
Qed.

(** Updates that do not read what is not seen. *)
Definition blind (f : Account -> Account) : Prop := forall a b, like a b -> like (f a) (f b).

Lemma like_fields a b : like a b ->
  acc_Address a = acc_Address b /\ acc_Issuer a = acc_Issuer b /\ acc_Balance a = acc_Balance b /\
  acc_TxCnt a = acc_TxCnt b /\ acc_IsStaking a = acc_IsStaking b /\ acc_Contract a = acc_Contract b /\
  acc_ContractVariables a = acc_ContractVariables b /\ acc_Parameters a = acc_Parameters b.
Proof. destruct a, b. intros H. unfold like, settle in H. simpl in *. by simplify_eq. Qed.

Ltac blind :=
  let a := fresh in let b := fresh in let H := fresh in
  intros a b H; apply like_fields in H; destruct a, b;
  unfold like, settle, credit, debit, inc_TxCnt, dec_TxCnt, set_IsStaking, set_Balance, set_TxCnt;
  simpl in *; destruct_and!; by simplify_eq.

Lemma blind_credit x : blind (credit x).
Proof. blind. Qed.
Lemma blind_debit x : blind (debit x).
Proof. blind. Qed.
Lemma blind_dec : blind dec_TxCnt.
Proof. blind. Qed.
Lemma blind_IsStaking v : blind (set_IsStaking v).
Proof. blind. Qed.

Lemma like_settle_alter (f g : Account -> Account) (h : hash) (s1 s2 : gmap hash Account) :
  (forall a b, like a b -> like (f a) (g b)) ->
  settle <$> s1 = settle <$> s2 -> settle <$> alter f h s1 = settle <$> alter g h s2.
Proof.
  intros Hf E. apply map_eq. intros k. apply (f_equal (fun s => s !! k)) in E.
  rewrite !lookup_fmap in *. destruct (decide (k = h)) as [->|].
  - rewrite !lookup_alter_eq. destruct (s1 !! h), (s2 !! h); try discriminate E; [|done].
    apply (inj Some) in E. simpl. f_equal. by apply Hf.
  - by rewrite !lookup_alter_ne by done.
Qed.

Lemma sim_update h f : blind f -> sim eq (update_account h f) (update_account h f).
Proof.
  intros Hf m1 m2 (E & Er & Ep & Ed & Ec). split; [done|]. split_and!; try done.
  by apply like_settle_alter.
Qed.

Lemma sim_delete h : sim eq (on_ledger (upd_State (delete h))) (on_ledger (upd_State (delete h))).
Proof.
  intros m1 m2 (E & Er & Ep & Ed & Ec). split; [done|]. split_and!; try done.
  change (settle <$> delete h (St m1) = settle <$> delete h (St m2)).
  by rewrite !fmap_delete, E.
Qed.

Lemma sim_RootKeys f : sim eq (on_ledger (upd_RootKeys f)) (on_ledger (upd_RootKeys f)).
Proof.
  intros m1 m2 (E & Er & Ep & Ed & Ec). split; [done|]. split_and!; try done. simpl. by rewrite Er.
Qed.

Lemma sim_GetRootAccount h :
  sim (fun r1 r2 => option_Forall2 like (fst r1) (fst r2) /\ snd r1 = snd r2)
    (GetRootAccount h) (GetRootAccount h).
Proof.
  intros m1 m2 Hm. rewrite !GetRootAccount_run. pose proof (same_view_lookup m1 m2 h Hm) as Hl.
  destruct Hm as (E & Er & Hm). unfold is_root. rewrite Er.
  destruct (bool_decide _); rewrite ?GetAccount_run.
  - inversion Hl; split; try done; split; by try constructor.
  - split; [|done]. split; [constructor|done].
Qed.

Lemma sim_for_each {T} (body : T -> M Miner unit) l :
  (forall x, sim eq (body x) (body x)) -> sim eq (for_each body l) (for_each body l).
Proof.
  intros Hb. induction l as [|x l IH]; [by apply sim_ret|]. simpl. by apply (sim_seq eq).
Qed.

Create HintDb sim.
#[export] Hint Resolve blind_credit blind_debit blind_dec blind_IsStaking sim_account sim_update
  sim_delete sim_RootKeys : sim.

(** ** The rollbacks respect it *)

Section views.
Context {DG : Digests}.

Lemma sim_take_back h fee : sim eq (take_back h fee) (take_back h fee).
Proof. apply (sim_seq like); auto with sim. Qed.
Lemma sim_give_back h fee : sim eq (give_back h fee) (give_back h fee).
Proof. apply (sim_seq like); auto with sim. Qed.

Lemma sim_accStateChangeRollback txs : sim eq (accStateChangeRollback txs) (accStateChangeRollback txs).
Proof.
  apply sim_for_each. intros tx. unfold accTx_rollback.
  destruct (_ || _); [|by apply sim_ret].
  apply (sim_bind like); [apply sim_account|]. intros a b Hab.
  apply (sim_bind eq); [apply sim_delete|]. intros _ _ _.
  destruct (_ =? 1); [apply sim_RootKeys|]. destruct (_ =? 2); [|by apply sim_ret].
  apply like_fields in Hab as (-> & _). apply sim_RootKeys.
Qed.

Lemma sim_fundsStateChangeRollback txs :
  sim eq (fundsStateChangeRollback txs) (fundsStateChangeRollback txs).
Proof.
  apply sim_for_each. intros tx. unfold fundsTx_rollback.
  apply (sim_seq like); [auto with sim|]. do 2 (apply (sim_seq eq); [auto with sim|]).
  apply (sim_seq like); [auto with sim|]. apply (sim_seq eq); [auto with sim|].
  eapply sim_bind; [apply sim_GetRootAccount|]. intros r1 r2 [Hr _].
  destruct Hr; [|by apply sim_ret]. apply (sim_seq eq); auto with sim.
Qed.

Lemma sim_stakeStateChangeRollback txs :
  sim eq (stakeStateChangeRollback txs) (stakeStateChangeRollback txs).
Proof.
  apply sim_for_each. intros tx. apply (sim_bind like); [apply sim_account|].
  intros a b (_ & _ & _ & _ & -> & _)%like_fields. auto with sim.
Qed.

Lemma sim_collectTxFeesRollback a f c s h :
  sim eq (collectTxFeesRollback a f c s h) (collectTxFeesRollback a f c s h).
Proof.
  unfold collectTxFeesRollback.
  repeat apply (sim_seq eq); apply sim_for_each; intros tx; try apply sim_take_back;
    apply (sim_seq eq); auto using sim_take_back, sim_give_back.
Qed.

Lemma sim_collectSlashRewardRollback reward b :
  sim eq (collectSlashRewardRollback reward b) (collectSlashRewardRollback reward b).
Proof.
  unfold collectSlashRewardRollback. destruct (has_slashing_proof b); [|by apply sim_ret].
  apply (sim_seq like); [auto with sim|]. apply (sim_seq eq); [auto with sim|].
  apply (sim_bind eq); [apply sim_gets; by intros m1 m2 (_ & _ & _ & _ & ->)|]. intros p ? <-.
  apply (sim_seq like); [auto with sim|]. apply (sim_seq eq); auto with sim.
Qed.

(** ** Undoing *)

(** [c] takes a state that looks like [m'] back to one that looks like [m]. *)
Definition undoes (c : M Miner unit) (m' m : Miner) : Prop :=
  exists m'', c m' = Done (tt, m'') /\ same_view m'' m.

Lemma undoes_exact c m' m : c m' = Done (tt, m) -> undoes c m' m.
Proof. intros H. by exists m. Qed.

Lemma undoes_view c m1 m2 m : sim eq c c -> same_view m1 m2 -> undoes c m2 m -> undoes c m1 m.
Proof.
  intros Hc Hm (m'' & E & Hv). specialize (Hc m1 m2 Hm). unfold outcome_view in Hc. rewrite E in Hc.
  destruct (c m1) as [ [ [] m1'] | | ] eqn:E1; try done. exists m1'. split; [done|].
  destruct Hc as [_ Hc]. by rewrite Hc.
Qed.

Lemma undoes_seq c d m2 m1 m : undoes c m2 m1 -> sim eq d d -> undoes d m1 m ->
  undoes (c;; d) m2 m.
Proof.
  intros (m'' & E & Hv) Hd Hm. destruct (undoes_view d m'' m1 m Hd Hv Hm) as (k & Ek & Hk).
  exists k. by rewrite (bind_Done _ _ _ _ _ E).
Qed.

Lemma undoes_ret m : undoes (mret tt) m m.
Proof. by apply undoes_exact. Qed.
End views.
