(* ===== verification/BlockRuns.v ===== *)
(** * Blocks: the run of [validateState], stage by stage

    [block_run] lists where the run of [validateState] can end. The money that
    a successful one creates is the sum of what its stages create; the
    rollback of a block, and of a block that fails late, takes the accounts
    back to where they were. *)

From S2P Require Import Prelude Format Chameleon Protocol Node Storage Params StateChange.
From S2P Require Import Ledger StateLemmas FeeLemmas Validation BlockLemmas Rollback.

Section blocks.
Context {DG : Digests} {SO : SortOps} {SL : SortLaws}.

(** ** Stages are undone *)

Lemma undoes_app {T} (body : T -> M Miner unit) l k m2 m1 m :
  (forall x, sim eq (body x) (body x)) ->
  undoes (for_each body l) m2 m1 -> undoes (for_each body k) m1 m -> undoes (for_each body (l ++ k)) m2 m.
Proof.
  intros Hb Hl Hk. destruct (undoes_seq (for_each body l) (for_each body k) m2 m1 m) as (m' & E & Hm');
    [done|by apply sim_for_each|done|].
  exists m'. by rewrite for_each_app.
Qed.

Lemma acc_undo txs m m' :
  Forall (fun tx => atx_Header tx = 0 \/ atx_Header tx = 1) txs ->
  (forall tx, tx ∈ txs -> RootKeys (ledger m) !! acc_key tx = None) -> ledger_ok (St m) ->
  accStateChange txs m = Done (None, m') -> undoes (accStateChangeRollback txs) m' m.
Proof.
  intros Hh Hroot Hok H.
  destruct (accStateChange_created txs m m' Hh H) as (Hs & Hn & Hnd & Hr).
  apply accStateChange_facts in H as (_ & _ & Ec & Ed & Ep); [|done].
  destruct (accStateChangeRollback_deletes txs m' Hh Hnd) as (m'' & E & Hs' & Hr' & Hr1 & Ep' & Ed' & Ec').
  { intros tx Hx. by apply Hn. }
  exists m''. split; [done|]. split_and!; try congruence.
  - f_equal. apply map_eq. intros h. rewrite Hs'. rewrite Hs. case_bool_decide as Hin; [|done].
    apply list_elem_of_fmap in Hin as (tx & -> & Hx). symmetry. by apply Hn.
  - apply map_eq. intros h.
    assert (Hnone : h ∈ acc_key <$> txs -> RootKeys (ledger m) !! h = None).
    { intros (tx & -> & Hx)%list_elem_of_fmap. by apply Hroot. }
    destruct (Hr' h) as [E1|[Hin ->] ]; [|symmetry; by apply Hnone].
    destruct (Hr h) as [E2|(tx & Hx & H1 & <-)]; [congruence|].
    rewrite (Hr1 tx), Hroot by done. done.
Qed.

Lemma sim_stakeTx_rollback tx : sim eq (stakeTx_rollback tx) (stakeTx_rollback tx).
Proof.
  apply (sim_bind like); [apply sim_account|].
  intros a b (_ & _ & _ & _ & -> & _)%like_fields. auto with sim.
Qed.

Lemma stakeTx_undo height init tx m m' : stakeTx_change height init tx m = Done (None, m') ->
  undoes (stakeTx_rollback tx) m' m.
Proof.
  intros (a & Ha & [Ht _ _] & ->)%stakeTx_change_inv.
  exists (with_St (alter (set_IsStaking (acc_IsStaking a)) (stx_Account tx)
    (alter (stake_set height tx) (stx_Account tx) (St m))) m).
  split.
  - unfold stakeTx_rollback. rewrite (account_bind _ (stake_set height tx a)).
    + rewrite update_account_run, with_with, St_with. simpl. by rewrite Ht.
    + by rewrite St_with, lookup_alter_eq, Ha.
  - split_and!; try done. rewrite St_with, alter_alter_eq. apply map_eq. intros h.
    rewrite !lookup_fmap. destruct (decide (h = stx_Account tx)) as [->|];
      [|by rewrite lookup_alter_ne by done].
    rewrite lookup_alter_eq, Ha. by destruct a.
Qed.

Lemma stake_undo txs height init m m' : stakeStateChange txs height init m = Done (None, m') ->
  undoes (stakeStateChangeRollback txs) m' m.
Proof.
  unfold stakeStateChange, stakeStateChangeRollback. revert m.
  induction txs as [|tx txs IH]; intros m H; [injection H as <-; apply undoes_ret|].
  simpl in H. apply bind_inv in H as (e & m1 & H1 & H2). destruct e as [e|]; [done|]. simpl.
  eapply undoes_app; [apply sim_stakeTx_rollback|by apply IH|]. simpl.
  eapply undoes_seq; [by eapply stakeTx_undo|by apply sim_ret|apply undoes_ret].
Qed.

(** Without aggregated transactions, the fees are those of the block. *)
Lemma fees_undo a f c s h init m m' : ledger_ok (St m) ->
  collectTxFees a f c s [] h init m = Done (None, m') ->
  undoes (collectTxFeesRollback a f c s h) m' m.
Proof.
  intros Hok (l & El & -> & Hall)%collectTxFees_inv; [|done]. injection El as <-.
  rewrite app_nil_r in *. by apply undoes_exact, collected_undo.
Qed.

(** ** Sequences of rollbacks *)

Definition then_all {A} (l : list (M Miner unit)) (c : M Miner A) : M Miner A :=
  foldr (fun c d => c;; d) c l.

Lemma then_all_ret {A} l (x y : A) m m' : then_all l (mret x) m = Done (y, m') ->
  y = x /\ then_all l (mret tt) m = Done (tt, m').
Proof.
  revert m. induction l as [|c l IH]; intros m H; [by injection H as <- <-|]. simpl in *.
  apply bind_inv in H as (u & m1 & H1 & H2). apply IH in H2 as [-> H2].
  by rewrite (bind_Done _ _ _ _ _ H1).
Qed.

(** Each rollback undoes one more stage. *)
Inductive undone : list (M Miner unit) -> Miner -> Miner -> Prop :=
| undone_nil m : undone [] m m
| undone_cons c l m2 m1 m : sim eq c c -> undoes c m2 m1 -> undone l m1 m -> undone (c :: l) m2 m.

Lemma undone_all l m2 m : undone l m2 m -> sim eq (then_all l (mret tt)) (then_all l (mret tt)) /\
  undoes (then_all l (mret tt)) m2 m.
Proof.
  induction 1 as [|c l m2 m1 m Hc Hu _ [IHs IHu] ].
  - split; [by apply sim_ret|apply undoes_ret].
  - split; [by apply (sim_seq eq)|by eapply undoes_seq].
Qed.

Lemma undone_result l m2 m m' : undone l m2 m -> then_all l (mret tt) m2 = Done (tt, m') -> same_view m' m.
Proof. intros [_ (m'' & E & Hv)]%undone_all E'. rewrite E in E'. by injection E' as <-. Qed.

(** ** The run of a block *)

Definition funds_stage (data : blockData) (init : bool) (m m3 : Miner) : Prop := exists m1 m2,
  accStateChange (accTxSlice data) m = Done (None, m1) /\
  fundsStateChange (fundsTxSlice data) init m1 = Done (None, m2) /\
  aggTxStateChange (aggregatedFundsTxSlice data) init m2 = Done (None, m3).

Definition stake_stage (data : blockData) (init : bool) (m m4 : Miner) : Prop := exists m3,
  funds_stage data init m m3 /\
  stakeStateChange (stakeTxSlice data) (blk_Height (block data)) init m3 = Done (None, m4).

Definition block_fees (data : blockData) (init : bool) : M Miner error :=
  collectTxFees (accTxSlice data) (fundsTxSlice data) (configTxSlice data) (stakeTxSlice data)
    (aggTxSlice data) (blk_Beneficiary (block data)) init.

Definition fee_stage (data : blockData) (init : bool) (m m5 : Miner) : Prop := exists m4,
  stake_stage data init m m4 /\ block_fees data init m4 = Done (None, m5).

Definition reward_of (m : Miner) : Z := BlockReward (activeParameters (chain m)).
Definition slash_of (m : Miner) : Z := SlashReward (activeParameters (chain m)).

Definition reward_stage (data : blockData) (init : bool) (m m6 : Miner) : Prop := exists m5,
  fee_stage data init m m5 /\
  collectBlockReward (reward_of m5) (blk_Beneficiary (block data)) init m5 = Done (None, m6).

Definition slash_stage (data : blockData) (init : bool) (m m7 : Miner) : Prop := exists m6,
  reward_stage data init m m6 /\ collectSlashReward (slash_of m6) (block data) m6 = Done (None, m7).

Definition undo_stakes (data : blockData) : list (M Miner unit) :=
  [stakeStateChangeRollback (stakeTxSlice data); fundsStateChangeRollback (fundsTxSlice data);
   aggregated_rollback data; accStateChangeRollback (accTxSlice data)].

Inductive block_run (data : blockData) (init : bool) (m : Miner) : error -> Miner -> Prop :=
| run_early e m' : (forall m4, ~ stake_stage data init m m4) -> block_run data init m (Some e) m'
| run_fees m4 e m' : stake_stage data init m m4 ->
    block_fees data init m4 = Done (Some e, m4) ->
    then_all (undo_stakes data) (mret tt) m4 = Done (tt, m') -> block_run data init m (Some e) m'
| run_reward m5 e m' : fee_stage data init m m5 ->
    then_all (fees_rollback data :: undo_stakes data) (mret tt) m5 = Done (tt, m') ->
    block_run data init m (Some e) m'
| run_slash m6 e m' : reward_stage data init m m6 ->
    then_all (collectBlockRewardRollback (reward_of m6) (blk_Beneficiary (block data)) ::
      fees_rollback data :: undo_stakes data) (mret tt) m6 = Done (tt, m') ->
    block_run data init m (Some e) m'
| run_done m7 m' : slash_stage data init m m7 ->
    m' = with_St (alter (set_StakingBlockHeight (blk_Height (block data))) (blk_Beneficiary (block data)) (St m7)) m7 ->
    block_run data init m None m'.

Lemma accStateChange_ok data m m1 : ledger_ok (St m) -> accStateChange (accTxSlice data) m = Done (None, m1) ->
  ledger_ok (St m1).
Proof. intros Hok H. by apply accStateChange_facts in H as (? & _). Qed.

Lemma fundsStateChange_facts init txs m e m' : ledger_ok (St m) ->
  fundsStateChange txs init m = Done (e, m') -> ledger_ok (St m') /\ same_context m m'.
Proof.
  intros Hok H. eapply (for_each_err_inv _ (fun k => ledger_ok (St k) /\ same_context m k));
    [|by split; [|apply same_context_refl]|exact H].
  intros x k e1 k' _ [Hk Hc] Hx%fundsTx_change_inv; [|done].
  split; [by eapply funds_result_ok|]. eapply same_context_trans; [done|by eapply funds_result_context].
Qed.

Lemma funds_stage_facts data init m m3 : ledger_ok (St m) -> funds_stage data init m m3 ->
  ledger_ok (St m3) /\ chain m3 = chain m /\ pool m3 = pool m /\ db m3 = db m.
Proof.
  intros Hok (m1 & m2 & H1 & H2 & H3). apply accStateChange_facts in H1 as (Hk & _ & Ec & Ed & Ep); [|done].
  apply fundsStateChange_facts in H2 as [Hk2 H2]; [|done].
  apply fundsStateChange_facts in H3 as [Hk3 H3]; [|done].
  split; [done|]. rewrite H3, H2. simpl. done.
Qed.

Lemma stake_stage_facts data init m m4 : ledger_ok (St m) -> stake_stage data init m m4 ->
  ledger_ok (St m4) /\ chain m4 = chain m /\ pool m4 = pool m /\ db m4 = db m.
Proof.
  intros Hok (m3 & H1 & H2). apply funds_stage_facts in H1 as (Hk & Ec & Ep & Ed); [|done].
  apply stakeStateChange_facts in H2 as (Hk' & _ & H2); [|done]. split; [done|]. by rewrite H2.
Qed.

Lemma fee_stage_facts data init m m5 : ledger_ok (St m) -> fee_stage data init m m5 ->
  ledger_ok (St m5) /\ chain m5 = chain m /\ is_Some (St m5 !! blk_Beneficiary (block data)).
Proof.
  intros Hok (m4 & H1 & H2). apply stake_stage_facts in H1 as (Hk & Ec & Ep & Ed); [|done].
  assert (Hb : is_Some (St m4 !! blk_Beneficiary (block data))).
  { unfold block_fees, collectTxFees in H2. apply bind_inv in H2 as (r & m0 & Hr & H2).
    apply GetAccount_inv in Hr as [-> ->]. destruct (_ !! _); [by eexists|done]. }
  unfold block_fees in H2. apply collectTxFees_inv in H2 as (l & El & -> & Hall); [|done].
  split; [by apply ledger_ok_ops|]. split; [done|]. rewrite St_with. by apply is_Some_apply_ops.
Qed.

Lemma reward_stage_facts data init m m6 : ledger_ok (St m) -> reward_stage data init m m6 ->
  ledger_ok (St m6) /\ chain m6 = chain m /\ is_Some (St m6 !! blk_Beneficiary (block data)).
Proof.
  intros Hok (m5 & H1 & H2). apply fee_stage_facts in H1 as (Hk & Ec & Hb); [|done].
  apply collectBlockReward_inv in H2 as (a & Ha & _ & ->).
  split; [apply ledger_ok_alter; auto with ledger|]. split; [done|].
  rewrite St_with. by apply is_Some_alter.
Qed.

Lemma slash_stage_beneficiary data init m m7 : ledger_ok (St m) -> slash_stage data init m m7 ->
  is_Some (St m7 !! blk_Beneficiary (block data)).
Proof.
  intros Hok (m6 & H1 & H2). apply reward_stage_facts in H1 as (_ & _ & Hb); [|done].
  apply collectSlashReward_inv in H2. destruct (has_slashing_proof _); [|by subst].
  destruct H2 as (a & c & _ & _ & _ & ->). rewrite St_with. unfold slashed. by do 2 apply is_Some_alter.
Qed.

(** The late part of [validateState], from the stakes on. *)
Lemma late_run data init m m4 e m' : ledger_ok (St m) ->
  stake_stage data init m m4 ->
  (err ← block_fees data init;
   match err with
   | Some e => then_all (undo_stakes data) (mret (Some e))
   | None =>
   reward ← block_reward;
   err ← collectBlockReward reward (blk_Beneficiary (block data)) init;
   match err with
   | Some e => then_all (fees_rollback data :: undo_stakes data) (mret (Some e))
   | None =>
   slash ← slash_reward;
   err ← collectSlashReward slash (block data);
   match err with
   | Some e => then_all (collectBlockRewardRollback reward (blk_Beneficiary (block data)) ::
       fees_rollback data :: undo_stakes data) (mret (Some e))
   | None =>
   err ← updateStakingHeight (block data);
   match err with
   | Some e => then_all (collectSlashRewardRollback slash (block data) ::
       collectBlockRewardRollback reward (blk_Beneficiary (block data)) ::
       fees_rollback data :: undo_stakes data) (mret (Some e))
   | None => mret None
   end end end end) m4 = Done (e, m') -> block_run data init m e m'.
Proof.
  intros Hok Hm4 H. pose proof (stake_stage_facts data init m m4 Hok Hm4) as (Hok4 & _).
  apply bind_inv in H as (e5 & m5 & H5 & H). destruct e5 as [e5|].
  { pose proof H5 as E. unfold block_fees in E. apply collectTxFees_inv in E; [|done]. simpl in E. subst m5.
    apply then_all_ret in H as [-> H]. by eapply run_fees. }
  assert (Hm5 : fee_stage data init m m5) by by exists m4.
  apply bind_inv in H as (rw & m6 & H6 & H). apply gets_inv in H6 as [-> ->].
  apply bind_inv in H as (e6 & m6 & H6 & H). destruct e6 as [e6|].
  { pose proof (collectBlockReward_inv _ _ _ _ _ _ H6) as E. simpl in E. subst m6.
    apply then_all_ret in H as [-> H]. by eapply run_reward. }
  assert (Hm6 : reward_stage data init m m6) by by exists m5.
  apply bind_inv in H as (sl & m7 & H7 & H). apply gets_inv in H7 as [-> ->].
  apply bind_inv in H as (e7 & m7 & H7 & H).
  assert (Hrw : reward_of m6 = reward_of m5).
  { apply collectBlockReward_inv in H6 as (a & _ & _ & ->). done. }
  change (BlockReward (activeParameters (chain m5))) with (reward_of m5) in *. rewrite <-Hrw in H.
  destruct e7 as [e7|].
  { pose proof (collectSlashReward_inv _ _ _ _ _ H7) as E. simpl in E. subst m7.
    apply then_all_ret in H as [-> H]. by eapply run_slash. }
  assert (Hm7 : slash_stage data init m m7) by by exists m6.
  apply bind_inv in H as (e8 & m8 & H8 & H). apply updateStakingHeight_inv in H8.
  destruct e8 as [e8|].
  { destruct H8 as [_ Hnone]. destruct (slash_stage_beneficiary data init m m7 Hok Hm7). congruence. }
  injection H as <- <-. by eapply run_done.
Qed.

Lemma validateState_run data init m e m' : ledger_ok (St m) ->
  validateState data init m = Done (e, m') -> block_run data init m e m'.
Proof.
  intros Hok H. unfold validateState in H.
  apply bind_inv in H as (e1 & m1 & H1 & H). destruct e1 as [e1|].
  { injection H as <- <-. apply run_early. intros m4 (m3 & (k1 & k2 & K1 & _) & _). congruence. }
  apply bind_inv in H as (e2 & m2 & H2 & H). destruct e2 as [e2|].
  { apply (then_all_ret [_]) in H as [-> H]. apply run_early.
    intros m4 (m3 & (k1 & k2 & K1 & K2 & _) & _). congruence. }
  apply bind_inv in H as (e3 & m3 & H3 & H). destruct e3 as [e3|].
  { apply (then_all_ret [_; _]) in H as [-> H]. apply run_early.
    intros m4 (m3' & (k1 & k2 & K1 & K2 & K3) & _). congruence. }
  apply bind_inv in H as (e4 & m4 & H4 & H). destruct e4 as [e4|].
  { apply (then_all_ret [_; _; _]) in H as [-> H]. apply run_early.
    intros m4' (m3' & (k1 & k2 & K1 & K2 & K3) & K4). congruence. }
  eapply late_run; [done| |exact H]. exists m3. split; [|done]. by exists m1, m2.
Qed.

(** ** Undoing a block *)

(** Blocks whose rollback is exact: no aggregation, no header 2 (see
    [accTx_rollback]), no transaction that was closed before. *)
Record plain_block (data : blockData) (init : bool) (m : Miner) : Prop := {
  pb_headers : Forall (fun tx => atx_Header tx = 0 \/ atx_Header tx = 1) (accTxSlice data);
  pb_roots : forall tx, tx ∈ accTxSlice data -> RootKeys (ledger m) !! acc_key tx = None;
  pb_aggs : aggTxSlice data = [];
  pb_aggregated : aggregatedFundsTxSlice data = [];
  pb_fresh : forall m1, accStateChange (accTxSlice data) m = Done (None, m1) ->
    init = true \/ Forall (fun tx => ~ already_closed tx m1) (fundsTxSlice data)
}.

Lemma aggregated_rollback_nil data : aggTxSlice data = [] -> aggregated_rollback data = mret tt.
Proof. unfold aggregated_rollback, aggregatedStateRollback. by intros ->. Qed.

Lemma aggTxStateChange_nil init : aggTxStateChange [] init = mret None.
Proof.
  unfold aggTxStateChange. pose proof (sort_ByTxCount_perm []) as Hp.
  apply Permutation_sym, Permutation_nil in Hp. by rewrite Hp.
Qed.

Lemma plain_undone data init m m4 : ledger_ok (St m) -> plain_block data init m ->
  stake_stage data init m m4 -> undone (undo_stakes data) m4 m.
Proof.
  intros Hok [Hh Hr Hg Hgf Hf] (m3 & (m1 & m2 & H1 & H2 & H3) & H4).
  rewrite Hgf, aggTxStateChange_nil in H3. injection H3 as <-. unfold undo_stakes.
  rewrite aggregated_rollback_nil by done.
  eapply undone_cons; [apply sim_stakeStateChangeRollback|by eapply stake_undo|].
  eapply undone_cons; [apply sim_fundsStateChangeRollback| |].
  { eapply undoes_exact, fundsStateChange_rollback; [by eapply accStateChange_ok|by apply Hf|done]. }
  eapply undone_cons; [by apply sim_ret|apply undoes_ret|].
  eapply undone_cons; [apply sim_accStateChangeRollback|by apply acc_undo|apply undone_nil].
Qed.

Lemma plain_undone_fees data init m m5 : ledger_ok (St m) -> plain_block data init m ->
  fee_stage data init m m5 -> undone (fees_rollback data :: undo_stakes data) m5 m.
Proof.
  intros Hok Hp (m4 & H4 & H5). eapply undone_cons; [apply sim_collectTxFeesRollback| |by eapply plain_undone].
  unfold block_fees in H5. rewrite (pb_aggs _ _ _ Hp) in H5.
  eapply fees_undo; [by apply (stake_stage_facts data init m m4)|done].
Qed.

Lemma plain_undone_reward data init m m6 : ledger_ok (St m) -> plain_block data init m ->
  reward_stage data init m m6 ->
  undone (collectBlockRewardRollback (reward_of m6) (blk_Beneficiary (block data)) ::
    fees_rollback data :: undo_stakes data) m6 m.
Proof.
  intros Hok Hp (m5 & H5 & H6).
  assert (reward_of m6 = reward_of m5) as ->.
  { apply collectBlockReward_inv in H6 as (a & _ & _ & ->). done. }
  eapply undone_cons; [apply sim_take_back| |by eapply plain_undone_fees].
  eapply undoes_exact, collectBlockReward_undo; [by apply (fee_stage_facts data init m m5)|done].
Qed.

(** An error from the fees on leaves no trace. *)
Lemma late_error_undone data init m m4 e m' : ledger_ok (St m) -> plain_block data init m ->
  stake_stage data init m m4 -> validateState data init m = Done (Some e, m') -> same_view m' m.
Proof.
  intros Hok Hp Hm4 H. apply validateState_run in H; [|done].
  inversion H as [? ? Hno|k ? ? Hk _ E|k ? ? Hk E|k ? ? Hk E|]; subst.
  - by apply Hno in Hm4.
  - eapply undone_result; [by eapply plain_undone|done].
  - eapply undone_result; [by eapply plain_undone_fees|done].
  - eapply undone_result; [by eapply plain_undone_reward|done].
Qed.

Lemma then_all_last l (c : M Miner unit) m : then_all (l ++ [c]) (mret tt) m = then_all l c m.
Proof.
  revert m. induction l as [|d l IH]; intros m; simpl; unfold mbind, M_bind in *.
  - by destruct (c m) as [ [ [] ?] | | ].
  - by destruct (d m) as [ [ [] ?] | | ].
Qed.

(** The rollback of a block that was accepted. *)
Lemma accepted_undone data init m m' : ledger_ok (St m) -> plain_block data init m ->
  has_slashing_proof (block data) = false ->
  validateState data init m = Done (None, m') -> undoes (validateStateRollback data) m' m.
Proof.
  intros Hok Hp Hs H. apply validateState_run in H; [|done].
  inversion H as [| | | |m7 ? (m6 & H6 & H7) Hm']; subst m'0.
  apply collectSlashReward_inv in H7. rewrite Hs in H7. subst m7.
  assert (Hview : same_view m' m6).
  { subst m'. split; [|done]. rewrite St_with. apply map_eq. intros h. rewrite !lookup_fmap.
    destruct (decide (h = blk_Beneficiary (block data))) as [->|]; [|by rewrite lookup_alter_ne by done].
    rewrite lookup_alter_eq. destruct (St m6 !! _) as [a|]; [|done]. by destruct a. }
  assert (Er : reward_of m' = reward_of m6) by by subst m'.
  destruct (undone_all _ _ _ (plain_undone_reward data init m m6 Hok Hp H6)) as [Hsim Hu].
  destruct (undoes_view _ _ _ _ Hsim Hview Hu) as (k & Ek & Hk).
  exists k. split; [|done]. rewrite <-Ek, <-Er. unfold validateStateRollback, slash_reward, block_reward.
  rewrite (bind_Done _ _ _ _ _ eq_refl). unfold collectSlashRewardRollback. rewrite Hs.
  rewrite (bind_Done _ _ _ _ _ eq_refl), (bind_Done _ _ _ _ _ eq_refl).
  symmetry. apply (then_all_last [_; _; _; _; _]).
Qed.

(** ** The money of a block *)

Definition sum_of {A} (f : A -> Z) (l : list A) : Z := foldr (fun x t => f x + t) 0 l.

Lemma minted_app init m l k : minted init m (l ++ k) = minted init m l + minted init m k.
Proof. induction l as [|x l IH]; simpl; [done|]. rewrite IH. lia. Qed.

Lemma minted_perm init m l k : Permutation l k -> minted init m l = minted init m k.
Proof. induction 1; simpl; lia. Qed.

Lemma op_total_minted {T} (fee : T -> Z) h l :
  op_total (ops_all (fun tx => minted_ops h (fee tx)) l) = sum_of fee l.
Proof. induction l as [|x l IH]; [done|]. rewrite ops_all_cons, op_total_app, IH. simpl. lia. Qed.

Lemma op_total_paid {T} (sender : T -> hash) (fee : T -> Z) h l :
  op_total (ops_all (fun tx => paid_ops h (sender tx) (fee tx)) l) = 0.
Proof. induction l as [|x l IH]; [done|]. rewrite ops_all_cons, op_total_app, IH. simpl. lia. Qed.

Lemma op_total_fees a f c s h : op_total (fee_ops a f c s h) = sum_of atx_Fee a + sum_of ctx_Fee c.
Proof. unfold fee_ops. rewrite !op_total_app, !op_total_minted, !op_total_paid. lia. Qed.

(** What the slashing of a validator creates (the reward) and destroys. *)
Definition slash_money (b : Block) (p : Parameters) : Z :=
  if has_slashing_proof b then SlashReward p - StakingMinimum p else 0.

Lemma total_slashed reward b p s :
  is_Some (s !! blk_Beneficiary b) -> is_Some (s !! blk_SlashedAddress b) ->
  u64 (total (slashed reward b p s)) = u64 (total s + (reward - StakingMinimum p)).
Proof.
  intros Hb Hs. unfold slashed.
  replace (alter (slash_set (StakingMinimum p)) (blk_SlashedAddress b) (alter (credit reward) (blk_Beneficiary b) s))
    with (alter (set_IsStaking false) (blk_SlashedAddress b) (alter (debit (StakingMinimum p)) (blk_SlashedAddress b)
      (alter (credit reward) (blk_Beneficiary b) s))) by by rewrite alter_alter_eq.
  rewrite total_same, total_debit by auto with ledger.
  rewrite <-wrap_sub_l, total_credit, wrap_sub_l by done. f_equal. lia.
Qed.

Lemma funds_stage_total data init m m3 : ledger_ok (St m) -> funds_stage data init m m3 ->
  exists m1, accStateChange (accTxSlice data) m = Done (None, m1) /\
  u64 (total (St m3)) = u64 (total (St m) + minted init m1 (fundsTxSlice data ++ aggregatedFundsTxSlice data)).
Proof.
  intros Hok (m1 & m2 & H1 & H2 & H3). exists m1. split; [done|].
  pose proof (accStateChange_facts _ _ _ _ Hok H1) as (Hk1 & <- & _).
  pose proof (fundsStateChange_facts _ _ _ _ _ Hk1 H2) as [Hk2 Hc].
  rewrite (fundsStateChange_total _ _ _ _ Hk2 H3), <-wrap_add_l, (fundsStateChange_total _ _ _ _ Hk1 H2).
  rewrite wrap_add_l, minted_app. f_equal.
  rewrite (minted_perm init m2 _ _ (sort_ByTxCount_perm _)).
  assert (minted init m2 (aggregatedFundsTxSlice data) = minted init m1 (aggregatedFundsTxSlice data)) as ->
    by by rewrite Hc. lia.
Qed.

Lemma fee_stage_total data init m m5 : ledger_ok (St m) -> fee_stage data init m m5 ->
  exists m1, accStateChange (accTxSlice data) m = Done (None, m1) /\
  u64 (total (St m5)) = u64 (total (St m) + minted init m1 (fundsTxSlice data ++ aggregatedFundsTxSlice data)
    + sum_of atx_Fee (accTxSlice data) + sum_of ctx_Fee (configTxSlice data)).
Proof.
  intros Hok (m4 & (m3 & H3 & H4) & H5).
  destruct (funds_stage_total data init m m3 Hok H3) as (m1 & H1 & E). exists m1. split; [done|].
  apply funds_stage_facts in H3 as [Hk3 _]; [|done].
  apply stakeStateChange_facts in H4 as (Hk4 & E4 & _); [|done].
  unfold block_fees in H5. apply collectTxFees_inv in H5 as (l & _ & -> & Hall); [|done].
  rewrite St_with, total_apply_ops, op_total_fees, <-wrap_add_l, E4, E, wrap_add_l by done. f_equal. lia.
Qed.

Lemma block_total data init m m' : ledger_ok (St m) -> validateState data init m = Done (None, m') ->
  exists m1, accStateChange (accTxSlice data) m = Done (None, m1) /\
  u64 (total (St m')) = u64 (total (St m) + minted init m1 (fundsTxSlice data ++ aggregatedFundsTxSlice data)
    + sum_of atx_Fee (accTxSlice data) + sum_of ctx_Fee (configTxSlice data)
    + reward_of m + slash_money (block data) (activeParameters (chain m))).
Proof.
  intros Hok H. apply validateState_run in H; [|done].
  inversion H as [| | | |m7 ? (m6 & (m5 & H5 & H6) & H7) Hm']; subst m'0.
  destruct (fee_stage_total data init m m5 Hok H5) as (m1 & H1 & E). exists m1. split; [done|].
  apply fee_stage_facts in H5 as (Hk5 & Ec & _); [|done].
  apply collectBlockReward_inv in H6 as (a & Ha & _ & ->).
  assert (E6 : u64 (total (alter (credit (reward_of m5)) (blk_Beneficiary (block data)) (St m5))) =
    u64 (total (St m5) + reward_of m)).
  { rewrite total_credit by by eexists. unfold reward_of. by rewrite Ec. }
  subst m'. rewrite St_with, total_same by done. apply collectSlashReward_inv in H7. unfold slash_money.
  destruct (has_slashing_proof _).
  - destruct H7 as (b & c & Hb & Hc & _ & ->). rewrite !St_with in *.
    rewrite total_slashed by by eexists. simpl. unfold slash_of. simpl. rewrite Ec.
    rewrite <-wrap_add_l, E6, wrap_add_l, <-Z.add_assoc, <-wrap_add_l, E, wrap_add_l. f_equal. lia.
  - subst m7. rewrite St_with, E6, <-wrap_add_l, E, wrap_add_l. f_equal. lia.
Qed.
End blocks.
