(* ===== verification/ParamLemmas.v ===== *)
(** * Parameters and statistics: bounds and rollbacks

    The system parameters stay within the bounds of [protocol/configtx.go]
    whatever configuration transactions are applied; the history of the
    parameters and the statistics of the difficulty are restored by their
    rollbacks. *)

From S2P Require Import Prelude Format Chameleon Protocol Node Storage Params Ledger Validation.

(** ** Bounds *)

Record params_ok (p : Parameters) : Prop := {
  ok_BlockSize : MIN_BLOCK_SIZE <= BlockSize p <= MAX_BLOCK_SIZE;
  ok_DiffInterval : MIN_DIFF_INTERVAL <= DiffInterval p <= MAX_DIFF_INTERVAL;
  ok_FeeMinimum : MIN_FEE_MINIMUM <= FeeMinimum p <= MAX_FEE_MINIMUM;
  ok_BlockInterval : MIN_BLOCK_INTERVAL <= BlockInterval p <= MAX_BLOCK_INTERVAL;
  ok_BlockReward : MIN_BLOCK_REWARD <= BlockReward p <= MAX_BLOCK_REWARD;
  ok_StakingMinimum : MIN_STAKING_MINIMUM <= StakingMinimum p <= MAX_STAKING_MINIMUM;
  ok_WaitingMinimum : MIN_WAITING_TIME <= WaitingMinimum p <= MAX_WAITING_TIME;
  ok_AcceptedTimeDiff : MIN_ACCEPTANCE_TIME_DIFF <= AcceptedTimeDiff p <= MAX_ACCEPTANCE_TIME_DIFF;
  ok_SlashingWindowSize : MIN_SLASHING_WINDOW_SIZE <= SlashingWindowSize p <= MAX_SLASHING_WINDOW_SIZE;
  ok_SlashReward : MIN_SLASHING_REWARD <= SlashReward p <= MAX_SLASHING_REWARD
}.

Lemma default_params_ok : params_ok NewDefaultParameters.
Proof. by split. Qed.

Lemma within_inv lo hi x : (lo <=? x) && (x <=? hi) = true -> lo <= x <= hi.
Proof. rewrite andb_true_iff, !Z.leb_le. done. Qed.

(** What one transaction does to the parameters of a pointer. *)
Definition sound_change (p : Parameters) (c : M Miner (Parameters * bool)) : Prop :=
  forall m r ch m', c m = Done ((r, ch), m') ->
    params_ok r /\ BlockHash r = BlockHash p /\ chain m' = chain m /\ (ch = false -> m' = m /\ r = p).

(** A field within its bounds is set, or nothing happens. *)
Lemma sound_set (b : bool) p r : params_ok p -> BlockHash r = BlockHash p ->
  (b = true -> params_ok r) ->
  sound_change p (mret (if b then (r, true) else (p, false))).
Proof. intros Hp Hb Hr m r' ch m'. destruct b; intros [= <- <- <-]; naive_solver. Qed.

Ltac eval_ids := unfold BLOCK_SIZE_ID, DIFF_INTERVAL_ID, FEE_MINIMUM_ID, BLOCK_INTERVAL_ID,
  BLOCK_REWARD_ID, STAKING_MINIMUM_ID, WAITING_MINIMUM_ID, ACCEPTANCE_TIME_DIFF_ID,
  SLASHING_WINDOW_SIZE_ID, SLASHING_REWARD_ID; cbn [Z.eqb Pos.eqb].

(** The hypothesis for each field, compared syntactically: the bounds are large
    constants. *)
Ltac fields_ok := constructor; cbn [FeeMinimum BlockSize DiffInterval BlockInterval BlockReward StakingMinimum
    WaitingMinimum AcceptedTimeDiff SlashingWindowSize SlashReward upd_FeeMinimum upd_BlockSize
    upd_DiffInterval upd_BlockInterval upd_BlockReward upd_StakingMinimum upd_WaitingMinimum
    upd_AcceptedTimeDiff upd_SlashingWindowSize upd_SlashReward upd_BlockHash];
  match goal with H : ?Q |- ?P => constr_eq Q P; exact H end.

Ltac set_field := eval_ids; apply sound_set; [assumption|reflexivity|];
  let E := fresh in intros E; apply within_inv in E;
  match goal with H : params_ok _ |- _ => destruct H end; fields_ok.

Lemma change_parameter_ok tx p : params_ok p -> sound_change p (change_parameter tx p).
Proof.
  intros Hp. unfold change_parameter, parameterBoundsChecking. cbv zeta.
  destruct (Z.eqb_spec (ctx_Id tx) FEE_MINIMUM_ID) as [Hid|]; [try rewrite Hid; set_field|].
  destruct (Z.eqb_spec (ctx_Id tx) BLOCK_SIZE_ID) as [Hid|]; [try rewrite Hid; set_field|].
  destruct (Z.eqb_spec (ctx_Id tx) BLOCK_REWARD_ID) as [Hid|]; [try rewrite Hid; set_field|].
  destruct (Z.eqb_spec (ctx_Id tx) DIFF_INTERVAL_ID) as [Hid|]; [try rewrite Hid; set_field|].
  destruct (Z.eqb_spec (ctx_Id tx) BLOCK_INTERVAL_ID) as [Hid|]; [try rewrite Hid; set_field|].
  destruct (Z.eqb_spec (ctx_Id tx) STAKING_MINIMUM_ID) as [Hid|].
  { eval_ids. change (sound_change p (if (MIN_STAKING_MINIMUM <=? ctx_Payload tx) && (ctx_Payload tx <=? MAX_STAKING_MINIMUM)
      then on_ledger (upd_State (fmap (unstake_below (ctx_Payload tx))));;
           mret (upd_StakingMinimum (fun _ => ctx_Payload tx) p, true)
      else mret (p, false))).
    assert (sound_change p (mret (if (MIN_STAKING_MINIMUM <=? ctx_Payload tx) && (ctx_Payload tx <=? MAX_STAKING_MINIMUM)
      then (upd_StakingMinimum (fun _ => ctx_Payload tx) p, true) else (p, false)))) as Hs.
    { set_field. }
    destruct (_ && _); [|done]. intros m r ch m' [= <- <- <-].
    by destruct (Hs m _ _ _ eq_refl) as (? & ? & _). }
  destruct (Z.eqb_spec (ctx_Id tx) WAITING_MINIMUM_ID) as [Hid|]; [try rewrite Hid; set_field|].
  destruct (Z.eqb_spec (ctx_Id tx) ACCEPTANCE_TIME_DIFF_ID) as [Hid|]; [try rewrite Hid; set_field|].
  destruct (Z.eqb_spec (ctx_Id tx) SLASHING_WINDOW_SIZE_ID) as [Hid|]; [try rewrite Hid; set_field|].
  destruct (Z.eqb_spec (ctx_Id tx) SLASHING_REWARD_ID) as [Hid|]; [try rewrite Hid; set_field|].
  by intros m r ch m' [= <- <- <-].
Qed.

Lemma CheckAndChangeParameters_ok txs p c m r c' m' : params_ok p ->
  CheckAndChangeParameters p txs c m = Done ((r, c'), m') ->
  params_ok r /\ BlockHash r = BlockHash p /\ chain m' = chain m /\
  (c' = false -> m' = m /\ r = p /\ c = false).
Proof.
  revert p c m. induction txs as [|tx txs IH]; intros p c m Hp H; [by injection H as <- <- <-|].
  simpl in H. apply bind_inv in H as ([p1 c1] & m1 & H1 & H2).
  apply change_parameter_ok in H1 as (Hp1 & Hb1 & Hc1 & Hf1); [|done].
  apply IH in H2 as (Hr & Hb & Hc & Hf); [|done]. split; [done|]. split; [congruence|].
  split; [congruence|]. intros E. destruct (Hf E) as (-> & -> & [-> ->]%orb_false_iff).
  by destruct (Hf1 eq_refl) as [-> ->].
Qed.

(** ** The history of the parameters *)

Record chain_ok (c : Chain) : Prop := {
  co_active : params_ok (activeParameters c);
  co_history : Forall params_ok (parameterSlice c);
  co_last : last (parameterSlice c) = Some (activeParameters c)
}.

Lemma params_ok_hash f p : params_ok p -> params_ok (upd_BlockHash f p).
Proof. intros []. fields_ok. Qed.

(** A new version of the parameters, or nothing. *)
Lemma configStateChange_inv txs h m m' : chain_ok (chain m) ->
  configStateChange txs h m = Done (tt, m') ->
  chain m' = chain m \/
  txs <> [] /\ exists p, params_ok p /\ BlockHash p = h /\
    chain m' = upd_activeParameters (fun _ => p) (upd_parameterSlice (fun l => l ++ [p]) (chain m)).
Proof.
  intros [Ha Hh Hl] H. unfold configStateChange in H. apply bind_inv in H as (p & m1 & H1 & H).
  apply gets_inv in H1 as [-> ->]. destruct txs as [|tx txs]; [injection H as <-; by left|].
  apply bind_inv in H as ([r c] & m1 & H1 & H).
  apply CheckAndChangeParameters_ok in H1 as (Hr & Hb & Hc & Hf); [|done]. destruct c.
  - right. split; [done|]. injection H as <-. exists (upd_BlockHash (fun _ => h) r). split; [by apply params_ok_hash|].
    split; [done|]. simpl. by rewrite Hc.
  - injection H as <-. by left.
Qed.

Lemma configStateChange_ok txs h m m' : chain_ok (chain m) ->
  configStateChange txs h m = Done (tt, m') -> chain_ok (chain m').
Proof.
  intros Hc H. destruct (configStateChange_inv _ _ _ _ Hc H) as [->|(_ & p & Hp & _ & ->)]; [done|].
  destruct Hc as [Ha Hh Hl]. split; simpl; [done| |by apply last_snoc].
  apply Forall_app. split; [done|by apply Forall_singleton].
Qed.

Lemma configStateChange_undo txs h m m' : chain_ok (chain m) ->
  BlockHash (activeParameters (chain m)) <> h ->
  configStateChange txs h m = Done (tt, m') ->
  exists m'', configStateChangeRollback txs h m' = Done (tt, m'') /\ chain m'' = chain m.
Proof.
  intros Hc Hne H. unfold configStateChangeRollback.
  destruct (configStateChange_inv _ _ _ _ Hc H) as [E|(Hx & p & Hp & Hb & E)].
  - exists m'. destruct txs as [|tx txs]; [done|]. split; [|done].
    rewrite (bind_Done _ _ _ _ _ eq_refl), E, (co_last _ Hc), (bind_Done _ _ _ _ _ eq_refl).
    by rewrite bool_decide_eq_false_2.
  - destruct txs as [|tx txs]; [done|].
    rewrite (bind_Done _ _ _ _ _ eq_refl), E. simpl. rewrite last_snoc, (bind_Done _ _ _ _ _ eq_refl).
    rewrite bool_decide_eq_true_2 by done. simpl. rewrite removelast_last, (co_last _ Hc).
    rewrite (bind_Done _ _ _ _ _ eq_refl). eexists. split; [done|]. simpl. rewrite E. by destruct (chain m).
Qed.

Lemma configStateChangeRollback_ok txs h m m' : chain_ok (chain m) ->
  configStateChangeRollback txs h m = Done (tt, m') -> chain_ok (chain m').
Proof.
  intros Hc H. unfold configStateChangeRollback in H. destruct txs as [|tx txs]; [by injection H as <-|].
  apply bind_inv in H as (l & m1 & H1 & H). apply gets_inv in H1 as [-> ->].
  apply bind_inv in H as (latest & m1 & H1 & H). apply of_option_inv in H1 as [_ ->].
  destruct (negb _); [by injection H as <-|].
  apply bind_inv in H as (previous & m1 & H1 & H). apply of_option_inv in H1 as [Hp ->].
  injection H as <-. destruct Hc as [Ha Hh Hl].
  assert (Hr : Forall params_ok (removelast (parameterSlice (chain m)))).
  { apply last_Some in Hl as (k & E). rewrite E, removelast_last. rewrite E in Hh.
    by apply Forall_app in Hh as [? _]. }
  split; simpl; [|done|done]. apply last_Some in Hp as (k & E). rewrite E in Hr.
  apply Forall_app in Hr as [_ Hr]. rewrite Forall_singleton in Hr. exact Hr.
Qed.

(** The steps that touch the parameters: a block is applied or rolled back. *)
Inductive config_step : Miner -> Miner -> Prop :=
| config_apply txs h m m' : configStateChange txs h m = Done (tt, m') -> config_step m m'
| config_undo txs h m m' : configStateChangeRollback txs h m = Done (tt, m') -> config_step m m'.

Lemma config_steps_ok m m' : rtc config_step m m' -> chain_ok (chain m) -> chain_ok (chain m').
Proof.
  induction 1 as [|m m1 m' Hs _ IH]; intros Hc; [done|]. apply IH.
  destruct Hs; [by eapply configStateChange_ok|by eapply configStateChangeRollback_ok].
Qed.

(** ** The statistics *)

Section statistics.
Context {FO : FloatOps}.

(** The difficulty changes by at most 3, modulo 256. *)
Lemma calculateNewDifficulty_step t m d m' : calculateNewDifficulty t m = Done (d, m') ->
  exists current, last (target (chain m)) = Some current /\ m' = m /\
    (d = current \/ exists k, -3 <= k <= 3 /\ d = u8 (current + k)).
Proof.
  unfold calculateNewDifficulty. intros H.
  apply bind_inv in H as (p & m1 & H1 & H). apply gets_inv in H1 as [-> ->]. cbv zeta in H.
  assert (Hd : forall c m2, getDifficulty m = Done (c, m2) -> last (target (chain m)) = Some c /\ m2 = m).
  { intros c m2 Hg. unfold getDifficulty in Hg. apply bind_inv in Hg as (l & m3 & H3 & Hg).
    apply gets_inv in H3 as [-> ->]. by apply of_option_inv in Hg. }
  destruct (_ && _) eqn:Eneg.
  - apply Hd in H as [Hc ->]. exists d. by split_and!; [| |left].
  - apply bind_inv in H as (c & m2 & H1 & H). apply Hd in H1 as [Hc ->].
    injection H as <- <-. exists c. split; [done|]. split; [done|]. right.
    set (k := log2_round _ _). rewrite wrap_add_l.
    destruct (Z.ltb_spec 3 k); [|destruct (Z.ltb_spec k (-3))]; eexists; (split; [|f_equal; apply Z.add_comm]); lia.
Qed.

Definition counts_ok (c : Chain) : Prop :=
  globalBlockCount c < 2 ^ 63 - 1 /\ 0 <= localBlockCount c <= globalBlockCount c /\
  2 <= DiffInterval (activeParameters c) < 2 ^ 63 /\
  localBlockCount c + 1 <= DiffInterval (activeParameters c) /\ tr_last (currentTargetTime c) = 0.

(** The new statistics, with the difficulty that was appended, if any. *)
Definition counted (b : Block) (c : Chain) : Chain :=
  mkChain (parameterSlice c) (activeParameters c) (target c) (targetTimes c) (currentTargetTime c)
    (globalBlockCount c + 1) (localBlockCount c + 1) (Some b) (slashingDict c).

Definition interval_closed (b : Block) (t : Z) (c : Chain) : Chain :=
  mkChain (parameterSlice c) (activeParameters c) (target c ++ [t])
    (targetTimes c ++ [mkTimerange (tr_first (currentTargetTime c)) (blk_Timestamp b)])
    (mkTimerange (blk_Timestamp b) 0) (globalBlockCount c + 1) 0 (Some b) (slashingDict c).

Lemma collectStatistics_inv b m m' : counts_ok (chain m) -> collectStatistics b m = Done (tt, m') ->
  exists c', m' = upd_chain (fun _ => c') m /\
  ((localBlockCount (chain m) + 1 < DiffInterval (activeParameters (chain m)) /\ c' = counted b (chain m)) \/
   (localBlockCount (chain m) + 1 = DiffInterval (activeParameters (chain m)) /\
     exists t, c' = interval_closed b t (chain m))).
Proof.
  intros (Hg & Hl & Hdi & Hle & _) H. unfold collectStatistics in H.
  rewrite (bind_Done _ _ _ _ _ eq_refl), (bind_Done _ _ _ _ _ eq_refl), (bind_Done _ _ _ _ _ eq_refl) in H.
  set (m1 := upd_chain _ (upd_chain _ m)) in H.
  assert (E1 : m1 = upd_chain (upd_localBlockCount (fun _ => localBlockCount (chain m) + 1))
    (upd_chain (upd_globalBlockCount (fun _ => globalBlockCount (chain m) + 1)) m)).
  { unfold m1, upd_chain, upd_localBlockCount, upd_globalBlockCount. simpl. by rewrite !to_int64_nonneg by lia. }
  clearbody m1. subst m1. simpl in H. rewrite (to_int64_nonneg (DiffInterval _)) in H by lia.
  apply bind_inv in H as (u & m2 & H1 & H). injection H as <-.
  destruct (Z.leb_spec (DiffInterval (activeParameters (chain m))) (localBlockCount (chain m) + 1)).
  - apply bind_inv in H1 as (t & m3 & H2 & H1). injection H1 as _ <-.
    assert (m3 = upd_chain (upd_localBlockCount (fun _ => localBlockCount (chain m) + 1))
      (upd_chain (upd_globalBlockCount (fun _ => globalBlockCount (chain m) + 1)) m)) as ->.
    { destruct (_ =? 0); [by apply of_option_inv in H2 as [_ ->]|].
      by apply calculateNewDifficulty_step in H2 as (c & _ & -> & _). }
    eexists. split; [reflexivity|]. right. split; [lia|]. by exists t.
  - injection H1 as _ <-. eexists. split; [reflexivity|]. by left.
Qed.

(** The updates of a state whose fields are known, evaluated. *)
Ltac eval_chain :=
  cbv [upd_chain upd_lastBlock upd_localBlockCount upd_globalBlockCount upd_target upd_targetTimes
    upd_currentTargetTime counted interval_closed ledger pool db chain parameterSlice activeParameters
    target targetTimes currentTargetTime globalBlockCount localBlockCount lastBlock slashingDict
    tr_first tr_last].

Lemma collectStatistics_undo b m m' : counts_ok (chain m) ->
  closedblocks (db m) !! blk_PrevHash b = lastBlock (chain m) ->
  collectStatistics b m = Done (tt, m') -> collectStatisticsRollback b m' = Done (tt, m).
Proof.
  intros Hc Hprev H. destruct (collectStatistics_inv b m m' Hc H) as (c' & -> & Hc'). clear H.
  destruct Hc as (Hg & Hl & Hdi & Hle & Hlast). unfold collectStatisticsRollback.
  rewrite (bind_Done _ _ _ _ _ eq_refl), (bind_Done _ _ _ _ _ eq_refl). simpl.
  destruct m as [le po da [ps ap ta tt' [cf cl] gl lo lb sl] ]. simpl in *. subst cl.
  destruct Hc' as [ [Hlt ->]|[Heq [t ->] ] ]; simpl.
  - rewrite (proj2 (Z.eqb_neq (lo + 1) 0)) by lia. simpl. unfold ReadClosedBlock, read_db.
    cbv [mbind M_bind gets on_chain modify]. simpl. rewrite Hprev.
    eval_chain.
    rewrite !to_int64_nonneg by lia.
    by rewrite !Z.add_simpl_r.
  - rewrite (to_int64_nonneg (gl + 1 - 1)), (proj2 (Z.eqb_neq (gl + 1 - 1) 0)), last_snoc by lia.
    rewrite bool_decide_eq_false_2 by (by destruct ta). unfold ReadClosedBlock, read_db. simpl.
    cbv [mbind M_bind gets on_chain modify of_option mret M_ret]. simpl. rewrite Hprev.
    eval_chain. rewrite !removelast_last.
    rewrite !to_int64_nonneg by (rewrite ?to_int64_nonneg by lia; lia).
    rewrite Z.add_simpl_r. do 4 f_equal. lia.
Qed.
End statistics.

(** ** Duplicates *)

Lemma no_duplicates_spec msg hs seen :
  match no_duplicates msg hs seen with
  | (None, seen') => NoDup hs /\ (forall h, h ∈ hs -> h ∉ seen) /\ (forall h, h ∈ seen' <-> h ∈ hs \/ h ∈ seen)
  | (Some _, _) => ~ (NoDup hs /\ (forall h, h ∈ hs -> h ∉ seen))
  end.
Proof.
  revert seen. induction hs as [|h hs IH]; intros seen; simpl.
  { split; [constructor|]. set_solver. }
  case_bool_decide as Hin; [intros [_ Hn]; apply (Hn h); [by left|done] |].
  specialize (IH ({[h]} ∪ seen)). destruct (no_duplicates msg hs _) as [ [e|] seen'].
  - intros [ [Hh Hnd]%NoDup_cons Hn]. apply IH. split; [done|]. intros k Hk.
    assert (k <> h) by (intros ->; done). specialize (Hn k). set_solver.
  - destruct IH as (Hnd & Hn & Hs). split; [|split].
    + constructor; [|done]. intros Hh. specialize (Hn h Hh). set_solver.
    + intros k [->|Hk]%elem_of_cons; [done|]. specialize (Hn k Hk). set_solver.
    + intros k. rewrite Hs, elem_of_cons. set_solver.
Qed.

Lemma no_duplicates_all_spec l seen :
  no_duplicates_all l seen = None <->
  NoDup (mjoin (snd <$> l)) /\ (forall h, h ∈ mjoin (snd <$> l) -> h ∉ seen).
Proof.
  revert seen. induction l as [| [msg hs] l IH]; intros seen; simpl.
  { split; [|done]. split; [constructor|]. by intros h ?%elem_of_nil. }
  pose proof (no_duplicates_spec msg hs seen) as Hs. rewrite NoDup_app.
  destruct (no_duplicates msg hs seen) as [ [e|] seen'].
  - split; [done|]. intros [(Hnd & _ & _) Hn]. destruct Hs. split; [done|].
    intros h Hh. apply Hn, elem_of_app. by left.
  - destruct Hs as (Hnd & Hn & Hs). rewrite IH. split.
    + intros [Hl Hl']. split_and!; [done| |done|].
      * intros h Hh Hj. apply (Hl' h Hj). apply Hs. by left.
      * intros h [Hh|Hh]%elem_of_app; [by apply Hn|]. intros Hx. apply (Hl' h Hh), Hs. by right.
    + intros [(_ & Hd & Hl) Hx]. split; [done|]. intros h Hh [Hh'|Hh']%Hs; [by apply (Hd h)|].
      apply (Hx h); [|done]. apply elem_of_app. by right.
Qed.
