(* ===== verification/LedgerProps.v ===== *)
(** * Properties of the accounts and of blocks

    What a block does to the accounts: transactions one by one and in lists,
    fees, accounts, slashing, the money of a whole block, and how far a block
    can be undone. Every theorem has a witness on a small ledger. *)

From S2P Require Import Prelude Format Chameleon Protocol Node Storage Params StateChange.
From S2P Require Import Ledger StateLemmas FeeLemmas Validation BlockLemmas Rollback BlockRuns.

(** ** A ledger for the witnesses *)

Module Toy.
(** Stand-ins for the digests and the sort. *)
#[global] Instance digests : Digests :=
  {| sha256 m := take 32 (m ++ zeros 32); sha3_256 m := take 32 (m ++ zeros 32); SetString_undefined _ := 0 |}.
#[global] Instance sorting : SortOps := {| sort_ByTxCount l := l |}.
#[global] Instance sorting_laws : SortLaws.
Proof. split. reflexivity. Defined.

Lemma digest_laws : DigestLaws.
Proof.
  split; intros m; simpl; unfold zeros; rewrite length_take, length_app, length_replicate; lia.
Qed.

(** Keys of a small group: [G = 4] of order 11 modulo 23, [HK = G^3]. *)
Definition keys : ChameleonHashParameters := mkCHParams (hex 4) (hex 23) (hex 11) (hex 18) (hex 3).
Definition check : ChameleonHashCheckString := mkCheckString (hex 5) (hex 7).

Definition addr (n : Z) : address := mkb n :: zeros 63.
Definition key (n : Z) : hash := SerializeHashContent (VBytes (addr n)).
Definition acct (n balance : Z) (staking : bool) : Account :=
  set_Balance balance (set_IsStaking staking (NewAccount (addr n) zero_hash balance staking
    (zeros COMM_KEY_LENGTH) None [] (Some keys))).

Definition ledger0 (accs : list (Z * Z * bool)) (roots : list Z) : Ledger :=
  mkLedger (list_to_map (map (fun a => (key (fst (fst a)), acct (fst (fst a)) (snd (fst a)) (snd a))) accs))
    (list_to_map (map (fun n => (key n, addr n)) roots))
    (list_to_map (map (fun a => (key (fst (fst a)), keys)) accs)).

Definition no_buckets : Buckets := mkBuckets ∅ ∅ ∅ ∅ ∅ ∅ ∅ ∅ ∅ ∅ ∅.
Definition no_pool : Pool := mkPool ∅ ∅ [] ∅ [] ∅.
Definition chain0 : Chain := mkChain [NewDefaultParameters] NewDefaultParameters [8] []
  (mkTimerange 0 0) 1 1 None ∅.
Definition miner (accs : list (Z * Z * bool)) (roots : list Z) : Miner :=
  mkMiner (ledger0 accs roots) no_pool no_buckets chain0.

Definition pay (from to amount fee cnt : Z) : FundsTx :=
  ConstrFundsTx 0 amount fee cnt (key from) (key to) (Some check) None.
Definition open_account (header n : Z) : AccTx :=
  ConstrAccTx header 1 zero_hash (addr n) None [] (Some keys) (Some check) None.
Definition stake (n fee : Z) (on : bool) : StakeTx :=
  mkStakeTx 0 fee on (key n) (zeros 64) (zeros 256) None None.

Definition blk (beneficiary : Z) : Block :=
  mkBlock 0 zero_hash zero_hash zero_hash zero_hash 0 None 7 (key beneficiary) false 0 (zeros 8)
    100 zero_hash 0 0 0 0 0 0 zero_hash (zeros 256) zero_hash zero_hash zero_hash zero_hash ∅
    [] [] [] [] [] [].

(** The state after a run, for stating that it returned. *)
Definition after {A} (m : Miner) (r : outcome (A * Miner)) : Miner :=
  match r with Done (_, m') => m' | _ => m end.

Definition error_of (r : outcome (error * Miner)) : option error :=
  match r with Done (e, _) => Some e | _ => None end.

Lemma returns (m : Miner) r e : error_of r = Some e -> r = Done (e, after m r).
Proof. destruct r as [ [e' m'] | | ]; [|done..]. by intros [= ->]. Qed.

Lemma done_value {A} (a b : A) (m m' : Miner) : Done (a, m) = Done (b, m') -> a = b.
Proof. by intros [= ->]. Qed.

Definition balance (m : Miner) (n : Z) : option Z := acc_Balance <$> St m !! key n.

(** The invariants, decided on a concrete ledger. *)
Definition all_accounts (f : Account -> bool) (m : Miner) : bool :=
  forallb (fun ha => f (snd ha)) (map_to_list (St m)).

Lemma all_accounts_spec f (P : Account -> Prop) m : (forall a, f a = true -> P a) ->
  all_accounts f m = true -> forall h a, St m !! h = Some a -> P a.
Proof.
  intros Hf H h a Ha. apply Hf. unfold all_accounts in H. rewrite forallb_forall in H.
  apply (H (h, a)), list_elem_of_In, elem_of_map_to_list, Ha.
Qed.

Lemma ledger_ok_dec m :
  all_accounts (fun a => (0 <=? acc_Balance a) && (acc_Balance a <? 2 ^ 64) &&
    (0 <=? acc_TxCnt a) && (acc_TxCnt a <? 2 ^ 32)) m = true -> ledger_ok (St m).
Proof.
  intros H h a Ha. revert h a Ha. eapply (all_accounts_spec _ account_ok m); [|exact H].
  intros b Hb. unfold account_ok. unfold_ranges. lia.
Qed.

Lemma money_ok_dec m :
  all_accounts (fun a => (0 <=? acc_Balance a) && (acc_Balance a <=? MAX_MONEY)) m = true -> money_ok (St m).
Proof.
  intros H h a Ha. revert h a Ha.
  eapply (all_accounts_spec _ (fun a => 0 <= acc_Balance a <= MAX_MONEY) m); [|exact H]. intros b Hb. cbv beta in *. lia.
Qed.

Lemma not_closed tx m : db m = no_buckets -> ~ already_closed tx m.
Proof. intros E (h & _ & [x Hx]). by rewrite E in Hx. Qed.

(** One block: a new account 9, a payment, an issue of coins by the root
    account 4, and a stake; the beneficiary is 3. *)
Definition m0 : Miner := miner [(1, 100, false); (2, 5000, false); (3, 10, false); (4, 50, false)] [4].
Definition data0 : blockData :=
  mkBlockData [open_account 0 9] [pay 1 2 30 2 0; pay 4 1 7 1 0] [] [stake 2 5 true] [] [] [] (blk 3).
Definition m0' : Miner := after m0 (validateState data0 false m0).

Lemma m0_ok : ledger_ok (St m0).
Proof. apply ledger_ok_dec. vm_compute. reflexivity. Qed.

Lemma run0 : validateState data0 false m0 = Done (None, m0').
Proof. apply returns. vm_compute. reflexivity. Qed.

Lemma plain data m : db m = no_buckets -> ledger_ok (St m) ->
  forallb (fun tx => ((atx_Header tx =? 0) || (atx_Header tx =? 1)) &&
    bool_decide (RootKeys (ledger m) !! acc_key tx = None)) (accTxSlice data) = true ->
  aggTxSlice data = [] -> aggregatedFundsTxSlice data = [] -> plain_block data false m.
Proof.
  intros Hdb Hok H Hg Hgf. rewrite forallb_forall in H. split; try done.
  - apply Forall_forall. intros tx Hin. apply list_elem_of_In, H in Hin. lia.
  - intros tx Hin. apply list_elem_of_In, H, andb_true_iff in Hin as [_ Hin]. by apply bool_decide_eq_true in Hin.
  - intros m1 Hm1. right. apply Forall_forall. intros tx _. apply not_closed.
    apply accStateChange_facts in Hm1 as (_ & _ & _ & -> & _); done.
Qed.

(** The same block, without the stake, when the beneficiary does not exist. *)
Definition data1 : blockData :=
  mkBlockData [open_account 0 9] [pay 1 2 30 2 0] [] [stake 2 5 true] [] [] [] (blk 77).
Definition m1 : Miner := after m0 (accStateChange (accTxSlice data1) m0).
Definition m2 : Miner := after m1 (fundsStateChange (fundsTxSlice data1) false m1).
Definition m4 : Miner := after m2 (stakeStateChange (stakeTxSlice data1) 7 false m2).

Lemma stages1 : stake_stage data1 false m0 m4.
Proof.
  exists m2. split; [|apply returns; vm_compute; reflexivity].
  exists m1, m2. split; [|split]; [apply returns; vm_compute; reflexivity..|reflexivity].
Qed.
End Toy.

Section props.
Context {DG : Digests} {SO : SortOps} {SL : SortLaws}.

(** ** Blocks *)

(** C1: conservation of money over a block.  When [validateState] accepts a
    block, the sum of all balances has grown, modulo 2^64, by exactly: the
    amounts and fees of the funds transactions sent by root accounts, the fees
    of the account and the configuration transactions, the block reward, and,
    with a slashing proof, the slashing reward less the staking minimum. *)
Theorem block_conservation data init m m' :
  ledger_ok (St m) -> validateState data init m = Done (None, m') ->
  exists m1, accStateChange (accTxSlice data) m = Done (None, m1) /\
  u64 (total (St m')) =
  u64 (total (St m) + minted init m1 (fundsTxSlice data ++ aggregatedFundsTxSlice data)
    + sum_of atx_Fee (accTxSlice data) + sum_of ctx_Fee (configTxSlice data)
    + reward_of m + slash_money (block data) (activeParameters (chain m))).
Proof. apply block_total. Qed.

(** C9: rolling a block back.  The state that [validateStateRollback] reaches
    from the one after an accepted block has the same balances, counters,
    staking flags, root keys, pool, buckets and parameters as the one before
    the block. It may differ in the commitment keys, the staking heights and
    the chameleon-hash parameters. The block has no slashing proof and no
    aggregations, its account transactions have header 0 or 1 and keys that are
    not root, and outside the initial setup its funds transactions are not
    closed yet. *)
Theorem block_rollback data init m m' :
  ledger_ok (St m) -> plain_block data init m -> has_slashing_proof (block data) = false ->
  validateState data init m = Done (None, m') ->
  exists m'', validateStateRollback data m' = Done (tt, m'') /\ same_view m'' m.
Proof. apply accepted_undone. Qed.

(** C10: a late error is undone.  When the account, funds and stake
    transactions of a block are accepted and [validateState] fails afterwards
    (fees, rewards, slashing), the state is the one before the block, but for
    the commitment keys, the staking heights and the chameleon-hash parameters.
    The block has no aggregations, its account transactions have header 0 or 1
    and keys that are not root, and outside the initial setup its funds
    transactions are not closed yet. *)
Theorem block_late_error_undone data init m m4 e m' :
  ledger_ok (St m) -> plain_block data init m -> stake_stage data init m m4 ->
  validateState data init m = Done (Some e, m') -> same_view m' m.
Proof. apply late_error_undone. Qed.

(** ** Funds transactions *)

(** C24: one funds transaction.  [fundsStateChange] on one transaction either
    fails and changes nothing; or skips a transaction that is closed already;
    or accepts it after the checks of [funds_accepted] and sets the accounts to
    [funds_applied]: the sender's counter is incremented, the amount moves from
    sender to receiver, and a root sender is credited amount and fee first. *)
Theorem funds_spec init tx m e m' :
  ledger_ok (St m) -> fundsTx_change init tx m = Done (e, m') -> funds_result init tx m e m'.
Proof. apply fundsTx_change_inv. Qed.

(** A list of funds transactions.  The loop applies the transactions in
    order and stops at the first one it refuses; those before it stay applied,
    and nothing but the accounts changes. *)
Theorem funds_list_spec txs init m e m' :
  ledger_ok (St m) -> fundsStateChange txs init m = Done (e, m') ->
  exists pre post, txs = pre ++ post /\ (e = None <-> post = []) /\
    m' = with_St (apply_funds init m pre (St m)) m.
Proof. apply fundsStateChange_spec. Qed.

(** C25: no overdraft, no overflow.  Outside the initial setup, transactions
    whose amount and fee together fit 64 bits keep every balance between 0 and
    MAX_MONEY: no subtraction and no addition wraps, whether the list is
    accepted or refused half way. *)
Theorem funds_bounds txs m e m' :
  ledger_ok (St m) -> money_ok (St m) -> Forall amounts_ok txs ->
  fundsStateChange txs false m = Done (e, m') -> money_ok (St m').
Proof.
  intros Hok Hmoney Hall H.
  apply (for_each_err_inv _ (fun k => ledger_ok (St k) /\ money_ok (St k)) _ _ _ _) in H; [by destruct H| |done].
  intros tx k e1 k' Hin [Hk Hm] Hx. split.
  - eapply funds_result_ok; [done|by apply fundsTx_change_inv].
  - eapply fundsTx_change_money; [done|done| |done]. by eapply Forall_forall.
Qed.

(** Rolling funds transactions back.  [fundsStateChangeRollback] takes the
    state after an accepted list back to exactly the state before it, when no
    transaction of the list was skipped as closed. *)
Theorem funds_rollback init txs m m' :
  ledger_ok (St m) -> (init = true \/ Forall (fun tx => ~ already_closed tx m) txs) ->
  fundsStateChange txs init m = Done (None, m') ->
  fundsStateChangeRollback txs m' = Done (tt, m).
Proof. apply fundsStateChange_rollback. Qed.

(** C26: fees.  [collectTxFees] that fails leaves the state as it was. One that
    succeeds adds to every balance, modulo 2^64, the sum of the fees it
    receives (the miner, all of them) and pays (the senders of funds and stake
    transactions); [collectTxFeesRollback] takes exactly that back. *)
Theorem fees_spec a f c s g minerHash init m e m' :
  ledger_ok (St m) -> collectTxFees a f c s g minerHash init m = Done (e, m') ->
  match e with
  | Some _ => m' = m
  | None => exists l, aggregated_funds g m = Done (l, m) /\
      (forall h, St m' !! h = add_balance (delta (fee_ops a (f ++ l) c s minerHash) h) <$> St m !! h) /\
      collectTxFeesRollback a (f ++ l) c s minerHash m' = Done (tt, m)
  end.
Proof.
  intros Hok H. apply collectTxFees_inv in H; [|done]. destruct e as [e|]; [done|].
  destruct H as (l & El & -> & Hall). exists l. split; [done|]. split.
  - intros h. rewrite St_with. by apply apply_ops_lookup.
  - by apply collected_undo.
Qed.

(** A transaction whose amount and fee add up to 2^64, from a sender that is
    allowed to send nothing, and the accounts it meets. *)
Record wrapping (tx : FundsTx) (minerHash : hash) (m : Miner) (snd rcv mnr : Account) : Prop := {
  wr_fresh : exists h, FundsTx_Hash (ChameleonHashParametersMap (ledger m)) tx = Some h /\
    closed_tx (db m) h = None;
  wr_sum : ftx_Amount tx + ftx_Fee tx = 2 ^ 64;
  wr_amount : 0 < ftx_Amount tx <= acc_Balance mnr;
  wr_room : ftx_Amount tx + acc_Balance rcv <= MAX_MONEY;
  wr_snd : St m !! ftx_From tx = Some snd /\ acc_IsStaking snd = false /\ ftx_TxCnt tx = acc_TxCnt snd;
  wr_rcv : St m !! ftx_To tx = Some rcv;
  wr_mnr : St m !! minerHash = Some mnr;
  wr_root : is_root (ftx_From tx) m = false;
  wr_distinct : NoDup [ftx_From tx; ftx_To tx; minerHash]
}.

(** The sum of amount and fee wraps.  A funds transaction with
    [Amount + Fee = 2^64] is accepted from a sender with no coins at all: the
    receiver gains the amount, the sender loses nothing, and the fee, added to
    the miner's balance modulo 2^64, takes the amount from the miner. *)
Theorem wrapped_fee_robs_miner tx minerHash m snd rcv mnr :
  ledger_ok (St m) -> wrapping tx minerHash m snd rcv mnr ->
  exists m1 m2,
    fundsStateChange [tx] false m = Done (None, m1) /\
    collectTxFees [] [tx] [] [] [] minerHash false m1 = Done (None, m2) /\
    acc_Balance <$> St m2 !! ftx_From tx = Some (acc_Balance snd) /\
    acc_Balance <$> St m2 !! ftx_To tx = Some (acc_Balance rcv + ftx_Amount tx) /\
    acc_Balance <$> St m2 !! minerHash = Some (acc_Balance mnr - ftx_Amount tx).
Proof.
  intros Hok [(h & Hh & Hc) Hsum Ham Hroom (Hs & Hst & Hcnt) Hr Hm Hroot Hnd].
  apply NoDup_cons in Hnd as [Hft Hnd]. apply NoDup_cons in Hnd as [Htm _].
  assert (ftx_From tx <> ftx_To tx /\ ftx_From tx <> minerHash /\ ftx_To tx <> minerHash) as (N1 & N2 & N3)
    by set_solver.
  pose proof (Hok _ _ Hs) as [Hsb _]. pose proof (Hok _ _ Hr) as [Hrb _]. pose proof (Hok _ _ Hm) as [Hmb _].
  unfold_ranges.
  assert (Hacc : funds_accepted false tx snd rcv).
  { split; intros; [lia| | congruence |].
    - rewrite Hsum. unfold wrap. rewrite Z_mod_same_full. lia.
    - rewrite wrap_small by (unfold MAX_MONEY in *; lia). done. }
  pose proof (fundsTx_change_accepts false tx m h snd rcv Hh Hc Hroot Hs Hr Hacc) as E1.
  set (s1 := funds_applied false tx (St m)) in *.
  assert (Hf1 : s1 !! ftx_From tx = Some (debit (ftx_Amount tx) (inc_TxCnt snd))).
  { unfold s1, funds_applied, root_credit. rewrite lookup_alter_ne, !lookup_alter_eq, Hs by done. done. }
  assert (Ht1 : s1 !! ftx_To tx = Some (credit (ftx_Amount tx) rcv)).
  { unfold s1, funds_applied, root_credit. rewrite lookup_alter_eq, !lookup_alter_ne, Hr by done. done. }
  assert (Hm1 : s1 !! minerHash = Some mnr).
  { unfold s1, funds_applied, root_credit. by rewrite !lookup_alter_ne by done. }
  exists (with_St s1 m).
  eexists. split; [unfold fundsStateChange; simpl; by rewrite (bind_Done _ _ _ _ _ E1)|].
  split; [by apply (collect_one_fee tx minerHash s1 m mnr (debit (ftx_Amount tx) (inc_TxCnt snd)))|].
  rewrite !St_with. unfold apply_ops. simpl.
  split_and!.
  - rewrite lookup_alter_eq, lookup_alter_ne, Hf1 by done. simpl. f_equal. autorewrite with wrap.
    replace (acc_Balance snd - ftx_Amount tx + - ftx_Fee tx) with (acc_Balance snd + (-1) * 2 ^ 64) by lia.
    unfold wrap. rewrite Z_mod_plus_full. apply Z.mod_small. lia.
  - rewrite !lookup_alter_ne, Ht1 by done. simpl. f_equal. apply wrap_small. unfold MAX_MONEY in *. lia.
  - rewrite lookup_alter_ne, lookup_alter_eq, Hm1 by done. simpl. f_equal.
    replace (acc_Balance mnr + ftx_Fee tx) with (acc_Balance mnr - ftx_Amount tx + 1 * 2 ^ 64) by lia.
    unfold wrap. rewrite Z_mod_plus_full. apply Z.mod_small. lia.
Qed.

(** ** Accounts, stakes, slashing *)

(** Creating accounts.  Account transactions of the headers 0 and 1 that
    are accepted create fresh, distinct accounts and leave every other account
    alone; [accStateChangeRollback] deletes exactly these again. *)
Theorem accounts_spec txs m m' :
  Forall (fun tx => atx_Header tx = 0 \/ atx_Header tx = 1) txs ->
  (forall tx, tx ∈ txs -> RootKeys (ledger m) !! acc_key tx = None) -> ledger_ok (St m) ->
  accStateChange txs m = Done (None, m') ->
  NoDup (acc_key <$> txs) /\
  (forall tx, tx ∈ txs -> St m !! acc_key tx = None /\ is_Some (St m' !! acc_key tx)) /\
  (forall h, h ∉ acc_key <$> txs -> St m' !! h = St m !! h) /\
  exists m'', accStateChangeRollback txs m' = Done (tt, m'') /\ same_view m'' m.
Proof.
  intros Hh Hr Hok H. destruct (accStateChange_created txs m m' Hh H) as (Hs & Hn & Hnd & _).
  split_and!; [done|done| |by apply acc_undo].
  intros h Hh'. rewrite Hs. by rewrite bool_decide_eq_false_2.
Qed.

(** The rollback of a header 2 deletes the account.  A transaction that
    only takes the root key away from an account ([acc_unrooted]) is undone by
    removing the account, with its balance, from the state. *)
Lemma unroot_rollback_deletes tx m a :
  atx_Header tx = 2 -> St m !! acc_key tx = Some a ->
  exists m1 m2, accStateChange [tx] m = Done (None, m1) /\ St m1 = St m /\
    accStateChangeRollback [tx] m1 = Done (tt, m2) /\ St m2 = delete (acc_key tx) (St m).
Proof.
  intros Hh Ha.
  set (m1 := upd_ledger (upd_RootKeys (delete (acc_key tx))) m).
  assert (E1 : accTx_change tx m = Done (None, m1)).
  { unfold accTx_change. rewrite Hh. simpl. fold (acc_key tx).
    rewrite (bind_Done _ _ _ _ _ (GetAccount_run _ _)), Ha. done. }
  exists m1, (upd_ledger (upd_RootKeys (insert (acc_key tx) (acc_Address a))) (with_St (delete (acc_key tx) (St m)) m1)).
  split; [unfold accStateChange; simpl; by rewrite (bind_Done _ _ _ _ _ E1)|].
  split; [done|]. unfold accStateChangeRollback, accTx_rollback. simpl. rewrite Hh. simpl. fold (acc_key tx).
  split; [|reflexivity]. erewrite bind_Done; [reflexivity|]. by rewrite (account_bind _ a).
Qed.

(** Slashing.  An accepted proof pays the reward to the beneficiary and
    takes the staking minimum and the staking flag from the slashed account;
    an error changes nothing. The rollback restores the state when the slashed
    account was staking. *)
Theorem slash_spec reward b m e m' :
  ledger_ok (St m) -> has_slashing_proof b = true -> collectSlashReward reward b m = Done (e, m') ->
  match e with
  | Some _ => m' = m
  | None =>
      m' = with_St (slashed reward b (activeParameters (chain m)) (St m)) m /\
      u64 (total (St m')) = u64 (total (St m) + (reward - StakingMinimum (activeParameters (chain m)))) /\
      (acc_IsStaking <$> St m !! blk_SlashedAddress b = Some true ->
       collectSlashRewardRollback reward b m' = Done (tt, m))
  end.
Proof.
  intros Hok Hs H. pose proof (collectSlashReward_inv _ _ _ _ _ H) as E.
  destruct e as [e|]; [done|]. rewrite Hs in E. destruct E as (a & c & Ha & Hc & _ & E).
  split; [done|]. split; [rewrite E; apply total_slashed; by eexists|].
  intros Hst. by eapply collectSlashReward_undo.
Qed.
End props.

(** ** The theorems on the small ledger *)

Lemma block_conservation_witness : exists m', validateState Toy.data0 false Toy.m0 = Done (None, m') /\
  u64 (total (St m')) = 5160 + 8 + 1.
Proof.
  exists Toy.m0'. split; [apply Toy.run0|].
  destruct (block_conservation Toy.data0 false Toy.m0 Toy.m0' Toy.m0_ok Toy.run0) as (m1 & H1 & ->).
  assert (m1 = Toy.after Toy.m0 (accStateChange (accTxSlice Toy.data0) Toy.m0)) as -> by by rewrite H1.
  vm_compute. reflexivity.
Defined.

Lemma block_rollback_witness : exists m'',
  validateStateRollback Toy.data0 Toy.m0' = Done (tt, m'') /\ same_view m'' Toy.m0.
Proof.
  apply (block_rollback Toy.data0 false Toy.m0 Toy.m0').
  - apply Toy.m0_ok.
  - apply Toy.plain; [reflexivity|apply Toy.m0_ok|vm_compute; reflexivity|reflexivity|reflexivity].
  - vm_compute. reflexivity.
  - apply Toy.run0.
Defined.

Lemma block_late_error_undone_witness : exists e m',
  validateState Toy.data1 false Toy.m0 = Done (Some e, m') /\ same_view m' Toy.m0.
Proof.
  assert (E : validateState Toy.data1 false Toy.m0 =
    Done (Some "Acc not in the state."%string, Toy.after Toy.m0 (validateState Toy.data1 false Toy.m0)))
    by (apply Toy.returns; vm_compute; reflexivity).
  eexists _, _. split; [exact E|].
  apply (block_late_error_undone Toy.data1 false Toy.m0 Toy.m4 "Acc not in the state."%string).
  - apply Toy.m0_ok.
  - apply Toy.plain; [reflexivity|apply Toy.m0_ok|vm_compute; reflexivity|reflexivity|reflexivity].
  - apply Toy.stages1.
  - exact E.
Defined.

Lemma funds_spec_witness : exists e m',
  fundsTx_change false (Toy.pay 1 2 30 2 0) Toy.m0 = Done (e, m') /\
  funds_result false (Toy.pay 1 2 30 2 0) Toy.m0 e m'.
Proof.
  set (m' := Toy.after Toy.m0 (fundsTx_change false (Toy.pay 1 2 30 2 0) Toy.m0)).
  assert (E : fundsTx_change false (Toy.pay 1 2 30 2 0) Toy.m0 = Done (None, m'))
    by (apply Toy.returns; vm_compute; reflexivity).
  exists None, m'. split; [exact E|]. apply funds_spec; [apply Toy.m0_ok|exact E].
Defined.

(** The second payment fails: the first one stays. *)
Lemma funds_list_spec_witness : exists e m' pre post,
  fundsStateChange [Toy.pay 1 2 30 2 0; Toy.pay 1 2 100 0 1] false Toy.m0 = Done (Some e, m') /\
  [Toy.pay 1 2 30 2 0; Toy.pay 1 2 100 0 1] = pre ++ post /\
  m' = with_St (apply_funds false Toy.m0 pre (St Toy.m0)) Toy.m0 /\ Toy.balance m' 1 = Some 70.
Proof.
  set (l := [Toy.pay 1 2 30 2 0; Toy.pay 1 2 100 0 1]).
  set (m' := Toy.after Toy.m0 (fundsStateChange l false Toy.m0)).
  set (e := "Sender does not have enough funds for the Funds transaction."%string).
  assert (E : fundsStateChange l false Toy.m0 = Done (Some e, m')) by (apply Toy.returns; vm_compute; reflexivity).
  destruct (funds_list_spec l false Toy.m0 (Some e) m' Toy.m0_ok E) as (pre & post & Hl & _ & Hm).
  exists e, m', pre, post. split; [exact E|]. split; [exact Hl|]. split; [exact Hm|]. vm_compute. reflexivity.
Defined.

Lemma funds_bounds_witness : exists m',
  fundsStateChange [Toy.pay 1 2 30 2 0] false Toy.m0 = Done (None, m') /\ money_ok (St m').
Proof.
  set (m' := Toy.after Toy.m0 (fundsStateChange [Toy.pay 1 2 30 2 0] false Toy.m0)).
  exists m'. split; [apply Toy.returns; vm_compute; reflexivity|].
  apply (funds_bounds [Toy.pay 1 2 30 2 0] Toy.m0 None m').
  - apply Toy.m0_ok.
  - apply Toy.money_ok_dec. vm_compute. reflexivity.
  - constructor; [|constructor]. unfold amounts_ok. simpl. lia.
  - apply Toy.returns. vm_compute. reflexivity.
Defined.

Lemma funds_rollback_witness : exists m',
  fundsStateChange [Toy.pay 1 2 30 2 0; Toy.pay 4 1 7 1 0] false Toy.m0 = Done (None, m') /\
  fundsStateChangeRollback [Toy.pay 1 2 30 2 0; Toy.pay 4 1 7 1 0] m' = Done (tt, Toy.m0).
Proof.
  set (l := [Toy.pay 1 2 30 2 0; Toy.pay 4 1 7 1 0]).
  set (m' := Toy.after Toy.m0 (fundsStateChange l false Toy.m0)).
  exists m'. split; [apply Toy.returns; vm_compute; reflexivity|].
  apply (funds_rollback false l Toy.m0 m').
  - apply Toy.m0_ok.
  - right. apply Forall_forall. intros tx _. apply Toy.not_closed. reflexivity.
  - apply Toy.returns. vm_compute. reflexivity.
Defined.

Lemma fees_spec_witness : exists m',
  collectTxFees [Toy.open_account 0 9] [Toy.pay 1 2 30 2 0] [] [Toy.stake 2 5 true] [] (Toy.key 3) false Toy.m0
    = Done (None, m') /\
  collectTxFeesRollback [Toy.open_account 0 9] [Toy.pay 1 2 30 2 0] [] [Toy.stake 2 5 true] (Toy.key 3) m'
    = Done (tt, Toy.m0).
Proof.
  set (m' := Toy.after Toy.m0 (collectTxFees [Toy.open_account 0 9] [Toy.pay 1 2 30 2 0] []
    [Toy.stake 2 5 true] [] (Toy.key 3) false Toy.m0)).
  exists m'. split; [apply Toy.returns; vm_compute; reflexivity|].
  destruct (fees_spec [Toy.open_account 0 9] [Toy.pay 1 2 30 2 0] [] [Toy.stake 2 5 true] [] (Toy.key 3)
    false Toy.m0 None m') as (l & El & _ & Er).
  - apply Toy.m0_ok.
  - apply Toy.returns. vm_compute. reflexivity.
  - apply Toy.done_value in El. subst l. exact Er.
Defined.

(** An empty account 5 moves 8 coins of the miner 3 to account 2. *)
Lemma wrapped_fee_robs_miner_witness : exists m1 m2,
  let m := Toy.miner [(5, 0, false); (2, 0, false); (3, 10, false)] [] in
  fundsStateChange [Toy.pay 5 2 8 (2 ^ 64 - 8) 0] false m = Done (None, m1) /\
  collectTxFees [] [Toy.pay 5 2 8 (2 ^ 64 - 8) 0] [] [] [] (Toy.key 3) false m1 = Done (None, m2) /\
  map (Toy.balance m2) [5; 2; 3] = [Some 0; Some 8; Some 2].
Proof.
  set (m := Toy.miner [(5, 0, false); (2, 0, false); (3, 10, false)] []).
  destruct (wrapped_fee_robs_miner (Toy.pay 5 2 8 (2 ^ 64 - 8) 0) (Toy.key 3) m
    (Toy.acct 5 0 false) (Toy.acct 2 0 false) (Toy.acct 3 10 false)) as (m1 & m2 & H1 & H2 & B1 & B2 & B3).
  - apply Toy.ledger_ok_dec. vm_compute. reflexivity.
  - split.
    + eexists. split; [vm_compute; reflexivity|]. reflexivity.
    + reflexivity.
    + simpl. lia.
    + vm_compute. congruence.
    + split; [vm_compute; reflexivity|]. split; reflexivity.
    + vm_compute. reflexivity.
    + vm_compute. reflexivity.
    + vm_compute. reflexivity.
    + apply (bool_decide_unpack _). vm_compute. exact I.
  - exists m1, m2. split; [exact H1|]. split; [exact H2|].
    unfold Toy.balance. simpl. rewrite B3. change (Toy.key 5) with (ftx_From (Toy.pay 5 2 8 (2 ^ 64 - 8) 0)).
    rewrite B1. change (Toy.key 2) with (ftx_To (Toy.pay 5 2 8 (2 ^ 64 - 8) 0)). rewrite B2. reflexivity.
Defined.

Lemma accounts_spec_witness : exists m',
  accStateChange [Toy.open_account 0 9; Toy.open_account 1 8] Toy.m0 = Done (None, m') /\
  exists m'', accStateChangeRollback [Toy.open_account 0 9; Toy.open_account 1 8] m' = Done (tt, m'') /\
    same_view m'' Toy.m0.
Proof.
  set (l := [Toy.open_account 0 9; Toy.open_account 1 8]).
  set (m' := Toy.after Toy.m0 (accStateChange l Toy.m0)).
  exists m'. split; [apply Toy.returns; vm_compute; reflexivity|].
  apply (accounts_spec l Toy.m0 m').
  - constructor; [by left|]. constructor; [by right|constructor].
  - intros tx [->|[->|[]%elem_of_nil]%elem_of_cons]%elem_of_cons; vm_compute; reflexivity.
  - apply Toy.m0_ok.
  - apply Toy.returns. vm_compute. reflexivity.
Defined.

Lemma unroot_rollback_deletes_witness : exists m1 m2,
  accStateChange [Toy.open_account 2 4] Toy.m0 = Done (None, m1) /\ Toy.balance m1 4 = Some 50 /\
  accStateChangeRollback [Toy.open_account 2 4] m1 = Done (tt, m2) /\ Toy.balance m2 4 = None.
Proof.
  destruct (unroot_rollback_deletes (Toy.open_account 2 4) Toy.m0 (Toy.acct 4 50 false))
    as (m1 & m2 & H1 & E1 & H2 & E2).
  - reflexivity.
  - vm_compute. reflexivity.
  - exists m1, m2. split; [exact H1|]. unfold Toy.balance. rewrite E1, E2.
    split; [vm_compute; reflexivity|]. split; [exact H2|]. vm_compute. reflexivity.
Defined.

Module Slash.
Definition b : Block :=
  mkBlock 0 zero_hash zero_hash zero_hash zero_hash 0 None 7 (Toy.key 3) false 0 (zeros 8)
    100 zero_hash 0 0 0 0 0 0 (Toy.key 2) (zeros 256) zero_hash zero_hash zero_hash zero_hash ∅
    [] [] [] [] [] [].
Definition m : Miner := Toy.miner [(2, 5000, true); (3, 10, false)] [].
End Slash.

Lemma slash_spec_witness : exists m',
  collectSlashReward 2 Slash.b Slash.m = Done (None, m') /\
  map (Toy.balance m') [2; 3] = [Some 4000; Some 12] /\
  collectSlashRewardRollback 2 Slash.b m' = Done (tt, Slash.m).
Proof.
  set (m' := Toy.after Slash.m (collectSlashReward 2 Slash.b Slash.m)).
  exists m'. split; [apply Toy.returns; vm_compute; reflexivity|]. split; [vm_compute; reflexivity|].
  destruct (slash_spec 2 Slash.b Slash.m None m') as (_ & _ & H).
  - apply Toy.ledger_ok_dec. vm_compute. reflexivity.
  - vm_compute. reflexivity.
  - apply Toy.returns. vm_compute. reflexivity.
  - apply H. vm_compute. reflexivity.
Defined.
