(* ===== verification/ChainProps.v ===== *)
(** * Properties of the chain: parameters, difficulty, proof of stake, codecs

    The system parameters and the statistics, the proof of stake, the checks of
    a block and the byte formats: encodings, Merkle tree, chameleon hash. *)

From S2P Require Import Prelude Format Chameleon Protocol Merkle Node Storage Params Ledger StateChange.
From S2P Require Import StateLemmas FeeLemmas Validation PoS BlockLemmas Rollback BlockRuns ParamLemmas LedgerProps.

Section props.
Context {DG : Digests}.

(** ** Parameters *)

(** The parameters stay within their bounds.  In every state reached by
    applying and rolling back the configuration transactions of blocks, the
    active parameters and all the versions kept are within the bounds of
    protocol/configtx.go, and the active version is the latest one. *)
Theorem parameters_invariant m m' : rtc config_step m m' -> chain_ok (chain m) -> chain_ok (chain m').
Proof. apply config_steps_ok. Qed.

(** Rolling the configuration transactions of a block back restores the
    parameters and their history, for a block whose hash is not the one the
    active parameters were set by. *)
Theorem config_rollback txs h m m' :
  chain_ok (chain m) -> BlockHash (activeParameters (chain m)) <> h ->
  configStateChange txs h m = Done (tt, m') ->
  exists m'', configStateChangeRollback txs h m' = Done (tt, m'') /\ chain m'' = chain m.
Proof. apply configStateChange_undo. Qed.

Section difficulty.
Context {FO : FloatOps}.

(** Rolling the statistics of a block back restores the state exactly,
    provided the local count had not passed the interval when the block came
    ([counts_ok]) and the previous block is stored. *)
Theorem statistics_rollback b m m' :
  counts_ok (chain m) -> closedblocks (db m) !! blk_PrevHash b = lastBlock (chain m) ->
  collectStatistics b m = Done (tt, m') -> collectStatisticsRollback b m' = Done (tt, m).
Proof. apply collectStatistics_undo. Qed.

(** The difficulty moves by at most three steps per interval, modulo 256,
    whatever the logarithm of the time ratio is. *)
Theorem difficulty_bounded t m d m' :
  calculateNewDifficulty t m = Done (d, m') ->
  exists current, last (target (chain m)) = Some current /\ m' = m /\
    (d = current \/ exists k, -3 <= k <= 3 /\ d = u8 (current + k)).
Proof. apply calculateNewDifficulty_step. Qed.
End difficulty.

(** ** Proof of stake *)

(** C27: the condition of the proof of stake.  For a difficulty of at most 64,
    [validateProofOfStake] accepts exactly when the first eight bytes of the
    hash of the proofs, height and time, divided by the balance of the
    validator, are below [2^(64 - difficulty)]. *)
Theorem proof_of_stake_spec `{!DigestLaws} diff prevProofs height balance proof timestamp :
  Forall (fun p => length p = COMM_PROOF_LENGTH) prevProofs -> length proof = COMM_PROOF_LENGTH ->
  0 < balance -> 0 <= diff <= 64 ->
  validateProofOfStake diff prevProofs height balance proof timestamp =
  Some (bool_decide
    (be_val (sublist 0 8 (sha3_256 (pos_input prevProofs proof height timestamp))) / balance < 2 ^ (64 - diff))).
Proof.
  intros Hps Hp Hb Hd. unfold validateProofOfStake. rewrite with_time_input by done.
  rewrite (proj2 (Z.eqb_neq _ _)) by lia.
  rewrite leading_zeros_spec by (try lia; apply length_scale, length_sha3_256). f_equal.
  pose proof (scale_small (sha3_256 (pos_input prevProofs proof height timestamp)) balance diff) as Hs.
  specialize (Hs (length_sha3_256 _) Hb Hd).
  case_bool_decide as E; [by apply Z.ltb_lt, Hs|]. apply Z.ltb_ge. rewrite <-Hs in E. lia.
Qed.

(** Mining.  The search of [proofOfStake] ends within 450 ticks, and a
    time it returns without an error passes [validateProofOfStake]. *)
Theorem mining_spec `{!DigestLaws} ticks diff prevHash prevProofs height balance proof :
  0 <= diff <= 255 -> 450 <= Z.of_nat (length ticks) ->
  exists t e, proofOfStake ticks diff prevHash prevProofs height balance proof = Some (t, e) /\
    (e = None -> validateProofOfStake diff prevProofs height balance proof t = Some true).
Proof.
  intros Hd Hlen.
  destruct (search_ends ticks 0 diff prevHash (pos_buffer prevProofs height proof) balance) as ([t e] & E).
  - done.
  - apply length_sha3_256.
  - unfold BLOCK_INTERVAL. lia.
  - intros ->. simpl in Hlen. lia.
  - exists t, e. split; [done|]. intros ->. by eapply search_valid.
Qed.

(** ** Checks of a block *)

(** Duplicates.  [validateNoDuplicateTx] accepts a block exactly when no
    hash occurs twice among all the transactions it lists, of whatever kind. *)
Theorem no_duplicates_spec_all b :
  validateNoDuplicateTx b = None <->
  NoDup (blk_AccTxData b ++ blk_FundsTxData b ++ blk_ConfigTxData b ++ blk_StakeTxData b ++
    blk_AggTxData b ++ blk_UpdateTxData b).
Proof.
  unfold validateNoDuplicateTx. rewrite no_duplicates_all_spec. simpl. rewrite app_nil_r.
  split; [by intros [? _]|]. intros H. split; [done|]. set_solver.
Qed.

(** ** Byte formats *)

(** Round trips.  Decoding the encoding of a configuration or a stake
    transaction gives the transaction back, without its check string and data,
    which are not encoded; decoding an encoded list of items of equal length
    gives the list back. *)
Theorem codecs_roundtrip :
  (forall tx, ConfigTx_wf tx -> ConfigTx_Decode (ConfigTx_Encode tx) =
    Some (ConfigTx_SetData None (ConfigTx_SetCheckString None tx))) /\
  (forall tx, StakeTx_wf tx -> StakeTx_Decode (StakeTx_Encode tx) =
    Some (StakeTx_SetData None (StakeTx_SetCheckString None tx))) /\
  (forall data n, (0 < n)%nat -> Forall (fun item => length item = n) data ->
    Decode (Encode data n) n = Done data).
Proof.
  split; [|split].
  - intros tx Hw. by rewrite ConfigTx_Decode_Encode.
  - intros tx Hw. by rewrite StakeTx_Decode_Encode.
  - intros data n. apply Decode_Encode.
Qed.


(** C40: binding.  When the trees over two lists of hashes with as many
    leaves have the same root, the leaves are the same, or two different inputs
    hashed for the two trees collide. *)
Theorem merkle_binding `{!DigestLaws} fuel txs txs' h h' t t' k k' :
  store_ok h -> store_ok h' ->
  filter (fun tx => tx <> zero_hash) txs <> [] -> filter (fun tx => tx <> zero_hash) txs' <> [] ->
  Forall (fun x => length x = 32%nat) txs -> Forall (fun x => length x = 32%nat) txs' ->
  (S (length txs) <= fuel)%nat -> (S (length txs') <= fuel)%nat ->
  length (leaf_hashes txs) = length (leaf_hashes txs') ->
  newTree fuel txs h = Done (Some t, k) -> newTree fuel txs' h' = Done (Some t', k') ->
  merkleRoot t = merkleRoot t' ->
  leaf_hashes txs = leaf_hashes txs' \/
  collision_in (hashed fuel (leaf_hashes txs)) (hashed fuel (leaf_hashes txs')).
Proof.
  intros Hok Hok' Hne Hne' H32 H32' Hf Hf' Hlen E E' Hr.
  pose proof (length_leaf_hashes txs Hne) as Hl.
  destruct (newTree_spec fuel txs h Hok Hne Hf) as (x & s & j & Hx & Es & Hs & _).
  destruct (newTree_spec fuel txs' h' Hok' Hne' Hf') as (x' & s' & j' & Hx' & Es' & Hs' & _).
  rewrite Es in E. rewrite Es' in E'. injection E as -> ->. injection E' as -> ->. subst x x'.
  rewrite <-Hr in Hx'. apply (top_hash_binding fuel _ _ (merkleRoot t)); auto using leaf_hashes_32; lia.
Qed.

(** Chameleon collisions.  For the keys that [keygen] makes of a prime,
    [GenerateChCollision] returns a check string under which the new message
    has the hash of the old one, as long as that hash, read as a number, is
    below Q. *)
Theorem collision_spec p g0 tk c old new k h :
  Z.prime p -> 2 < p -> 0 < g0 < p -> 0 <= tk -> 0 <= k ->
  ChameleonHash (Some (keygen p g0 tk)) (Some c) old = Some h -> be_val h < (p - 1) / 2 ->
  exists c', GenerateChCollision (Some (keygen p g0 tk)) (Some c) old new k = Some c' /\
    ChameleonHash (Some (keygen p g0 tk)) (Some c') new = Some h.
Proof.
  intros Hp Hp2 Hg Htk Hk Hh Hlt. eapply collision_same_hash; [|done..]. by apply keygen_good.
Qed.

(** What a funds transaction signs.  Transactions whose hash inputs print
    alike have the same header, amount, fee, counter, sender, receiver and
    data: the text that is hashed is unambiguous. *)
Theorem funds_content_injective tx tx' :
  fmt_v (FundsTx_content tx) = fmt_v (FundsTx_content tx') ->
  ftx_Header tx = ftx_Header tx' /\ ftx_Amount tx = ftx_Amount tx' /\ ftx_Fee tx = ftx_Fee tx' /\
  ftx_TxCnt tx = ftx_TxCnt tx' /\ ftx_From tx = ftx_From tx' /\ ftx_To tx = ftx_To tx' /\
  default [] (ftx_Data tx) = default [] (ftx_Data tx').
Proof.
  intros E%(inj fmt_v). unfold FundsTx_content, VSlice in E. injection E as Eh Ea Ef Ec Efr Eto Ed.
  assert (Hb : forall l l' : bytes, VNum ∘ bval <$> l = VNum ∘ bval <$> l' -> l = l').
  { intros l l' El. apply (inj VBytes). unfold VBytes. f_equal. exact El. }
  split_and!; try done; by apply Hb.
Qed.
End props.

(** ** The theorems on small inputs *)

Module Small.
#[global] Instance floats : FloatOps := fun _ _ => 5.
#[global] Instance laws : DigestLaws := Toy.digest_laws.

Definition change : ConfigTx := mkConfigTx 0 BLOCK_SIZE_ID 2000 1 0 (zeros 64) None None.
Definition m1 : Miner := Toy.after Toy.m0 (configStateChange [change] (Toy.key 1) Toy.m0).

Lemma chain0_ok : chain_ok Toy.chain0.
Proof. split; [apply default_params_ok|constructor; [apply default_params_ok|constructor]|reflexivity]. Qed.

Lemma prime_23 : Z.prime 23.
Proof.
  split; [lia|]. intros n Hn Hd. apply Z.mod_divide in Hd; [|lia].
  assert (E : forallb (fun n => negb (23 mod n =? 0)) (seqZ 2 21) = true) by reflexivity.
  rewrite forallb_forall in E. specialize (E n). rewrite Hd in E.
  assert (false = true); [|done]. apply E, list_elem_of_In, elem_of_seqZ. lia.
Qed.


(** The tree over the keys 1 and [n], and its nodes. *)
Definition built (n : Z) : MerkleTree * nodes :=
  match newTree 3 [Toy.key 1; Toy.key n] [] with
  | Done (Some t, k) => (t, k)
  | _ => (mkMerkleTree 0%nat [] [], [])
  end.
Definition tree (n : Z) : MerkleTree := fst (built n).
Definition store (n : Z) : nodes := snd (built n).
End Small.

Lemma parameters_invariant_witness : exists m', config_step Toy.m0 m' /\ chain_ok (chain m') /\
  BlockSize (activeParameters (chain m')) = 2000.
Proof.
  assert (E : config_step Toy.m0 Small.m1) by (apply (config_apply [Small.change] (Toy.key 1)); reflexivity).
  exists Small.m1. split; [exact E|]. split; [|reflexivity].
  apply (parameters_invariant Toy.m0 Small.m1).
  - apply rtc_once. exact E.
  - apply Small.chain0_ok.
Defined.

Lemma config_rollback_witness : exists m'',
  configStateChangeRollback [Small.change] (Toy.key 1) Small.m1 = Done (tt, m'') /\ chain m'' = Toy.chain0.
Proof.
  apply (config_rollback [Small.change] (Toy.key 1) Toy.m0 Small.m1).
  - apply Small.chain0_ok.
  - vm_compute. discriminate.
  - reflexivity.
Defined.

Lemma statistics_rollback_witness : exists m',
  collectStatistics (Toy.blk 1) Toy.m0 = Done (tt, m') /\
  collectStatisticsRollback (Toy.blk 1) m' = Done (tt, Toy.m0).
Proof.
  exists (Toy.after Toy.m0 (collectStatistics (Toy.blk 1) Toy.m0)). split; [reflexivity|].
  apply (statistics_rollback (Toy.blk 1) Toy.m0).
  - unfold counts_ok. simpl. unfold DIFF_INTERVAL. lia.
  - reflexivity.
  - reflexivity.
Defined.

(** A time ratio that asks for five steps moves the difficulty from 8 to 11. *)
Lemma difficulty_bounded_witness : exists d, calculateNewDifficulty (mkTimerange 10 20) Toy.m0 = Done (d, Toy.m0) /\
  d = 11 /\ exists current, last (target (chain Toy.m0)) = Some current.
Proof.
  exists 11. split; [reflexivity|]. split; [reflexivity|].
  destruct (difficulty_bounded (mkTimerange 10 20) Toy.m0 11 Toy.m0) as (current & H & _).
  - reflexivity.
  - exists current. exact H.
Defined.

Lemma proof_of_stake_spec_witness :
  validateProofOfStake 8 [] 1 5 (zeros 256) 100 = Some true /\
  validateProofOfStake 8 [repeat Byte.xff 256] 1 5 (zeros 256) 100 = Some false.
Proof.
  split.
  - rewrite (proof_of_stake_spec 8 [] 1 5 (zeros 256) 100).
    + vm_compute. reflexivity.
    + constructor.
    + reflexivity.
    + lia.
    + lia.
  - rewrite (proof_of_stake_spec 8 [repeat Byte.xff 256] 1 5 (zeros 256) 100).
    + vm_compute. reflexivity.
    + constructor; [reflexivity|constructor].
    + reflexivity.
    + lia.
    + lia.
Defined.

Lemma mining_spec_witness : exists t e,
  proofOfStake (replicate 450 (mkTick 100 (Some (Toy.blk 1)))) 8 zero_hash [] 1 5 (zeros 256) = Some (t, e) /\
  (e = None -> validateProofOfStake 8 [] 1 5 (zeros 256) t = Some true) /\ e = None.
Proof.
  destruct (mining_spec (replicate 450 (mkTick 100 (Some (Toy.blk 1)))) 8 zero_hash [] 1 5 (zeros 256))
    as (t & e & E & H).
  - lia.
  - rewrite length_replicate. lia.
  - exists t, e. split; [exact E|]. split; [exact H|].
    assert (E' : proofOfStake (replicate 450 (mkTick 100 (Some (Toy.blk 1)))) 8 zero_hash [] 1 5 (zeros 256)
      = Some (100, None)) by (vm_compute; reflexivity).
    rewrite E' in E. injection E as _ <-. reflexivity.
Defined.


(** The stand-in digest keeps the first half of its input only. *)
Lemma merkle_binding_witness :
  leaf_hashes [Toy.key 1; Toy.key 2] = leaf_hashes [Toy.key 1; Toy.key 3] \/
  collision_in (hashed 3 (leaf_hashes [Toy.key 1; Toy.key 2])) (hashed 3 (leaf_hashes [Toy.key 1; Toy.key 3])).
Proof.
  apply (merkle_binding 3 [Toy.key 1; Toy.key 2] [Toy.key 1; Toy.key 3] [] [] (Small.tree 2) (Small.tree 3)
    (Small.store 2) (Small.store 3)).
  - intros p n Hp. discriminate Hp.
  - intros p n Hp. discriminate Hp.
  - vm_compute. discriminate.
  - vm_compute. discriminate.
  - constructor; [reflexivity|constructor; [reflexivity|constructor]].
  - constructor; [reflexivity|constructor; [reflexivity|constructor]].
  - simpl. lia.
  - simpl. lia.
  - vm_compute. reflexivity.
  - vm_compute. reflexivity.
  - vm_compute. reflexivity.
  - vm_compute. reflexivity.
Defined.

Lemma collision_spec_witness : exists c',
  GenerateChCollision (Some (keygen 23 2 3)) (Some Toy.check) [mkb 5] [mkb 6] 4 = Some c' /\
  ChameleonHash (Some (keygen 23 2 3)) (Some c') [mkb 6] = Some zero_hash.
Proof.
  apply (collision_spec 23 2 3 Toy.check [mkb 5] [mkb 6] 4 zero_hash).
  - apply Small.prime_23.
  - lia.
  - lia.
  - lia.
  - lia.
  - vm_compute. reflexivity.
  - vm_compute. reflexivity.
Defined.

Lemma funds_content_injective_witness : exists tx',
  fmt_v (FundsTx_content (Toy.pay 1 2 30 2 0)) = fmt_v (FundsTx_content tx') /\
  ftx_Amount tx' = 30 /\ tx' <> Toy.pay 1 2 30 2 0.
Proof.
  exists (FundsTx_set_Aggregated true (Toy.pay 1 2 30 2 0)). split; [reflexivity|]. split.
  - destruct (funds_content_injective (Toy.pay 1 2 30 2 0) (FundsTx_set_Aggregated true (Toy.pay 1 2 30 2 0)))
      as (_ & Ha & _); [reflexivity|]. symmetry. exact Ha.
  - intros E. discriminate (f_equal ftx_Aggregated E).
Defined.
