(* ===== verification/GoLib.v ===== *)
(** * What the Go library and the runtime leave open: sorting, map iteration

    [sort.Sort] is known by what it promises, the iteration over a map by that
    it visits every entry once. Both are parameters with laws, and have an
    executable instance. *)

From S2P Require Import Prelude.

(** ** sort.Sort

    The comparison [less] may panic ([None]); the sort then does as well. If no
    comparison panics the result is a permutation, and sorted when [less] is a
    strict weak order. *)

Definition lt_of {A} (less : A -> A -> option bool) (x y : A) : Prop := less x y = Some true.

Record strict_weak {A} (less : A -> A -> option bool) (l : list A) : Prop := {
  sw_total x y : x ∈ l -> y ∈ l -> is_Some (less x y);
  sw_irrefl x : x ∈ l -> ~ lt_of less x x;
  sw_trans x y z : x ∈ l -> y ∈ l -> z ∈ l -> lt_of less x y -> lt_of less y z -> lt_of less x z;
  sw_incomp x y z : x ∈ l -> y ∈ l -> z ∈ l -> lt_of less x z -> lt_of less x y \/ lt_of less y z
}.

Class GoSort := { sort_Sort : forall {A : Type}, (A -> A -> option bool) -> list A -> option (list A) }.

Class GoSortLaws `{!GoSort} := {
  sort_perm {A} (less : A -> A -> option bool) l l' : sort_Sort less l = Some l' -> l' ≡ₚ l;
  sort_total {A} (less : A -> A -> option bool) l :
    (forall x y, x ∈ l -> y ∈ l -> is_Some (less x y)) -> is_Some (sort_Sort less l);
  (** Two elements have to be compared, one way or the other. *)
  sort_compares {A} (less : A -> A -> option bool) x y :
    less x y = None -> less y x = None -> sort_Sort less [x; y] = None;
  sort_sorted {A} (less : A -> A -> option bool) l l' :
    strict_weak less l -> sort_Sort less l = Some l' ->
    forall i j x y, (i < j)%nat -> l' !! i = Some x -> l' !! j = Some y -> ~ lt_of less y x
}.

(** ** Iteration over a map keyed by hashes *)

Class MapOrder := { range_map : forall {A : Type}, gmap bytes A -> list (bytes * A) }.
Class MapOrderLaws `{!MapOrder} := {
  range_perm {A} (m : gmap bytes A) : range_map m ≡ₚ map_to_list m
}.

(** ** Instances: insertion sort, and the order of the map library *)

Section insertion.
Context {A : Type} (less : A -> A -> option bool).

Fixpoint insert_sorted (x : A) (l : list A) : option (list A) :=
  match l with
  | [] => Some [x]
  | y :: l' =>
      c ← less y x;
      if (c : bool) then l2 ← insert_sorted x l'; Some (y :: l2) else Some (x :: l)
  end.

Fixpoint insertion_sort (l : list A) : option (list A) :=
  match l with
  | [] => Some []
  | x :: l => l' ← insertion_sort l; insert_sorted x l'
  end.

Lemma insert_sorted_perm x l l' : insert_sorted x l = Some l' -> l' ≡ₚ x :: l.
Proof.
  revert l'. induction l as [|y l IH]; intros l' H; simpl in H; [by injection H as <-|].
  destruct (less y x) as [[]|]; simpl in H; [|by injection H as <-|done].
  destruct (insert_sorted x l) as [l2|]; simpl in H; [|done]. injection H as <-.
  rewrite (IH l2 eq_refl). constructor.
Qed.

Lemma insertion_sort_perm l l' : insertion_sort l = Some l' -> l' ≡ₚ l.
Proof.
  revert l'. induction l as [|x l IH]; intros l' H; simpl in H; [by injection H as <-|].
  destruct (insertion_sort l) as [l2|]; simpl in H; [|done].
  apply insert_sorted_perm in H as ->. by rewrite (IH l2 eq_refl).
Qed.

Lemma insert_sorted_total x l : (forall y, y ∈ l -> is_Some (less y x)) -> is_Some (insert_sorted x l).
Proof.
  induction l as [|y l IH]; intros Ht; simpl; [by eexists|].
  destruct (Ht y ltac:(by left)) as [[] ->]; simpl; [|by eexists].
  destruct IH as [l2 ->]; [intros; apply Ht; by right|]. by eexists.
Qed.

Lemma insertion_sort_total l : (forall x y, x ∈ l -> y ∈ l -> is_Some (less x y)) -> is_Some (insertion_sort l).
Proof.
  induction l as [|x l IH]; intros Ht; simpl; [by eexists|].
  destruct IH as [l2 El]; [intros; apply Ht; by right|]. rewrite El. simpl.
  apply insert_sorted_total. intros y Hy. apply Ht; [|by left].
  right. by rewrite <-(insertion_sort_perm _ _ El).
Qed.

(** No element is below one before it. *)
Definition ordered (l : list A) : Prop :=
  forall i j x y, (i < j)%nat -> l !! i = Some x -> l !! j = Some y -> ~ lt_of less y x.

Lemma ordered_cons x l : ordered (x :: l) <-> (forall y, y ∈ l -> ~ lt_of less y x) /\ ordered l.
Proof.
  split.
  - intros H. split.
    + intros y [j Hj]%list_elem_of_lookup. apply (H 0%nat (S j)); [lia|done..].
    + intros i j a b ? Ha Hb. apply (H (S i) (S j)); [lia|done..].
  - intros [Hx Hl] [|i] [|j] a b Hij Ha Hb; simplify_eq/=; [lia| |lia|].
    + apply Hx. by eapply list_elem_of_lookup_2.
    + eapply (Hl i j); [lia|done..].
Qed.

Lemma insert_sorted_ordered x l l' : strict_weak less (x :: l) -> ordered l ->
  insert_sorted x l = Some l' -> ordered l'.
Proof.
  revert l'. induction l as [|y l IH]; intros l' Hw Ho H; simpl in H.
  { injection H as <-. apply ordered_cons. split; [|done]. intros z Hz. set_solver. }
  apply ordered_cons in Ho as [Hy Ho].
  destruct (less y x) as [[]|] eqn:E; simpl in H; [| |done].
  - destruct (insert_sorted x l) as [l2|] eqn:E2; simpl in H; [|done]. injection H as <-.
    apply ordered_cons. split.
    + intros z Hz. rewrite (insert_sorted_perm _ _ _ E2) in Hz. apply elem_of_cons in Hz as [->|Hz]; [|by apply Hy].
      intros Hxy. eapply (sw_irrefl _ _ Hw y); [set_solver|].
      eapply (sw_trans _ _ Hw y x y); (done || set_solver).
    + apply IH; [|done|done]. destruct Hw as [W1 W2 W3 W4].
      split; [intros a b ? ?; apply W1|intros a ?; apply W2|intros a b c ? ? ?; apply W3|intros a b c ? ? ?; apply W4];
        set_solver.
  - injection H as <-. apply ordered_cons. split; [|by apply ordered_cons].
    intros z Hz Hzx. apply elem_of_cons in Hz as [->|Hz]; [unfold lt_of in Hzx; congruence|].
    destruct (sw_incomp _ _ Hw z y x) as [?|?]; [set_solver..|done| |unfold lt_of in *; congruence].
    by apply (Hy z).
Qed.

Lemma insertion_sort_ordered l l' : strict_weak less l -> insertion_sort l = Some l' -> ordered l'.
Proof.
  revert l'. induction l as [|x l IH]; intros l' Hw H; simpl in H.
  { injection H as <-. intros i j a b ? [=]. }
  destruct (insertion_sort l) as [l2|] eqn:E; simpl in H; [|done].
  assert (Hw2 : strict_weak less l).
  { destruct Hw as [W1 W2 W3 W4].
    split; [intros a b ? ?; apply W1|intros a ?; apply W2|intros a b c ? ? ?; apply W3|intros a b c ? ? ?; apply W4];
      set_solver. }
  assert (Hp : forall z, z ∈ x :: l2 -> z ∈ x :: l).
  { intros z. by rewrite (insertion_sort_perm _ _ E). }
  eapply insert_sorted_ordered; [|by apply IH|exact H].
  destruct Hw as [W1 W2 W3 W4].
  split; [intros a b ? ?; apply W1|intros a ?; apply W2|intros a b c ? ? ?; apply W3|intros a b c ? ? ?; apply W4]; auto.
Qed.
End insertion.

Definition insertion_GoSort : GoSort := {| sort_Sort A less l := insertion_sort less l |}.

Lemma insertion_GoSortLaws : @GoSortLaws insertion_GoSort.
Proof.
  split; intros A less.
  - apply insertion_sort_perm.
  - apply insertion_sort_total.
  - intros x y _ E. simpl. by rewrite E.
  - intros l l' Hw H. exact (insertion_sort_ordered less l l' Hw H).
Qed.

Definition list_MapOrder : MapOrder := {| range_map A m := map_to_list m |}.

Lemma list_MapOrderLaws : @MapOrderLaws list_MapOrder.
Proof. by split. Qed.
