(* ===== verification/Wire.v ===== *)
(** * What goes over the wire: packets, addresses, times

    protocol.go, configs.go, logger.go, time.go and the pure parts of utils.go,
    response.go, process.go and server.go of p2p/. A Go string is the list of
    its bytes. A connection is the sequence of the chunks that its [Read]s
    return: [bufio.Reader] reads a chunk when its buffer is empty, however much
    of it is wanted. Logging is left out. *)

From stdpp Require Import sorting.
From S2P Require Import Prelude Format Node Params.

(** ** Constants (configs.go, protocol.go) *)

Definition MIN_MINERS : Z := 20.
Definition MAX_MINERS : Z := 30.
Definition MIN_PEERS_FOR_TIME : nat := 5.
Definition IPV4ADDR_SIZE : nat := 4.
Definition PORT_SIZE : nat := 2.
Definition HEADER_LEN : nat := 5.

Definition FUNDSTX_BRDCST : Z := 1.
Definition ACCTX_BRDCST : Z := 2.
Definition CONFIGTX_BRDCST : Z := 3.
Definition STAKETX_BRDCST : Z := 4.
Definition VERIFIEDTX_BRDCST : Z := 5.
Definition BLOCK_BRDCST : Z := 6.
Definition BLOCK_HEADER_BRDCST : Z := 7.
Definition TX_BRDCST_ACK : Z := 8.
Definition AGGTX_BRDCST : Z := 9.
Definition UPDATETX_BRDCST : Z := 10.

Definition FUNDSTX_REQ : Z := 20.
Definition ACCTX_REQ : Z := 21.
Definition CONFIGTX_REQ : Z := 22.
Definition STAKETX_REQ : Z := 23.
Definition BLOCK_REQ : Z := 24.
Definition BLOCK_HEADER_REQ : Z := 25.
Definition ACC_REQ : Z := 26.
Definition ROOTACC_REQ : Z := 27.
Definition INTERMEDIATE_NODES_REQ : Z := 28.
Definition AGGTX_REQ : Z := 29.
Definition UNKNOWNTX_REQ : Z := 30.
Definition SPECIALTX_REQ : Z := 31.
Definition NOT_FOUND_TX_REQ : Z := 32.
Definition UPDATETX_REQ : Z := 33.

Definition FUNDSTX_RES : Z := 40.
Definition ACCTX_RES : Z := 41.
Definition CONFIGTX_RES : Z := 42.
Definition STAKETX_RES : Z := 43.
Definition BLOCK_RES : Z := 44.
Definition BlOCK_HEADER_RES : Z := 45.
Definition ACC_RES : Z := 46.
Definition ROOTACC_RES : Z := 47.
Definition INTERMEDIATE_NODES_RES : Z := 48.
Definition AGGTX_RES : Z := 49.
Definition UPDATETX_RES : Z := 50.

Definition NEIGHBOR_REQ : Z := 130.
Definition NEIGHBOR_RES : Z := 140.
Definition TIME_BRDCST : Z := 150.
Definition MINER_PING : Z := 100.
Definition MINER_PONG : Z := 101.
Definition CLIENT_PING : Z := 102.
Definition CLIENT_PONG : Z := 103.
Definition NOT_FOUND : Z := 110.

(** The keys of the map (logger.go); no name is empty. *)
Definition LogMapping : list Z :=
  [1; 2; 3; 4; 5; 6; 7; 8; 9; 10;
   20; 21; 22; 23; 24; 25; 26; 27; 28; 29; 30; 31; 32; 33;
   40; 41; 42; 43; 44; 45; 46; 47; 48; 49; 50;
   130; 140; 150; 100; 101; 102; 103; 110].

Definition registered (typeID : Z) : bool := bool_decide (typeID ∈ LogMapping).

(** ** Packets (utils.go) *)

Record Header := mkHeader { Len : Z; TypeID : Z }.

(** Four bytes of length, the type, the payload. *)
Definition BuildPacket (typeID : Z) (payload : bytes) : bytes :=
  let packet := zeros (HEADER_LEN + length payload) in
  let packet := splice 0 (be_bytes 4 (u32 (Z.of_nat (length payload)))) packet in
  let packet := splice 4 [mkb typeID] packet in
  splice 5 payload packet.

Definition extractHeader (headerData : bytes) : Header :=
  mkHeader (be_val (sublist 0 4 headerData)) (be_val (sublist 4 1 headerData)).

(** A buffered reader: what is left in its buffer, and the chunks to come. *)
Record Reader := mkReader { buffered : bytes; incoming : list bytes }.

Fixpoint fill (chunks : list bytes) : option (byte * Reader) :=
  match chunks with
  | [] => None
  | (b :: buf) :: chunks => Some (b, mkReader buf chunks)
  | [] :: chunks => fill chunks
  end.

Definition ReadByte (r : Reader) : option (byte * Reader) :=
  match buffered r with
  | b :: buf => Some (b, mkReader buf (incoming r))
  | [] => fill (incoming r)
  end.

(** The loops of [ReadHeader] and [RcvData] over [ReadByte]. *)
Fixpoint read_n (n : nat) (r : Reader) : option (bytes * Reader) :=
  match n with
  | O => Some ([], r)
  | S n =>
      '(b, r) ← ReadByte r;
      '(bs, r) ← read_n n r;
      Some (b :: bs, r)
  end.

Definition ReadHeader (r : Reader) : option (Header * Reader) :=
  '(headerArr, r) ← read_n HEADER_LEN r;
  let header := extractHeader headerArr in
  if negb (registered (TypeID header)) then None
  else if MAX_BLOCK_SIZE <? Len header then None
  else Some (header, r).

(** [None] is an error, after which the connection is closed. The reader is
    made by the call and dropped at its end. *)
Definition RcvData (conn : list bytes) : option (Header * bytes * list bytes) :=
  '(header, r) ← ReadHeader (mkReader [] conn);
  if 800000 <? Len header then None
  else
    '(payload, r) ← read_n (Z.to_nat (Len header)) r;
    Some (header, payload, incoming r).

(** The variant without the bound. *)
Definition RcvData_ (conn : list bytes) : option (Header * bytes * list bytes) :=
  '(header, r) ← ReadHeader (mkReader [] conn);
  '(payload, r) ← read_n (Z.to_nat (Len header)) r;
  Some (header, payload, incoming r).

(** ** Addresses (response.go, process.go) *)

Abbreviation dot := Byte.x2e.
Abbreviation colon := Byte.x3a.

(** [strings.Split] at a separator of one byte: never empty. *)
Fixpoint Split (s : bytes) (sep : byte) : list bytes :=
  match s with
  | [] => [[]]
  | c :: s =>
      match Split s sep with
      | part :: parts => if bool_decide (c = sep) then [] :: part :: parts else (c :: part) :: parts
      | [] => []
      end
  end.

(** [strconv.Itoa], [strconv.Atoi]. *)
Definition Itoa (n : Z) : bytes := fmt_int 10 n.
Definition Atoi (s : bytes) : option Z :=
  n ← parse_int 10 s;
  if (- 2 ^ 63 <=? n) && (n <? 2 ^ 63) then Some n else None.

(** The value of [strconv.ParseUint(s, 10, 16)]: the largest one when the
    number gets too large, zero when another character comes first. *)
Fixpoint parse_uint16 (acc : Z) (s : bytes) : Z :=
  match s with
  | [] => acc
  | c :: s =>
      match char_digit c with
      | Some d =>
          if d <? 10 then
            let n := acc * 10 + d in if 65535 <? n then 65535 else parse_uint16 n s
          else 0
      | None => 0
      end
  end.
Definition ParseUint16 (s : bytes) : Z := parse_uint16 0 s.

(** The four loops over a part of the address: an index out of range panics
    ([None]), a part that is no number makes the payload nil ([Some None]). *)
Fixpoint addr_bytes (n : nat) (split : list bytes) : option (option bytes) :=
  match n with
  | O => Some (Some [])
  | S n =>
      match split with
      | [] => None
      | part :: split =>
          match Atoi part with
          | None => Some None
          | Some addrPart =>
              rest ← addr_bytes n split;
              Some (option_map (cons (mkb (u8 addrPart))) rest)
          end
      end
  end.

(** Six bytes for each address. *)
Fixpoint _neighborRes (ipportList : list bytes) : option (option bytes) :=
  match ipportList with
  | [] => Some (Some [])
  | ipportIter :: ipportList =>
      let ipport := Split ipportIter colon in
      host ← ipport !! 0%nat;
      addr ← addr_bytes 4 (Split host dot);
      match addr with
      | None => Some None
      | Some addr =>
          portPart ← ipport !! 1%nat;
          let port := ParseUint16 portPart in
          rest ← _neighborRes ipportList;
          Some (option_map (app (addr ++ drop 6 (be_bytes 8 port))) rest)
      end
  end.

(** The text of the address at [index]; the trailing dot is removed. *)
Definition one_neighbor (payload : bytes) (index : nat) : bytes :=
  let addr := mjoin ((fun b => Itoa (bval b) ++ [dot]) <$> sublist index IPV4ADDR_SIZE payload) in
  take (length addr - 1) addr ++ [colon] ++ Itoa (be_val (sublist (index + 4) 2 payload)).

Definition _processNeighborRes (payload : bytes) : list bytes :=
  (fun cnt => one_neighbor payload (cnt * (IPV4ADDR_SIZE + PORT_SIZE)))
    <$> seq 0 (length payload / (IPV4ADDR_SIZE + PORT_SIZE)).

Definition _pongRes (payload : bytes) : bytes :=
  if Nat.eqb (length payload) PORT_SIZE then Itoa (be_val (sublist 0 PORT_SIZE payload)) else [].

Definition PrepareHandshake (pingType localPort : Z) : bytes :=
  BuildPacket pingType (be_bytes 2 (u16 localPort)).

(** ** Times (time.go) *)

Definition getTime (now : Z) : bytes := be_bytes 8 (u64 now).

(** [sort.Ints] *)
Definition Ints (l : list Z) : list Z := merge_sort Z.le l.

(** An index out of range panics. The sum wraps; [/] truncates. *)
Definition calcMedian (ipeerTimes : list Z) : option Z :=
  let ipeerTimes := Ints ipeerTimes in
  let n := length ipeerTimes in
  if Nat.odd n then ipeerTimes !! (n / 2)%nat
  else
    low ← ipeerTimes !! (n / 2)%nat;
    high ← ipeerTimes !! (n / 2 + 1)%nat;
    Some (Z.quot (to_int64 (high + low)) 2).
