(* ===== verification/WireLemmas.v ===== *)
(** * Lemmas on packets, addresses and the buffered reader *)

From stdpp Require Import sorting.
From S2P Require Import Prelude Format Chameleon Protocol Merkle Node Params Wire.

(** ** Packets *)

Lemma BuildPacket_eq t p :
  BuildPacket t p = be_bytes 4 (u32 (Z.of_nat (length p))) ++ [mkb t] ++ p.
Proof.
  unfold BuildPacket, HEADER_LEN. set (l := be_bytes 4 _).
  assert (Hl : length l = 4%nat) by apply length_be_bytes.
  assert (E1 : splice 0 l (zeros (5 + length p)) = l ++ zeros (1 + length p)).
  { unfold splice. rewrite take_0, Hl. reflexivity. }
  rewrite E1.
  assert (E2 : splice 4 [mkb t] (l ++ zeros (1 + length p)) = (l ++ [mkb t]) ++ zeros (length p)).
  { unfold splice. rewrite take_app_le, take_ge by lia. rewrite drop_app_ge by (simpl; lia).
    rewrite Hl, <-app_assoc. reflexivity. }
  rewrite E2. unfold splice.
  assert (H5 : length (l ++ [mkb t]) = 5%nat) by (rewrite length_app, Hl; done).
  rewrite take_app_le, take_ge by lia. rewrite drop_ge, app_nil_r, <-app_assoc; [done|].
  unfold zeros. rewrite length_app, length_replicate, H5. lia.
Qed.

Lemma length_BuildPacket t p : length (BuildPacket t p) = (5 + length p)%nat.
Proof. rewrite BuildPacket_eq, length_app, length_be_bytes. simpl. lia. Qed.

Lemma registered_range t : registered t = true -> 0 <= t < 256.
Proof.
  unfold registered. rewrite bool_decide_eq_true. intros H.
  assert (Hf : Forall (fun x => 0 <= x < 256) LogMapping) by (repeat constructor; lia).
  rewrite Forall_forall in Hf. by apply Hf.
Qed.

Lemma extractHeader_eq l t : length l = 4%nat -> extractHeader (l ++ [t]) = mkHeader (be_val l) (bval t).
Proof.
  intros Hl. unfold extractHeader. f_equal.
  - f_equal. by apply sublist_prefix.
  - rewrite (sublist_suffix l [t]) by done. rewrite be_val_cons, be_val_nil. simpl. lia.
Qed.

(** ** The buffered reader

    [unread r c rest d]: the bytes up to the chunk [c] that [r] has not
    returned are [d]; [rest] comes after [c]. *)

Definition unread (r : Reader) (c : bytes) (rest : list bytes) (d : bytes) : Prop :=
  exists cs, incoming r = cs ++ rest /\ d = buffered r ++ mjoin cs /\ (cs = [] \/ exists cs', cs = cs' ++ [c]).

Lemma fill_unread cs c rest b d : c <> [] -> (cs = [] \/ exists cs', cs = cs' ++ [c]) ->
  mjoin cs = b :: d -> exists r, fill (cs ++ rest) = Some (b, r) /\ unread r c rest d.
Proof.
  intros Hc. induction cs as [|[|x buf] cs IH]; intros Hcs E; [done| |].
  - simpl in *. apply IH; [|done]. destruct Hcs as [?|[ [|? cs'] Hcs] ]; simplify_eq/=; eauto.
  - simpl in *. simplify_eq. eexists. split; [done|]. exists cs. simpl. split; [done|]. split; [done|].
    destruct Hcs as [?|[ [|? cs'] Hcs] ]; simplify_eq/=; eauto.
Qed.

Lemma ReadByte_unread r c rest b d : c <> [] -> unread r c rest (b :: d) ->
  exists r', ReadByte r = Some (b, r') /\ unread r' c rest d.
Proof.
  intros Hc (cs&E1&E2&Hcs). unfold ReadByte. destruct (buffered r) as [|x buf] eqn:Eb; simplify_eq/=.
  - rewrite E1. by apply fill_unread.
  - eexists. split; [done|]. exists cs. simpl. auto.
Qed.

Lemma read_n_unread r c rest bs d : c <> [] -> unread r c rest (bs ++ d) ->
  exists r', read_n (length bs) r = Some (bs, r') /\ unread r' c rest d.
Proof.
  intros Hc. revert r. induction bs as [|b bs IH]; intros r Hr; simpl; [eauto|].
  apply ReadByte_unread in Hr as (r1&->&H1); [|done]. simpl.
  apply IH in H1 as (r2&->&H2). simpl. eauto.
Qed.

Lemma unread_last r c rest d : unread r c rest d -> (length d < length c)%nat -> incoming r = rest.
Proof.
  intros (cs&E1&->&[->|[cs' ->] ]) Hl; [done|].
  rewrite join_app, length_app, length_app in Hl. simpl in Hl. rewrite app_nil_r in Hl. lia.
Qed.

(** Whatever is read comes from the connection, in order. *)
Definition data (r : Reader) : bytes := buffered r ++ mjoin (incoming r).

Lemma fill_data cs b r : fill cs = Some (b, r) -> mjoin cs = b :: data r.
Proof. induction cs as [|[|x buf] cs IH]; intros H; simplify_eq/=; [auto|done]. Qed.

Lemma ReadByte_data r b r' : ReadByte r = Some (b, r') -> data r = b :: data r'.
Proof.
  unfold ReadByte, data. destruct (buffered r) as [|x buf]; intros H; simplify_eq/=; [|done].
  by apply fill_data in H.
Qed.

Lemma read_n_data n r bs r' : read_n n r = Some (bs, r') -> length bs = n /\ data r = bs ++ data r'.
Proof.
  revert r bs r'. induction n as [|n IH]; intros r bs r' H; simplify_eq/=; [done|].
  destruct (ReadByte r) as [ [b r1]|] eqn:E1; simplify_eq/=. apply ReadByte_data in E1.
  destruct (read_n n r1) as [ [bs1 r2]|] eqn:E2; simplify_eq/=. apply IH in E2 as [<- E2].
  split; [done|]. by rewrite E1, E2.
Qed.

(** ** Texts of addresses *)

Lemma digit_char_sep d : 0 <= d < 16 -> digit_char d <> dot /\ digit_char d <> colon /\
  digit_char d <> Byte.x2d /\ digit_char d <> Byte.x2b.
Proof.
  intros Hd. unfold digit_char.
  assert (forall z c, 0 <= z < 256 -> bval c <> z -> mkb z <> c) as Hne.
  { intros z c Hz Hc <-. apply Hc. by apply bval_mkb. }
  destruct (Z.ltb_spec d 10); repeat split; apply Hne; (lia || (change (bval _) with 46; lia) ||
    (change (bval _) with 58; lia) || (change (bval _) with 45; lia) || (change (bval _) with 43; lia)).
Qed.

Lemma Itoa_chars n : 0 <= n -> Forall (fun c => c <> dot /\ c <> colon /\ c <> Byte.x2d /\ c <> Byte.x2b) (Itoa n).
Proof.
  intros Hn. unfold Itoa, fmt_int. rewrite (proj2 (Z.ltb_ge _ _)) by done.
  eapply Forall_impl; [apply (fmt_nat_chars 10); lia|]. intros c (d&Hd&->). by apply digit_char_sep.
Qed.

Lemma Split_ne s sep : Split s sep <> [].
Proof. induction s as [|c s IH]; simpl; [done|]. destruct (Split s sep); [done|]. by case_bool_decide. Qed.

Lemma Split_none s sep : Forall (fun c => c <> sep) s -> Split s sep = [s].
Proof. induction 1 as [|c s Hc _ IH]; simpl; [done|]. by rewrite IH, bool_decide_eq_false_2. Qed.

Lemma Split_app s sep t : Forall (fun c => c <> sep) s -> Split (s ++ sep :: t) sep = s :: Split t sep.
Proof.
  induction 1 as [|c s Hc _ IH]; simpl.
  - pose proof (Split_ne t sep). destruct (Split t sep); [done|]. by rewrite bool_decide_eq_true_2.
  - by rewrite IH, bool_decide_eq_false_2.
Qed.

Lemma Atoi_Itoa n : 0 <= n < 2 ^ 63 -> Atoi (Itoa n) = Some n.
Proof.
  intros Hn. pose proof (Itoa_chars n ltac:(lia)) as Hc. pose proof (parse_fmt_nat 10 ltac:(lia) n ltac:(lia)) as Hp.
  unfold Atoi. replace (parse_int 10 (Itoa n)) with (Some n).
  - simpl. by rewrite (proj2 (Z.leb_le _ _)), (proj2 (Z.ltb_lt _ _)) by lia.
  - unfold Itoa, fmt_int in *. rewrite (proj2 (Z.ltb_ge n 0)) in * by lia. rewrite <-Hp. clear Hp.
    destruct Hc as [|c s (_&_&H1&H2) _]; [done|]. unfold parse_int. by destruct c.
Qed.

Lemma char_digit_nonneg c d : char_digit c = Some d -> 0 <= d.
Proof.
  unfold char_digit. intros H.
  repeat (case_match; rewrite ?andb_true_iff, ?Z.leb_le in *); simplify_eq; lia.
Qed.

Lemma parse_digits_mono s acc n : 0 <= acc -> parse_digits 10 acc s = Some n -> acc <= n.
Proof.
  revert acc. induction s as [|c s IH]; intros acc Ha H; simplify_eq/=; [lia|].
  destruct (char_digit c) as [d|] eqn:E; simplify_eq/=.
  apply char_digit_nonneg in E.
  case_match; simplify_eq. apply IH in H; lia.
Qed.

Lemma parse_uint16_digits s acc n : 0 <= acc -> n <= 65535 -> parse_digits 10 acc s = Some n -> parse_uint16 acc s = n.
Proof.
  revert acc. induction s as [|c s IH]; intros acc Ha Hn H; simplify_eq/=; [done|].
  destruct (char_digit c) as [d|] eqn:E; simplify_eq/=.
  apply char_digit_nonneg in E.
  destruct (d <? 10); simplify_eq. assert (acc * 10 + d <= n) by (eapply parse_digits_mono; [|exact H]; lia).
  rewrite (proj2 (Z.ltb_ge _ _)) by lia. apply IH; (done || lia).
Qed.

Lemma ParseUint16_Itoa n : 0 <= n <= 65535 -> ParseUint16 (Itoa n) = n.
Proof.
  intros Hn. pose proof (parse_fmt_nat 10 ltac:(lia) n ltac:(lia)) as Hp.
  unfold ParseUint16, Itoa, fmt_int. rewrite (proj2 (Z.ltb_ge n 0)) by lia.
  unfold parse_nat in Hp. apply parse_uint16_digits; [lia..|]. by destruct (fmt_nat 10 n).
Qed.

(** One address of six bytes. *)
Definition address_text (b0 b1 b2 b3 b4 b5 : byte) : bytes :=
  Itoa (bval b0) ++ dot :: Itoa (bval b1) ++ dot :: Itoa (bval b2) ++ dot :: Itoa (bval b3) ++
  colon :: Itoa (be_val [b4; b5]).

Lemma one_neighbor_text payload k b0 b1 b2 b3 b4 b5 :
  sublist k 6 payload = [b0; b1; b2; b3; b4; b5] -> one_neighbor payload k = address_text b0 b1 b2 b3 b4 b5.
Proof.
  intros E. unfold one_neighbor, address_text.
  replace (sublist k IPV4ADDR_SIZE payload) with [b0; b1; b2; b3].
  2: { change IPV4ADDR_SIZE with 4%nat. rewrite <-(Nat.add_0_r k), <-(sublist_sublist 0 4 k 6) by lia. by rewrite E. }
  replace (sublist (k + 4) 2 payload) with [b4; b5].
  2: { rewrite <-(sublist_sublist 4 2 k 6) by lia. by rewrite E. }
  assert (Ht : forall l : bytes, take (length (l ++ [dot]) - 1) (l ++ [dot]) = l).
  { intros l. rewrite length_app. simpl. rewrite Nat.add_sub. apply take_app_length. }
  set (x := _ <$> _).
  replace (mjoin x) with ((Itoa (bval b0) ++ dot :: Itoa (bval b1) ++ dot :: Itoa (bval b2) ++ dot :: Itoa (bval b3)) ++ [dot]).
  2: { unfold x. simpl. by simplify_list_eq. }
  rewrite Ht. by simplify_list_eq.
Qed.

Lemma Split_host b0 b1 b2 b3 :
  Split (Itoa (bval b0) ++ dot :: Itoa (bval b1) ++ dot :: Itoa (bval b2) ++ dot :: Itoa (bval b3)) dot =
  [Itoa (bval b0); Itoa (bval b1); Itoa (bval b2); Itoa (bval b3)].
Proof.
  assert (H : forall b, Forall (fun c => c <> dot) (Itoa (bval b))).
  { intros b. eapply Forall_impl; [apply Itoa_chars; apply bval_range|]. by intros c []. }
  by rewrite !Split_app, Split_none.
Qed.

Lemma Split_address b0 b1 b2 b3 b4 b5 :
  Split (address_text b0 b1 b2 b3 b4 b5) colon =
  [Itoa (bval b0) ++ dot :: Itoa (bval b1) ++ dot :: Itoa (bval b2) ++ dot :: Itoa (bval b3); Itoa (be_val [b4; b5])].
Proof.
  assert (H : forall z, 0 <= z -> Forall (fun c => c <> colon) (Itoa z)).
  { intros z Hz. eapply Forall_impl; [by apply Itoa_chars|]. by intros c (?&?&?). }
  assert (Hb : forall b, Forall (fun c => c <> colon) (Itoa (bval b))) by (intros b; apply H, bval_range).
  unfold address_text.
  replace (_ ++ _) with ((Itoa (bval b0) ++ dot :: Itoa (bval b1) ++ dot :: Itoa (bval b2) ++ dot :: Itoa (bval b3)) ++
    colon :: Itoa (be_val [b4; b5])) by by simplify_list_eq.
  rewrite Split_app; [by rewrite Split_none by (apply H, be_val_bound)|].
  rewrite Forall_app, Forall_cons, Forall_app, Forall_cons, Forall_app, Forall_cons. done.
Qed.

Lemma mkb_bval b : mkb (u8 (bval b)) = b.
Proof. rewrite wrap_small by apply bval_range. apply byte.of_Z_unsigned. Qed.

Lemma addr_bytes_cons n b split :
  addr_bytes (S n) (Itoa (bval b) :: split) = rest ← addr_bytes n split; Some (option_map (cons b) rest).
Proof. simpl. pose proof (bval_range b). by rewrite Atoi_Itoa, mkb_bval by lia. Qed.

Lemma be_bytes_pad b4 b5 : drop 6 (be_bytes 8 (be_val [b4; b5])) = [b4; b5].
Proof. rewrite <-(be_val_zeros_app 6). change 8%nat with (length (zeros 6 ++ [b4; b5])). by rewrite be_bytes_val. Qed.

Lemma neighborRes_cons b0 b1 b2 b3 b4 b5 l :
  _neighborRes (address_text b0 b1 b2 b3 b4 b5 :: l) =
  rest ← _neighborRes l; Some (option_map (app [b0; b1; b2; b3; b4; b5]) rest).
Proof.
  cbn [_neighborRes]. rewrite Split_address. cbn [lookup list_lookup mbind option_bind].
  rewrite Split_host, !addr_bytes_cons. cbn [addr_bytes mbind option_bind option_map].
  pose proof (be_val_bound [b4; b5]) as Hb. simpl in Hb.
  by rewrite ParseUint16_Itoa, be_bytes_pad by lia.
Qed.

(** The texts of [n] addresses from the [k]-th on. *)
Lemma neighborRes_seq payload n k : (6 * (k + n) <= length payload)%nat ->
  _neighborRes ((fun cnt => one_neighbor payload (cnt * 6)) <$> seq k n) =
  Some (Some (sublist (6 * k) (6 * n) payload)).
Proof.
  revert k. induction n as [|n IH]; intros k Hl; [done|].
  assert (Hs : length (sublist (k * 6) 6 payload) = 6%nat) by (apply length_sublist; lia).
  destruct (sublist (k * 6) 6 payload) as [|b0 [|b1 [|b2 [|b3 [|b4 [|b5 [|] ] ] ] ] ] ] eqn:E; try discriminate Hs.
  cbn [seq]. rewrite fmap_cons.
  rewrite (one_neighbor_text _ _ _ _ _ _ _ _ E), neighborRes_cons, IH by lia.
  cbn [mbind option_bind option_map]. rewrite <-E. do 2 f_equal.
  replace (k * 6)%nat with (6 * k)%nat by lia. replace (6 * S k)%nat with (6 * k + 6)%nat by lia.
  replace (6 * S n)%nat with (6 + 6 * n)%nat by lia. apply sublist_app.
Qed.

(** ** The median *)

Lemma Ints_perm l : Ints l ≡ₚ l.
Proof. apply merge_sort_Permutation. Qed.

Lemma Ints_sorted l : StronglySorted Z.le (Ints l).
Proof. apply Sorted_StronglySorted; [intros x y z; lia|]. apply (Sorted_merge_sort Z.le). Qed.

Lemma count_filter_sublist {A} (P : A -> Prop) `{!forall x, Decision (P x)} (l k r : list A) :
  Forall P k -> (length k <= length (filter P (l ++ k ++ r)))%nat.
Proof.
  intros Hk. rewrite !filter_app, !length_app. rewrite (filter_all P k Hk). lia.
Qed.

Lemma sorted_split s i x : StronglySorted Z.le s -> s !! i = Some x ->
  Forall (fun y => y <= x) (take (S i) s) /\ Forall (fun y => x <= y) (drop i s).
Proof.
  intros Hs. revert i. induction Hs as [|y s Hs IH Hy]; intros [|i] Hi; simplify_eq/=.
  - split; [|constructor; [lia|done] ]. rewrite take_0. repeat constructor; lia.
  - destruct (IH i Hi) as [H1 H2]. split; [|done]. constructor; [|done].
    rewrite Forall_forall in Hy. apply Hy. by eapply list_elem_of_lookup_2.
Qed.

(** Fewer than [i + 1] elements below, fewer than [n - i] above the bounds: the
    element of rank [i] is within them. *)
Lemma ranked_within (l : list Z) (i : nat) (x lo hi : Z) : Ints l !! i = Some x ->
  (length (filter (fun t => (t < lo)%Z) l) <= i)%nat ->
  (length (filter (fun t => (hi < t)%Z) l) + i < length l)%nat -> lo <= x <= hi.
Proof.
  intros Hi Hlo Hhi. pose proof (Ints_perm l) as Hp. pose proof (lookup_lt_Some _ _ _ Hi) as Hlt.
  destruct (sorted_split _ _ _ (Ints_sorted l) Hi) as [H1 H2].
  rewrite <-Hp in Hlo, Hhi. split; apply Z.nlt_ge; intros Hx.
  - pose proof (count_filter_sublist (fun t => (t < lo)%Z) [] (take (S i) (Ints l)) (drop (S i) (Ints l))) as Hc.
    simpl in Hc. rewrite take_drop, length_take in Hc.
    assert (Forall (fun t => (t < lo)%Z) (take (S i) (Ints l))) by (eapply Forall_impl; [exact H1|]; simpl; lia).
    specialize (Hc ltac:(done)). lia.
  - pose proof (count_filter_sublist (fun t => (hi < t)%Z) (take i (Ints l)) (drop i (Ints l)) []) as Hc.
    rewrite app_nil_r, take_drop, length_drop in Hc.
    assert (Forall (fun t => (hi < t)%Z) (drop i (Ints l))) by (eapply Forall_impl; [exact H2|]; simpl; lia).
    specialize (Hc ltac:(done)). lia.
Qed.

Lemma quot2_within a b lo hi : - 2 ^ 62 <= lo -> hi < 2 ^ 62 -> lo <= a <= hi -> lo <= b <= hi ->
  lo <= Z.quot (to_int64 (a + b)) 2 <= hi.
Proof.
  intros Hl Hh Ha Hb.
  assert (to_int64 (a + b) = a + b) as ->.
  { unfold to_int64. destruct (Z.lt_ge_cases (a + b) 0).
    - assert (u64 (a + b) = a + b + 2 ^ 64) as ->.
      { unfold wrap. symmetry. apply (Z.mod_unique _ _ (-1)); lia. }
      rewrite (proj2 (Z.ltb_ge _ _)) by lia. lia.
    - rewrite wrap_small by lia. rewrite (proj2 (Z.ltb_lt _ _)) by lia. done. }
  pose proof (Z.quot_le_mono (2 * lo) (a + b) 2 ltac:(lia) ltac:(lia)) as H1.
  pose proof (Z.quot_le_mono (a + b) (2 * hi) 2 ltac:(lia) ltac:(lia)) as H2.
  rewrite (Z.mul_comm 2), Z.quot_mul in H1, H2 by lia. lia.
Qed.

(** ** Receiving a packet *)

(** The header of a packet, up to the width of its length. *)
Definition header_of (t : Z) (p : bytes) : Header := mkHeader (Z.of_nat (length p)) t.

Lemma ReadHeader_packet cs c rest t p extra : c <> [] -> registered t = true -> Z.of_nat (length p) <= MAX_BLOCK_SIZE ->
  mjoin cs ++ c = BuildPacket t p ++ extra ->
  exists r, ReadHeader (mkReader [] (cs ++ c :: rest)) = Some (header_of t p, r) /\ unread r c rest (p ++ extra).
Proof.
  intros Hc Ht Hp E. rewrite BuildPacket_eq in E. set (l := be_bytes 4 _) in E.
  assert (Hl : length l = 4%nat) by apply length_be_bytes.
  assert (H0 : unread (mkReader [] (cs ++ c :: rest)) c rest ((l ++ [mkb t]) ++ p ++ extra)).
  { exists (cs ++ [c]). cbn [incoming buffered]. split; [by rewrite <-app_assoc|]. split; [|eauto].
    rewrite join_app. cbn. rewrite app_nil_r, E. by simplify_list_eq. }
  apply read_n_unread in H0 as (r&H1&H2); [|done]. exists r. split; [|done].
  unfold ReadHeader. replace (length (l ++ [mkb t])) with HEADER_LEN in H1 by (by rewrite length_app, Hl).
  rewrite H1. cbn [mbind option_bind]. rewrite extractHeader_eq by done.
  pose proof (registered_range _ Ht). unfold MAX_BLOCK_SIZE in Hp.
  unfold l. rewrite wrap_small, be_val_bytes by (change (8 * Z.of_nat 4) with 32; lia).
  rewrite bval_mkb by lia. cbn [TypeID Len]. rewrite Ht. simpl.
  unfold MAX_BLOCK_SIZE. by rewrite (proj2 (Z.ltb_ge _ _)) by lia.
Qed.

Lemma RcvData_chunks cs c rest t p extra : registered t = true -> Z.of_nat (length p) <= 800000 ->
  mjoin cs ++ c = BuildPacket t p ++ extra -> (length extra < length c)%nat ->
  RcvData (cs ++ c :: rest) = Some (header_of t p, p, rest).
Proof.
  intros Ht Hp E Hex. assert (Hc : c <> []) by (intros ->; simpl in Hex; lia).
  destruct (ReadHeader_packet cs c rest t p extra) as (r&Hr&Hu); [done..|unfold MAX_BLOCK_SIZE; lia|done|].
  unfold RcvData. rewrite Hr. cbn [mbind option_bind header_of Len].
  rewrite (proj2 (Z.ltb_ge _ _)), Nat2Z.id by lia.
  apply read_n_unread in Hu as (r2&->&Hu); [|done]. simpl. by rewrite (unread_last _ _ _ _ Hu Hex).
Qed.
