(* ===== verification/WireProps.v ===== *)
(** * What holds of the wire format, of addresses and of the system time *)

From stdpp Require Import sorting.
From S2P Require Import Prelude Format Chameleon Node Params Wire WireLemmas.

(** The remote side writes a packet; the [Read]s of this side return it in any
    chunks, the last of which may hold more. *)
(** C31: A packet of a registered type and of at most 800000 bytes is received as
    it was built, however the connection cuts it; but what else the last chunk
    holds, the beginning of the packets that follow, is lost. *)
Theorem packet_roundtrip cs c rest t p extra : registered t = true -> Z.of_nat (length p) <= 800000 ->
  mjoin cs ++ c = BuildPacket t p ++ extra -> (length extra < length c)%nat ->
  RcvData (cs ++ c :: rest) = Some (header_of t p, p, rest).
Proof. apply RcvData_chunks. Qed.

(** Two packets in two chunks; the second one begun in the chunk that ends the
    first. *)
Lemma packet_roundtrip_witness :
  RcvData [BuildPacket NEIGHBOR_REQ []; BuildPacket TIME_BRDCST (getTime 7)] =
    Some (mkHeader 0 130, [], [BuildPacket TIME_BRDCST (getTime 7)]) /\
  RcvData [BuildPacket NEIGHBOR_REQ [] ++ BuildPacket TIME_BRDCST (getTime 7)] = Some (mkHeader 0 130, [], []).
Proof.
  split.
  - apply (packet_roundtrip [] (BuildPacket NEIGHBOR_REQ []) [BuildPacket TIME_BRDCST (getTime 7)] NEIGHBOR_REQ [] []);
      [reflexivity|done|reflexivity|vm_compute; lia].
  - apply (packet_roundtrip [] (BuildPacket NEIGHBOR_REQ [] ++ BuildPacket TIME_BRDCST (getTime 7)) []
             NEIGHBOR_REQ [] (BuildPacket TIME_BRDCST (getTime 7))); [reflexivity|done|reflexivity|vm_compute; lia].
Defined.

(** What is received was sent: the type is registered, the payload has the
    length of its header and at most 800000 bytes, and the connection delivered
    the packet before what it still has, so that a longer packet, which the limit
    on blocks allows, is always refused. *)
Theorem received_was_sent conn h p rest : RcvData conn = Some (h, p, rest) ->
  registered (TypeID h) = true /\ Len h = Z.of_nat (length p) /\ Len h <= 800000 /\
  exists extra, mjoin conn = BuildPacket (TypeID h) p ++ extra ++ mjoin rest.
Proof.
  unfold RcvData, ReadHeader. intros ([h1 r]&H1&H)%bind_Some.
  apply bind_Some in H1 as ([hd r1]&E1&H1). apply read_n_data in E1 as [Hl E1].
  cbv zeta in H1. destruct (registered _) eqn:Et; [|done]. cbn [negb] in H1.
  destruct (MAX_BLOCK_SIZE <? _); [done|]. injection H1 as <- ->.
  destruct (Z.ltb_spec 800000 (Len (extractHeader hd))); [done|].
  apply bind_Some in H as ([p' r']&E2&H). injection H as <- -> <-. apply read_n_data in E2 as [Hp E2].
  unfold data in E1. cbn [buffered incoming app] in E1.
  assert (Hh : exists l t, hd = l ++ [t] /\ length l = 4%nat).
  { exists (take 4 hd). destruct hd as [|? [|? [|? [|? [|t [|] ] ] ] ] ]; try discriminate Hl. by exists t. }
  destruct Hh as (l&t&->&Hl4). rewrite extractHeader_eq in * by done. cbn [Len TypeID] in *.
  assert (Hn : 0 <= be_val l) by apply be_val_bound.
  assert (HL : be_val l = Z.of_nat (length p)) by lia.
  split; [done|]. split; [done|]. split; [done|]. exists (buffered r').
  rewrite E1. unfold data in E2 at 1. unfold data. rewrite E2, BuildPacket_eq, <-HL.
  rewrite wrap_small by (change 32 with (8 * Z.of_nat 4); rewrite <-Hl4; apply be_val_bound).
  rewrite <-Hl4 at 1. rewrite be_bytes_val. unfold data. rewrite <-!app_assoc. do 2 f_equal.
  cbn. f_equal. symmetry. apply byte.of_Z_unsigned.
Qed.

Lemma received_was_sent_witness :
  let conn := [BuildPacket NEIGHBOR_REQ []; BuildPacket TIME_BRDCST (getTime 7)] in
  exists extra, mjoin conn = BuildPacket 130 [] ++ extra ++ mjoin [BuildPacket TIME_BRDCST (getTime 7)].
Proof.
  intros conn. apply (received_was_sent conn (mkHeader 0 130) [] [BuildPacket TIME_BRDCST (getTime 7)]).
  vm_compute. reflexivity.
Defined.

(** Neighbours are sent as six bytes each: parsing any payload and writing
    the addresses again gives its whole records back, so that no node sees
    another list of neighbours than the one that was sent. *)
Theorem neighbors_roundtrip payload :
  length (_processNeighborRes payload) = (length payload / 6)%nat /\
  _neighborRes (_processNeighborRes payload) = Some (Some (take (6 * (length payload / 6)) payload)).
Proof.
  unfold _processNeighborRes. change (IPV4ADDR_SIZE + PORT_SIZE)%nat with 6%nat.
  split; [by rewrite length_fmap, length_seq|].
  pose proof (Nat.div_mod_eq (length payload) 6).
  rewrite neighborRes_seq by lia. unfold sublist. by rewrite Nat.mul_0_r, drop_0.
Qed.

(** The system time is a median: as long as enough of at least five times are
    within some bounds (all but fewer than half of an odd number, all but two
    fewer than half of an even number), so is the result. *)
Theorem median_within l lo hi : - 2 ^ 62 <= lo -> hi < 2 ^ 62 -> (5 <= length l)%nat ->
  let outliers := length (filter (fun t => t < lo \/ hi < t) l) in
  (2 * outliers + (if Nat.odd (length l) then 1 else 4) <= length l)%nat ->
  exists m, calcMedian l = Some m /\ lo <= m <= hi.
Proof.
  intros Hlo Hhi Hn outliers Hout.
  assert (Hf : forall P : Z -> Prop, forall D : (forall x, Decision (P x)), (forall t, P t -> t < lo \/ hi < t) ->
     (length (filter P l) <= outliers)%nat).
  { intros P D HP. unfold outliers. clear -HP. induction l as [|t l IH]; [done|]. rewrite !filter_cons.
    destruct (decide (P t)) as [Ht|]; destruct (decide (t < lo \/ hi < t)) as [|Hn]; simpl; try lia.
    destruct Hn. by apply HP. }
  pose proof (Hf (fun t => t < lo) _ ltac:(auto)) as H1. pose proof (Hf (fun t => hi < t) _ ltac:(auto)) as H2.
  assert (Hrank : forall i, (outliers <= i)%nat -> (outliers + i < length l)%nat ->
    exists x, Ints l !! i = Some x /\ lo <= x <= hi).
  { intros i Hi1 Hi2. destruct (lookup_lt_is_Some_2 (Ints l) i) as [x Hx].
    - rewrite (Permutation_length (Ints_perm l)). lia.
    - exists x. split; [done|]. apply (ranked_within l i); (done || lia). }
  unfold calcMedian. cbv zeta. rewrite (Permutation_length (Ints_perm l)).
  pose proof (Nat.div_mod_eq (length l) 2) as Hd. destruct (Nat.odd (length l)) eqn:Ho.
  - assert (length l mod 2 = 1)%nat by (apply Nat.odd_spec in Ho as [k ->]; rewrite Nat.add_comm, Nat.mul_comm, Nat.Div0.mod_add; done).
    apply Hrank; lia.
  - pose proof (Nat.mod_upper_bound (length l) 2).
    assert (length l mod 2 = 0)%nat.
    { apply Nat.Div0.mod_divides. rewrite <-Nat.negb_even, negb_false_iff in Ho. by apply Nat.even_spec in Ho. }
    destruct (Hrank (length l / 2)%nat) as (a&->&Ha); [lia..|].
    destruct (Hrank (length l / 2 + 1)%nat) as (b&->&Hb); [lia..|].
    simpl. eexists. split; [done|]. by apply quot2_within.
Qed.

(** Two of seven, one of six times are far off. *)
Lemma median_within_witness :
  (exists m, calcMedian [1000; 3; 1; 2; 2; 3; 1001] = Some m /\ 1 <= m <= 3) /\
  (exists m, calcMedian [1000; 3; 1; 2; 2; 3] = Some m /\ 1 <= m <= 3).
Proof.
  split; apply median_within; (lia || (vm_compute; lia)).
Defined.

(** The indices of the even case are one too high: with two of six times off,
    the result is. *)
Lemma median_skewed t x : - 2 ^ 62 <= t -> t <= x -> x < 2 ^ 62 ->
  exists m, calcMedian [t; t; t; t; x; x] = Some m /\ m = Z.quot (t + x) 2.
Proof.
  intros Ht Htx Hx.
  assert (E : Ints [t; t; t; t; x; x] = [t; t; t; t; x; x]).
  { apply (StronglySorted_unique Z.le); [apply Ints_sorted| |apply Ints_perm].
    repeat constructor; lia. }
  unfold calcMedian. rewrite E. simpl. eexists. split; [done|]. rewrite (Z.add_comm x). f_equal.
  unfold to_int64. destruct (Z.lt_ge_cases (t + x) 0).
  - assert (u64 (t + x) = t + x + 2 ^ 64) as -> by (unfold wrap; symmetry; apply (Z.mod_unique _ _ (-1)); lia).
    rewrite (proj2 (Z.ltb_ge _ _)); lia.
  - rewrite wrap_small by lia. rewrite (proj2 (Z.ltb_lt _ _)); lia.
Qed.
