(* ===== verification/Verify.v ===== *)
(** * miner/tx_verification.go: the static checks of a transaction

    Signatures are checked against the accounts of the state. [ecdsa.Verify] is
    a parameter; so is the multi-signature key of the node, set at start-up.
    The log output is left out. *)

From S2P Require Import Prelude Format Chameleon Protocol Node Storage Params StateChange.

(** [ecdsa.Verify] on the curve P256: public key x and y, hash, r, s. *)
Class Signatures := { ecdsa_Verify : Z -> Z -> bytes -> Z -> Z -> bool }.

(** The keys the node was started with: the package variables that [Init]
    assigns once. A public key is its pair of coordinates. *)
Class NodeKeys := {
  multisigPubKey : option (Z * Z);
  validatorAccAddress : address
}.

(** [crypto.GetAddressFromPubKey] (crypto/keypair.go): the minimal encodings of
    the coordinates are copied to the start of their half. *)
Definition GetAddressFromPubKey (pubKey : Z * Z) : address :=
  copy32 (min_bytes (fst pubKey)) ++ copy32 (min_bytes (snd pubKey)).

Section verify.
Context {DG : Digests} {SG : Signatures} {NK : NodeKeys}.

Definition IsSigned (h : hash) (signature : bytes) (address : address) : bool :=
  let r := be_val (take 32 signature) in
  let s := be_val (drop 32 signature) in
  let pub1 := be_val (take 32 address) in
  let pub2 := be_val (drop 32 address) in
  ecdsa_Verify pub1 pub2 h r s.

Definition verifyFundsTx (tx : FundsTx) : M Miner bool :=
  if (ftx_Amount tx =? 0) || (MAX_MONEY <? ftx_Amount tx) then mret false
  else
    accFrom ← get_account (ftx_From tx);
    accTo ← get_account (ftx_To tx);
    match accFrom, accTo with
    | Some accFrom, Some _ =>
        txHash ← tx_hash (TFunds tx);
        let validSig1 := IsSigned txHash (ftx_Sig1 tx) (acc_Address accFrom) in
        if bool_decide (ftx_Sig2 tx = zero_sig) then mret validSig1
        else
          multisig ← of_option multisigPubKey;
          let validSig2 := IsSigned txHash (ftx_Sig2 tx) (GetAddressFromPubKey multisig) in
          mret (validSig1 && validSig2)
    | _, _ => mret false
    end.

(** [for _, rootAcc := range storage.RootKeys]: whether some root key signed.
    Without root keys the hash is not computed. *)
Definition signed_by_root (tx : Transaction) (signature : bytes) : M Miner bool :=
  roots ← gets (fun m => (map_to_list (RootKeys (ledger m))).*2);
  match roots with
  | [] => mret false
  | _ =>
      txHash ← tx_hash tx;
      mret (existsb (IsSigned txHash signature) roots)
  end.

Definition verifyAccTx (tx : AccTx) : M Miner bool := signed_by_root (TAcc tx) (atx_Sig tx).

Definition verifyConfigTx (tx : ConfigTx) : M Miner bool := signed_by_root (TConfig tx) (ctx_Sig tx).

Definition StakeTx_set_Account (v : hash) (tx : StakeTx) : StakeTx :=
  mkStakeTx (stx_Header tx) (stx_Fee tx) (stx_IsStaking tx) v (stx_Sig tx)
    (stx_CommitmentKey tx) (stx_CheckString tx) (stx_Data tx).

(** The account of the transaction is assigned on the way. *)
Definition verifyStakeTx (tx : StakeTx) : M Miner (StakeTx * bool) :=
  accFrom ← get_account (stx_Account tx);
  match accFrom with
  | None => mret (tx, false)
  | Some accFrom =>
      let accFromHash := SerializeHashContent (VBytes (acc_Address accFrom)) in
      let tx := StakeTx_set_Account accFromHash tx in
      txHash ← tx_hash (TStake tx);
      mret (tx, IsSigned txHash (stx_Sig tx) (acc_Address accFrom))
  end.

Definition verifyAggTx (tx : AggTx) : M Miner bool := mret true.

(** The signature of a transaction that may be updated. *)
Definition updatable_sig (tx : Transaction) : option bytes :=
  match tx with
  | TFunds tx => Some (ftx_Sig1 tx)
  | TAcc tx => Some (atx_Sig tx)
  | TUpdate tx => Some (utx_Sig tx)
  | TConfig _ | TStake _ | TAgg _ => None
  end.

Definition verifyUpdateTx (tx : UpdateTx) : M Miner bool :=
  issuerAccount ← get_account (utx_Issuer tx);
  match issuerAccount with
  | None => mret false
  | Some issuerAccount =>
      open ← ReadOpenTx (utx_TxToUpdateHash tx);
      closed ← ReadClosedTx (utx_TxToUpdateHash tx);
      match (match open with Some t => Some t | None => closed end) with
      | None => mret false
      | Some txToUpdate =>
          txHash ← tx_hash (TUpdate tx);
          let isTxSigned := IsSigned txHash (utx_Sig tx) (acc_Address issuerAccount) in
          if negb isTxSigned then mret false
          else
            txToUpdateHash ← tx_hash txToUpdate;
            match updatable_sig txToUpdate with
            | None => mret false
            | Some txToUpdateSig =>
                mret (IsSigned txToUpdateHash txToUpdateSig (acc_Address issuerAccount))
            end
      end
  end.

(** The transaction as it is after the call, and the answer. *)
Definition verify (tx : Transaction) : M Miner (Transaction * bool) :=
  match tx with
  | TFunds t => b ← verifyFundsTx t; mret (tx, b)
  | TAcc t => b ← verifyAccTx t; mret (tx, b)
  | TConfig t => b ← verifyConfigTx t; mret (tx, b)
  | TStake t => r ← verifyStakeTx t; mret (TStake (fst r), snd r)
  | TAgg t => b ← verifyAggTx t; mret (tx, b)
  | TUpdate t => b ← verifyUpdateTx t; mret (tx, b)
  end.
End verify.

(** ** What an accepted transaction has been checked for *)

Section facts.
Context {DG : Digests} {SG : Signatures} {NK : NodeKeys}.

(** Some address of the list signed the transaction as it hashes in [m]. *)
Definition signed_in (m : Miner) (tx : Transaction) (signature : bytes) (a : address) : Prop :=
  exists h, Transaction_Hash (ChameleonHashParametersMap (ledger m)) tx = Some h /\
    IsSigned h signature a = true.

(** The authorisation behind each type of transaction. *)
Inductive authorised (m : Miner) : Transaction -> Prop :=
| auth_funds tx snd rcv :
    0 < ftx_Amount tx <= MAX_MONEY ->
    State (ledger m) !! ftx_From tx = Some snd -> State (ledger m) !! ftx_To tx = Some rcv ->
    signed_in m (TFunds tx) (ftx_Sig1 tx) (acc_Address snd) ->
    (ftx_Sig2 tx = zero_sig \/ exists k, multisigPubKey = Some k /\
       signed_in m (TFunds tx) (ftx_Sig2 tx) (GetAddressFromPubKey k)) ->
    authorised m (TFunds tx)
| auth_acc tx k a : RootKeys (ledger m) !! k = Some a -> signed_in m (TAcc tx) (atx_Sig tx) a ->
    authorised m (TAcc tx)
| auth_config tx k a : RootKeys (ledger m) !! k = Some a -> signed_in m (TConfig tx) (ctx_Sig tx) a ->
    authorised m (TConfig tx)
| auth_stake tx k acc : State (ledger m) !! k = Some acc ->
    stx_Account tx = SerializeHashContent (VBytes (acc_Address acc)) ->
    signed_in m (TStake tx) (stx_Sig tx) (acc_Address acc) -> authorised m (TStake tx)
| auth_agg tx : authorised m (TAgg tx)
| auth_update tx acc old sig :
    State (ledger m) !! utx_Issuer tx = Some acc ->
    (txMemPool (pool m) !! utx_TxToUpdateHash tx = Some old \/
     closed_tx (db m) (utx_TxToUpdateHash tx) = Some old) ->
    signed_in m (TUpdate tx) (utx_Sig tx) (acc_Address acc) ->
    updatable_sig old = Some sig -> signed_in m old sig (acc_Address acc) ->
    authorised m (TUpdate tx).

Lemma tx_hash_signed tx m h m' :
  tx_hash tx m = Done (h, m') ->
  m' = m /\ Transaction_Hash (ChameleonHashParametersMap (ledger m)) tx = Some h.
Proof.
  unfold tx_hash. intros (o & m1 & [= <- <-] & H2)%bind_inv.
  destruct (Transaction_Hash _ _) eqn:E; simpl in H2; [|done]. injection H2 as <- <-. done.
Qed.

Lemma signed_by_root_inv tx signature m b m' :
  signed_by_root tx signature m = Done (b, m') ->
  m' = m /\ (b = true -> exists k a, RootKeys (ledger m) !! k = Some a /\ signed_in m tx signature a).
Proof.
  unfold signed_by_root. intros (roots & m1 & [= <- <-] & H)%bind_inv.
  destruct ((map_to_list _).*2) as [|r0 roots] eqn:E; [by injection H as <- <-|].
  rewrite <-E in H. apply bind_inv in H as (h & m2 & [-> Hh]%tx_hash_signed & H2).
  injection H2 as <- <-. split; [done|]. intros (a & Ha & Hs)%existsb_exists.
  apply list_elem_of_In, list_elem_of_fmap in Ha as ([k a'] & -> & Hin).
  apply elem_of_map_to_list in Hin. exists k, a'. split; [done|]. by exists h.
Qed.

Lemma verifyFundsTx_inv tx m b m' :
  verifyFundsTx tx m = Done (b, m') -> 0 <= ftx_Amount tx -> m' = m /\ (b = true -> authorised m (TFunds tx)).
Proof.
  unfold verifyFundsTx. intros H H0.
  destruct (Z.eqb_spec (ftx_Amount tx) 0); [by injection H as <- <-|].
  destruct (Z.ltb_spec MAX_MONEY (ftx_Amount tx)); [by injection H as <- <-|]. simpl in H.
  apply bind_inv in H as (f & m1 & [= <- <-] & H). apply bind_inv in H as (t & m2 & [= <- <-] & H).
  destruct (State _ !! ftx_From tx) as [snd|] eqn:Es; [|by injection H as <- <-].
  destruct (State _ !! ftx_To tx) as [rcv|] eqn:Er; [|by injection H as <- <-].
  apply bind_inv in H as (h & m3 & [-> Hh]%tx_hash_signed & H).
  case_bool_decide as Hz.
  - injection H as <- <-. split; [done|]. intros Hs.
    eapply auth_funds; [lia|done..| |by left]. by exists h.
  - apply bind_inv in H as (k & m4 & E1 & H). destruct multisigPubKey as [k'|] eqn:Ek; [|done].
    injection E1 as -> <-. injection H as <- <-. split; [done|].
    intros [Hs1 Hs2]%andb_true_iff.
    eapply auth_funds; [lia|done..|by exists h|]. right. exists k. split; [done|]. by exists h.
Qed.

Lemma verifyStakeTx_inv tx m r m' :
  verifyStakeTx tx m = Done (r, m') -> m' = m /\ (snd r = true -> authorised m (TStake (fst r))).
Proof.
  unfold verifyStakeTx. intros (f & m1 & [= <- <-] & H)%bind_inv.
  destruct (State _ !! _) as [acc|] eqn:Ea; [|by injection H as <- <-].
  apply bind_inv in H as (h & m3 & [-> Hh]%tx_hash_signed & H). injection H as <- <-.
  split; [done|]. simpl. intros Hs. eapply auth_stake; [done|done|]. by exists h.
Qed.

Lemma verifyUpdateTx_inv tx m b m' :
  verifyUpdateTx tx m = Done (b, m') -> m' = m /\ (b = true -> authorised m (TUpdate tx)).
Proof.
  unfold verifyUpdateTx. intros (f & m1 & [= <- <-] & H)%bind_inv.
  destruct (State _ !! _) as [acc|] eqn:Ea; [|by injection H as <- <-].
  apply bind_inv in H as (o & m2 & [= <- <-] & H). apply bind_inv in H as (c & m2 & [= <- <-] & H).
  destruct (match txMemPool _ !! _ with Some _ => _ | None => _ end) as [old|] eqn:Eo;
    [|by injection H as <- <-].
  apply bind_inv in H as (h & m3 & [-> Hh]%tx_hash_signed & H).
  destruct (IsSigned h _ _) eqn:Es; simpl in H; [|by injection H as <- <-].
  apply bind_inv in H as (h' & m3 & [-> Hh']%tx_hash_signed & H).
  destruct (updatable_sig old) as [sig|] eqn:Eu; [|by injection H as <- <-].
  injection H as <- <-. split; [done|]. intros Hs.
  eapply auth_update; [done| |by exists h|done|by exists h'].
  destruct (txMemPool _ !! _); [left|right]; congruence.
Qed.

Lemma verify_inv tx tx' m b m' :
  (forall t, tx = TFunds t -> 0 <= ftx_Amount t) ->
  verify tx m = Done ((tx', b), m') -> m' = m /\ (b = true -> authorised m tx').
Proof.
  intros Hamt H. destruct tx as [t|t|t|t|t|t]; simpl in H;
    apply bind_inv in H as (r & m1 & E1 & E2); injection E2 as <- <- <-.
  - apply signed_by_root_inv in E1 as [-> Hk]. split; [done|].
    intros (k & a & ? & ?)%Hk. by eapply auth_acc.
  - apply verifyFundsTx_inv in E1 as [-> Hk]; [done|by apply Hamt].
  - apply signed_by_root_inv in E1 as [-> Hk]. split; [done|].
    intros (k & a & ? & ?)%Hk. by eapply auth_config.
  - by apply verifyStakeTx_inv in E1 as [-> Hk].
  - injection E1 as <- <-. split; [done|]. intros _. apply auth_agg.
  - by apply verifyUpdateTx_inv in E1 as [-> Hk].
Qed.
End facts.

(** ** Addresses of keys *)

Lemma copy32_pad bs : (length bs <= 32)%nat -> copy32 bs = bs ++ zeros (32 - length bs).
Proof.
  intros. unfold copy32. rewrite take_app_ge by lia. f_equal.
  unfold zeros. by rewrite take_replicate, Nat.min_l by lia.
Qed.

(** Trailing zero bytes multiply a big-endian value. *)
Lemma be_val_app_zeros bs n : be_val (bs ++ zeros n) = be_val bs * 2 ^ (8 * Z.of_nat n).
Proof.
  unfold be_val. rewrite rev_app_distr.
  assert (rev (zeros n) = zeros n) as ->.
  { unfold zeros. rewrite <-(reverse_replicate n Byte.x00) at 2. unfold reverse. by rewrite rev_alt. }
  induction n as [|n IH]; [simpl; lia|].
  change (zeros (S n) ++ rev bs) with (Byte.x00 :: (zeros n ++ rev bs)).
  transitivity (Z.lor (bval Byte.x00) (Z.shiftl (le_combine (zeros n ++ rev bs)) 8)); [done|].
  rewrite IH. change (bval Byte.x00) with 0. rewrite Z.lor_0_l, Z.shiftl_mul_pow2 by lia.
  replace (8 * Z.of_nat (S n)) with (8 * Z.of_nat n + 8) by lia. rewrite Z.pow_add_r by lia. lia.
Qed.

Lemma copy32_value x : 0 <= x < 2 ^ 256 ->
  be_val (copy32 (min_bytes x)) = x * 2 ^ (8 * (32 - Z.of_nat (nbytes x))).
Proof.
  intros Hx. pose proof (nbytes_le x 32 Hx). rewrite copy32_pad by (rewrite length_min_bytes; lia).
  rewrite be_val_app_zeros, be_val_min_bytes, length_min_bytes by lia. do 2 f_equal. lia.
Qed.

(** The coordinate read back from an address is the one of the key exactly when
    it has no leading zero byte (or is zero). *)
Lemma coordinate_kept x : 0 <= x < 2 ^ 256 ->
  be_val (copy32 (min_bytes x)) = x <-> x = 0 \/ nbytes x = 32%nat.
Proof.
  intros Hx. rewrite copy32_value by done. pose proof (nbytes_le x 32 Hx). split.
  - intros E. destruct (Z.eq_dec x 0); [by left|right].
    destruct (decide (nbytes x = 32%nat)); [done|].
    assert (2 ^ 1 <= 2 ^ (8 * (32 - Z.of_nat (nbytes x)))) by (apply Z.pow_le_mono_r; lia). nia.
  - intros [-> | ->]; [done|]. simpl. lia.
Qed.
