(* ===== verification/BlockFields.v ===== *)
(** * protocol/block.go: assignments to the fields of a block

    A block under construction is a struct that the miner fills in: one
    update function per field that is assigned. *)

From S2P Require Import Prelude Format Chameleon Protocol.

Definition upd_blk_Hash (f : hash -> hash) (b : Block) : Block :=
  mkBlock (blk_Header b) (f (blk_Hash b)) (blk_PrevHash b) (blk_HashWithoutTx b)
    (blk_PrevHashWithoutTx b) (blk_NrElementsBF b) (blk_BloomFilter b) (blk_Height b)
    (blk_Beneficiary b) (blk_Aggregated b) (blk_NrUpdates b) (blk_Nonce b) (blk_Timestamp b)
    (blk_MerkleRoot b) (blk_NrAccTx b) (blk_NrConfigTx b) (blk_NrFundsTx b) (blk_NrStakeTx b)
    (blk_NrAggTx b) (blk_NrUpdateTx b) (blk_SlashedAddress b) (blk_CommitmentProof b)
    (blk_ConflictingBlockHash1 b) (blk_ConflictingBlockHash2 b)
    (blk_ConflictingBlockHashWithoutTx1 b) (blk_ConflictingBlockHashWithoutTx2 b) (blk_StateCopy
    b) (blk_AccTxData b) (blk_FundsTxData b) (blk_ConfigTxData b) (blk_StakeTxData b)
    (blk_AggTxData b) (blk_UpdateTxData b).

Definition upd_blk_HashWithoutTx (f : hash -> hash) (b : Block) : Block :=
  mkBlock (blk_Header b) (blk_Hash b) (blk_PrevHash b) (f (blk_HashWithoutTx b))
    (blk_PrevHashWithoutTx b) (blk_NrElementsBF b) (blk_BloomFilter b) (blk_Height b)
    (blk_Beneficiary b) (blk_Aggregated b) (blk_NrUpdates b) (blk_Nonce b) (blk_Timestamp b)
    (blk_MerkleRoot b) (blk_NrAccTx b) (blk_NrConfigTx b) (blk_NrFundsTx b) (blk_NrStakeTx b)
    (blk_NrAggTx b) (blk_NrUpdateTx b) (blk_SlashedAddress b) (blk_CommitmentProof b)
    (blk_ConflictingBlockHash1 b) (blk_ConflictingBlockHash2 b)
    (blk_ConflictingBlockHashWithoutTx1 b) (blk_ConflictingBlockHashWithoutTx2 b) (blk_StateCopy
    b) (blk_AccTxData b) (blk_FundsTxData b) (blk_ConfigTxData b) (blk_StakeTxData b)
    (blk_AggTxData b) (blk_UpdateTxData b).

Definition upd_blk_NrUpdates (f : Z -> Z) (b : Block) : Block :=
  mkBlock (blk_Header b) (blk_Hash b) (blk_PrevHash b) (blk_HashWithoutTx b)
    (blk_PrevHashWithoutTx b) (blk_NrElementsBF b) (blk_BloomFilter b) (blk_Height b)
    (blk_Beneficiary b) (blk_Aggregated b) (f (blk_NrUpdates b)) (blk_Nonce b) (blk_Timestamp b)
    (blk_MerkleRoot b) (blk_NrAccTx b) (blk_NrConfigTx b) (blk_NrFundsTx b) (blk_NrStakeTx b)
    (blk_NrAggTx b) (blk_NrUpdateTx b) (blk_SlashedAddress b) (blk_CommitmentProof b)
    (blk_ConflictingBlockHash1 b) (blk_ConflictingBlockHash2 b)
    (blk_ConflictingBlockHashWithoutTx1 b) (blk_ConflictingBlockHashWithoutTx2 b) (blk_StateCopy
    b) (blk_AccTxData b) (blk_FundsTxData b) (blk_ConfigTxData b) (blk_StakeTxData b)
    (blk_AggTxData b) (blk_UpdateTxData b).

Definition upd_blk_Nonce (f : bytes -> bytes) (b : Block) : Block :=
  mkBlock (blk_Header b) (blk_Hash b) (blk_PrevHash b) (blk_HashWithoutTx b)
    (blk_PrevHashWithoutTx b) (blk_NrElementsBF b) (blk_BloomFilter b) (blk_Height b)
    (blk_Beneficiary b) (blk_Aggregated b) (blk_NrUpdates b) (f (blk_Nonce b)) (blk_Timestamp b)
    (blk_MerkleRoot b) (blk_NrAccTx b) (blk_NrConfigTx b) (blk_NrFundsTx b) (blk_NrStakeTx b)
    (blk_NrAggTx b) (blk_NrUpdateTx b) (blk_SlashedAddress b) (blk_CommitmentProof b)
    (blk_ConflictingBlockHash1 b) (blk_ConflictingBlockHash2 b)
    (blk_ConflictingBlockHashWithoutTx1 b) (blk_ConflictingBlockHashWithoutTx2 b) (blk_StateCopy
    b) (blk_AccTxData b) (blk_FundsTxData b) (blk_ConfigTxData b) (blk_StakeTxData b)
    (blk_AggTxData b) (blk_UpdateTxData b).

Definition upd_blk_Timestamp (f : Z -> Z) (b : Block) : Block :=
  mkBlock (blk_Header b) (blk_Hash b) (blk_PrevHash b) (blk_HashWithoutTx b)
    (blk_PrevHashWithoutTx b) (blk_NrElementsBF b) (blk_BloomFilter b) (blk_Height b)
    (blk_Beneficiary b) (blk_Aggregated b) (blk_NrUpdates b) (blk_Nonce b) (f (blk_Timestamp b))
    (blk_MerkleRoot b) (blk_NrAccTx b) (blk_NrConfigTx b) (blk_NrFundsTx b) (blk_NrStakeTx b)
    (blk_NrAggTx b) (blk_NrUpdateTx b) (blk_SlashedAddress b) (blk_CommitmentProof b)
    (blk_ConflictingBlockHash1 b) (blk_ConflictingBlockHash2 b)
    (blk_ConflictingBlockHashWithoutTx1 b) (blk_ConflictingBlockHashWithoutTx2 b) (blk_StateCopy
    b) (blk_AccTxData b) (blk_FundsTxData b) (blk_ConfigTxData b) (blk_StakeTxData b)
    (blk_AggTxData b) (blk_UpdateTxData b).

Definition upd_blk_MerkleRoot (f : hash -> hash) (b : Block) : Block :=
  mkBlock (blk_Header b) (blk_Hash b) (blk_PrevHash b) (blk_HashWithoutTx b)
    (blk_PrevHashWithoutTx b) (blk_NrElementsBF b) (blk_BloomFilter b) (blk_Height b)
    (blk_Beneficiary b) (blk_Aggregated b) (blk_NrUpdates b) (blk_Nonce b) (blk_Timestamp b) (f
    (blk_MerkleRoot b)) (blk_NrAccTx b) (blk_NrConfigTx b) (blk_NrFundsTx b) (blk_NrStakeTx b)
    (blk_NrAggTx b) (blk_NrUpdateTx b) (blk_SlashedAddress b) (blk_CommitmentProof b)
    (blk_ConflictingBlockHash1 b) (blk_ConflictingBlockHash2 b)
    (blk_ConflictingBlockHashWithoutTx1 b) (blk_ConflictingBlockHashWithoutTx2 b) (blk_StateCopy
    b) (blk_AccTxData b) (blk_FundsTxData b) (blk_ConfigTxData b) (blk_StakeTxData b)
    (blk_AggTxData b) (blk_UpdateTxData b).

Definition upd_blk_Beneficiary (f : hash -> hash) (b : Block) : Block :=
  mkBlock (blk_Header b) (blk_Hash b) (blk_PrevHash b) (blk_HashWithoutTx b)
    (blk_PrevHashWithoutTx b) (blk_NrElementsBF b) (blk_BloomFilter b) (blk_Height b) (f
    (blk_Beneficiary b)) (blk_Aggregated b) (blk_NrUpdates b) (blk_Nonce b) (blk_Timestamp b)
    (blk_MerkleRoot b) (blk_NrAccTx b) (blk_NrConfigTx b) (blk_NrFundsTx b) (blk_NrStakeTx b)
    (blk_NrAggTx b) (blk_NrUpdateTx b) (blk_SlashedAddress b) (blk_CommitmentProof b)
    (blk_ConflictingBlockHash1 b) (blk_ConflictingBlockHash2 b)
    (blk_ConflictingBlockHashWithoutTx1 b) (blk_ConflictingBlockHashWithoutTx2 b) (blk_StateCopy
    b) (blk_AccTxData b) (blk_FundsTxData b) (blk_ConfigTxData b) (blk_StakeTxData b)
    (blk_AggTxData b) (blk_UpdateTxData b).

Definition upd_blk_NrAccTx (f : Z -> Z) (b : Block) : Block :=
  mkBlock (blk_Header b) (blk_Hash b) (blk_PrevHash b) (blk_HashWithoutTx b)
    (blk_PrevHashWithoutTx b) (blk_NrElementsBF b) (blk_BloomFilter b) (blk_Height b)
    (blk_Beneficiary b) (blk_Aggregated b) (blk_NrUpdates b) (blk_Nonce b) (blk_Timestamp b)
    (blk_MerkleRoot b) (f (blk_NrAccTx b)) (blk_NrConfigTx b) (blk_NrFundsTx b) (blk_NrStakeTx
    b) (blk_NrAggTx b) (blk_NrUpdateTx b) (blk_SlashedAddress b) (blk_CommitmentProof b)
    (blk_ConflictingBlockHash1 b) (blk_ConflictingBlockHash2 b)
    (blk_ConflictingBlockHashWithoutTx1 b) (blk_ConflictingBlockHashWithoutTx2 b) (blk_StateCopy
    b) (blk_AccTxData b) (blk_FundsTxData b) (blk_ConfigTxData b) (blk_StakeTxData b)
    (blk_AggTxData b) (blk_UpdateTxData b).

Definition upd_blk_NrConfigTx (f : Z -> Z) (b : Block) : Block :=
  mkBlock (blk_Header b) (blk_Hash b) (blk_PrevHash b) (blk_HashWithoutTx b)
    (blk_PrevHashWithoutTx b) (blk_NrElementsBF b) (blk_BloomFilter b) (blk_Height b)
    (blk_Beneficiary b) (blk_Aggregated b) (blk_NrUpdates b) (blk_Nonce b) (blk_Timestamp b)
    (blk_MerkleRoot b) (blk_NrAccTx b) (f (blk_NrConfigTx b)) (blk_NrFundsTx b) (blk_NrStakeTx
    b) (blk_NrAggTx b) (blk_NrUpdateTx b) (blk_SlashedAddress b) (blk_CommitmentProof b)
    (blk_ConflictingBlockHash1 b) (blk_ConflictingBlockHash2 b)
    (blk_ConflictingBlockHashWithoutTx1 b) (blk_ConflictingBlockHashWithoutTx2 b) (blk_StateCopy
    b) (blk_AccTxData b) (blk_FundsTxData b) (blk_ConfigTxData b) (blk_StakeTxData b)
    (blk_AggTxData b) (blk_UpdateTxData b).

Definition upd_blk_NrFundsTx (f : Z -> Z) (b : Block) : Block :=
  mkBlock (blk_Header b) (blk_Hash b) (blk_PrevHash b) (blk_HashWithoutTx b)
    (blk_PrevHashWithoutTx b) (blk_NrElementsBF b) (blk_BloomFilter b) (blk_Height b)
    (blk_Beneficiary b) (blk_Aggregated b) (blk_NrUpdates b) (blk_Nonce b) (blk_Timestamp b)
    (blk_MerkleRoot b) (blk_NrAccTx b) (blk_NrConfigTx b) (f (blk_NrFundsTx b)) (blk_NrStakeTx
    b) (blk_NrAggTx b) (blk_NrUpdateTx b) (blk_SlashedAddress b) (blk_CommitmentProof b)
    (blk_ConflictingBlockHash1 b) (blk_ConflictingBlockHash2 b)
    (blk_ConflictingBlockHashWithoutTx1 b) (blk_ConflictingBlockHashWithoutTx2 b) (blk_StateCopy
    b) (blk_AccTxData b) (blk_FundsTxData b) (blk_ConfigTxData b) (blk_StakeTxData b)
    (blk_AggTxData b) (blk_UpdateTxData b).

Definition upd_blk_NrStakeTx (f : Z -> Z) (b : Block) : Block :=
  mkBlock (blk_Header b) (blk_Hash b) (blk_PrevHash b) (blk_HashWithoutTx b)
    (blk_PrevHashWithoutTx b) (blk_NrElementsBF b) (blk_BloomFilter b) (blk_Height b)
    (blk_Beneficiary b) (blk_Aggregated b) (blk_NrUpdates b) (blk_Nonce b) (blk_Timestamp b)
    (blk_MerkleRoot b) (blk_NrAccTx b) (blk_NrConfigTx b) (blk_NrFundsTx b) (f (blk_NrStakeTx
    b)) (blk_NrAggTx b) (blk_NrUpdateTx b) (blk_SlashedAddress b) (blk_CommitmentProof b)
    (blk_ConflictingBlockHash1 b) (blk_ConflictingBlockHash2 b)
    (blk_ConflictingBlockHashWithoutTx1 b) (blk_ConflictingBlockHashWithoutTx2 b) (blk_StateCopy
    b) (blk_AccTxData b) (blk_FundsTxData b) (blk_ConfigTxData b) (blk_StakeTxData b)
    (blk_AggTxData b) (blk_UpdateTxData b).

Definition upd_blk_NrAggTx (f : Z -> Z) (b : Block) : Block :=
  mkBlock (blk_Header b) (blk_Hash b) (blk_PrevHash b) (blk_HashWithoutTx b)
    (blk_PrevHashWithoutTx b) (blk_NrElementsBF b) (blk_BloomFilter b) (blk_Height b)
    (blk_Beneficiary b) (blk_Aggregated b) (blk_NrUpdates b) (blk_Nonce b) (blk_Timestamp b)
    (blk_MerkleRoot b) (blk_NrAccTx b) (blk_NrConfigTx b) (blk_NrFundsTx b) (blk_NrStakeTx b) (f
    (blk_NrAggTx b)) (blk_NrUpdateTx b) (blk_SlashedAddress b) (blk_CommitmentProof b)
    (blk_ConflictingBlockHash1 b) (blk_ConflictingBlockHash2 b)
    (blk_ConflictingBlockHashWithoutTx1 b) (blk_ConflictingBlockHashWithoutTx2 b) (blk_StateCopy
    b) (blk_AccTxData b) (blk_FundsTxData b) (blk_ConfigTxData b) (blk_StakeTxData b)
    (blk_AggTxData b) (blk_UpdateTxData b).

Definition upd_blk_NrUpdateTx (f : Z -> Z) (b : Block) : Block :=
  mkBlock (blk_Header b) (blk_Hash b) (blk_PrevHash b) (blk_HashWithoutTx b)
    (blk_PrevHashWithoutTx b) (blk_NrElementsBF b) (blk_BloomFilter b) (blk_Height b)
    (blk_Beneficiary b) (blk_Aggregated b) (blk_NrUpdates b) (blk_Nonce b) (blk_Timestamp b)
    (blk_MerkleRoot b) (blk_NrAccTx b) (blk_NrConfigTx b) (blk_NrFundsTx b) (blk_NrStakeTx b)
    (blk_NrAggTx b) (f (blk_NrUpdateTx b)) (blk_SlashedAddress b) (blk_CommitmentProof b)
    (blk_ConflictingBlockHash1 b) (blk_ConflictingBlockHash2 b)
    (blk_ConflictingBlockHashWithoutTx1 b) (blk_ConflictingBlockHashWithoutTx2 b) (blk_StateCopy
    b) (blk_AccTxData b) (blk_FundsTxData b) (blk_ConfigTxData b) (blk_StakeTxData b)
    (blk_AggTxData b) (blk_UpdateTxData b).

Definition upd_blk_SlashedAddress (f : hash -> hash) (b : Block) : Block :=
  mkBlock (blk_Header b) (blk_Hash b) (blk_PrevHash b) (blk_HashWithoutTx b)
    (blk_PrevHashWithoutTx b) (blk_NrElementsBF b) (blk_BloomFilter b) (blk_Height b)
    (blk_Beneficiary b) (blk_Aggregated b) (blk_NrUpdates b) (blk_Nonce b) (blk_Timestamp b)
    (blk_MerkleRoot b) (blk_NrAccTx b) (blk_NrConfigTx b) (blk_NrFundsTx b) (blk_NrStakeTx b)
    (blk_NrAggTx b) (blk_NrUpdateTx b) (f (blk_SlashedAddress b)) (blk_CommitmentProof b)
    (blk_ConflictingBlockHash1 b) (blk_ConflictingBlockHash2 b)
    (blk_ConflictingBlockHashWithoutTx1 b) (blk_ConflictingBlockHashWithoutTx2 b) (blk_StateCopy
    b) (blk_AccTxData b) (blk_FundsTxData b) (blk_ConfigTxData b) (blk_StakeTxData b)
    (blk_AggTxData b) (blk_UpdateTxData b).

Definition upd_blk_CommitmentProof (f : bytes -> bytes) (b : Block) : Block :=
  mkBlock (blk_Header b) (blk_Hash b) (blk_PrevHash b) (blk_HashWithoutTx b)
    (blk_PrevHashWithoutTx b) (blk_NrElementsBF b) (blk_BloomFilter b) (blk_Height b)
    (blk_Beneficiary b) (blk_Aggregated b) (blk_NrUpdates b) (blk_Nonce b) (blk_Timestamp b)
    (blk_MerkleRoot b) (blk_NrAccTx b) (blk_NrConfigTx b) (blk_NrFundsTx b) (blk_NrStakeTx b)
    (blk_NrAggTx b) (blk_NrUpdateTx b) (blk_SlashedAddress b) (f (blk_CommitmentProof b))
    (blk_ConflictingBlockHash1 b) (blk_ConflictingBlockHash2 b)
    (blk_ConflictingBlockHashWithoutTx1 b) (blk_ConflictingBlockHashWithoutTx2 b) (blk_StateCopy
    b) (blk_AccTxData b) (blk_FundsTxData b) (blk_ConfigTxData b) (blk_StakeTxData b)
    (blk_AggTxData b) (blk_UpdateTxData b).

Definition upd_blk_ConflictingBlockHash1 (f : hash -> hash) (b : Block) : Block :=
  mkBlock (blk_Header b) (blk_Hash b) (blk_PrevHash b) (blk_HashWithoutTx b)
    (blk_PrevHashWithoutTx b) (blk_NrElementsBF b) (blk_BloomFilter b) (blk_Height b)
    (blk_Beneficiary b) (blk_Aggregated b) (blk_NrUpdates b) (blk_Nonce b) (blk_Timestamp b)
    (blk_MerkleRoot b) (blk_NrAccTx b) (blk_NrConfigTx b) (blk_NrFundsTx b) (blk_NrStakeTx b)
    (blk_NrAggTx b) (blk_NrUpdateTx b) (blk_SlashedAddress b) (blk_CommitmentProof b) (f
    (blk_ConflictingBlockHash1 b)) (blk_ConflictingBlockHash2 b)
    (blk_ConflictingBlockHashWithoutTx1 b) (blk_ConflictingBlockHashWithoutTx2 b) (blk_StateCopy
    b) (blk_AccTxData b) (blk_FundsTxData b) (blk_ConfigTxData b) (blk_StakeTxData b)
    (blk_AggTxData b) (blk_UpdateTxData b).

Definition upd_blk_ConflictingBlockHash2 (f : hash -> hash) (b : Block) : Block :=
  mkBlock (blk_Header b) (blk_Hash b) (blk_PrevHash b) (blk_HashWithoutTx b)
    (blk_PrevHashWithoutTx b) (blk_NrElementsBF b) (blk_BloomFilter b) (blk_Height b)
    (blk_Beneficiary b) (blk_Aggregated b) (blk_NrUpdates b) (blk_Nonce b) (blk_Timestamp b)
    (blk_MerkleRoot b) (blk_NrAccTx b) (blk_NrConfigTx b) (blk_NrFundsTx b) (blk_NrStakeTx b)
    (blk_NrAggTx b) (blk_NrUpdateTx b) (blk_SlashedAddress b) (blk_CommitmentProof b)
    (blk_ConflictingBlockHash1 b) (f (blk_ConflictingBlockHash2 b))
    (blk_ConflictingBlockHashWithoutTx1 b) (blk_ConflictingBlockHashWithoutTx2 b) (blk_StateCopy
    b) (blk_AccTxData b) (blk_FundsTxData b) (blk_ConfigTxData b) (blk_StakeTxData b)
    (blk_AggTxData b) (blk_UpdateTxData b).

Definition upd_blk_ConflictingBlockHashWithoutTx1 (f : hash -> hash) (b : Block) : Block :=
  mkBlock (blk_Header b) (blk_Hash b) (blk_PrevHash b) (blk_HashWithoutTx b)
    (blk_PrevHashWithoutTx b) (blk_NrElementsBF b) (blk_BloomFilter b) (blk_Height b)
    (blk_Beneficiary b) (blk_Aggregated b) (blk_NrUpdates b) (blk_Nonce b) (blk_Timestamp b)
    (blk_MerkleRoot b) (blk_NrAccTx b) (blk_NrConfigTx b) (blk_NrFundsTx b) (blk_NrStakeTx b)
    (blk_NrAggTx b) (blk_NrUpdateTx b) (blk_SlashedAddress b) (blk_CommitmentProof b)
    (blk_ConflictingBlockHash1 b) (blk_ConflictingBlockHash2 b) (f
    (blk_ConflictingBlockHashWithoutTx1 b)) (blk_ConflictingBlockHashWithoutTx2 b)
    (blk_StateCopy b) (blk_AccTxData b) (blk_FundsTxData b) (blk_ConfigTxData b)
    (blk_StakeTxData b) (blk_AggTxData b) (blk_UpdateTxData b).

Definition upd_blk_ConflictingBlockHashWithoutTx2 (f : hash -> hash) (b : Block) : Block :=
  mkBlock (blk_Header b) (blk_Hash b) (blk_PrevHash b) (blk_HashWithoutTx b)
    (blk_PrevHashWithoutTx b) (blk_NrElementsBF b) (blk_BloomFilter b) (blk_Height b)
    (blk_Beneficiary b) (blk_Aggregated b) (blk_NrUpdates b) (blk_Nonce b) (blk_Timestamp b)
    (blk_MerkleRoot b) (blk_NrAccTx b) (blk_NrConfigTx b) (blk_NrFundsTx b) (blk_NrStakeTx b)
    (blk_NrAggTx b) (blk_NrUpdateTx b) (blk_SlashedAddress b) (blk_CommitmentProof b)
    (blk_ConflictingBlockHash1 b) (blk_ConflictingBlockHash2 b)
    (blk_ConflictingBlockHashWithoutTx1 b) (f (blk_ConflictingBlockHashWithoutTx2 b))
    (blk_StateCopy b) (blk_AccTxData b) (blk_FundsTxData b) (blk_ConfigTxData b)
    (blk_StakeTxData b) (blk_AggTxData b) (blk_UpdateTxData b).

Definition upd_blk_StateCopy (f : gmap hash Account -> gmap hash Account) (b : Block) : Block :=
  mkBlock (blk_Header b) (blk_Hash b) (blk_PrevHash b) (blk_HashWithoutTx b)
    (blk_PrevHashWithoutTx b) (blk_NrElementsBF b) (blk_BloomFilter b) (blk_Height b)
    (blk_Beneficiary b) (blk_Aggregated b) (blk_NrUpdates b) (blk_Nonce b) (blk_Timestamp b)
    (blk_MerkleRoot b) (blk_NrAccTx b) (blk_NrConfigTx b) (blk_NrFundsTx b) (blk_NrStakeTx b)
    (blk_NrAggTx b) (blk_NrUpdateTx b) (blk_SlashedAddress b) (blk_CommitmentProof b)
    (blk_ConflictingBlockHash1 b) (blk_ConflictingBlockHash2 b)
    (blk_ConflictingBlockHashWithoutTx1 b) (blk_ConflictingBlockHashWithoutTx2 b) (f
    (blk_StateCopy b)) (blk_AccTxData b) (blk_FundsTxData b) (blk_ConfigTxData b)
    (blk_StakeTxData b) (blk_AggTxData b) (blk_UpdateTxData b).

Definition upd_blk_AccTxData (f : list hash -> list hash) (b : Block) : Block :=
  mkBlock (blk_Header b) (blk_Hash b) (blk_PrevHash b) (blk_HashWithoutTx b)
    (blk_PrevHashWithoutTx b) (blk_NrElementsBF b) (blk_BloomFilter b) (blk_Height b)
    (blk_Beneficiary b) (blk_Aggregated b) (blk_NrUpdates b) (blk_Nonce b) (blk_Timestamp b)
    (blk_MerkleRoot b) (blk_NrAccTx b) (blk_NrConfigTx b) (blk_NrFundsTx b) (blk_NrStakeTx b)
    (blk_NrAggTx b) (blk_NrUpdateTx b) (blk_SlashedAddress b) (blk_CommitmentProof b)
    (blk_ConflictingBlockHash1 b) (blk_ConflictingBlockHash2 b)
    (blk_ConflictingBlockHashWithoutTx1 b) (blk_ConflictingBlockHashWithoutTx2 b) (blk_StateCopy
    b) (f (blk_AccTxData b)) (blk_FundsTxData b) (blk_ConfigTxData b) (blk_StakeTxData b)
    (blk_AggTxData b) (blk_UpdateTxData b).

Definition upd_blk_FundsTxData (f : list hash -> list hash) (b : Block) : Block :=
  mkBlock (blk_Header b) (blk_Hash b) (blk_PrevHash b) (blk_HashWithoutTx b)
    (blk_PrevHashWithoutTx b) (blk_NrElementsBF b) (blk_BloomFilter b) (blk_Height b)
    (blk_Beneficiary b) (blk_Aggregated b) (blk_NrUpdates b) (blk_Nonce b) (blk_Timestamp b)
    (blk_MerkleRoot b) (blk_NrAccTx b) (blk_NrConfigTx b) (blk_NrFundsTx b) (blk_NrStakeTx b)
    (blk_NrAggTx b) (blk_NrUpdateTx b) (blk_SlashedAddress b) (blk_CommitmentProof b)
    (blk_ConflictingBlockHash1 b) (blk_ConflictingBlockHash2 b)
    (blk_ConflictingBlockHashWithoutTx1 b) (blk_ConflictingBlockHashWithoutTx2 b) (blk_StateCopy
    b) (blk_AccTxData b) (f (blk_FundsTxData b)) (blk_ConfigTxData b) (blk_StakeTxData b)
    (blk_AggTxData b) (blk_UpdateTxData b).

Definition upd_blk_ConfigTxData (f : list hash -> list hash) (b : Block) : Block :=
  mkBlock (blk_Header b) (blk_Hash b) (blk_PrevHash b) (blk_HashWithoutTx b)
    (blk_PrevHashWithoutTx b) (blk_NrElementsBF b) (blk_BloomFilter b) (blk_Height b)
    (blk_Beneficiary b) (blk_Aggregated b) (blk_NrUpdates b) (blk_Nonce b) (blk_Timestamp b)
    (blk_MerkleRoot b) (blk_NrAccTx b) (blk_NrConfigTx b) (blk_NrFundsTx b) (blk_NrStakeTx b)
    (blk_NrAggTx b) (blk_NrUpdateTx b) (blk_SlashedAddress b) (blk_CommitmentProof b)
    (blk_ConflictingBlockHash1 b) (blk_ConflictingBlockHash2 b)
    (blk_ConflictingBlockHashWithoutTx1 b) (blk_ConflictingBlockHashWithoutTx2 b) (blk_StateCopy
    b) (blk_AccTxData b) (blk_FundsTxData b) (f (blk_ConfigTxData b)) (blk_StakeTxData b)
    (blk_AggTxData b) (blk_UpdateTxData b).

Definition upd_blk_StakeTxData (f : list hash -> list hash) (b : Block) : Block :=
  mkBlock (blk_Header b) (blk_Hash b) (blk_PrevHash b) (blk_HashWithoutTx b)
    (blk_PrevHashWithoutTx b) (blk_NrElementsBF b) (blk_BloomFilter b) (blk_Height b)
    (blk_Beneficiary b) (blk_Aggregated b) (blk_NrUpdates b) (blk_Nonce b) (blk_Timestamp b)
    (blk_MerkleRoot b) (blk_NrAccTx b) (blk_NrConfigTx b) (blk_NrFundsTx b) (blk_NrStakeTx b)
    (blk_NrAggTx b) (blk_NrUpdateTx b) (blk_SlashedAddress b) (blk_CommitmentProof b)
    (blk_ConflictingBlockHash1 b) (blk_ConflictingBlockHash2 b)
    (blk_ConflictingBlockHashWithoutTx1 b) (blk_ConflictingBlockHashWithoutTx2 b) (blk_StateCopy
    b) (blk_AccTxData b) (blk_FundsTxData b) (blk_ConfigTxData b) (f (blk_StakeTxData b))
    (blk_AggTxData b) (blk_UpdateTxData b).

Definition upd_blk_AggTxData (f : list hash -> list hash) (b : Block) : Block :=
  mkBlock (blk_Header b) (blk_Hash b) (blk_PrevHash b) (blk_HashWithoutTx b)
    (blk_PrevHashWithoutTx b) (blk_NrElementsBF b) (blk_BloomFilter b) (blk_Height b)
    (blk_Beneficiary b) (blk_Aggregated b) (blk_NrUpdates b) (blk_Nonce b) (blk_Timestamp b)
    (blk_MerkleRoot b) (blk_NrAccTx b) (blk_NrConfigTx b) (blk_NrFundsTx b) (blk_NrStakeTx b)
    (blk_NrAggTx b) (blk_NrUpdateTx b) (blk_SlashedAddress b) (blk_CommitmentProof b)
    (blk_ConflictingBlockHash1 b) (blk_ConflictingBlockHash2 b)
    (blk_ConflictingBlockHashWithoutTx1 b) (blk_ConflictingBlockHashWithoutTx2 b) (blk_StateCopy
    b) (blk_AccTxData b) (blk_FundsTxData b) (blk_ConfigTxData b) (blk_StakeTxData b) (f
    (blk_AggTxData b)) (blk_UpdateTxData b).

Definition upd_blk_UpdateTxData (f : list hash -> list hash) (b : Block) : Block :=
  mkBlock (blk_Header b) (blk_Hash b) (blk_PrevHash b) (blk_HashWithoutTx b)
    (blk_PrevHashWithoutTx b) (blk_NrElementsBF b) (blk_BloomFilter b) (blk_Height b)
    (blk_Beneficiary b) (blk_Aggregated b) (blk_NrUpdates b) (blk_Nonce b) (blk_Timestamp b)
    (blk_MerkleRoot b) (blk_NrAccTx b) (blk_NrConfigTx b) (blk_NrFundsTx b) (blk_NrStakeTx b)
    (blk_NrAggTx b) (blk_NrUpdateTx b) (blk_SlashedAddress b) (blk_CommitmentProof b)
    (blk_ConflictingBlockHash1 b) (blk_ConflictingBlockHash2 b)
    (blk_ConflictingBlockHashWithoutTx1 b) (blk_ConflictingBlockHashWithoutTx2 b) (blk_StateCopy
    b) (blk_AccTxData b) (blk_FundsTxData b) (blk_ConfigTxData b) (blk_StakeTxData b)
    (blk_AggTxData b) (f (blk_UpdateTxData b)).
