(* ===== verification/AddTx.v ===== *)
(** * miner/block.go and block_*tx.go: adding transactions to a new block

    A block under preparation is checked against [StateCopy], copies of the
    accounts that its transactions touch. A handler returns the block as it
    is afterwards, with its error value. A transaction with data to an account
    with a contract runs the VM on the arrays of the account and of the
    transaction; an array has the capacity of its length. *)

From S2P Require Import Prelude GoSlice VMUtils VMStack VMArray VMMap VMContext VM VMInstr VMExec.
From S2P Require Import Prelude Format Chameleon Protocol BlockFields Node Storage Params StateChange Verify.

(** [newBlock] *)
Definition newBlock (prevHash prevHashWithoutTx : hash) (commitmentProof : bytes) (height : Z) : Block :=
  mkBlock 0 zero_hash prevHash zero_hash prevHashWithoutTx 0 None height zero_hash false 0 (zeros 8)
    0 zero_hash 0 0 0 0 0 0 zero_hash commitmentProof zero_hash zero_hash zero_hash zero_hash ∅
    [] [] [] [] [] [].

(** [protocol.NewBlock], which the miner does not use. *)
Definition NewBlock (prevHash : hash) (height : Z) : Block :=
  newBlock prevHash zero_hash (zeros COMM_PROOF_LENGTH) height.

Definition set_Contract (v : option bytes) (a : Account) : Account :=
  mkAccount (acc_Address a) (acc_Issuer a) (acc_Balance a) (acc_TxCnt a) (acc_IsStaking a)
    (acc_CommitmentKey a) (acc_StakingBlockHeight a) v (acc_ContractVariables a) (acc_Parameters a).

Section add_tx.
Context {DG : Digests} {DL : DigestLaws} {SG : Signatures} {NK : NodeKeys} {GR : GoRuntime}.
Context (map_fuel : nat).

(** The VM uses the same SHA3 and the same curve. *)
#[local] Instance vm_crypto : Crypto :=
  {| VM.sha3_256 := Chameleon.sha3_256; VM.ecdsa_verify := ecdsa_Verify;
     VM.sha3_256_length := Chameleon.length_sha3_256 |}.

(** [b.StateCopy[h]]: dereference. *)
Definition copy_of (b : Block) (h : hash) : M Miner Account := of_option (blk_StateCopy b !! h).

(** Makes the local copy of an account; [false] when there is no such account.
    An account under a key that is not its hash is not copied. *)
Definition load_copy (b : Block) (h : hash) : M Miner (Block * bool) :=
  match blk_StateCopy b !! h with
  | Some _ => mret (b, true)
  | None =>
      acc ← get_account h;
      match acc with
      | Some acc =>
          if bool_decide (SerializeHashContent (VBytes (acc_Address acc)) = h) then
            mret (upd_blk_StateCopy (insert h acc) b, true)
          else mret (b, true)
      | None => mret (b, false)
      end
  end.

(** ** Account, configuration and stake transactions *)

Definition addAccTx (b : Block) (tx : AccTx) : M Miner (Block * error) :=
  let accHash := sha3_256 (atx_PubKey tx) in
  acc ← get_account accHash;
  if negb (Z.land (atx_Header tx) 2 =? 2) && bool_decide (is_Some acc) then
    mret (b, Some "Account already exists.")
  else
    h ← tx_hash (TAcc tx);
    mret (upd_blk_AccTxData (fun l => l ++ [h]) b, None).

Definition addConfigTx (b : Block) (tx : ConfigTx) : M Miner (Block * error) :=
  h ← tx_hash (TConfig tx);
  mret (upd_blk_ConfigTxData (fun l => l ++ [h]) b, None).

Definition addStakeTx (b : Block) (tx : StakeTx) : M Miner (Block * error) :=
  r ← load_copy b (stx_Account tx);
  let '(b, found) := r in
  if negb found then mret (b, Some "Sender account not present in the state")
  else
    root ← IsRootKey (stx_Account tx);
    active ← gets (fun m => activeParameters (chain m));
    poor ← (if (root : bool) then mret false
            else
              acc ← copy_of b (stx_Account tx);
              mret (acc_Balance acc <=? u64 (stx_Fee tx + StakingMinimum active)));
    if (poor : bool) then mret (b, Some "Not enough funds to complete the transaction!")
    else
      acc ← copy_of b (stx_Account tx);
      if Bool.eqb (acc_IsStaking acc) (stx_IsStaking tx) then
        mret (b, Some "Account has bool already set to the desired value.")
      else
        let b := upd_blk_StateCopy (alter (fun a =>
          set_CommitmentKey (stx_CommitmentKey tx) (set_IsStaking (stx_IsStaking tx) a)) (stx_Account tx)) b in
        h ← tx_hash (TStake tx);
        mret (upd_blk_StakeTxData (fun l => l ++ [h]) b, None).

(** ** Contracts *)

(** The arrays of the contract, the data and the variables, in this order. *)
Definition array (i : nat) (bs : bytes) : slice := mkSlice i 0 (length bs) (length bs).

Definition contract_heap (contract data : bytes) (variables : list bytes) : heap :=
  contract :: data :: variables.

Definition contract_context (acc : Account) (tx : FundsTx) (contract data : bytes) : Context :=
  NewContext (array 0 contract) (imap (fun i v => array (2 + i) v) (acc_ContractVariables acc))
    (acc_Address acc) (acc_Issuer acc) (acc_Balance acc) (ftx_From tx) (ftx_Amount tx) (ftx_Fee tx)
    (array 1 data) (ftx_Sig1 tx).

(** The loop of [Exec] is given one iteration more than the fee can pay. *)
Definition exec_contract (acc : Account) (tx : FundsTx) (contract data : bytes)
    : outcome (bool * VM Context) :=
  Exec map_fuel (S (Z.to_nat (ftx_Fee tx)))
    (NewVM (contract_context acc tx contract data)
       (contract_heap contract data (acc_ContractVariables acc))).

(** What a run leaves behind: the bytes of the code and of the data, into which
    the VM may have written, and on success the persisted variables. *)
Record contract_result := mkResult {
  cr_ok : bool;
  cr_msg : bytes;
  cr_contract : bytes;
  cr_data : bytes;
  cr_variables : list bytes
}.

Definition run_contract (acc : Account) (tx : FundsTx) (contract data : bytes)
    : outcome contract_result :=
  match exec_contract acc tx contract data with
  | Panic => Panic
  | Timeout => Timeout
  | Done (ok, v) =>
      let bytes_of s := contents (vheap v) s in
      let left ok msg variables :=
        mkResult ok msg (bytes_of (array 0 contract)) (bytes_of (array 1 data)) variables in
      if (ok : bool) then
        match PersistChanges (context v) with
        | Some c => Done (left true [] (bytes_of <$> ContractVariables c))
        | None => Panic
        end
      else
        match GetErrorMsg v with
        | Done (msg, _) => Done (left false msg (bytes_of <$> ContractVariables (context v)))
        | Panic => Panic
        | Timeout => Timeout
        end
  end.

Definition in_miner {A} (o : outcome A) : M Miner A := fun m =>
  match o with Done a => Done (a, m) | Panic => Panic | Timeout => Timeout end.

Definition set_contract_state (r : contract_result) (a : Account) : Account :=
  set_ContractVariables (cr_variables r) (set_Contract (Some (cr_contract r)) a).

(** The copy of an account is shallow: its contract and its variables are the
    arrays of the account in [State], which sees what is written to them. *)
Definition write_contract (h : hash) (r : contract_result) (b : Block) : M Miner Block :=
  update_account h (set_contract_state r);;
  mret (upd_blk_StateCopy (alter (set_contract_state r) h) b).

(** ** Funds transactions *)

(** [storage.WriteINVALIDOpenTx(tx)] before an error is returned. *)
Definition refuse (b : Block) (tx : FundsTx) (msg : string) : M Miner (Block * error) :=
  WriteINVALIDOpenTx (TFunds tx);; mret (b, Some msg).

(** An old counter is no error: the transaction is dropped. *)
Definition count_mismatch (b : Block) (tx : FundsTx) (acc : Account) : M Miner (Block * error) :=
  if ftx_TxCnt tx <? acc_TxCnt acc then
    h ← tx_hash (TFunds tx);
    closedTx ← ReadClosedTx h;
    match closedTx with
    | Some _ => DeleteOpenTx (TFunds tx);; DeleteINVALIDOpenTx (TFunds tx);; mret (b, None)
    | None => mret (b, None)
    end
  else
    WriteINVALIDOpenTx (TFunds tx);;
    refuse b tx "Sender txCnt does not match".

(** The update of the copies; [accSender] and [accReceiver] may be the same. *)
Definition add_funds (b : Block) (tx : FundsTx) : Block :=
  let spent := u64 (ftx_Amount tx + ftx_Fee tx) in
  let b := upd_blk_StateCopy (alter (fun a => debit spent (inc_TxCnt a)) (ftx_From tx)) b in
  upd_blk_StateCopy (alter (credit (ftx_Amount tx)) (ftx_To tx)) b.

Definition addFundsTx (b : Block) (tx : FundsTx) : M Miner (Block * error) :=
  r ← load_copy b (ftx_From tx);
  let '(b, found) := r in
  if negb found then refuse b tx "Sender account not present in the state"
  else
  r ← load_copy b (ftx_To tx);
  let '(b, found) := r in
  if negb found then refuse b tx "Receiver account not present in the state"
  else
  root ← IsRootKey (ftx_From tx);
  poor ← (if (root : bool) then mret false
          else
            acc ← copy_of b (ftx_From tx);
            mret (acc_Balance acc <? u64 (ftx_Amount tx + ftx_Fee tx)));
  if (poor : bool) then refuse b tx "Not enough funds to complete the transaction!"
  else
  accFrom ← copy_of b (ftx_From tx);
  if negb (acc_TxCnt accFrom =? ftx_TxCnt tx) then count_mismatch b tx accFrom
  else
  accTo ← copy_of b (ftx_To tx);
  if MAX_MONEY <? u64 (acc_Balance accTo + ftx_Amount tx) then
    refuse b tx "Transaction amount leads to overflow at receiver account balance"
  else
  match ftx_Data tx, acc_Contract accTo with
  | Some data, Some contract =>
      run ← in_miner (run_contract accTo tx contract data);
      b ← write_contract (ftx_To tx) run b;
      let tx := FundsTx_SetData (Some (cr_data run)) tx in
      if negb (cr_ok run) then refuse b tx (String.string_of_list_byte (cr_msg run))
      else
        WriteFundsTxBeforeAggregation tx;;
        mret (add_funds b tx, None)
  | _, _ =>
      WriteFundsTxBeforeAggregation tx;;
      mret (add_funds b tx, None)
  end.

Definition addFundsTxFinal (b : Block) (tx : FundsTx) : M Miner Block :=
  h ← tx_hash (TFunds tx);
  mret (upd_blk_FundsTxData (fun l => l ++ [h]) b).

(** ** Updates *)

(** A transaction of the pool is changed through its pointer, and written
    again under the hash it now has. *)
Definition updateLocalTx (txHash : hash) (newCheckString : option ChameleonHashCheckString)
    (newData : option bytes) : M Miner error :=
  let changed tx := Transaction_SetCheckString newCheckString (Transaction_SetData newData tx) in
  open ← ReadOpenTx txHash;
  match open with
  | Some txToUpdate =>
      on_pool (upd_txMemPool (insert txHash (changed txToUpdate)));;
      WriteOpenTx (changed txToUpdate);; mret None
  | None =>
      closed ← ReadClosedTx txHash;
      match closed with
      | Some txToUpdate => WriteClosedTx (changed txToUpdate);; mret None
      | None => mret (Some "Can't find TxToDelete")
      end
  end.

(** The broadcast of the block is left out. *)
Definition handleTxUpdate (updateTx : UpdateTx) : M Miner error :=
  let txToUpdateHash := utx_TxToUpdateHash updateTx in
  updateLocalTx txToUpdateHash (utx_TxToUpdateCheckString updateTx) (utx_TxToUpdateData updateTx);;
  blockToUpdate ← ReadBlockByTxHash txToUpdateHash;
  match blockToUpdate with
  | None => mret (Some "Can't find block of tx")
  | Some blk =>
      let blk := upd_blk_NrUpdates (fun n => u16 (n + 1)) blk in
      DeleteOpenBlock (blk_Hash blk);;
      WriteClosedBlock blk;; mret None
  end.

Definition addUpdateTx (b : Block) (tx : UpdateTx) : M Miner (Block * error) :=
  handleTxUpdate tx;;
  h ← tx_hash (TUpdate tx);
  mret (upd_blk_UpdateTxData (fun l => l ++ [h]) b, None).

(** ** All of them *)

(** The error of an update is only logged. *)
Definition addTx (b : Block) (tx : Transaction) : M Miner (Block * error) :=
  active ← gets (fun m => activeParameters (chain m));
  match tx with
  | TAgg _ => mret (b, None)
  | _ =>
      if Transaction_TxFee tx <? FeeMinimum active then mret (b, Some "Transaction fee too low")
      else
        r ← verify tx;
        let '(tx, verified) := r in
        if negb verified then mret (b, Some "Transaction could not be verified.")
        else
          match tx with
          | TAcc tx => addAccTx b tx
          | TFunds tx => addFundsTx b tx
          | TConfig tx => addConfigTx b tx
          | TStake tx => addStakeTx b tx
          | TUpdate tx => r ← addUpdateTx b tx; mret (fst r, None)
          | TAgg _ => mret (b, Some "Transaction type not recognized.")
          end
  end.

(** ** Where the transactions of a block are *)

Fixpoint store_block (hs : list hash) (blockHash : hash) : M Miner unit :=
  match hs with
  | [] => mret tt
  | txHash :: hs => WriteBlockHashByTxHash txHash blockHash;; store_block hs blockHash
  end.

Definition storeBlockByTxs (b : Block) : M Miner unit :=
  store_block (blk_AggTxData b) (blk_Hash b);;
  store_block (blk_FundsTxData b) (blk_Hash b);;
  store_block (blk_AccTxData b) (blk_Hash b);;
  store_block (blk_ConfigTxData b) (blk_Hash b);;
  store_block (blk_UpdateTxData b) (blk_Hash b).
End add_tx.
