(* ===== verification/Aggregate.v ===== *)
(** * miner/block_aggregatetx.go and utils.go: aggregating funds transactions

    The funds transactions added to a block are grouped by their most frequent
    sender or receiver; each group becomes one aggregation, together with
    older transactions of the same sender or receiver that are found in closed
    blocks. The counters [storage.DifferentSenders] and [DifferentReceivers]
    are passed along. *)

From S2P Require Import Prelude GoLib Format Chameleon Protocol BlockFields Merkle Node Storage Params.
From S2P Require Import StateChange Validation AddTx.

Abbreviation Counts := (gmap hash Z).

(** [m[k] = m[k] + 1] in uint32. *)
Definition count_up (k : hash) (m : Counts) : Counts := <[k := u32 (default 0 (m !! k) + 1)]> m.

Definition count_all (ks : list hash) (m : Counts) : Counts := fold_left (fun m k => count_up k m) ks m.

Section max.
Context {MO : MapOrder}.

(** The first entry of the iteration with the largest count. *)
Definition max_step (best kv : hash * Z) : hash * Z := if snd best <? snd kv then kv else best.
Definition getMaxKeyAndValueFormMap (m : Counts) : hash * Z :=
  fold_left max_step (range_map m) (zero_hash, 0).
End max.

(** ** Order of the transactions: by sender, then by counter *)

Abbreviation lessFunc := (FundsTx -> FundsTx -> bool).

(** The comparison of [multiSorter] for a list of comparisons that is not
    empty; the last one decides. *)
Fixpoint multi_less (less : list lessFunc) (p q : FundsTx) : option bool :=
  match less with
  | [] => None
  | [last] => Some (last p q)
  | f :: less => if f p q then Some true else if f q p then Some false else multi_less less p q
  end.

(** Byte-wise order of the strings of two arrays. *)
Fixpoint bytes_lt (a b : bytes) : bool :=
  match a, b with
  | [], [] => false
  | [], _ => true
  | _, [] => false
  | x :: a, y :: b => (bval x <? bval y) || (bval x =? bval y) && bytes_lt a b
  end.

Definition less_sender : lessFunc := fun c1 c2 => bytes_lt (ftx_From c1) (ftx_From c2).
Definition less_txcount : lessFunc := fun c1 c2 => ftx_TxCnt c1 <? ftx_TxCnt c2.

Definition sortTxBeforeAggregation {GS : GoSort} (l : list FundsTx) : option (list FundsTx) :=
  sort_Sort (multi_less [less_sender; less_txcount]) l.

(** ** Splitting the transactions into groups *)

Section split.
Context {MO : MapOrder}.

(** The transactions of the most frequent sender, or receiver if that one is
    more frequent; and those that remain. *)
Definition select (senders receivers : Counts) (txs : list FundsTx) : list FundsTx * list FundsTx :=
  let '(addressSender, maxSender) := getMaxKeyAndValueFormMap senders in
  let '(addressReceiver, maxReceiver) := getMaxKeyAndValueFormMap receivers in
  let chosen tx :=
    if maxReceiver <=? maxSender then bool_decide (ftx_From tx = addressSender)
    else bool_decide (ftx_To tx = addressReceiver) in
  (filter (fun tx => chosen tx = true) txs, filter (fun tx => chosen tx = false) txs).

Definition count_senders (txs : list FundsTx) : Counts := count_all (ftx_From <$> txs) ∅.
Definition count_receivers (txs : list FundsTx) : Counts := count_all (ftx_To <$> txs) ∅.
End split.

Section aggregate.
Context {DG : Digests} {GS : GoSort} {MO : MapOrder}.

(** Blocks are sorted by height. *)
Definition height_less (a b : Block) : option bool := Some (blk_Height a <? blk_Height b).

Definition ReadAllClosedBlocksWithTransactions : M Miner (list Block) :=
  last ← ReadLastClosedBlock;
  match last with
  | None => mret []
  | Some _ =>
      blocks ← gets (fun m => snd <$> ForEach (closedblocks (db m)));
      of_option (sort_Sort height_less blocks)
  end.

(** The type assertions; nil fails them. *)
Definition the_funds (tx : option Transaction) : M Miner FundsTx :=
  match tx with Some (TFunds t) => mret t | _ => panic end.
Definition the_agg (tx : option Transaction) : M Miner AggTx :=
  match tx with Some (TAgg t) => mret t | _ => panic end.

(** ** Older transactions *)

(** A pair of addresses to search for, one of them zero. [len(l) > 0 && ...]:
    nothing is read of the transaction when there are no new senders. *)
Fixpoint hint_funds (senders receivers : list hash) (hs : list hash) : M Miner (option (hash * hash)) :=
  match hs with
  | [] => mret None
  | fundsTxHash :: hs =>
      trx ← ReadClosedTx fundsTxHash;
      match head senders, head receivers with
      | None, None => hint_funds senders receivers hs
      | os, or =>
          t ← the_funds trx;
          if bool_decide (os = Some (ftx_From t)) then mret (Some (ftx_From t, zero_hash))
          else if bool_decide (or = Some (ftx_To t)) then mret (Some (zero_hash, ftx_To t))
          else hint_funds senders receivers hs
      end
  end.

Fixpoint hint_aggs (senders receivers : list hash) (hs : list hash) : M Miner (option (hash * hash)) :=
  match hs with
  | [] => mret None
  | aggTxHash :: hs =>
      trx ← ReadClosedTx aggTxHash;
      match trx with
      | None => hint_aggs senders receivers hs
      | Some _ =>
          t ← the_agg trx;
          match gtx_From t, gtx_To t with
          | [f], to =>
              if bool_decide (head senders = Some f) then mret (Some (f, zero_hash))
              else
                match to with
                | [r] => if bool_decide (head receivers = Some r) then mret (Some (zero_hash, r))
                         else hint_aggs senders receivers hs
                | _ => hint_aggs senders receivers hs
                end
          | _, [r] => if bool_decide (head receivers = Some r) then mret (Some (zero_hash, r))
                      else hint_aggs senders receivers hs
          | _, _ => hint_aggs senders receivers hs
          end
      end
  end.

Fixpoint hint_blocks (senders receivers : list hash) (blocks : list Block) : M Miner (option (hash * hash)) :=
  match blocks with
  | [] => mret None
  | block :: blocks =>
      r ← hint_funds senders receivers (blk_FundsTxData block);
      match r with
      | Some k => mret (Some k)
      | None =>
          r ← hint_aggs senders receivers (blk_AggTxData block);
          match r with
          | Some k => mret (Some k)
          | None => hint_blocks senders receivers blocks
          end
      end
  end.

(** The transactions found in a block, marked as aggregated on the way;
    [None] when one is not closed: the search returns nil. *)
Fixpoint search_funds (snd rcv : hash) (hs : list hash) : M Miner (option (list Transaction)) :=
  match hs with
  | [] => mret (Some [])
  | txHash :: hs =>
      tx ← ReadClosedTx txHash;
      match tx with
      | None => mret None
      | Some _ =>
          trx ← the_funds tx;
          if negb (ftx_Aggregated trx) &&
             (bool_decide (ftx_From trx = snd) || bool_decide (ftx_To trx = rcv)) then
            let trx := FundsTx_set_Aggregated true trx in
            WriteClosedTx (TFunds trx);;
            rest ← search_funds snd rcv hs;
            mret (cons (TFunds trx) <$> rest)
          else search_funds snd rcv hs
      end
  end.

(** [trx.From[0]] panics on an aggregation without senders. *)
Fixpoint search_aggs (snd rcv : hash) (hs : list hash) : M Miner (option (list Transaction)) :=
  match hs with
  | [] => mret (Some [])
  | txHash :: hs =>
      tx ← ReadClosedTx txHash;
      match tx with
      | None => mret None
      | Some _ =>
          trx ← the_agg tx;
          found ← (if gtx_Aggregated trx then mret false
                   else
                     f ← of_option (head (gtx_From trx));
                     if bool_decide (f = snd) then mret true
                     else
                       t ← of_option (head (gtx_To trx));
                       mret (bool_decide (t = rcv)));
          if (found : bool) then
            let trx := AggTx_set_Aggregated true trx in
            WriteClosedTx (TAgg trx);;
            rest ← search_aggs snd rcv hs;
            mret (cons (TAgg trx) <$> rest)
          else search_aggs snd rcv hs
      end
  end.

Fixpoint search_blocks (snd rcv : hash) (blocks : list Block) : M Miner (option (list Transaction)) :=
  match blocks with
  | [] => mret (Some [])
  | block :: blocks =>
      funds ← search_funds snd rcv (blk_FundsTxData block);
      match funds with
      | None => mret None
      | Some funds =>
          aggs ← search_aggs snd rcv (blk_AggTxData block);
          match aggs with
          | None => mret None
          | Some aggs =>
              rest ← search_blocks snd rcv blocks;
              mret (app (funds ++ aggs) <$> rest)
          end
      end
  end.

Definition searchTransactionsInHistoricBlocks (snd rcv : hash) : M Miner (list Transaction) :=
  blocks ← ReadAllClosedBlocksWithTransactions;
  r ← search_blocks snd rcv blocks;
  mret (default [] r).

(** ** One aggregation *)

Definition agg_merkle_root (hs : list hash) : M Miner hash :=
  in_miner (match BuildAggTxMerkleTree (S (length hs)) hs [] with
            | Done (t, _) => Done (MerkleRoot t)
            | Panic => Panic
            | Timeout => Timeout
            end).

Definition ConstrAggTx (amount fee : Z) (from to transactions : list hash) : M Miner AggTx :=
  root ← agg_merkle_root transactions;
  mret (mkAggTx amount fee from to transactions false zero_hash root None None).

Definition addAggTxFinal (b : Block) (tx : AggTx) : M Miner Block :=
  h ← tx_hash (TAgg tx);
  mret (upd_blk_AggTxData (fun l => sort_ByHash (l ++ [h])) b).

Fixpoint open_all (txs : list FundsTx) : M Miner (list hash) :=
  match txs with
  | [] => mret []
  | trx :: txs =>
      h ← tx_hash (TFunds trx);
      WriteOpenTx (TFunds trx);;
      hs ← open_all txs;
      mret (h :: hs)
  end.

Fixpoint hash_all (txs : list Transaction) : M Miner (list hash) :=
  match txs with
  | [] => mret []
  | tx :: txs => h ← tx_hash tx; hs ← hash_all txs; mret (h :: hs)
  end.

(** One sender (receiver) is listed once. *)
Definition distinct (ks : list hash) : nat := length (remove_dups ks).
Definition shorten (ks : list hash) : list hash := if Nat.eqb (distinct ks) 1 then take 1 ks else ks.

Definition historic (senders receivers : list hash) : M Miner (list Transaction) :=
  let nrOfSenders := distinct senders in
  let nrOfReceivers := distinct receivers in
  let senders := shorten senders in
  let receivers := shorten receivers in
  if Nat.eqb nrOfSenders nrOfReceivers then
    blocks ← ReadAllClosedBlocksWithTransactions;
    r ← hint_blocks senders receivers blocks;
    match r with
    | Some (s, t) => searchTransactionsInHistoricBlocks s t
    | None => mret []
    end
  else if Nat.ltb nrOfSenders nrOfReceivers then
    s ← of_option (head senders);
    searchTransactionsInHistoricBlocks s zero_hash
  else
    t ← of_option (head receivers);
    searchTransactionsInHistoricBlocks zero_hash t.

Definition AggregateTransactions (txs : list FundsTx) (b : Block) : M Miner (Block * error) :=
  let amount := fold_left (fun s tx => u64 (s + ftx_Amount tx)) txs 0 in
  let senders := ftx_From <$> txs in
  let receivers := ftx_To <$> txs in
  newHashes ← open_all txs;
  historicTransactions ← historic senders receivers;
  oldHashes ← hash_all historicTransactions;
  let transactionHashes := newHashes ++ oldHashes in
  if Nat.ltb 1 (length transactionHashes) then
    aggTx ← ConstrAggTx amount 0 (shorten senders) (shorten receivers) transactionHashes;
    b ← addAggTxFinal b aggTx;
    WriteOpenTx (TAgg aggTx);;
    mret (b, None)
  else
    match txs with
    | tx :: _ => b ← addFundsTxFinal b tx; mret (b, None)
    | [] => mret (b, Some "NullPointer")
    end.

(** ** All of them *)

(** The loop; its counter of rounds has no effect, and the error of a group is
    ignored. The new counters are empty exactly when no transaction remains. *)
Fixpoint split_loop (fuel : nat) (senders receivers : Counts) (txs : list FundsTx) (b : Block)
    : M Miner Block :=
  match fuel with
  | O => timeout
  | S fuel =>
      let '(txToAggregate, rest) := select senders receivers txs in
      r ← AggregateTransactions txToAggregate b;
      let b := fst r in
      if Nat.ltb 0 (length rest) then
        split_loop fuel (count_senders rest) (count_receivers rest) rest b
      else mret b
  end.

Definition splitSortedAggregatableTransactions (fuel : nat) (senders receivers : Counts) (b : Block)
    : M Miner Block :=
  possible ← ReadFundsTxBeforeAggregation;
  sorted ← of_option (sortTxBeforeAggregation possible);
  b ← split_loop fuel senders receivers sorted b;
  DeleteAllFundsTxBeforeAggregation;;
  mret b.
End aggregate.

Lemma height_strict_weak l : strict_weak height_less l.
Proof.
  unfold height_less. split; intros; unfold lt_of in *; simplify_eq/=;
    repeat match goal with H : Some _ = Some true |- _ => injection H as H%Z.ltb_lt end.
  - by eexists.
  - intros [= Hx%Z.ltb_lt]. lia.
  - f_equal. apply Z.ltb_lt. lia.
  - destruct (Z.lt_ge_cases (blk_Height x) (blk_Height y)); [left|right]; f_equal; apply Z.ltb_lt; lia.
Qed.
