(* ===== verification/AggregateLemmas.v ===== *)
(** * Splitting and aggregating: every transaction exactly once

    The loop over the groups ends, because each round after the first takes
    the transactions of a sender or receiver that occurs; the groups are a
    partition of the queue. *)

From S2P Require Import Prelude GoSlice GoLib Format Chameleon Protocol BlockFields Node Storage Params.
From S2P Require Import StateChange Ledger Validation Verify AddTx Aggregate.

(** ** Counting *)

Definition occurrences (k : hash) (ks : list hash) : Z := Z.of_nat (length (filter (fun x => x = k) ks)).

Lemma occurrences_cons k x ks : occurrences k (x :: ks) = (if decide (x = k) then 1 else 0) + occurrences k ks.
Proof. unfold occurrences. rewrite filter_cons. case_decide; simpl length; lia. Qed.

Lemma occurrences_le k ks : 0 <= occurrences k ks <= Z.of_nat (length ks).
Proof. unfold occurrences. pose proof (length_filter (fun x => x = k) ks). lia. Qed.

Lemma occurrences_pos k ks : k ∈ ks -> 1 <= occurrences k ks.
Proof.
  induction ks as [|x ks IH]; intros Hin; [by apply not_elem_of_nil in Hin|].
  rewrite occurrences_cons. pose proof (occurrences_le k ks).
  apply elem_of_cons in Hin as [<-|Hin]; [rewrite decide_True by done; lia|].
  specialize (IH Hin). case_decide; lia.
Qed.

Lemma count_all_lookup ks m k : (forall x v, m !! x = Some v -> 0 <= v) ->
  default 0 (m !! k) + Z.of_nat (length ks) < 2 ^ 32 ->
  default 0 (count_all ks m !! k) = default 0 (m !! k) + occurrences k ks.
Proof.
  unfold count_all. revert m. induction ks as [|x ks IH]; intros m Hm Hlt; [unfold occurrences; simpl; lia|].
  assert (Hx : 0 <= default 0 (m !! x)) by (destruct (m !! x) eqn:E; simpl; [eauto|lia]).
  simpl in Hlt |- *. rewrite IH.
  - rewrite occurrences_cons. unfold count_up. destruct (decide (x = k)) as [->|].
    + rewrite lookup_insert_eq. simpl. rewrite wrap_small by lia. lia.
    + by rewrite lookup_insert_ne.
  - intros y v. unfold count_up. destruct (decide (x = y)) as [->|].
    + rewrite lookup_insert_eq. intros [= <-]. apply wrap_bounds. lia.
    + rewrite lookup_insert_ne by done. eauto.
  - unfold count_up. destruct (decide (x = k)) as [->|].
    + rewrite lookup_insert_eq. simpl. rewrite wrap_small by lia. lia.
    + rewrite lookup_insert_ne by done. lia.
Qed.

(** Only what occurs is counted. *)
Lemma count_all_dom ks m k : is_Some (count_all ks m !! k) -> is_Some (m !! k) \/ k ∈ ks.
Proof.
  unfold count_all. revert m. induction ks as [|x ks IH]; intros m H; [by left|]. simpl in H.
  apply IH in H as [H|H]; [|right; by right]. unfold count_up in H.
  destruct (decide (x = k)) as [->|]; [right; by left|]. rewrite lookup_insert_ne in H by done. by left.
Qed.

(** ** The maximum *)

Lemma max_fold_spec l best :
  let r := fold_left max_step l best in
  (r = best \/ r ∈ l) /\ snd best <= snd r /\ (forall kv, kv ∈ l -> snd kv <= snd r).
Proof.
  revert best. induction l as [|kv l IH]; intros best; simpl.
  { split; [by left|]. split; [lia|]. intros kv Hin. by apply not_elem_of_nil in Hin. }
  destruct (IH (max_step best kv)) as (Hr & Hb & Hall). unfold max_step in *.
  destruct (Z.ltb_spec (snd best) (snd kv)); (split; [|split; [lia|]]).
  1: destruct Hr as [->|?]; right; [by left|by right].
  2: destruct Hr as [->|?]; [by left|right; by right].
  all: intros k [->|Hin]%elem_of_cons; [lia|by apply Hall].
Qed.

Section max.
Context {MO : MapOrder} {ML : MapOrderLaws}.

Lemma getMax_spec (m : Counts) k v : m !! k = Some v -> 0 < v ->
  let r := getMaxKeyAndValueFormMap m in m !! fst r = Some (snd r) /\ v <= snd r.
Proof.
  intros Hk Hv. unfold getMaxKeyAndValueFormMap.
  destruct (max_fold_spec (range_map m) (zero_hash, 0)) as (Hr & _ & Hall). simpl.
  set (r := fold_left _ _ _) in *.
  assert (v <= snd r).
  { apply (Hall (k, v)). rewrite range_perm. by apply elem_of_map_to_list. }
  split; [|done]. destruct Hr as [E|Hin]; [rewrite E in *; simpl in *; lia|].
  rewrite range_perm in Hin. apply elem_of_map_to_list. by destruct r.
Qed.

Lemma getMax_count ks : ks <> [] -> Z.of_nat (length ks) < 2 ^ 32 ->
  fst (getMaxKeyAndValueFormMap (count_all ks ∅)) ∈ ks.
Proof.
  intros Hne Hlt. destruct ks as [|k ks]; [done|].
  assert (Hc : default 0 (count_all (k :: ks) ∅ !! k) = occurrences k (k :: ks)).
  { rewrite count_all_lookup; [|by intros ? ? ?%lookup_empty_Some|by rewrite lookup_empty].
    by rewrite lookup_empty. }
  pose proof (occurrences_pos k (k :: ks) ltac:(by left)) as Hpos.
  destruct (count_all (k :: ks) ∅ !! k) as [v|] eqn:E; simpl in Hc; [|lia].
  destruct (getMax_spec (count_all (k :: ks) ∅) k v E ltac:(lia)) as [Hm _].
  destruct (count_all_dom (k :: ks) ∅ (fst (getMaxKeyAndValueFormMap (count_all (k :: ks) ∅)))) as [[x Hx]|?];
    [by eexists| |done].
  by rewrite lookup_empty in Hx.
Qed.

(** ** One round *)

(** A group has one sender or one receiver. *)
Definition uniform (g : list FundsTx) : Prop :=
  (exists s, Forall (fun tx => ftx_From tx = s) g) \/ (exists r, Forall (fun tx => ftx_To tx = r) g).

Lemma filter_bool_perm {A} (f : A -> bool) l :
  filter (fun x => f x = true) l ++ filter (fun x => f x = false) l ≡ₚ l.
Proof.
  induction l as [|x l IH]; [done|]. rewrite !filter_cons. destruct (f x).
  - rewrite decide_True, decide_False by done. simpl. by rewrite IH.
  - rewrite decide_False, decide_True by done. by rewrite <-Permutation_middle, IH.
Qed.

Lemma select_spec s r txs g rest : select s r txs = (g, rest) -> g ++ rest ≡ₚ txs /\ uniform g.
Proof.
  unfold select. destruct (getMaxKeyAndValueFormMap s) as [ks ns], (getMaxKeyAndValueFormMap r) as [kr nr].
  intros [= <- <-]. split; [apply (filter_bool_perm (fun tx => _))|].
  destruct (nr <=? ns); [left; exists ks|right; exists kr];
    apply Forall_forall; intros tx [Hc _]%list_elem_of_filter; by apply bool_decide_eq_true in Hc.
Qed.

(** With the counters of the transactions themselves, a group is not empty. *)
Lemma select_progress txs g rest : txs <> [] -> Z.of_nat (length txs) < 2 ^ 32 ->
  select (count_senders txs) (count_receivers txs) txs = (g, rest) -> (length rest < length txs)%nat.
Proof.
  intros Hne Hlt H. pose proof (select_spec _ _ _ _ _ H) as [Hp _].
  apply Permutation_length in Hp. rewrite length_app in Hp.
  enough (g <> []) by (destruct g; [done|simpl in Hp; lia]). intros ->.
  unfold select in H. unfold count_senders, count_receivers in H.
  pose proof (getMax_count (ftx_From <$> txs)) as Hs. pose proof (getMax_count (ftx_To <$> txs)) as Hr.
  rewrite !length_fmap in Hs, Hr.
  destruct (getMaxKeyAndValueFormMap (count_all (ftx_From <$> txs) ∅)) as [ks ns],
    (getMaxKeyAndValueFormMap (count_all (ftx_To <$> txs) ∅)) as [kr nr]. simpl in Hs, Hr.
  injection H as Hg _.
  assert (Hsome : exists tx, tx ∈ txs /\ (if nr <=? ns then bool_decide (ftx_From tx = ks)
            else bool_decide (ftx_To tx = kr)) = true).
  { destruct (nr <=? ns).
    - destruct (list_elem_of_fmap_1 _ _ _ (Hs ltac:(by destruct txs) Hlt)) as (tx & -> & ?).
      exists tx. split; [done|]. by apply bool_decide_eq_true.
    - destruct (list_elem_of_fmap_1 _ _ _ (Hr ltac:(by destruct txs) Hlt)) as (tx & -> & ?).
      exists tx. split; [done|]. by apply bool_decide_eq_true. }
  destruct Hsome as (tx & Hin & Hc).
  enough (tx ∈ []) as ?%not_elem_of_nil by done. rewrite <-Hg. apply list_elem_of_filter. done.
Qed.
End max.

(** ** Older transactions *)

(** What some blocks list, in order. *)
Definition listed_in (blocks : list Block) : list hash :=
  concat ((fun b => blk_FundsTxData b ++ blk_AggTxData b) <$> blocks).

(** The closed blocks with their transactions, sorted by height. *)
Definition with_transactions (m : Miner) : list Block :=
  match ForEach (lastclosedblock (db m)) with [] => [] | _ => snd <$> ForEach (closedblocks (db m)) end.

Definition by_height (m : Miner) (blocks : list Block) : Prop :=
  blocks ≡ₚ with_transactions m /\
  forall i j x y, (i < j)%nat -> blocks !! i = Some x -> blocks !! j = Some y -> blk_Height x <= blk_Height y.

(** Closed payments and aggregations are kept under their hashes. *)
Definition closed_keyed `{DG : Digests} (m : Miner) : Prop := forall h tx, closed_tx (db m) h = Some tx ->
  match tx with
  | TFunds _ | TAgg _ => Transaction_Hash (ChameleonHashParametersMap (ledger m)) tx = Some h
  | _ => True
  end.

(** What a transaction has in common with one from [f] to [t]. *)
Definition link (f t : hash) (tx : Transaction) : option (hash * hash) :=
  match tx with
  | TFunds x => if decide (ftx_From x = f) then Some (f, zero_hash)
                else if decide (ftx_To x = t) then Some (zero_hash, t) else None
  | TAgg x => if decide (gtx_From x = [f]) then Some (f, zero_hash)
              else if decide (gtx_To x = [t]) then Some (zero_hash, t) else None
  | _ => None
  end.

(** The addresses whose older transactions belong to the group: its sender or
    its receiver if there are fewer of them, else those of the first listed
    transaction that has one of them. *)
Definition sought (m : Miner) (listed : list hash) (txs : list FundsTx) : option (hash * hash) :=
  match txs with
  | [] => None
  | tx :: _ =>
      let senders := distinct (ftx_From <$> txs) in
      let receivers := distinct (ftx_To <$> txs) in
      if Nat.eqb senders receivers then
        head (omap (fun h => closed_tx (db m) h ≫= link (ftx_From tx) (ftx_To tx)) listed)
      else if Nat.ltb senders receivers then Some (ftx_From tx, zero_hash) else Some (zero_hash, ftx_To tx)
  end.

(** Closed, not aggregated yet, and from or to the address. *)
Definition of_address (m : Miner) (k : hash * hash) (h : hash) : bool :=
  match closed_tx (db m) h with
  | Some (TFunds x) => negb (ftx_Aggregated x) && (bool_decide (ftx_From x = fst k) || bool_decide (ftx_To x = snd k))
  | Some (TAgg x) => negb (gtx_Aggregated x) &&
      (bool_decide (head (gtx_From x) = Some (fst k)) || bool_decide (head (gtx_To x) = Some (snd k)))
  | _ => false
  end.

Fixpoint each_once (P : hash -> bool) (seen hs : list hash) : list hash :=
  match hs with
  | [] => []
  | h :: hs => if P h && negb (bool_decide (h ∈ seen)) then h :: each_once P (h :: seen) hs else each_once P seen hs
  end.

(** The older transactions of a group: none if a listed one is not closed. *)
Definition older (m : Miner) (blocks : list Block) (txs : list FundsTx) : list hash :=
  let listed := listed_in blocks in
  match sought m listed txs with
  | None => []
  | Some k => if forallb (fun h => match closed_tx (db m) h with Some _ => true | None => false end) listed
              then each_once (of_address m k) [] listed else []
  end.

Lemma each_once_app P seen l1 l2 :
  each_once P seen (l1 ++ l2) = each_once P seen l1 ++ each_once P (reverse (each_once P seen l1) ++ seen) l2.
Proof.
  revert seen. induction l1 as [|h l1 IH]; intros seen; [done|]. simpl. case_match; [|apply IH].
  simpl. by rewrite IH, reverse_cons, <-app_assoc.
Qed.

Section older.
Context {DG : Digests} {GS : GoSort} {SL : GoSortLaws}.

Lemma blocks_by_height m blocks m' : ReadAllClosedBlocksWithTransactions m = Done (blocks, m') ->
  m' = m /\ by_height m blocks.
Proof.
  unfold ReadAllClosedBlocksWithTransactions, ReadLastClosedBlock. intros (l & m1 & [= <- <-] & H)%bind_inv.
  unfold by_height, with_transactions. destruct (ForEach (lastclosedblock (db m))) as [|x xs]; simpl in H.
  { injection H as <- <-. split; [done|]. split; [done|]. intros i j x y _ Hx. by rewrite lookup_nil in Hx. }
  apply bind_inv in H as (bs & m1 & [= <- <-] & [Hs <-]%of_option_inv). split; [done|]. split; [by apply sort_perm in Hs|].
  intros i j a b Hij Ha Hb. pose proof (sort_sorted _ _ _ (height_strict_weak _) Hs i j a b Hij Ha Hb) as Hn.
  apply Z.nlt_ge. intros Hlt. apply Hn. unfold lt_of, height_less. f_equal. by apply Z.ltb_lt.
Qed.

(** *** The search for the addresses *)

Lemma head_omap_app {A B} (f : A -> option B) l1 l2 :
  head (omap f (l1 ++ l2)) = match head (omap f l1) with Some x => Some x | None => head (omap f l2) end.
Proof. rewrite omap_app. by destruct (omap f l1). Qed.

Lemma hint_funds_spec f t senders receivers hs m r m' : head senders = Some f -> head receivers = Some t ->
  hint_funds senders receivers hs m = Done (r, m') ->
  m' = m /\ r = head (omap (fun h => closed_tx (db m) h ≫= link f t) hs).
Proof.
  intros Hs Hr. induction hs as [|h hs IH]; simpl; [by intros [= <- <-]|]. rewrite Hs, Hr.
  intros (o & m1 & [-> ->]%gets_inv & H)%bind_inv. apply bind_inv in H as (x & m2 & Hx & H).
  destruct (closed_tx (db m) h) as [ [ | | | | | ]|]; simpl in Hx; try done. injection Hx as <- <-. simpl.
  repeat case_bool_decide; simplify_eq; rewrite ?decide_True by done; simpl; try (by injection H as <- <-).
  - rewrite decide_False by congruence. rewrite decide_True by done. by injection H as <- <-.
  - rewrite !decide_False by congruence. by apply IH.
Qed.

Lemma hint_aggs_spec f t senders receivers hs m r m' : head senders = Some f -> head receivers = Some t ->
  hint_aggs senders receivers hs m = Done (r, m') ->
  m' = m /\ r = head (omap (fun h => closed_tx (db m) h ≫= link f t) hs).
Proof.
  intros Hs Hr. induction hs as [|h hs IH]; simpl; [by intros [= <- <-]|]. rewrite Hs, Hr.
  intros (o & m1 & [-> ->]%gets_inv & H)%bind_inv. destruct (closed_tx (db m) h) as [tx|]; simpl; [|by apply IH].
  apply bind_inv in H as (x & m2 & Hx & H). destruct tx; simpl in Hx; try done. injection Hx as <- <-. simpl.
  destruct (gtx_From tx) as [|a [|]], (gtx_To tx) as [|b [|]];
    repeat case_bool_decide; repeat case_decide; simplify_eq/=; try done; try (by injection H as <- <-); by apply IH.
Qed.

Lemma hint_blocks_spec f t senders receivers blocks m r m' : head senders = Some f -> head receivers = Some t ->
  hint_blocks senders receivers blocks m = Done (r, m') ->
  m' = m /\ r = head (omap (fun h => closed_tx (db m) h ≫= link f t) (listed_in blocks)).
Proof.
  intros Hs Hr. induction blocks as [|b blocks IH]; simpl; [by intros [= <- <-]|].
  intros (o & m1 & H1 & H)%bind_inv. apply (hint_funds_spec f t) in H1 as [-> ->]; [|done..].
  change (listed_in (b :: blocks)) with ((blk_FundsTxData b ++ blk_AggTxData b) ++ listed_in blocks).
  rewrite !head_omap_app. destruct (head (omap _ (blk_FundsTxData b))); [by injection H as <- <-|].
  apply bind_inv in H as (o & m1 & H1 & H). apply (hint_aggs_spec f t) in H1 as [-> ->]; [|done..].
  destruct (head (omap _ (blk_AggTxData b))); [by injection H as <- <-|]. by apply IH.
Qed.

(** *** The search for the transactions *)

Definition is_marked (tx : option Transaction) : Prop :=
  (exists x, tx = Some (TFunds x) /\ ftx_Aggregated x = true) \/ (exists x, tx = Some (TAgg x) /\ gtx_Aggregated x = true).

(** Those of [F] are marked since [m], nothing else is. *)
Definition flagged (F : list hash) (m m' : Miner) : Prop :=
  ledger m' = ledger m /\
  forall h, if decide (h ∈ F) then is_Some (closed_tx (db m) h) /\ is_marked (closed_tx (db m') h)
            else closed_tx (db m') h = closed_tx (db m) h.

Lemma flagged_refl m : flagged [] m m.
Proof. split; [done|]. intros h. rewrite decide_False; [done|]. by intros ?%elem_of_nil. Qed.

Lemma flagged_Some F m m' h tx : flagged F m m' -> closed_tx (db m') h = Some tx -> is_Some (closed_tx (db m) h).
Proof. intros [_ Hf] E. specialize (Hf h). destruct (decide (h ∈ F)); [by destruct Hf|]. rewrite <-Hf. eauto. Qed.

Lemma flagged_None F m m' h : flagged F m m' -> closed_tx (db m') h = None -> closed_tx (db m) h = None.
Proof.
  intros [_ Hf] E. specialize (Hf h). destruct (decide (h ∈ F)); [|congruence].
  destruct Hf as [_ [ (x&Hx&_)|(x&Hx&_)] ]; congruence.
Qed.

Lemma flagged_new F m m' h tx : flagged F m m' -> closed_tx (db m') h = Some tx -> ~ is_marked (Some tx) ->
  h ∉ F /\ closed_tx (db m) h = Some tx.
Proof.
  intros [_ Hf] E Hn. specialize (Hf h). destruct (decide (h ∈ F)); [|split; congruence].
  destruct Hf as [_ Hm]. by rewrite E in Hm.
Qed.

Lemma closed_put_funds d h x h' :
  closed_tx (put_closed h (TFunds x) d) h' = if decide (h' = h) then Some (TFunds (FundsTx_persist x)) else closed_tx d h'.
Proof.
  unfold closed_tx. simpl. case_decide as E; [subst; by rewrite lookup_insert_eq|by rewrite lookup_insert_ne].
Qed.

Lemma closed_put_agg d h x y h' : closed_tx d h = Some (TAgg y) ->
  closed_tx (put_closed h (TAgg x) d) h' = if decide (h' = h) then Some (TAgg (AggTx_persist x)) else closed_tx d h'.
Proof.
  unfold closed_tx. simpl. intros Hy. case_decide as E; [subst|by rewrite lookup_insert_ne].
  rewrite lookup_insert_eq. repeat case_match; simplify_eq/=; try done;
    match goal with H : _ <$> _ = Some _ |- _ => by apply fmap_Some in H as (?&_&?) end.
Qed.

(** A transaction that was not marked is. *)
Lemma flagged_step F m m1 m2 h tx tx' : closed_keyed m -> flagged F m m1 -> closed_tx (db m1) h = Some tx ->
  match tx with
  | TFunds x => ftx_Aggregated x = false /\ tx' = TFunds (FundsTx_set_Aggregated true x)
  | TAgg x => gtx_Aggregated x = false /\ tx' = TAgg (AggTx_set_Aggregated true x)
  | _ => False
  end ->
  WriteClosedTx tx' m1 = Done (tt, m2) ->
  h ∉ F /\ closed_tx (db m) h = Some tx /\ flagged (h :: F) m m2 /\
  Transaction_Hash (ChameleonHashParametersMap (ledger m)) tx' = Some h.
Proof.
  intros Hk Hf E Ht Hw. unfold WriteClosedTx in Hw. apply bind_inv in Hw as (h' & m3 & [-> Hh]%tx_hash_signed & Hw).
  assert (Ed : db m2 = put_closed h' tx' (db m1) /\ ledger m2 = ledger m1) by (by injection Hw as <-).
  destruct Ed as [Ed El2]. clear Hw. destruct (flagged_new F m m1 h tx Hf E) as [Hn Ec].
  { intros [ (x&Ex&Hx)|(x&Ex&Hx)]; injection Ex as ->; destruct Ht; congruence. }
  pose proof (Hk h tx Ec) as Hkey. destruct Hf as [El Hf]. rewrite El in Hh.
  assert (Eq : Transaction_Hash (ChameleonHashParametersMap (ledger m)) tx' = Some h).
  { destruct tx; try done; destruct Ht as [_ ->]; exact Hkey. }
  assert (h' = h) as -> by congruence.
  split; [done|]. split; [done|]. split; [|done]. split; [congruence|]. intros k. specialize (Hf k). rewrite Ed.
  destruct tx as [|x| | |x|]; try done; destruct Ht as [Ha ->].
  - rewrite closed_put_funds. destruct (decide (k = h)) as [->|].
    + rewrite decide_True by by left. split; [by eexists|]. left. by eexists.
    + destruct (decide (k ∈ F)); [by rewrite decide_True by by right|]. by rewrite decide_False by by rewrite not_elem_of_cons.
  - rewrite (closed_put_agg _ _ _ x) by done. destruct (decide (k = h)) as [->|].
    + rewrite decide_True by by left. split; [by eexists|]. right. by eexists.
    + destruct (decide (k ∈ F)); [by rewrite decide_True by by right|]. by rewrite decide_False by by rewrite not_elem_of_cons.
Qed.

(** What a search over [hs] has found. *)
Definition searched (F : list hash) (m : Miner) (k : hash * hash) (hs : list hash) (r : option (list Transaction)) (m' : Miner) : Prop :=
  match r with
  | Some txs =>
      let found := each_once (of_address m k) F hs in
      Forall (fun h => is_Some (closed_tx (db m) h)) hs /\ flagged (reverse found ++ F) m m' /\
      Forall2 (fun tx h => Transaction_Hash (ChameleonHashParametersMap (ledger m)) tx = Some h) txs found
  | None => Exists (fun h => closed_tx (db m) h = None) hs
  end.

Lemma searched_skip F m k h hs r m' : is_Some (closed_tx (db m) h) -> of_address m k h && negb (bool_decide (h ∈ F)) = false ->
  searched F m k hs r m' -> searched F m k (h :: hs) r m'.
Proof.
  intros Hs Hp. unfold searched. destruct r as [txs|]; [|by constructor]. cbn [each_once]. rewrite Hp.
  intros (H1&H2&H3). split; [by constructor|]. by split.
Qed.

Lemma searched_take F m k h hs tx r m' : is_Some (closed_tx (db m) h) -> of_address m k h && negb (bool_decide (h ∈ F)) = true ->
  Transaction_Hash (ChameleonHashParametersMap (ledger m)) tx = Some h ->
  searched (h :: F) m k hs r m' -> searched F m k (h :: hs) (cons tx <$> r) m'.
Proof.
  intros Hs Hp Hh. unfold searched. destruct r as [txs|]; simpl; [|by constructor]. rewrite Hp.
  intros (H1&H2&H3). split; [by constructor|]. split; [|by constructor]. by rewrite reverse_cons, <-app_assoc.
Qed.

Lemma searched_app F m k l1 l2 t1 m1 r m2 : searched F m k l1 (Some t1) m1 ->
  searched (reverse (each_once (of_address m k) F l1) ++ F) m k l2 r m2 ->
  searched F m k (l1 ++ l2) (app t1 <$> r) m2.
Proof.
  intros (H1&_&H3). unfold searched. destruct r as [txs|]; simpl; [|by rewrite Exists_app; right].
  intros (H4&H5&H6). rewrite each_once_app. split; [by apply Forall_app|]. split; [|by apply Forall2_app].
  by rewrite reverse_app, <-app_assoc.
Qed.

Lemma search_funds_spec F m s r hs m1 res m2 : closed_keyed m -> flagged F m m1 ->
  search_funds s r hs m1 = Done (res, m2) -> searched F m (s, r) hs res m2.
Proof.
  intros Hk. revert F m1 res. induction hs as [|h hs IH]; intros F m1 res Hf; simpl.
  { intros [= <- <-]. split; [done|]. split; [exact Hf|constructor]. }
  intros (o & m3 & [-> ->]%gets_inv & H)%bind_inv. destruct (closed_tx (db m1) h) as [tx|] eqn:E; simpl in H.
  2: { injection H as <- <-. constructor. by apply (flagged_None F _ m1). }
  pose proof (flagged_Some F m m1 h tx Hf E) as Hs.
  destruct tx as [|x| | | |]; try done. apply bind_inv in H as (y & m4 & Hx & H). injection Hx as <- <-.
  destruct (ftx_Aggregated x) eqn:Ex; simpl in H.
  - apply searched_skip; [done| |exact (IH _ _ _ Hf H)]. destruct Hf as [_ Hf]. specialize (Hf h).
    destruct (decide (h ∈ F)); [rewrite (bool_decide_eq_true_2 (h ∈ F)) by done; apply andb_false_r|].
    unfold of_address. by rewrite <-Hf, E, Ex.
  - destruct (flagged_new F m m1 h _ Hf E) as [Hn Ec]; [intros [ (?&Ey&?)|(?&Ey&?)]; congruence|].
    assert (Ho : of_address m (s, r) h && negb (bool_decide (h ∈ F)) = bool_decide (ftx_From x = s) || bool_decide (ftx_To x = r)).
    { unfold of_address. rewrite Ec, Ex, (bool_decide_eq_false_2 (h ∈ F)) by done. simpl. apply andb_true_r. }
    destruct (bool_decide (ftx_From x = s) || bool_decide (ftx_To x = r)) eqn:Ec'.
    + apply bind_inv in H as ([] & m3 & Hw & H). apply bind_inv in H as (rest & m4 & Hr & H). injection H as <- <-.
      destruct (flagged_step F m m1 m3 h _ _ Hk Hf E (conj Ex eq_refl) Hw) as (_&_&Hf3&Hh).
      apply searched_take; [done..|]. exact (IH _ _ _ Hf3 Hr).
    + apply searched_skip; [done..|]. exact (IH _ _ _ Hf H).
Qed.

Lemma search_aggs_spec F m s r hs m1 res m2 : closed_keyed m -> flagged F m m1 ->
  search_aggs s r hs m1 = Done (res, m2) -> searched F m (s, r) hs res m2.
Proof.
  intros Hk. revert F m1 res. induction hs as [|h hs IH]; intros F m1 res Hf; simpl.
  { intros [= <- <-]. split; [done|]. split; [exact Hf|constructor]. }
  intros (o & m3 & [-> ->]%gets_inv & H)%bind_inv. destruct (closed_tx (db m1) h) as [tx|] eqn:E; simpl in H.
  2: { injection H as <- <-. constructor. by apply (flagged_None F _ m1). }
  pose proof (flagged_Some F m m1 h tx Hf E) as Hs.
  destruct tx as [| | | |x|]; try done. apply bind_inv in H as (y & m4 & Hx & H). injection Hx as <- <-.
  apply bind_inv in H as (found & m4 & Hfound & H). destruct (gtx_Aggregated x) eqn:Ex; simpl in H.
  - injection Hfound as <- <-. apply searched_skip; [done| |exact (IH _ _ _ Hf H)]. destruct Hf as [_ Hf]. specialize (Hf h).
    destruct (decide (h ∈ F)); [rewrite (bool_decide_eq_true_2 (h ∈ F)) by done; apply andb_false_r|].
    unfold of_address. by rewrite <-Hf, E, Ex.
  - destruct (flagged_new F m m1 h _ Hf E) as [Hn Ec]; [intros [ (?&Ey&?)|(?&Ey&?)]; congruence|].
    assert (Ho : of_address m (s, r) h && negb (bool_decide (h ∈ F)) = found /\ m4 = m1).
    { unfold of_address. rewrite Ec, Ex, (bool_decide_eq_false_2 (h ∈ F)) by done. simpl. rewrite andb_true_r.
      apply bind_inv in Hfound as (f & m5 & [Hfrom ->]%of_option_inv & Hfound). rewrite Hfrom.
      case_bool_decide; [injection Hfound as <- <-; subst; by rewrite bool_decide_eq_true_2|].
      rewrite bool_decide_eq_false_2 by congruence. simpl.
      apply bind_inv in Hfound as (t & m5 & [Hto ->]%of_option_inv & Hfound). injection Hfound as <- <-. rewrite Hto.
      split; [|done]. apply bool_decide_ext. naive_solver. }
    destruct Ho as [Ho ->]. destruct found.
    + apply bind_inv in H as ([] & m3 & Hw & H). apply bind_inv in H as (rest & m4 & Hr & H). injection H as <- <-.
      destruct (flagged_step F m m1 m3 h _ _ Hk Hf E (conj Ex eq_refl) Hw) as (_&_&Hf3&Hh).
      apply searched_take; [done..|]. exact (IH _ _ _ Hf3 Hr).
    + apply searched_skip; [done..|]. exact (IH _ _ _ Hf H).
Qed.

Lemma search_blocks_spec F m s r blocks m1 res m2 : closed_keyed m -> flagged F m m1 ->
  search_blocks s r blocks m1 = Done (res, m2) -> searched F m (s, r) (listed_in blocks) res m2.
Proof.
  intros Hk. revert F m1 res. induction blocks as [|b blocks IH]; intros F m1 res Hf; simpl.
  { intros [= <- <-]. split; [by constructor|]. split; [exact Hf|constructor]. }
  change (listed_in (b :: blocks)) with ((blk_FundsTxData b ++ blk_AggTxData b) ++ listed_in blocks). rewrite <-app_assoc.
  intros (fs & m3 & H1%(search_funds_spec F m) & H)%bind_inv; [|done..]. destruct fs as [fs|]; simpl in H.
  2: { injection H as <- <-. apply Exists_app. by left. }
  apply bind_inv in H as (gs & m4 & H2 & H). eapply search_aggs_spec in H2; [|exact Hk|apply H1]. destruct gs as [gs|]; simpl in H.
  2: { injection H as <- <-. apply Exists_app. right. apply Exists_app. by left. }
  apply bind_inv in H as (rest & m5 & H3 & H). injection H as <- <-. eapply IH in H3; [|apply H2].
  replace (app (fs ++ gs) <$> rest) with (app fs <$> (app gs <$> rest)) by (destruct rest; simpl; by rewrite ?app_assoc).
  eapply searched_app; [exact H1|]. by eapply searched_app.
Qed.

Lemma head_shorten ks : head (shorten ks) = head ks.
Proof. unfold shorten. case_match; [by destruct ks|done]. Qed.

Lemma search_older m k m1 olds m2 : closed_keyed m -> flagged [] m m1 ->
  searchTransactionsInHistoricBlocks (fst k) (snd k) m1 = Done (olds, m2) ->
  exists blocks, by_height m1 blocks /\ ReadAllClosedBlocksWithTransactions m1 = Done (blocks, m1) /\
    Forall2 (fun tx h => Transaction_Hash (ChameleonHashParametersMap (ledger m)) tx = Some h) olds
      (if forallb (fun h => match closed_tx (db m) h with Some _ => true | None => false end) (listed_in blocks)
       then each_once (of_address m k) [] (listed_in blocks) else []).
Proof.
  intros Hk Hf. unfold searchTransactionsInHistoricBlocks. intros (blocks & m3 & Hb & H)%bind_inv.
  pose proof (blocks_by_height _ _ _ Hb) as [-> Hby]. exists blocks. split; [done|]. split; [done|].
  apply bind_inv in H as (res & m3 & Hs%(search_blocks_spec [] m) & H); [|done..]. injection H as <- <-.
  destruct k as [s r]. destruct res as [txs|]; simpl in Hs |- *.
  - destruct Hs as (Hall&_&Hx). rewrite (proj2 (forallb_forall _ _)); [done|].
    intros h Hh%list_elem_of_In. rewrite Forall_forall in Hall. by destruct (Hall h Hh) as [? ->].
  - destruct (forallb _ _) eqn:E; [|constructor]. exfalso. apply Exists_exists in Hs as (h & Hh & En).
    rewrite forallb_forall in E. specialize (E h). rewrite En in E. by discriminate E; apply list_elem_of_In.
Qed.

Lemma historic_older txs m m1 olds m2 : closed_keyed m -> ledger m1 = ledger m -> db m1 = db m ->
  historic (ftx_From <$> txs) (ftx_To <$> txs) m1 = Done (olds, m2) ->
  exists blocks, by_height m blocks /\
    Forall2 (fun tx h => Transaction_Hash (ChameleonHashParametersMap (ledger m)) tx = Some h) olds (older m blocks txs).
Proof.
  intros Hk El Ed. assert (Hf : flagged [] m m1).
  { split; [done|]. intros h. rewrite Ed. rewrite decide_False; [done|]. by intros ?%elem_of_nil. }
  assert (Hby : forall blocks, by_height m1 blocks -> by_height m blocks).
  { unfold by_height, with_transactions. by rewrite Ed. }
  unfold historic, older, sought. intros H. destruct txs as [|tx txs].
  { simpl in H. apply bind_inv in H as (blocks & m3 & [-> Hb]%blocks_by_height & H).
    apply bind_inv in H as (o & m3 & Ho & H). exists blocks. split; [auto|].
    assert (o = None) as ->; [|injection H as <- <-; constructor].
    clear H Hb. revert Ho. induction blocks as [|b blocks IH]; simpl; [by intros [= <- _]|].
    intros (o1 & m4 & H1 & H)%bind_inv. assert (o1 = None /\ m4 = m1) as [-> ->].
    { revert H1. induction (blk_FundsTxData b); simpl; [by intros [= <- <-]|].
      intros (? & ? & [-> ->]%gets_inv & Hx)%bind_inv. auto. }
    apply bind_inv in H as (o2 & m5 & H2 & H). assert (o2 = None /\ m5 = m1) as [-> ->]; [|auto].
    clear H. revert H2. induction (blk_AggTxData b); simpl; [by intros [= <- <-]|].
    intros (? & ? & [-> ->]%gets_inv & Hy)%bind_inv. destruct (closed_tx _ _) as [t|]; [|auto].
    apply bind_inv in Hy as (x & m6 & Hx & Hy). destruct t; try done. injection Hx as <- <-.
    destruct (gtx_From tx) as [|? [|]], (gtx_To tx) as [|? [|]]; auto. }
  destruct (Nat.eqb (distinct (ftx_From <$> tx :: txs)) (distinct (ftx_To <$> tx :: txs))) eqn:En.
  - apply bind_inv in H as (blocks & m3 & Hr & H). pose proof (blocks_by_height _ _ _ Hr) as [-> Hb].
    apply bind_inv in H as (o & m3 & Ho & H).
    apply (hint_blocks_spec (ftx_From tx) (ftx_To tx)) in Ho as [-> ->]; [|by rewrite head_shorten..].
    rewrite Ed in H. destruct (head (omap _ (listed_in blocks))) as [ [s t]|] eqn:Ek.
    + destruct (search_older m (s, t) m1 olds m2 Hk Hf H) as (blocks' & Hb' & Hr' & Hold).
      assert (blocks' = blocks) as -> by congruence. exists blocks. split; [auto|]. by rewrite Ek.
    + injection H as <- <-. exists blocks. split; [auto|]. rewrite Ek. constructor.
  - destruct (Nat.ltb _ _); apply bind_inv in H as (a & m3 & [Ha ->]%of_option_inv & H); rewrite head_shorten in Ha;
      injection Ha as <-.
    + destruct (search_older m (ftx_From tx, zero_hash) m1 olds m2 Hk Hf H) as (blocks & Hb & _ & Hold).
      exists blocks. auto.
    + destruct (search_older m (zero_hash, ftx_To tx) m1 olds m2 Hk Hf H) as (blocks & Hb & _ & Hold).
      exists blocks. auto.
Qed.
End older.

(** ** All rounds *)

Section rounds.
Context {DG : Digests} {GS : GoSort} {SL : GoSortLaws} {MO : MapOrder} {ML : MapOrderLaws}.

(** One aggregation per group. *)
Fixpoint aggregate_all (gs : list (list FundsTx)) (b : Block) : M Miner Block :=
  match gs with
  | [] => mret b
  | g :: gs => r ← AggregateTransactions g b; aggregate_all gs (fst r)
  end.

Lemma split_loop_counted fuel txs : txs <> [] -> Z.of_nat (length txs) < 2 ^ 32 -> (length txs <= fuel)%nat ->
  exists gs, (forall b m, split_loop fuel (count_senders txs) (count_receivers txs) txs b m = aggregate_all gs b m) /\
    concat gs ≡ₚ txs /\ Forall uniform gs.
Proof.
  revert txs. induction fuel as [|fuel IH]; intros txs Hne Hlt Hf; [destruct txs; [done|simpl in Hf; lia]|].
  destruct (select (count_senders txs) (count_receivers txs) txs) as [g rest] eqn:Es.
  destruct (select_spec _ _ _ _ _ Es) as [Hp Hu].
  pose proof (select_progress _ _ _ Hne Hlt Es) as Hlen.
  destruct (decide (rest = [])) as [->|Hr].
  - exists [g]. split; [|split; [simpl; by rewrite <-Hp|by constructor]].
    intros b m. simpl. rewrite Es. simpl. by destruct (AggregateTransactions g b m) as [ [r m1]| |].
  - destruct (IH rest Hr ltac:(lia) ltac:(lia)) as (gs & Hrun & Hc & Hall).
    exists (g :: gs). split; [|split; [simpl; by rewrite Hc|by constructor]].
    intros b m. simpl. rewrite Es. unfold mbind, M_bind.
    destruct (AggregateTransactions g b m) as [ [r m1]| |]; [|done..].
    rewrite (proj2 (Nat.ltb_lt 0 (length rest))) by (destruct rest; [done|simpl; lia]). apply Hrun.
Qed.

(** The first round uses the counters it is given, and may find nothing. *)
Lemma split_loop_groups senders receivers txs : Z.of_nat (length txs) < 2 ^ 32 ->
  exists gs, (forall b m, split_loop (S (S (length txs))) senders receivers txs b m = aggregate_all gs b m) /\
    concat gs ≡ₚ txs /\ Forall uniform gs.
Proof.
  intros Hlt. destruct (select senders receivers txs) as [g rest] eqn:Es.
  destruct (select_spec _ _ _ _ _ Es) as [Hp Hu].
  assert (length rest <= length txs)%nat by (rewrite <-Hp, length_app; lia).
  destruct (decide (rest = [])) as [->|Hr].
  - exists [g]. split; [|split; [simpl; by rewrite <-Hp|by constructor]].
    intros b m. simpl. rewrite Es. simpl. by destruct (AggregateTransactions g b m) as [ [r m1]| |].
  - destruct (split_loop_counted (S (length txs)) rest Hr ltac:(lia) ltac:(lia)) as (gs & Hrun & Hc & Hall).
    exists (g :: gs). split; [|split; [simpl; by rewrite Hc|by constructor]].
    intros b m. change (split_loop (S (S (length txs))) senders receivers txs b m) with
      ((let '(txToAggregate, rest) := select senders receivers txs in
        r ← AggregateTransactions txToAggregate b;
        let b := fst r in
        if Nat.ltb 0 (length rest) then
          split_loop (S (length txs)) (count_senders rest) (count_receivers rest) rest b
        else mret b) m).
    rewrite Es. simpl aggregate_all. unfold mbind, M_bind.
    destruct (AggregateTransactions g b m) as [ [r m1]| |]; [|done..].
    rewrite (proj2 (Nat.ltb_lt 0 (length rest))) by (destruct rest; [done|simpl; lia]). apply Hrun.
Qed.

(** ** One aggregation *)

Lemma open_all_inv txs m hs m' : open_all txs m = Done (hs, m') ->
  ledger m' = ledger m /\ db m' = db m /\ length hs = length txs /\
  Forall2 (fun tx h => Transaction_Hash (ChameleonHashParametersMap (ledger m)) (TFunds tx) = Some h) txs hs.
Proof.
  revert m hs. induction txs as [|tx txs IH]; intros m hs H; simpl in H.
  { injection H as <- <-. split_and!; done || constructor. }
  apply bind_inv in H as (h & m1 & [-> Eh]%tx_hash_signed & H). apply bind_inv in H as (u & m2 & H2 & H).
  apply bind_inv in H as (hs' & m3 & H3 & H). injection H as <- <-.
  assert (ledger m2 = ledger m /\ db m2 = db m) as [El Ed].
  { apply bind_inv in H2 as (h1 & m4 & [-> _]%tx_hash_signed & H2).
    apply bind_inv in H2 as (u1 & m5 & [= _ <-] & H2).
    apply bind_inv in H2 as (h2 & m6 & [-> _]%tx_hash_signed & H2). by injection H2 as _ <-. }
  apply IH in H3 as (-> & -> & Hl & Hf). rewrite El in *. split_and!; [done..|simpl; congruence|].
  by constructor.
Qed.

(** The number of new and older transactions decides between an aggregation, a
    single funds transaction and an error. An aggregation lists the hashes of
    all of them, but sums the amounts of the new ones only. *)
Inductive aggregation (txs : list FundsTx) (b b' : Block) (e : error) (m m' : Miner) : Prop :=
| agg_many tx h hs blocks m1 :
    e = None -> by_height m blocks -> (1 < length (hs ++ older m blocks txs))%nat ->
    Forall2 (fun tx h => Transaction_Hash (ChameleonHashParametersMap (ledger m)) (TFunds tx) = Some h) txs hs ->
    gtx_AggregatedTxSlice tx = hs ++ older m blocks txs ->
    gtx_Amount tx = fold_left (fun s tx => u64 (s + ftx_Amount tx)) txs 0 -> gtx_Fee tx = 0 ->
    gtx_From tx = shorten (ftx_From <$> txs) -> gtx_To tx = shorten (ftx_To <$> txs) ->
    AggTx_Hash tx = h -> WriteOpenTx (TAgg tx) m1 = Done (tt, m') ->
    b' = upd_blk_AggTxData (fun l => sort_ByHash (l ++ [h])) b ->
    aggregation txs b b' e m m'
| agg_one tx h blocks : txs = [tx] -> e = None -> by_height m blocks -> older m blocks txs = [] -> ledger m' = ledger m ->
    Transaction_Hash (ChameleonHashParametersMap (ledger m)) (TFunds tx) = Some h ->
    b' = upd_blk_FundsTxData (fun l => l ++ [h]) b -> aggregation txs b b' e m m'
| agg_none : txs = [] -> e = Some "NullPointer"%string -> b' = b -> aggregation txs b b' e m m'.

(** The old transactions only change the database. *)
Definition same_ledger (m m' : Miner) : Prop := ledger m' = ledger m.

#[export] Instance same_ledger_PreOrder : PreOrder same_ledger.
Proof. split; unfold same_ledger; [done|]. intros ? ? ? ? ?. congruence. Qed.

Lemma same_ledger_tx_hash tx : respects same_ledger (tx_hash tx).
Proof.
  by intros m h m' [-> _]%tx_hash_signed.
Qed.

Lemma same_ledger_WriteClosedTx tx : respects same_ledger (WriteClosedTx tx).
Proof.
  apply respects_bind; [apply _|apply same_ledger_tx_hash|]. intros h m u m' [= _ <-]. done.
Qed.

Ltac respect := repeat first
  [ apply same_ledger_tx_hash | apply same_ledger_WriteClosedTx
  | apply respects_ret, _ | apply respects_gets, _ | apply respects_of_option, _
  | apply respects_panic | apply respects_bind; [apply _| |intros ?] | case_match | progress simpl ].

Lemma same_ledger_closed_blocks : respects same_ledger ReadAllClosedBlocksWithTransactions.
Proof. unfold ReadAllClosedBlocksWithTransactions, ReadLastClosedBlock. respect. Qed.

Lemma same_ledger_hint senders receivers blocks : respects same_ledger (hint_blocks senders receivers blocks).
Proof.
  induction blocks as [|b blocks IH]; simpl; [respect|].
  apply respects_bind; [apply _| |].
  { induction (blk_FundsTxData b) as [|h hs IHh]; simpl; [respect|].
    unfold ReadClosedTx, the_funds. respect; done. }
  intros r. destruct r; [respect|]. apply respects_bind; [apply _| |intros [?|]; [respect|done] ].
  induction (blk_AggTxData b) as [|h hs IHh]; simpl; [respect|].
  unfold ReadClosedTx, the_agg. respect; done.
Qed.

Lemma same_ledger_search s r : respects same_ledger (searchTransactionsInHistoricBlocks s r).
Proof.
  unfold searchTransactionsInHistoricBlocks.
  apply respects_bind; [apply _|apply same_ledger_closed_blocks|]. intros blocks.
  apply respects_bind; [apply _| |intros; apply respects_ret, _].
  induction blocks as [|b blocks IH]; simpl; [respect|].
  apply respects_bind; [apply _| |].
  { induction (blk_FundsTxData b) as [|h hs IHh]; simpl; [respect|].
    unfold ReadClosedTx, the_funds. respect; done. }
  intros [fs|]; [|respect]. apply respects_bind; [apply _| |intros [?|]; [|respect] ].
  { induction (blk_AggTxData b) as [|h hs IHh]; simpl; [respect|].
    unfold ReadClosedTx, the_agg. respect; done. }
  apply respects_bind; [apply _|done|]. intros. respect.
Qed.

Lemma same_ledger_historic senders receivers : respects same_ledger (historic senders receivers).
Proof.
  unfold historic. repeat case_match.
  - apply respects_bind; [apply _|apply same_ledger_closed_blocks|]. intros blocks.
    apply respects_bind; [apply _|apply same_ledger_hint|].
    intros [ [s r]|]; [apply same_ledger_search|respect].
  - apply respects_bind; [apply _|respect|]. intros. apply same_ledger_search.
  - apply respects_bind; [apply _|respect|]. intros. apply same_ledger_search.
Qed.

Lemma same_ledger_hash_all txs : respects same_ledger (hash_all txs).
Proof. induction txs as [|tx txs IH]; simpl; respect; done. Qed.

Lemma hash_all_inv txs hs m olds m' :
  Forall2 (fun tx h => Transaction_Hash (ChameleonHashParametersMap (ledger m)) tx = Some h) txs hs ->
  hash_all txs m = Done (olds, m') -> olds = hs /\ m' = m.
Proof.
  intros H. revert olds m'. induction H as [|tx h txs hs Hh _ IH]; simpl; intros olds m'; [by intros [= <- <-]|].
  intros (h' & m1 & [-> Hh']%tx_hash_signed & H)%bind_inv. apply bind_inv in H as (hs' & m2 & Hs & H).
  apply IH in Hs as [-> ->]. injection H as <- <-. split; [congruence|done].
Qed.

Lemma AggregateTransactions_inv txs b m b' e m' : closed_keyed m ->
  AggregateTransactions txs b m = Done ((b', e), m') -> aggregation txs b b' e m m'.
Proof.
  unfold AggregateTransactions. intros Hk H.
  apply bind_inv in H as (hs & m1 & Hopen & H). apply open_all_inv in Hopen as (El & Ed & Hlen & Hhs).
  apply bind_inv in H as (olds & m2 & Hh & H). pose proof (same_ledger_historic _ _ _ _ _ Hh) as Hl.
  destruct (historic_older txs m m1 olds m2 Hk El Ed Hh) as (blocks & Hb & Hold). unfold same_ledger in Hl.
  apply bind_inv in H as (old & m3 & Ho & H). apply hash_all_inv with (hs := older m blocks txs) in Ho as [-> ->];
    [|by rewrite Hl, El].
  destruct (Nat.ltb_spec 1 (length (hs ++ older m blocks txs))) as [Hmany|Hfew].
  - apply bind_inv in H as (agg & m4 & Hc & H). unfold ConstrAggTx, agg_merkle_root in Hc.
    apply bind_inv in Hc as (root & m5 & _ & Hc). injection Hc as <- <-.
    apply bind_inv in H as (b1 & m6 & Hadd & H). unfold addAggTxFinal in Hadd.
    apply bind_inv in Hadd as (h & m7 & [-> Hhash]%tx_hash_signed & Hadd). injection Hadd as <- <-.
    injection Hhash as Hhash.
    apply bind_inv in H as ([] & m8 & Hw & H). injection H as <- <- <-.
    match type of Hw with WriteOpenTx (TAgg ?t) _ = _ => eapply (agg_many _ _ _ _ _ _ t _ hs blocks) end;
      [done|exact Hb|exact Hmany|exact Hhs|reflexivity..|exact Hw|]. by rewrite Hhash.
  - rewrite length_app in Hfew. destruct txs as [|tx txs].
    { injection H as <- <- <-. by apply agg_none. }
    destruct txs; [|simpl in Hlen; lia].
    apply bind_inv in H as (b1 & m4 & Hf & H). injection H as <- <- <-.
    unfold addFundsTxFinal in Hf. apply bind_inv in Hf as (h & m5 & [-> Hhash]%tx_hash_signed & Hf).
    injection Hf as <- <-.
    eapply (agg_one _ _ _ _ _ _ tx h blocks); [done|done|done| |congruence|by rewrite <-El, <-Hl|done].
    apply nil_length_inv. simpl in Hlen, Hfew |- *. lia.
Qed.
End rounds.
