(* ===== verification/BlockPrep.v ===== *)
(** * miner/blockpreparation.go: choosing the transactions of a new block

    The pools are read in the order of a map iteration and sorted; the choice
    of [checkBestCombination] works in place on the array of the slice, which
    the model keeps apart from the length. What other miners answer to a
    request, and whether a block arrives meanwhile, are arguments. *)

From S2P Require Import Prelude GoSlice GoLib Format Chameleon Protocol BlockFields Node Storage Params.
From S2P Require Import StateChange Validation Verify AddTx Aggregate Wire.

(** ** Order of the transactions *)

(** [openTxs.Less]; [None] when the last type assertions fail, that is when
    one of the two is an update. *)
Definition openTxs_Less (p q : Transaction) : option bool :=
  match p with
  | TAcc _ | TConfig _ | TStake _ | TAgg _ => Some true
  | _ =>
      match q with
      | TAcc _ | TConfig _ | TStake _ | TAgg _ => Some false
      | _ =>
          match p, q with
          | TFunds f, TFunds g => Some (ftx_TxCnt f <? ftx_TxCnt g)
          | _, _ => None
          end
      end
  end.

Definition TRANSACTION_HASH_SIZE : Z := 32.

(** ** The best combination *)

Section combination.
Context {MO : MapOrder} (blockSize : Z).

(** The slice [openTxs] is the first [c_len] elements of [c_arr]. *)
Record comb := mkComb {
  c_arr : list Transaction;
  c_len : nat;
  c_senders : Counts;
  c_receivers : Counts;
  c_nonAgg : Z;
  c_append : list Transaction
}.

(** [append(openTxs[:i], openTxs[i+1:]...)]: shifts within the array. *)
Definition remove_at (i : nat) (c : comb) : option comb :=
  if (S i <=? c_len c)%nat then
    Some (mkComb (take i (c_arr c) ++ sublist (S i) (c_len c - S i) (c_arr c) ++ drop (c_len c - 1) (c_arr c))
      (c_len c - 1) (c_senders c) (c_receivers c) (c_nonAgg c) (c_append c))
  else None.

(** The range over the slice as it was at the start, of which [k] elements
    remain; [true] is the early return. *)
Fixpoint count_phase (k i : nat) (c : comb) : option (comb * bool) :=
  match k with
  | O => Some (c, false)
  | S k =>
      tx ← c_arr c !! i;
      match tx with
      | TFunds t =>
          count_phase k (S i) (mkComb (c_arr c) (c_len c) (count_up (ftx_From t) (c_senders c))
            (count_up (ftx_To t) (c_receivers c)) (c_nonAgg c) (c_append c))
      | TAgg _ => count_phase k (S i) c
      | _ =>
          if (c_nonAgg c + 1) * TRANSACTION_HASH_SIZE <? blockSize then
            let c := mkComb (c_arr c) (c_len c) (c_senders c) (c_receivers c) (c_nonAgg c + 1) (c_append c ++ [tx]) in
            c ← (if Nat.eqb i (c_len c) then Some c else remove_at i c);
            count_phase k (S i) c
          else Some (c, true)
      end
  end.

(** The funds transactions of the most frequent sender or receiver, and the
    other funds transactions, moved to the front of the array. *)
Definition funds_of (txs : list Transaction) : list FundsTx := omap as_funds txs.

Definition select_phase (c : comb) : list Transaction * comb :=
  let '(chosen, kept) := select (c_senders c) (c_receivers c) (funds_of (take (c_len c) (c_arr c))) in
  (TFunds <$> chosen,
   mkComb ((TFunds <$> kept) ++ drop (length kept) (c_arr c)) (length kept) ∅ ∅ (c_nonAgg c) (c_append c)).

(** [nrWhenCombinedBest] is the number of rounds. *)
Fixpoint best_loop (fuel : nat) (nrWhenCombinedBest : Z) (c : comb) : outcome comb :=
  match fuel with
  | O => Timeout
  | S fuel =>
      match count_phase (c_len c) 0 c with
      | None => Panic
      | Some (c, true) => Done c
      | Some (c, false) =>
          let '(intermediate, c) := select_phase c in
          let nr := nrWhenCombinedBest + 1 in
          if blockSize <=? (nr + c_nonAgg c) * TRANSACTION_HASH_SIZE then Done c
          else
            let c := mkComb (c_arr c) (c_len c) (c_senders c) (c_receivers c) (c_nonAgg c)
              (c_append c ++ intermediate) in
            if Nat.ltb 0 (c_len c) then best_loop fuel nr c else Done c
      end
  end.

(** The counters are empty at the start; each round removes a transaction. *)
Definition checkBestCombination (openTxs : list Transaction) : outcome comb :=
  best_loop (S (length openTxs)) 0 (mkComb openTxs (length openTxs) ∅ ∅ 0 []).
End combination.

(** ** Requests for missing transactions *)

Definition specialTxRequest_Encoding (senderHash : hash) (reqType txcnt : Z) : bytes :=
  let e := zeros 42 in
  let e := splice 0 [mkb reqType] e in
  let e := splice 1 (be_bytes 4 txcnt ++ zeros 4) e in
  splice 10 senderHash e.

Definition Transaction_Sender (tx : Transaction) : hash :=
  match tx with
  | TAcc tx => atx_Issuer tx
  | TFunds tx => ftx_From tx
  | TUpdate tx => utx_Issuer tx
  | TConfig _ | TStake _ | TAgg _ => zero_hash
  end.

(** The answer to a request: an error of the request, the transaction that
    arrives on the channel, or none in time, with what is in the stash. *)
Inductive reply := RequestFailed | Received (trx : FundsTx) | TimedOut (stash : list FundsTx).

(** The network, and the flag [receivedBlockInTheMeantime]: as read before the
    request for a counter, and after the requests for a sender. *)
Record environment := mkEnvironment {
  net : hash -> Z -> reply;
  received : hash -> option Z -> bool
}.

(** Highest counter seen and missing ones, per sender. *)
Abbreviation Missing := (gmap hash (Z * list Z)).

Definition missing_between (lo hi : Z) : list Z :=
  flat_map (fun i => if i =? 1 then [0; i] else [i]) (seqZ lo (hi - lo)).

Definition note_missing (state : gmap hash Account) (missing : Missing) (tx : Transaction) : Missing :=
  match tx with
  | TFunds trx =>
      let entry :=
        match missing !! ftx_From trx with
        | Some e => Some e
        | None =>
            match state !! ftx_From trx with
            | Some acc => Some (if acc_TxCnt acc =? 0 then 0 else acc_TxCnt acc - 1, [])
            | None => None
            end
        end in
      match entry with
      | Some (txcnt, l) =>
          <[ftx_From trx := (Z.max txcnt (ftx_TxCnt trx),
                             l ++ missing_between (u32 (txcnt + 1)) (ftx_TxCnt trx))]> missing
      | None => missing
      end
  | _ => missing
  end.

Section prepare.
Context {DG : Digests} {DL : DigestLaws} {SG : Signatures} {NK : NodeKeys} {GR : GoRuntime}.
Context {GS : GoSort} {MO : MapOrder} (map_fuel : nat) (env : environment).

(** Open, invalid, then closed transactions; the first one that exists
    decides about a hash. *)
Fixpoint find_local (sender : hash) (hs : list hash) : M Miner (option Transaction) :=
  match hs with
  | [] => mret None
  | txhash :: hs =>
      open ← ReadOpenTx txhash;
      invalid ← ReadINVALIDOpenTx txhash;
      closed ← ReadClosedTx txhash;
      let tx := match open with Some t => Some t | None =>
                match invalid with Some t => Some t | None => closed end end in
      match tx with
      | Some t => if bool_decide (Transaction_Sender t = sender) then mret (Some t) else find_local sender hs
      | None => find_local sender hs
      end
  end.

(** A transaction with the wrong sender and the wrong counter is refused; one
    of the two is enough. *)
Definition fetch_missing (sender : hash) (txcnt : Z) : M Miner (option Transaction) :=
  match net env sender txcnt with
  | RequestFailed => mret None
  | Received trx =>
      if negb (ftx_TxCnt trx =? txcnt) && negb (bool_decide (ftx_From trx = sender)) then mret None
      else WriteOpenTx (TFunds trx);; mret (Some (TFunds trx))
  | TimedOut stash =>
      match find (fun trx => bool_decide (ftx_From trx = sender) && (ftx_TxCnt trx =? txcnt)) stash with
      | Some trx => WriteOpenTx (TFunds trx);; mret (Some (TFunds trx))
      | None => mret None
      end
  end.

Fixpoint fetch_sender (sender : hash) (missing : list Z) : M Miner (list Transaction) :=
  match missing with
  | [] => mret []
  | txcnt :: missing =>
      if received env sender (Some txcnt) then mret []
      else
        hs ← ReadTxcntToTx txcnt;
        local ← find_local sender hs;
        found ← match local with
                | Some t => mret (Some t)
                | None => fetch_missing sender txcnt
                end;
        rest ← fetch_sender sender missing;
        mret (match found with Some t => t :: rest | None => rest end)
  end.

Fixpoint fetch_all (senders : list (hash * (Z * list Z))) : M Miner (list Transaction) :=
  match senders with
  | [] => mret []
  | (sender, (_, missing)) :: senders =>
      active ← gets (fun m => activeParameters (chain m));
      l ← fetch_sender sender (take (Z.to_nat (BlockInterval active)) missing);
      if received env sender None then mret l
      else
        rest ← fetch_all senders;
        mret (l ++ rest)
  end.

(** A transaction that cannot be added is removed from the pool. *)
Fixpoint add_selected (b : Block) (txs : list Transaction) : M Miner Block :=
  match txs with
  | [] => mret b
  | tx :: txs =>
      r ← addTx map_fuel b tx;
      let '(b, err) := r in
      (match err with Some _ => DeleteOpenTx tx | None => mret tt end);;
      add_selected b txs
  end.

(** The pools, in the order in which a map is iterated over (storage/read.go). *)
Definition ReadAllOpenTxs (m : Miner) : list Transaction := snd <$> range_map (txMemPool (pool m)).
Definition ReadAllINVALIDOpenTx (m : Miner) : list Transaction := snd <$> range_map (txINVALIDMemPool (pool m)).

(** The splitting ends within two rounds more than there are transactions. *)
Definition prepareBlock (b : Block) : M Miner Block :=
  opentxs ← gets (fun m => ReadAllOpenTxs m ++ ReadAllINVALIDOpenTx m);
  opentxs ← of_option (sort_Sort openTxs_Less opentxs);
  active ← gets (fun m => activeParameters (chain m));
  let blockSize := BlockSize active - (FixedSpace active + BloomFilterSize active) in
  DeleteAllFundsTxBeforeAggregation;;
  c ← in_miner (checkBestCombination blockSize opentxs);
  let opentxToAdd := c_append c in
  state ← gets (fun m => State (ledger m));
  let missing := fold_left (note_missing state) opentxToAdd ∅ in
  fetched ← fetch_all (range_map missing);
  opentxToAdd ← of_option (sort_Sort openTxs_Less (opentxToAdd ++ fetched));
  b ← add_selected b opentxToAdd;
  queue ← ReadFundsTxBeforeAggregation;
  match queue with
  | [] => mret b
  | _ => splitSortedAggregatableTransactions (S (S (length queue))) (c_senders c) (c_receivers c) b
  end.
End prepare.
