(* ===== verification/AddTxLemmas.v ===== *)
(** * The preview of a block is exact

    [addFundsTx] checks a transaction against copies of the accounts; the
    block is later applied to the accounts themselves. The balances of the
    copies are those of the accounts less the fees, so that what the first
    accepts the second accepts. *)

From S2P Require Import Prelude GoSlice GoLib Format Chameleon Protocol BlockFields Node Storage Params.
From S2P Require Import StateChange Ledger StateLemmas BlockRuns Verify AddTx Aggregate BlockPrep.

(** Accounts are kept under the hash of their address. *)
Definition keyed {DG : Digests} (s : gmap hash Account) : Prop :=
  forall h a, s !! h = Some a -> SerializeHashContent (VBytes (acc_Address a)) = h.

(** The accounts as the block under preparation sees them. *)
Definition view (b : Block) (s : gmap hash Account) : gmap hash Account := blk_StateCopy b ∪ s.

(** ** Totals *)

Lemma total_nonneg s : ledger_ok s -> 0 <= total s.
Proof.
  unfold total, ledger_ok. induction s as [|h a s Hh IH] using map_ind; intros Hok.
  - by rewrite map_fold_empty.
  - rewrite (map_fold_insert_L (fun (_ : hash) a t => acc_Balance a + t)) by (done || lia).
    assert (0 <= acc_Balance a) by (apply (Hok h a); by rewrite lookup_insert_eq).
    enough (0 <= map_fold (fun (_ : hash) a t => acc_Balance a + t) 0 s) by lia.
    apply IH. intros k a' Hk. apply (Hok k). rewrite lookup_insert_ne; [done|congruence].
Qed.

Lemma balance_le_total s h a : ledger_ok s -> s !! h = Some a -> acc_Balance a <= total s.
Proof.
  intros Hok Ha. rewrite (total_delete h a s Ha).
  enough (0 <= total (delete h s)) by lia. apply total_nonneg.
  intros k a' [_ Hk]%lookup_delete_Some. by eapply Hok.
Qed.

(** ** Accounts less what they still have to pay *)

Definition owes (d : Z) (a a' : Account) : Prop :=
  acc_TxCnt a = acc_TxCnt a' /\ acc_Balance a = acc_Balance a' - d /\ 0 <= d <= acc_Balance a'.

Definition less_fees (v s : gmap hash Account) (F : hash -> Z) : Prop :=
  forall h, option_Forall2 (owes (F h)) (v !! h) (s !! h).

Lemma less_fees_refl s : ledger_ok s -> less_fees s s (fun _ => 0).
Proof.
  intros Hok h. destruct (s !! h) as [a|] eqn:E; constructor.
  destruct (Hok h a E) as [? _]. unfold_ranges. unfold owes. lia.
Qed.

Lemma less_fees_alter f g h d v s F : less_fees v s F ->
  (forall a a', v !! h = Some a -> s !! h = Some a' -> owes (F h) a a' -> owes (F h + d) (f a) (g a')) ->
  less_fees (alter f h v) (alter g h s) (fun k => F k + if decide (k = h) then d else 0).
Proof.
  intros Hr Hfg k. specialize (Hr k). case_decide as Hk.
  - subst k. rewrite !lookup_alter_eq.
    inversion Hr as [a a' Ha Ev Es|Ev Es]; simpl; constructor. by apply Hfg.
  - rewrite !lookup_alter_ne by done. by rewrite Z.add_0_r.
Qed.

Lemma less_fees_lookup v s F h a : less_fees v s F -> v !! h = Some a ->
  exists a', s !! h = Some a' /\ owes (F h) a a'.
Proof. intros Hr Ha. specialize (Hr h). rewrite Ha in Hr. inversion Hr. eauto. Qed.

(** ** The steps of a funds transaction *)

Definition fees_of (q : list FundsTx) (h : hash) : Z :=
  sum_of ftx_Fee (filter (fun tx => ftx_From tx = h) q).

Lemma fees_of_snoc q tx h :
  fees_of (q ++ [tx]) h = fees_of q h + if decide (h = ftx_From tx) then ftx_Fee tx else 0.
Proof.
  unfold fees_of. rewrite filter_app, filter_cons, filter_nil.
  case_decide; case_decide; try congruence.
  - induction (filter _ q) as [|x l IH]; simpl; [lia|]. simpl in IH. lia.
  - rewrite app_nil_r. lia.
Qed.

(** Room for every amount that is there, with no wrap-around. *)
Definition roomy (s : gmap hash Account) : Prop := ledger_ok s /\ 2 * total s <= MAX_MONEY.

Section step.
Context (tx : FundsTx) (s v : gmap hash Account) (F : hash -> Z) (snd rcv : Account).
Context (Hs : roomy s) (Hv : less_fees v s F) (Htx : amounts_ok tx).
Context (Hsnd : v !! ftx_From tx = Some snd) (Hrcv : v !! ftx_To tx = Some rcv).
Context (Hfunds : ftx_Amount tx + ftx_Fee tx <= acc_Balance snd).

Let s' := funds_applied false tx s.
Let v' := alter (credit (ftx_Amount tx)) (ftx_To tx)
  (alter (fun a => debit (u64 (ftx_Amount tx + ftx_Fee tx)) (inc_TxCnt a)) (ftx_From tx) v).

Lemma sender_in_state : exists snd', s !! ftx_From tx = Some snd' /\ owes (F (ftx_From tx)) snd snd'.
Proof using Hv Hsnd. by eapply less_fees_lookup. Qed.

Lemma receiver_in_state : exists rcv', s !! ftx_To tx = Some rcv' /\ owes (F (ftx_To tx)) rcv rcv'.
Proof using Hv Hrcv. by eapply less_fees_lookup. Qed.

Lemma step_accepted snd' rcv' : s !! ftx_From tx = Some snd' -> s !! ftx_To tx = Some rcv' ->
  acc_TxCnt snd = ftx_TxCnt tx -> acc_IsStaking snd' = false ->
  funds_accepted false tx snd' rcv'.
Proof using Hs Hv Htx Hsnd Hfunds.
  intros Es Er Hcnt Hst. destruct Hs as [Hok Hroom], Htx as (? & ? & ?).
  destruct sender_in_state as (x & Ex & O1 & O2 & O3). rewrite Es in Ex. injection Ex as <-.
  pose proof (balance_le_total _ _ _ Hok Es). pose proof (balance_le_total _ _ _ Hok Er).
  destruct (Hok _ _ Er) as [? _]. unfold_ranges. unfold MAX_MONEY in *.
  split; intros; [lia| |congruence|]; unfold MAX_MONEY; rewrite wrap_small by lia; lia.
Qed.

Lemma debited_total : total (alter (debit (ftx_Amount tx)) (ftx_From tx) (alter inc_TxCnt (ftx_From tx) s))
  = total s - ftx_Amount tx.
Proof using Hs Hv Htx Hsnd Hfunds.
  destruct Hs as [Hok Hroom], Htx as (? & ? & ?).
  destruct sender_in_state as (x & Ex & O1 & O2 & O3). destruct (Hok _ _ Ex) as [? _]. unfold_ranges.
  rewrite (total_alter _ _ (inc_TxCnt x)) by (by rewrite lookup_alter_eq, Ex).
  rewrite total_inc. simpl. rewrite wrap_small by lia. lia.
Qed.

Lemma mid_ok : ledger_ok (alter (debit (ftx_Amount tx)) (ftx_From tx) (alter inc_TxCnt (ftx_From tx) s)).
Proof using Hs. destruct Hs. auto with ledger. Qed.

Lemma step_roomy : roomy s'.
Proof using Hs Hv Htx Hsnd Hfunds Hrcv.
  unfold s', funds_applied, root_credit. pose proof mid_ok as Hmid. pose proof debited_total as Htot.
  set (s1 := alter (debit _) _ _) in *. split; [auto with ledger|].
  destruct receiver_in_state as (r & Er & _).
  destruct (is_Some_alter (debit (ftx_Amount tx)) (ftx_From tx) (ftx_To tx) (alter inc_TxCnt (ftx_From tx) s))
    as [x Ex]; [apply is_Some_alter; by eexists|]. fold s1 in Ex.
  pose proof (balance_le_total _ _ _ Hmid Ex). destruct (Hmid _ _ Ex) as [? _].
  destruct Hs as [Hok Hroom], Htx as (? & ? & ?).
  rewrite (total_alter _ _ x) by done. unfold_ranges. unfold MAX_MONEY in *.
  simpl. rewrite wrap_small by lia. lia.
Qed.

Lemma step_less_fees : less_fees v' s' (fun h => F h + if decide (h = ftx_From tx) then ftx_Fee tx else 0).
Proof using Hs Hv Htx Hsnd Hfunds.
  unfold v', s', funds_applied, root_credit. pose proof mid_ok as Hmid. pose proof debited_total as Htot.
  destruct Hs as [Hok Hroom], Htx as (? & ? & ?).
  assert (Hmidrel : less_fees (alter (fun a => debit (u64 (ftx_Amount tx + ftx_Fee tx)) (inc_TxCnt a)) (ftx_From tx) v)
     (alter (debit (ftx_Amount tx)) (ftx_From tx) (alter inc_TxCnt (ftx_From tx) s))
     (fun h => F h + if decide (h = ftx_From tx) then ftx_Fee tx else 0)).
  { rewrite alter_alter_eq. apply less_fees_alter; [done|].
    intros a a' Ha Ha' (O1 & O2 & O3). rewrite Hsnd in Ha. injection Ha as <-.
    destruct (Hok _ _ Ha') as [? _]. pose proof (balance_le_total _ _ _ Hok Ha').
    unfold_ranges. unfold owes, MAX_MONEY in *. simpl. rewrite O1.
    rewrite (wrap_small 64 (ftx_Amount tx + ftx_Fee tx)) by lia.
    split; [done|]. rewrite !(wrap_small 64) by lia. lia. }
  intros h. pose proof (less_fees_alter (credit (ftx_Amount tx)) (credit (ftx_Amount tx)) (ftx_To tx) 0 _ _ _ Hmidrel) as Hend.
  simpl in Hend. replace (F h + (if decide (h = ftx_From tx) then ftx_Fee tx else 0)) with
    (F h + (if decide (h = ftx_From tx) then ftx_Fee tx else 0) + (if decide (h = ftx_To tx) then 0 else 0))
    by (destruct (decide (h = ftx_To tx)); lia). apply Hend.
  intros a a' Ha Ha' (O1 & O2 & O3). destruct (Hmid _ _ Ha') as [? _].
  pose proof (balance_le_total _ _ _ Hmid Ha'). pose proof (total_nonneg _ Hok).
  unfold_ranges. unfold owes, MAX_MONEY in *. simpl. rewrite O1, Z.add_0_r.
  split; [done|]. rewrite !(wrap_small 64) by lia. lia.
Qed.
End step.

(** ** What a handler leaves alone *)

Definition queue (m : Miner) : list FundsTx := FundsTxBeforeAggregation (pool m).

(** Nothing but the two pools of transactions changed. *)
Definition frame (m m' : Miner) : Prop := pool_only m m' /\ queue m' = queue m.

#[export] Instance frame_PreOrder : PreOrder frame.
Proof.
  split; [by intros m|]. intros m1 m2 m3 [? ?] [? ?]. split; [by etrans|congruence].
Qed.

Section handlers.
Context {DG : Digests} {DL : DigestLaws} {SG : Signatures} {NK : NodeKeys} {GR : GoRuntime}.
Context (map_fuel : nat).

Lemma frame_on_pool f : (forall p, FundsTxBeforeAggregation (f p) = FundsTxBeforeAggregation p) ->
  respects frame (on_pool f).
Proof. intros Hf m u m' [= _ <-]. split; [done|]. apply Hf. Qed.

Lemma frame_tx_hash tx : respects frame (tx_hash tx).
Proof. intros m h m' [-> _]%tx_hash_signed. reflexivity. Qed.

Lemma frame_read {A} (f : Miner -> A) : respects frame (gets f).
Proof. apply respects_gets, _. Qed.

Lemma frame_WriteINVALIDOpenTx tx : respects frame (WriteINVALIDOpenTx tx).
Proof. apply respects_bind; [apply _|apply frame_tx_hash|]. intros h. by apply frame_on_pool. Qed.

Lemma frame_DeleteOpenTx tx : respects frame (DeleteOpenTx tx).
Proof. apply respects_bind; [apply _|apply frame_tx_hash|]. intros h. by apply frame_on_pool. Qed.

Lemma frame_DeleteINVALIDOpenTx tx : respects frame (DeleteINVALIDOpenTx tx).
Proof. apply respects_bind; [apply _|apply frame_tx_hash|]. intros h. by apply frame_on_pool. Qed.

Lemma refuse_inv b tx msg m b' e m' : refuse b tx msg m = Done ((b', e), m') ->
  b' = b /\ e = Some msg /\ frame m m'.
Proof.
  unfold refuse. intros (u & m1 & H1 & H2)%bind_inv. injection H2 as <- <- <-.
  split_and!; [done..|]. by eapply frame_WriteINVALIDOpenTx.
Qed.

Lemma count_mismatch_inv b tx acc m b' e m' : count_mismatch b tx acc m = Done ((b', e), m') ->
  b' = b /\ frame m m'.
Proof.
  unfold count_mismatch. destruct (_ <? _).
  - intros (h & m1 & H1%frame_tx_hash & H2)%bind_inv. apply bind_inv in H2 as (c & m2 & [= <- <-] & H2).
    destruct (closed_tx _ _); [|by injection H2 as <- <- <-].
    apply bind_inv in H2 as (u1 & m2 & E1%frame_DeleteOpenTx & H2).
    apply bind_inv in H2 as (u2 & m3 & E2%frame_DeleteINVALIDOpenTx & H2). injection H2 as <- <- <-.
    split; [done|]. by do 2 (etrans; [done|]).
  - intros (u & m1 & H1%frame_WriteINVALIDOpenTx & (-> & _ & H2)%refuse_inv)%bind_inv.
    split; [done|]. by etrans.
Qed.

(** ** The local copies *)

Lemma view_alter f h b s : is_Some (blk_StateCopy b !! h) ->
  view (upd_blk_StateCopy (alter f h) b) s = alter f h (view b s).
Proof.
  intros [a Ha]. unfold view. simpl. apply map_eq. intros k.
  destruct (decide (k = h)) as [->|Hne].
  - rewrite lookup_alter_eq, !lookup_union, lookup_alter_eq, Ha. simpl. by rewrite !union_Some_l.
  - by rewrite lookup_alter_ne, !lookup_union, lookup_alter_ne by done.
Qed.

Lemma copy_in_view b s h a : blk_StateCopy b !! h = Some a -> view b s !! h = Some a.
Proof. intros H. unfold view. by apply lookup_union_Some_l. Qed.

Lemma load_copy_inv b h m b' ok m' : keyed (St m) -> load_copy b h m = Done ((b', ok), m') ->
  m' = m /\ view b' (St m) = view b (St m) /\ (ok = true -> is_Some (blk_StateCopy b' !! h)) /\
  (forall k, is_Some (blk_StateCopy b !! k) -> is_Some (blk_StateCopy b' !! k)).
Proof.
  intros Hk H. unfold load_copy in H. destruct (blk_StateCopy b !! h) as [a|] eqn:Ea.
  { injection H as <- <- <-. split_and!; [done..| |done]. intros _. by eexists. }
  apply bind_inv in H as (acc & m1 & H1 & H2). rewrite get_account_run in H1. injection H1 as <- <-.
  destruct (St m !! h) as [a|] eqn:Es; [|by injection H2 as <- <- <-].
  rewrite bool_decide_true in H2 by (by apply Hk in Es). injection H2 as <- <- <-.
  split; [done|]. split_and!.
  - unfold view. simpl. apply map_eq. intros k. rewrite !lookup_union.
    destruct (decide (k = h)) as [->|]; [by rewrite lookup_insert_eq, Ea, Es|by rewrite lookup_insert_ne].
  - intros _. simpl. rewrite lookup_insert_eq. by eexists.
  - intros k Hin. simpl. destruct (decide (k = h)) as [->|];
      [rewrite lookup_insert_eq; by eexists|by rewrite lookup_insert_ne].
Qed.

(** A funds transaction without data is queued, and its amounts move between
    the copies; or nothing that counts changes. *)
Inductive added (tx : FundsTx) (b b' : Block) (m m' : Miner) : Prop :=
| not_added : frame m m' -> view b' (St m) = view b (St m) -> added tx b b' m m'
| queued snd rcv :
    pool_only m m' -> queue m' = queue m ++ [tx] ->
    view b (St m) !! ftx_From tx = Some snd -> view b (St m) !! ftx_To tx = Some rcv ->
    u64 (ftx_Amount tx + ftx_Fee tx) <= acc_Balance snd -> acc_TxCnt snd = ftx_TxCnt tx ->
    view b' (St m) = alter (credit (ftx_Amount tx)) (ftx_To tx)
      (alter (fun a => debit (u64 (ftx_Amount tx + ftx_Fee tx)) (inc_TxCnt a)) (ftx_From tx)
        (view b (St m))) ->
    added tx b b' m m'.

Lemma addFundsTx_inv b tx m b' e m' :
  keyed (St m) -> is_root (ftx_From tx) m = false -> ftx_Data tx = None ->
  addFundsTx map_fuel b tx m = Done ((b', e), m') -> added tx b b' m m'.
Proof.
  intros Hk Hroot Hdata H. unfold addFundsTx in H.
  apply bind_inv in H as ([b1 ok1] & m1 & L1 & H).
  apply load_copy_inv in L1 as (-> & V1 & S1 & _); [|done].
  destruct ok1; [|apply refuse_inv in H as (-> & _ & ?); by apply not_added].
  destruct (S1 eq_refl) as [f Hf]. simpl in H.
  apply bind_inv in H as ([b2 ok2] & m2 & L2 & H).
  apply load_copy_inv in L2 as (-> & V2 & S2 & K2); [|done].
  destruct ok2; [|apply refuse_inv in H as (-> & _ & ?); apply not_added; congruence].
  destruct (S2 eq_refl) as [t Ht], (K2 _ (ex_intro _ f Hf)) as [f2 Hf2]. simpl in H.
  assert (V : view b2 (St m) = view b (St m)) by congruence.
  apply bind_inv in H as (root & m3 & [= <- <-] & H).
  change (bool_decide _) with (is_root (ftx_From tx) m) in H. rewrite Hroot in H.
  unfold copy_of in H. rewrite Hf2, Ht in H. simpl in H.
  apply bind_inv in H as (poor & m3 & [= <- <-] & H).
  destruct (Z.ltb_spec (acc_Balance f2) (u64 (ftx_Amount tx + ftx_Fee tx))) as [|Hfunds];
    [apply refuse_inv in H as (-> & _ & ?); by apply not_added|].
  apply bind_inv in H as (af & m3 & [= <- <-] & H).
  destruct (Z.eqb_spec (acc_TxCnt f2) (ftx_TxCnt tx)) as [Hcnt|];
    [|apply count_mismatch_inv in H as (-> & ?); by apply not_added].
  apply bind_inv in H as (at' & m3 & [= <- <-] & H). simpl in H.
  destruct (_ <? _); [apply refuse_inv in H as (-> & _ & ?); by apply not_added|].
  rewrite Hdata in H. apply bind_inv in H as (u & m3 & [= <- <-] & H). injection H as <- <- <-.
  eapply queued; [done|done| | |done|done|].
  - rewrite <-V. by apply copy_in_view.
  - rewrite <-V. by apply copy_in_view.
  - unfold add_funds. rewrite !view_alter, V; [done|by eexists|].
    simpl. destruct (decide (ftx_To tx = ftx_From tx)) as [->|];
      [rewrite lookup_alter_eq, Hf2; by eexists|rewrite lookup_alter_ne, Ht by done; by eexists].
Qed.

(** A stake changes no balance and no counter. *)
Lemma addStakeTx_view b tx m b' e m' F s :
  keyed (St m) -> less_fees (view b (St m)) s F ->
  addStakeTx b tx m = Done ((b', e), m') -> frame m m' /\ less_fees (view b' (St m)) s F.
Proof.
  intros Hk Hr H. unfold addStakeTx in H.
  apply bind_inv in H as ([b1 ok1] & m1 & L1 & H).
  apply load_copy_inv in L1 as (-> & V1 & S1 & _); [|done]. rewrite <-V1 in Hr.
  destruct ok1; [|by injection H as <- _ <-]. destruct (S1 eq_refl) as [f Hf]. simpl in H.
  apply bind_inv in H as (root & m2 & [= <- <-] & H). apply bind_inv in H as (act & m2 & [= <- <-] & H).
  unfold copy_of in H. rewrite Hf in H.
  apply bind_inv in H as (poor & m2 & E & H).
  assert (m2 = m) as -> by (destruct (bool_decide _); by injection E).
  destruct poor; [by injection H as <- _ <-|].
  apply bind_inv in H as (a & m2 & [= <- <-] & H).
  destruct (Bool.eqb _ _); [by injection H as <- _ <-|].
  apply bind_inv in H as (h & m2 & E1%frame_tx_hash & H). injection H as <- _ <-. split; [done|].
  change (view (upd_blk_StakeTxData _ ?x) ?s) with (view x s).
  rewrite view_alter by (by eexists). intros k. specialize (Hr k).
  destruct (decide (k = stx_Account tx)) as [->|]; [|by rewrite lookup_alter_ne].
  rewrite lookup_alter_eq. inversion Hr; simpl; by constructor.
Qed.

(** ** The preview and the application side by side *)

Definition plain_tx (m : Miner) (tx : Transaction) : Prop :=
  match tx with
  | TFunds tx =>
      amounts_ok tx /\ ftx_Data tx = None /\ is_root (ftx_From tx) m = false /\
      (forall a, St m !! ftx_From tx = Some a -> acc_IsStaking a = false) /\ ~ already_closed tx m
  | TUpdate _ => False
  | _ => True
  end.

(** The queue applied to the accounts of [m] gives [s], of which the copies of
    the block are what is left after the fees. *)
Record previewed (m : Miner) (b : Block) (q : list FundsTx) (s : gmap hash Account) : Prop := {
  pv_run : fundsStateChange q false m = Done (None, with_St s m);
  pv_roomy : roomy s;
  pv_fees : less_fees (view b (St m)) s (fees_of q);
  pv_staking : forall h a, s !! h = Some a ->
    exists a0, St m !! h = Some a0 /\ acc_IsStaking a = acc_IsStaking a0;
  pv_auth : Forall (fun tx => authorised m (TFunds tx)) q
}.

Lemma previewed_nil m b : roomy (St m) -> blk_StateCopy b = ∅ -> previewed m b [] (St m).
Proof.
  intros Hr Hb. destruct Hr as [Hok ?]. split; try done.
  - by rewrite with_St_id.
  - unfold view. rewrite Hb, (left_id_L ∅ (∪)). intros h. apply (less_fees_refl _ Hok h).
  - eauto.
Qed.

Lemma staking_alter (f : Account -> Account) (k : hash) (s : gmap hash Account) (h : hash) a : (forall x, acc_IsStaking (f x) = acc_IsStaking x) ->
  alter f k s !! h = Some a -> exists a', s !! h = Some a' /\ acc_IsStaking a = acc_IsStaking a'.
Proof.
  intros Hf Ha. destruct (decide (h = k)) as [->|]; [|rewrite lookup_alter_ne in Ha by done; eauto].
  rewrite lookup_alter_eq in Ha. destruct (s !! k); simplify_eq/=. eauto.
Qed.

Lemma staking_funds_applied tx s h a : funds_applied false tx s !! h = Some a ->
  exists a', s !! h = Some a' /\ acc_IsStaking a = acc_IsStaking a'.
Proof.
  unfold funds_applied, root_credit. intros Ha.
  apply staking_alter in Ha as (a1 & Ha & ->); [|done].
  apply staking_alter in Ha as (a2 & Ha & ->); [|done].
  by apply staking_alter in Ha as (a3 & Ha & ->); [eauto|].
Qed.

(** One more funds transaction. *)
Lemma previewed_snoc m b q s tx b' snd rcv h :
  previewed m b q s -> plain_tx m (TFunds tx) -> authorised m (TFunds tx) ->
  FundsTx_Hash (ChameleonHashParametersMap (ledger m)) tx = Some h ->
  view b (St m) !! ftx_From tx = Some snd -> view b (St m) !! ftx_To tx = Some rcv ->
  u64 (ftx_Amount tx + ftx_Fee tx) <= acc_Balance snd -> acc_TxCnt snd = ftx_TxCnt tx ->
  view b' (St m) = alter (credit (ftx_Amount tx)) (ftx_To tx)
      (alter (fun a => debit (u64 (ftx_Amount tx + ftx_Fee tx)) (inc_TxCnt a)) (ftx_From tx)
        (view b (St m))) ->
  previewed m b' (q ++ [tx]) (funds_applied false tx s).
Proof.
  intros [Hrun Hroom Hfees Hstk Hauth] (Ham & _ & Hroot & Hst & Hnc) Hat Hh Hsnd Hrcv Hf Hcnt Hv.
  rewrite wrap_small in Hf by (unfold amounts_ok in Ham; lia).
  destruct (less_fees_lookup _ _ _ _ _ Hfees Hsnd) as (snd' & Es & _).
  destruct (less_fees_lookup _ _ _ _ _ Hfees Hrcv) as (rcv' & Er & _).
  assert (acc_IsStaking snd' = false) as Hns.
  { destruct (Hstk _ _ Es) as (a0 & Ha0 & ->). eauto. }
  assert (Hacc : funds_accepted false tx snd' rcv').
  { by eapply (step_accepted tx s (view b (St m)) (fees_of q)). }
  assert (Hclosed : closed_tx (db m) h = None).
  { destruct (closed_tx (db m) h) eqn:E; [|done]. destruct Hnc. exists h. split; [done|by eexists]. }
  split.
  - unfold fundsStateChange in *. rewrite for_each_err_app, Hrun. simpl.
    pose proof (fundsTx_change_accepts false tx (with_St s m) h snd' rcv' Hh Hclosed Hroot Es Er Hacc) as E.
    by rewrite (bind_Done _ _ _ _ _ E).
  - by eapply (step_roomy tx s (view b (St m)) (fees_of q)).
  - rewrite Hv. intros k. rewrite fees_of_snoc.
    by eapply (step_less_fees tx s (view b (St m)) (fees_of q)).
  - intros k a (a' & Ha' & ->)%staking_funds_applied. by apply Hstk.
  - apply Forall_app. split; [done|]. by constructor.
Qed.

Lemma authorised_funds_ledger m m' tx : ledger m' = ledger m ->
  authorised m' (TFunds tx) -> authorised m (TFunds tx).
Proof.
  intros El H. inversion H as [t snd rcv Ha Hs Hr Hsig Hm2| | | | |]; subst.
  unfold signed_in in *. rewrite El in *. by eapply auth_funds.
Qed.

Lemma same_view_fees b' b m q s :
  view b' (St m) = view b (St m) -> previewed m b q s -> previewed m b' q s.
Proof. intros E [? ? ? ? ?]. split; try done. by rewrite E. Qed.

Lemma addTx_previewed m b q s tx m1 b' e m2 :
  keyed (St m) -> pool_only m m1 -> queue m1 = q -> plain_tx m tx -> previewed m b q s ->
  addTx map_fuel b tx m1 = Done ((b', e), m2) ->
  pool_only m m2 /\ exists s', previewed m b' (queue m2) s'.
Proof.
  intros Hk Hp <- Hpl Hpv H. destruct Hp as (El & Ed & Ec).
  assert (ES : St m1 = St m) by (unfold St; by rewrite El).
  assert (Hstep : forall b1 m3, frame m1 m3 -> view b1 (St m) = view b (St m) ->
    pool_only m m3 /\ exists s', previewed m b1 (queue m3) s').
  { intros b1 m3 [(F1 & F2 & F3) ->] V. split; [split_and!; congruence|].
    exists s. by eapply same_view_fees. }
  unfold addTx in H. apply bind_inv in H as (act & m3 & [= <- <-] & H).
  destruct tx as [t|t|t|t|t|t]; [| | | |by injection H as <- _ <-; apply Hstep|done].
  all: destruct (_ <? _); [by injection H as <- _ <-; apply Hstep|].
  all: apply bind_inv in H as ([tx' ok] & m3 & Hver & H).
  all: pose proof Hver as [-> Hauth]%verify_inv;
    [|intros t' [= <-]; apply (proj1 (proj1 Hpl))|| discriminate].
  all: destruct ok; [|by injection H as <- _ <-; apply Hstep].
  all: simpl in Hver; apply bind_inv in Hver as (r & m4 & _ & E4); injection E4 as <- _ _; cbn [negb] in H.
  - unfold addAccTx in H. apply bind_inv in H as (a & m5 & [= <- <-] & H).
    destruct (_ && _); [by injection H as <- _ <-; apply Hstep|].
    apply bind_inv in H as (h & m5 & E5%frame_tx_hash & H). injection H as <- _ <-. by apply Hstep.
  - destruct Hpl as (Ham & Hdata & Hroot & Hrest).
    apply addFundsTx_inv in H; [|by rewrite ES|by unfold is_root in *; rewrite El|done].
    destruct H as [Hfr Hv|snd rcv (F1 & F2 & F3) Hq Hs Hr Hf Hc Hv]; rewrite ES in Hv; [by apply Hstep|].
    rewrite ES in Hs, Hr.
    assert (Hat : authorised m (TFunds t)) by (eapply authorised_funds_ledger; [exact El|by apply Hauth]).
    inversion Hat as [? ? ? _ _ _ (h & Hh & _) _| | | | |]; subst.
    split; [split_and!; congruence|]. exists (funds_applied false t s). rewrite Hq.
    by eapply previewed_snoc.
  - unfold addConfigTx in H.
    apply bind_inv in H as (h & m5 & E5%frame_tx_hash & H). injection H as <- _ <-. by apply Hstep.
  - destruct Hpv as [P1 P2 P3 P4 P5]. rewrite <-ES in P3.
    eapply addStakeTx_view in H as [[(F1 & F2 & F3) Hq] Hr]; [|by rewrite ES|exact P3].
    split; [split_and!; congruence|]. exists s. rewrite Hq, ES in *. by split.
Qed.

Lemma add_selected_previewed m txs : keyed (St m) -> Forall (plain_tx m) txs -> forall b q s m1 b' m2,
  pool_only m m1 -> queue m1 = q -> previewed m b q s ->
  add_selected map_fuel b txs m1 = Done (b', m2) ->
  pool_only m m2 /\ exists s', previewed m b' (queue m2) s'.
Proof.
  intros Hk Hall. induction Hall as [|tx txs Htx _ IH]; intros b q s m1 b' m2 Hp Hq Hpv H; simpl in H.
  { injection H as <- <-. split; [done|]. exists s. by rewrite Hq. }
  apply bind_inv in H as ([b1 e] & m3 & H1 & H).
  eapply addTx_previewed in H1 as [Hp3 [s3 Hpv3]]; [|done..].
  apply bind_inv in H as (u & m4 & H2 & H).
  assert (Hfr : frame m3 m4).
  { destruct e; [by eapply frame_DeleteOpenTx|by injection H2 as _ <-]. }
  destruct Hfr as [Hp4 Hq4]. eapply IH; [by etrans|reflexivity| |exact H]. by rewrite Hq4.
Qed.
End handlers.
