(* ===== verification/BlockPrepLemmas.v ===== *)
(** * Choosing transactions: termination, and what goes wrong

    Every round of [checkBestCombination] shortens the slice, so that the loop
    ends. Removing elements of the slice while ranging over it skips some and
    repeats others, up to a slice expression out of range. *)

From S2P Require Import Prelude GoSlice GoLib Format Chameleon Protocol BlockFields Node Storage Params.
From S2P Require Import StateChange Validation Verify AddTx Aggregate AggregateLemmas BlockPrep.

Lemma funds_of_cons tx txs : funds_of (tx :: txs) =
  match as_funds tx with Some t => t :: funds_of txs | None => funds_of txs end.
Proof. done. Qed.

Lemma funds_of_app l k : funds_of (l ++ k) = funds_of l ++ funds_of k.
Proof. apply omap_app. Qed.

Lemma length_funds_of l : (length (funds_of l) <= length l)%nat.
Proof.
  induction l as [|tx l IH]; [done|]. rewrite funds_of_cons. destruct (as_funds tx); simpl; lia.
Qed.

(** Fewer funds transactions than transactions, unless all are. *)
Lemma funds_of_all l : length (funds_of l) = length l -> l = TFunds <$> funds_of l.
Proof.
  induction l as [|tx l IH]; [done|]. rewrite funds_of_cons. pose proof (length_funds_of l).
  destruct tx; simpl; try lia. intros E. f_equal. apply IH. lia.
Qed.

Section best.
Context {MO : MapOrder} {ML : MapOrderLaws} (blockSize : Z).

Definition comb_wf (txs : list Transaction) (c : comb) : Prop :=
  (c_len c <= length (c_arr c))%nat /\ Forall (fun tx => tx ∈ txs) (c_arr c) /\
  Forall (fun tx => tx ∈ txs) (c_append c).

Definition comb_funds (c : comb) : list FundsTx := funds_of (take (c_len c) (c_arr c)).

Lemma remove_at_inv txs i c c' tx : comb_wf txs c -> c_arr c !! i = Some tx -> as_funds tx = None ->
  remove_at i c = Some c' ->
  comb_wf txs c' /\ comb_funds c' = comb_funds c /\ (c_len c' <= c_len c)%nat.
Proof.
  intros (Hlen & Harr & Happ) Htx Hnf H. unfold remove_at in H.
  destruct (Nat.leb_spec (S i) (c_len c)) as [Hi|]; [|done]. injection H as <-.
  unfold comb_wf, comb_funds. simpl.
  assert (Hmid : length (take i (c_arr c) ++ sublist (S i) (c_len c - S i) (c_arr c)) = (c_len c - 1)%nat).
  { rewrite length_app, length_take, length_sublist by lia. lia. }
  split; [split; [|split; [|done]]|split; [|lia]].
  - rewrite app_assoc, length_app, Hmid, length_drop. lia.
  - rewrite !Forall_app. unfold sublist. split_and!; auto using Forall_take, Forall_drop.
  - rewrite app_assoc, <-Hmid, take_app_length.
    rewrite <-(take_drop i (c_arr c)) at 3. rewrite (drop_S _ tx) by done.
    rewrite firstn_app, take_take, length_take.
    replace (c_len c `min` i)%nat with i by lia. replace (i `min` length (c_arr c))%nat with i by lia.
    replace (c_len c - i)%nat with (S (c_len c - S i)) by lia. simpl.
    rewrite !funds_of_app, funds_of_cons, Hnf. done.
Qed.

Lemma count_phase_inv txs k i c c' b : comb_wf txs c -> count_phase blockSize k i c = Some (c', b) ->
  comb_wf txs c' /\ comb_funds c' = comb_funds c /\ (c_len c' <= c_len c)%nat.
Proof.
  revert i c. induction k as [|k IH]; intros i c Hwf H; [by injection H as <- <-|]. simpl in H.
  destruct (c_arr c !! i) as [tx|] eqn:Etx; [|done]. simpl in H. pose proof Hwf as (Hlen & Harr & Happ).
  assert (Hin : tx ∈ txs) by (by eapply Forall_lookup_1 in Harr).
  assert (Hspecial : as_funds tx = None -> forall c1,
    c1 = mkComb (c_arr c) (c_len c) (c_senders c) (c_receivers c) (c_nonAgg c + 1) (c_append c ++ [tx]) ->
    (c2 ← (if Nat.eqb i (c_len c) then Some c1 else remove_at i c1); count_phase blockSize k (S i) c2) = Some (c', b) ->
    comb_wf txs c' /\ comb_funds c' = comb_funds c /\ (c_len c' <= c_len c)%nat).
  { intros Hnf c1 -> H1.
    set (c1 := mkComb _ _ _ _ _ _) in *.
    assert (Hwf1 : comb_wf txs c1).
    { split; [done|]. split; [done|]. apply Forall_app. split; [done|by constructor]. }
    destruct (Nat.eqb i (c_len c)); simpl in H1; [by apply IH in H1|].
    destruct (remove_at i c1) as [c2|] eqn:E; [|done]. simpl in H1.
    eapply remove_at_inv in E as (Hwf2 & Hf2 & Hl2); [|done|exact Etx|done].
    apply IH in H1 as (? & Hf & ?); [|done]. split; [done|]. split; [by rewrite Hf, Hf2|].
    change (c_len c1) with (c_len c) in *. lia. }
  destruct tx as [t|t|t|t|t|t].
  1,3,4,6: destruct (_ <? _); [by eapply Hspecial|by injection H as <- <-].
  - by apply IH in H.
  - by apply IH in H.
Qed.

Lemma select_phase_inv txs c l c' : comb_wf txs c -> select_phase c = (l, c') ->
  comb_wf txs c' /\ (c_len c' <= length (comb_funds c))%nat /\ Forall (fun tx => tx ∈ txs) l.
Proof.
  intros (Hlen & Harr & Happ) H. unfold select_phase in H.
  destruct (select _ _ _) as [chosen kept] eqn:Es. injection H as <- <-.
  destruct (select_spec _ _ _ _ _ Es) as [Hp _]. fold (comb_funds c) in Hp.
  assert (Hall : forall t, t ∈ chosen ++ kept -> TFunds t ∈ txs).
  { intros t Ht. rewrite Hp in Ht. unfold comb_funds, funds_of in Ht.
    apply list_elem_of_omap in Ht as (tx & Hin & E). destruct tx; simplify_eq/=.
    apply (Forall_take _ (c_len c)) in Harr. by eapply Forall_forall in Harr. }
  pose proof (Permutation_length Hp) as Hl. rewrite length_app in Hl.
  pose proof (length_funds_of (take (c_len c) (c_arr c))) as Hf. fold (comb_funds c) in Hf.
  rewrite length_take in Hf.
  unfold comb_wf. simpl. split; [split; [|split; [|done]]|split; [lia|]].
  - rewrite length_app, length_fmap, length_drop. lia.
  - apply Forall_app. split; [|by apply Forall_drop]. apply Forall_fmap, Forall_forall.
    intros t Ht. apply Hall. set_solver.
  - apply Forall_fmap, Forall_forall. intros t Ht. apply Hall. set_solver.
Qed.

Lemma round_shrinks txs c c1 l c2 : comb_wf txs c -> c_senders c = ∅ -> c_receivers c = ∅ ->
  (0 < c_len c)%nat -> Z.of_nat (c_len c) < 2 ^ 32 ->
  count_phase blockSize (c_len c) 0 c = Some (c1, false) -> select_phase c1 = (l, c2) ->
  (c_len c2 < c_len c)%nat.
Proof.
  intros Hwf Hs Hr Hpos Hlt Hc Hsel. pose proof Hwf as (Hlen & _ & _).
  pose proof (count_phase_inv _ _ _ _ _ _ Hwf Hc) as (Hwf1 & Hf1 & _).
  pose proof (select_phase_inv _ _ _ _ Hwf1 Hsel) as (_ & Hl2 & _). rewrite Hf1 in Hl2.
  pose proof (length_funds_of (take (c_len c) (c_arr c))) as Hf. fold (comb_funds c) in Hf.
  rewrite length_take, Nat.min_l in Hf by lia.
  destruct (decide (length (comb_funds c) = c_len c)) as [Hall|]; [|lia].
  (* every transaction is a funds transaction *)
  assert (Htake : take (c_len c) (c_arr c) = TFunds <$> comb_funds c).
  { apply funds_of_all. fold (comb_funds c). rewrite Hall, length_take. lia. }
  assert (Hc' : count_phase blockSize (c_len c) 0 c = Some (mkComb (c_arr c) (c_len c)
    (count_all (ftx_From <$> comb_funds c) ∅) (count_all (ftx_To <$> comb_funds c) ∅)
    (c_nonAgg c) (c_append c), false)).
  { clear Hc Hsel. assert (Hgen : forall k i d, c_arr d = c_arr c -> (i + k = c_len c)%nat ->
      count_phase blockSize k i d = Some (mkComb (c_arr d) (c_len d)
        (count_all (ftx_From <$> drop i (comb_funds c)) (c_senders d))
        (count_all (ftx_To <$> drop i (comb_funds c)) (c_receivers d)) (c_nonAgg d) (c_append d), false)).
    { induction k as [|k IH]; intros i d Hd Hik.
      - rewrite drop_ge by lia. by destruct d.
      - destruct (comb_funds c !! i) as [t|] eqn:Et; [|apply lookup_ge_None_1 in Et; lia].
        assert (Harr : c_arr d !! i = Some (TFunds t)).
        { rewrite Hd, <-(lookup_take_lt (c_arr c) (c_len c)), Htake, list_lookup_fmap, Et by lia. done. }
        simpl. rewrite Harr. simpl. rewrite IH by (done || (simpl; lia)). simpl.
        by rewrite (drop_S _ t i). }
    rewrite (Hgen _ 0%nat) by (done || lia). by rewrite drop_0, Hs, Hr. }
  rewrite Hc in Hc'. injection Hc' as ->. unfold select_phase in Hsel. simpl in Hsel.
  fold (comb_funds c) in Hsel.
  destruct (select _ _ _) as [chosen kept] eqn:Es. injection Hsel as <- <-. simpl.
  apply select_progress in Es; [lia| |lia]. intros E. rewrite E in Hall. simpl in Hall. lia.
Qed.

Lemma best_loop_ends txs fuel nr c : comb_wf txs c -> c_senders c = ∅ -> c_receivers c = ∅ ->
  Z.of_nat (c_len c) < 2 ^ 32 -> (c_len c < fuel)%nat ->
  match best_loop blockSize fuel nr c with
  | Timeout => False
  | Done c' => Forall (fun tx => tx ∈ txs) (c_append c')
  | Panic => True
  end.
Proof.
  revert nr c. induction fuel as [|fuel IH]; intros nr c Hwf Hs Hr Hlt Hf; [lia|]. simpl.
  destruct (count_phase blockSize (c_len c) 0 c) as [[c1 [|]]|] eqn:Ec; [|..|done].
  { eapply count_phase_inv in Ec as ((_ & _ & ?) & _); done. }
  pose proof (count_phase_inv _ _ _ _ _ _ Hwf Ec) as (Hwf1 & _ & _).
  destruct (select_phase c1) as [l c2] eqn:Es.
  pose proof (select_phase_inv _ _ _ _ Hwf1 Es) as ((Hlen2 & Harr2 & Happ2) & Hl2 & Hl).
  destruct (blockSize <=? _); [done|].
  destruct (Nat.ltb_spec 0 (c_len c2)) as [Hpos|].
  - assert (c_len c2 < c_len c)%nat.
    { eapply round_shrinks; try done. destruct (c_len c) eqn:E0; [|lia].
      unfold select_phase in Es. simpl in Ec. injection Ec as <-.
      unfold comb_funds in Hl2. rewrite E0 in Hl2. simpl in Hl2. lia. }
    unfold select_phase in Es. destruct (select _ _ _) as [chosen kept]. injection Es as <- <-.
    apply IH; simpl in *; try done; try lia.
    split; [done|]. split; [done|]. simpl. by apply Forall_app.
  - simpl. by apply Forall_app.
Qed.

(** Three transactions that are no funds transactions. *)
Definition special (tx : Transaction) : bool :=
  match tx with TAcc _ | TConfig _ | TStake _ | TUpdate _ => true | _ => false end.

Lemma count_phase_special k i c tx : c_arr c !! i = Some tx -> special tx = true ->
  (c_nonAgg c + 1) * TRANSACTION_HASH_SIZE < blockSize ->
  count_phase blockSize (S k) i c =
    (c ← (let c := mkComb (c_arr c) (c_len c) (c_senders c) (c_receivers c) (c_nonAgg c + 1) (c_append c ++ [tx]) in
          if Nat.eqb i (c_len c) then Some c else remove_at i c);
     count_phase blockSize k (S i) c).
Proof.
  intros Htx Hsp Hsz. apply Z.ltb_lt in Hsz. simpl. rewrite Htx. simpl.
  destruct tx; simpl in Hsp; try done; by rewrite Hsz.
Qed.

Lemma three_specials_panic a b c : special a = true -> special b = true -> special c = true ->
  96 < blockSize -> checkBestCombination blockSize [a; b; c] = Panic.
Proof.
  intros Ha Hb Hc Hsz.
  assert (E1 : count_phase blockSize 3 0 (mkComb [a; b; c] 3 ∅ ∅ 0 []) =
    count_phase blockSize 2 1 (mkComb [b; c; c] 2 ∅ ∅ 1 [a])).
  { rewrite (count_phase_special _ _ _ a); [reflexivity|done|done|unfold TRANSACTION_HASH_SIZE; simpl; lia]. }
  assert (E2 : count_phase blockSize 2 1 (mkComb [b; c; c] 2 ∅ ∅ 1 [a]) =
    count_phase blockSize 1 2 (mkComb [b; c; c] 1 ∅ ∅ 2 [a; c])).
  { rewrite (count_phase_special _ _ _ c); [reflexivity|done|done|unfold TRANSACTION_HASH_SIZE; simpl; lia]. }
  assert (E3 : count_phase blockSize 1 2 (mkComb [b; c; c] 1 ∅ ∅ 2 [a; c]) = None).
  { rewrite (count_phase_special _ _ _ c); [reflexivity|done|done|unfold TRANSACTION_HASH_SIZE; simpl; lia]. }
  unfold checkBestCombination. cbn [best_loop length c_len]. by rewrite E1, E2, E3.
Qed.
End best.
