(* ===== verification/MiningProps.v ===== *)
(** * Properties of block preparation

    Verification of transactions, the preview of a block, the choice of its
    transactions and their aggregation. Every theorem has a witness on the
    small ledger of [LedgerProps.v]. *)

From S2P Require Import Prelude GoSlice GoLib Format Chameleon Protocol BlockFields Node Storage Params.
From S2P Require Import StateChange Ledger StateLemmas FeeLemmas Validation BlockLemmas Rollback BlockRuns LedgerProps.
From S2P Require Import Verify AddTx AddTxLemmas Aggregate AggregateLemmas BlockPrep BlockPrepLemmas.

(** ** Instances for the witnesses *)

Module Mine.
Import Toy.

(** Every signature is accepted; there is no multi-signature key. *)
#[global] Instance signatures : Signatures := {| ecdsa_Verify _ _ _ _ _ := true |}.
#[global] Instance node_keys : NodeKeys := {| multisigPubKey := None; validatorAccAddress := addr 3 |}.
#[global] Instance gosort : GoSort := insertion_GoSort.
#[global] Instance gosort_laws : GoSortLaws := insertion_GoSortLaws.
#[global] Instance map_order : MapOrder := list_MapOrder.
#[global] Instance map_order_laws : MapOrderLaws := list_MapOrderLaws.
#[global] Instance toy_digest_laws : DigestLaws := digest_laws.

Definition block0 : Block := newBlock zero_hash zero_hash (zeros 256) 1.
Definition txs0 : list Transaction :=
  [TFunds (pay 1 2 30 2 0); TConfig (mkConfigTx 0 1 2000 5 0 zero_sig None None); TFunds (pay 1 3 10 2 1); TFunds (pay 3 2 500 1 0)].

Definition is_done {A} (r : outcome A) : bool := match r with Done _ => true | _ => false end.

Lemma done_exists {A} (r : outcome (A * Miner)) : is_done r = true -> exists a m, r = Done (a, m).
Proof. destruct r as [ [a m]| |]; [|done..]. intros _. by exists a, m. Qed.

Lemma keyed_dec (s : gmap hash Account) :
  forallb (fun ha => bool_decide (SerializeHashContent (VBytes (acc_Address (snd ha))) = fst ha)) (map_to_list s) = true ->
  keyed s.
Proof.
  intros H h a Ha. rewrite forallb_forall in H.
  specialize (H (h, a) (proj1 (list_elem_of_In _ _) (proj2 (elem_of_map_to_list _ _ _) Ha))).
  by apply bool_decide_eq_true in H.
Qed.

Lemma plain_pay m from to amount fee cnt : db m = no_buckets ->
  0 <= amount < 2 ^ 62 -> 0 <= fee < 2 ^ 62 -> is_root (key from) m = false ->
  (acc_IsStaking <$> St m !! key from) <> Some true ->
  plain_tx m (TFunds (pay from to amount fee cnt)).
Proof.
  intros Hdb ? ? Hr Hs. split_and!; [unfold amounts_ok; simpl; lia|done|done| |by apply not_closed].
  intros a Ha. simpl in Ha. rewrite Ha in Hs. simpl in Hs. by destruct (acc_IsStaking a).
Qed.
End Mine.

Section props.
Context {DG : Digests} {DL : DigestLaws} {SG : Signatures} {NK : NodeKeys} {GR : GoRuntime}.
Context {GS : GoSort} {SL : GoSortLaws} {MO : MapOrder} {ML : MapOrderLaws}.

(** ** Verification *)

(** C13: authorisation.  A transaction that [verify] accepts is authorised: a
    funds transaction has a valid amount, existing accounts and the signature
    of the sender over its hash (and of the multi-signature key if it carries a
    second one); an account or configuration transaction has the signature of a
    root key, a stake that of its account; an update is signed by its issuer,
    who also signed the transaction to update, which exists and is of a type
    that can be updated. The check leaves the state alone. *)
Theorem verify_authorised tx m tx' m' :
  (forall t, tx = TFunds t -> 0 <= ftx_Amount t) ->
  verify tx m = Done ((tx', true), m') -> m' = m /\ authorised m tx'.
Proof. intros Ha H. apply verify_inv in H as [-> Hk]; [|done]. auto. Qed.

(** Keys and addresses.  A signature is checked against the key of an
    address with each coordinate shifted left by its leading zero bytes, so
    that it is the key the address was made from exactly when no coordinate has
    a leading zero byte (or is zero). *)
Theorem signature_key x y h signature :
  0 <= x < 2 ^ 256 -> 0 <= y < 2 ^ 256 ->
  let shifted z := z * 2 ^ (8 * (32 - Z.of_nat (nbytes z))) in
  IsSigned h signature (GetAddressFromPubKey (x, y)) =
    ecdsa_Verify (shifted x) (shifted y) h (be_val (take 32 signature)) (be_val (drop 32 signature)) /\
  (shifted x = x <-> x = 0 \/ nbytes x = 32%nat) /\ (shifted y = y <-> y = 0 \/ nbytes y = 32%nat).
Proof.
  intros Hx Hy shifted. unfold shifted. rewrite <-!copy32_value by done.
  split; [|split; by apply coordinate_kept]. unfold IsSigned, GetAddressFromPubKey. simpl fst. simpl snd.
  rewrite take_app_length', drop_app_length' by (by rewrite length_copy32). done.
Qed.

(** ** The preview of a block *)

(** C6: what is prepared will be accepted.  Transactions that [add_selected],
    the loop of [prepareBlock], adds one after the other to a block without
    local copies, with an empty queue and on an unchanged state: the queue of
    accepted funds transactions, applied in this order, is accepted by
    [fundsStateChange] outside the initial setup; the balances of the local
    copies are exactly those of the resulting accounts less the fees of the
    queued transactions, which every account can pay; and every queued
    transaction is authorised. The accounts are kept under their hashes, are
    well-formed, and hold together at most half of MAX_MONEY; no transaction is
    an update; amount and fee of a funds transaction fit 64 bits together, it
    has no data, so that no contract runs, its sender is neither root nor
    staking, and it is not closed. *)
Theorem preview_exact map_fuel m b txs b' m' :
  keyed (St m) -> roomy (St m) -> blk_StateCopy b = ∅ -> queue m = [] -> Forall (plain_tx m) txs ->
  add_selected map_fuel b txs m = Done (b', m') ->
  exists s, fundsStateChange (queue m') false m = Done (None, with_St s m) /\
    (forall h, option_Forall2 (owes (fees_of (queue m') h)) (view b' (St m) !! h) (s !! h)) /\
    Forall (fun tx => authorised m (TFunds tx)) (queue m').
Proof.
  intros Hk Hr Hb Hq Hall H.
  eapply (add_selected_previewed map_fuel m txs Hk Hall b [] (St m)) in H as (_ & s & [H1 H2 H3 H4 H5]);
    [by exists s|done|done|by apply previewed_nil].
Qed.

(** ** Splitting and aggregating *)

(** C29: every transaction is aggregated exactly once.  Splitting the queue
    ends within two rounds more than it has transactions; it is the same as
    aggregating groups that partition the queue, each with a single sender or a
    single receiver, whatever the order in which maps are iterated. *)
Theorem split_partition senders receivers b m : Z.of_nat (length (queue m)) < 2 ^ 32 ->
  exists gs, concat gs ≡ₚ queue m /\ Forall uniform gs /\
    splitSortedAggregatableTransactions (S (S (length (queue m)))) senders receivers b m =
      (aggregate_all gs b ≫= fun b' => DeleteAllFundsTxBeforeAggregation;; mret b') m.
Proof.
  intros Hlt. unfold splitSortedAggregatableTransactions, sortTxBeforeAggregation.
  destruct (sort_total (multi_less [less_sender; less_txcount]) (queue m)) as [l El].
  { intros x y _ _. simpl. destruct (less_sender x y); [by eexists|]. destruct (less_sender y x); by eexists. }
  pose proof (sort_perm _ _ _ El) as Hp. pose proof (Permutation_length Hp) as Hlen.
  destruct (split_loop_groups senders receivers l) as (gs & Hrun & Hc & Hu); [lia|].
  exists gs. split; [by rewrite Hc|]. split; [done|].
  rewrite <-Hlen. unfold ReadFundsTxBeforeAggregation. rewrite (bind_Done _ _ m (queue m) m) by done.
  rewrite El, (bind_Done _ _ m l m) by done. unfold mbind, M_bind. by rewrite Hrun.
Qed.

(** C36: one group.  When closed payments and aggregations are kept under
    their hashes, [AggregateTransactions] on a group that, with the older
    transactions of its address, has more than one transaction, adds to the
    block the hash of one aggregation, which lists the hashes of all of them,
    the sum of the new amounts, one sender or one receiver if there is only
    one, and is put into the open pool; a single transaction without older ones
    is added itself. The older ones are, in the order of the blocks, each once,
    the listed transactions of the closed blocks that are not aggregated yet
    and that are from the sender, or to the receiver, there are fewer of in the
    group, and if there are as many, of the address that the first listed
    transaction has in common with the group; of the other kind the zero
    address is searched for. There are none if a listed transaction is not
    closed. *)
Theorem aggregation_spec txs b m b' e m' : closed_keyed m ->
  AggregateTransactions txs b m = Done ((b', e), m') -> aggregation txs b b' e m m'.
Proof. apply AggregateTransactions_inv. Qed.

(** ** Choosing the transactions *)

(** The choice ends.  [checkBestCombination] ends within as many rounds as
    there are pending transactions, and whatever it returns was pending. *)
Theorem best_combination_ends blockSize txs : Z.of_nat (length txs) < 2 ^ 32 ->
  match checkBestCombination blockSize txs with
  | Timeout => False
  | Done c => Forall (fun tx => tx ∈ txs) (c_append c)
  | Panic => True
  end.
Proof.
  intros Hlt. unfold checkBestCombination. apply (best_loop_ends blockSize txs); try done; simpl; [|lia].
  split; [done|]. split; [|by constructor]. by apply Forall_forall.
Qed.

(** Three pending account transactions stop the node.  With three pending
    transactions none of which moves funds or aggregates, and room for them in
    the block, [checkBestCombination] removes elements of the slice it ranges
    over, adds the last one twice, and panics. *)
Theorem three_account_transactions_panic blockSize a b c :
  special a = true -> special b = true -> special c = true -> 96 < blockSize ->
  checkBestCombination blockSize [a; b; c] = Panic.
Proof. apply three_specials_panic. Qed.

(** A pending update stops the node.  The comparison [openTxs.Less] has no
    case for updates, so that sorting an update and a funds transaction, or two
    updates, panics: when the pools hold these two, [prepareBlock] does. *)
Theorem pending_update_panics map_fuel env b m h1 h2 u t :
  h1 <> h2 -> txMemPool (pool m) = {[h1 := TUpdate u; h2 := t]} -> txINVALIDMemPool (pool m) = ∅ ->
  (match t with TFunds _ | TUpdate _ => True | _ => False end) ->
  prepareBlock map_fuel env b m = Panic.
Proof.
  intros Hne Hp Hi Ht. unfold prepareBlock, ReadAllOpenTxs, ReadAllINVALIDOpenTx, mbind, M_bind, gets. rewrite Hp, Hi.
  assert (range_map (∅ : gmap hash Transaction) = []) as ->.
  { apply Permutation_nil. rewrite range_perm. by rewrite map_to_list_empty. }
  assert (range_map {[h1 := TUpdate u; h2 := t]} ≡ₚ [(h1, TUpdate u); (h2, t)]) as Hr.
  { rewrite range_perm, map_to_list_insert, map_to_list_singleton; [done|]. by apply lookup_singleton_ne. }
  apply (Permutation_map snd) in Hr. simpl in Hr.
  assert (Hn : forall x y, [x; y] = [TUpdate u; t] \/ [x; y] = [t; TUpdate u] ->
    sort_Sort openTxs_Less [x; y] = None).
  { intros x y [ [= -> ->]|[= -> ->] ]; apply sort_compares; by destruct t. }
  rewrite app_nil_r. simpl.
  destruct (range_map _) as [|[k1 x] [|[k2 y] [|z l]]] eqn:E.
  all: try (by apply Permutation_length in Hr).
  simpl in Hr |- *. symmetry in Hr. apply Permutation_length_2 in Hr.
  rewrite Hn; [done|]. naive_solver.
Qed.
End props.

(** ** Witnesses *)

Section witnesses.
Import Toy Mine.

Lemma verify_authorised_witness :
  exists tx' m', verify (TFunds (pay 1 2 30 2 0)) m0 = Done ((tx', true), m') /\ authorised m0 tx'.
Proof.
  exists (TFunds (pay 1 2 30 2 0)), m0.
  assert (H : verify (TFunds (pay 1 2 30 2 0)) m0 = Done ((TFunds (pay 1 2 30 2 0), true), m0)).
  { vm_compute. reflexivity. }
  split; [exact H|].
  refine (proj2 (verify_authorised (TFunds (pay 1 2 30 2 0)) m0 _ m0 _ H)).
  intros t E. injection E as E. rewrite <-E. simpl. lia.
Defined.

Lemma signature_key_witness :
  IsSigned [] [] (GetAddressFromPubKey (1, 2 ^ 255)) = ecdsa_Verify (1 * 2 ^ 248) (2 ^ 255 * 2 ^ 0) [] 0 0.
Proof.
  pose proof (signature_key 1 (2 ^ 255) [] [] ltac:(lia) ltac:(lia)) as H. apply H.
Defined.

Lemma preview_exact_witness :
  exists b' m', add_selected 10 block0 txs0 m0 = Done (b', m') /\ length (queue m') = 2%nat /\
  exists s, fundsStateChange (queue m') false m0 = Done (None, with_St s m0) /\
    (forall h, option_Forall2 (owes (fees_of (queue m') h)) (view b' (St m0) !! h) (s !! h)) /\
    Forall (fun tx => authorised m0 (TFunds tx)) (queue m').
Proof.
  destruct (done_exists (add_selected 10 block0 txs0 m0)) as (b' & m' & H); [vm_compute; reflexivity|].
  exists b', m'. split; [exact H|]. split.
  - change (length (queue m')) with (match Done (b', m') with Done (_, m) => length (queue m) | _ => 0%nat end).
    rewrite <-H. vm_compute. reflexivity.
  - apply (preview_exact 10 m0 block0 txs0 b' m').
    + apply keyed_dec. vm_compute. reflexivity.
    + split; [apply m0_ok|]. vm_compute. discriminate.
    + reflexivity.
    + reflexivity.
    + repeat constructor; apply (plain_pay m0); try reflexivity; try lia; vm_compute; discriminate.
    + exact H.
Defined.

Definition m_queue : Miner :=
  upd_pool (upd_FundsTxBeforeAggregation (fun _ => [pay 1 2 30 2 0; pay 3 1 1 2 0; pay 1 3 5 2 1])) m0.

Lemma split_partition_witness :
  exists gs, concat gs ≡ₚ queue m_queue /\ Forall uniform gs /\
    splitSortedAggregatableTransactions 5 ∅ ∅ block0 m_queue =
      (aggregate_all gs block0 ≫= fun b' => DeleteAllFundsTxBeforeAggregation;; mret b') m_queue.
Proof. apply (split_partition ∅ ∅ block0 m_queue). simpl. lia. Defined.

(** A closed block with a payment of another sender and an older one of the
    sender of the group. *)
Definition kept_under (t : FundsTx) : hash :=
  default [] (Transaction_Hash (ChameleonHashParametersMap (ledger m0)) (TFunds t)).
Definition others : FundsTx := pay 3 2 1 1 5.
Definition older0 : FundsTx := pay 1 2 7 1 9.
Definition old_block : Block := upd_blk_FundsTxData (fun _ => [kept_under others; kept_under older0]) block0.
Definition m_old : Miner :=
  upd_db (fun d => upd_closedfunds (fun _ => {[kept_under others := others; kept_under older0 := older0]})
    (upd_closedblocks (insert (key 9) old_block) (upd_lastclosedblock (insert (key 9) old_block) d))) m0.

Lemma m_old_keyed : closed_keyed m_old.
Proof.
  assert (H : map_Forall (fun h t => Transaction_Hash (ChameleonHashParametersMap (ledger m_old)) (TFunds t) = Some h)
    (closedfunds (db m_old))).
  { apply (bool_decide_unpack _). vm_compute. exact I. }
  intros h tx E. unfold closed_tx in E. destruct (closedfunds (db m_old) !! h) as [t|] eqn:Et.
  - injection E as <-. exact (H h t Et).
  - discriminate E.
Qed.

Lemma aggregation_spec_witness :
  exists b' e m', AggregateTransactions [pay 1 2 30 2 0; pay 1 3 5 2 1] block0 m_old = Done ((b', e), m') /\
    aggregation [pay 1 2 30 2 0; pay 1 3 5 2 1] block0 b' e m_old m' /\
    older m_old [old_block] [pay 1 2 30 2 0; pay 1 3 5 2 1] = [kept_under older0].
Proof.
  destruct (done_exists (AggregateTransactions [pay 1 2 30 2 0; pay 1 3 5 2 1] block0 m_old)) as ([b' e] & m' & H).
  - vm_compute. reflexivity.
  - exists b', e, m'. split; [exact H|]. split; [|vm_compute; reflexivity].
    apply aggregation_spec; [exact m_old_keyed|exact H].
Defined.

(** The search marks what it finds on the way; when a listed transaction is not
    closed it returns nothing, and the marked ones are in no aggregation. *)
Definition gap_block : Block := upd_blk_FundsTxData (fun _ => [kept_under older0; key 77]) block0.
Definition m_gap : Miner := upd_db (upd_closedblocks (insert (key 9) gap_block)) m_old.
Definition marked_older (m : Miner) : option bool := ftx_Aggregated <$> closedfunds (db m) !! kept_under older0.

Example search_marks_in_vain :
  marked_older m_gap = Some false /\
  match searchTransactionsInHistoricBlocks (key 1) zero_hash m_gap with
  | Done (found, m') => found = [] /\ marked_older m' = Some true
  | _ => False
  end.
Proof. vm_compute. split; [reflexivity|]. split; reflexivity. Qed.

Lemma best_combination_ends_witness :
  match checkBestCombination 5000 txs0 with
  | Timeout => False
  | Done c => Forall (fun tx => tx ∈ txs0) (c_append c)
  | Panic => True
  end.
Proof. apply (best_combination_ends 5000 txs0). simpl. lia. Defined.

Lemma three_account_transactions_panic_witness :
  checkBestCombination 5000 [TAcc (open_account 0 7); TAcc (open_account 0 8); TAcc (open_account 0 9)] = Panic.
Proof. apply three_account_transactions_panic; [reflexivity..|lia]. Defined.

Definition update0 : UpdateTx := mkUpdateTx 1 zero_hash (Some check) None (key 1) zero_sig (Some check) None.
Definition m_update : Miner :=
  upd_pool (upd_txMemPool (fun _ => {[key 1 := TUpdate update0; key 2 := TFunds (pay 1 2 30 2 0)]})) m0.

Lemma pending_update_panics_witness :
  prepareBlock 10 (mkEnvironment (fun _ _ => RequestFailed) (fun _ _ => false)) block0 m_update = Panic.
Proof.
  apply (pending_update_panics 10 _ block0 m_update (key 1) (key 2) update0 (TFunds (pay 1 2 30 2 0))).
  - vm_compute. discriminate.
  - reflexivity.
  - reflexivity.
  - exact I.
Defined.

End witnesses.

(** ** Contracts *)

Module Calls.
Import Toy Mine.

(** PUSH 7; SSTORE 0; HALT *)
Definition code7 : bytes := map mkb [0; 1; 0; 7; 27; 0; 50].
Definition m_contract : Miner :=
  with_St (alter (fun a => set_ContractVariables [ [Byte.x00] ] (set_Contract (Some code7) a)) (key 3) (St m0)) m0.
Definition call : FundsTx := ConstrFundsTx 0 1 1100 0 (key 2) (key 3) (Some check) (Some [Byte.x01]).
Definition variables (m : Miner) (n : Z) : option (list bytes) := acc_ContractVariables <$> St m !! key n.

(** The two runs, as far as the theorem looks at them. *)
Definition prepared : option (option (list bytes) * option Z * nat) :=
  match addFundsTx 10 block0 call m_contract with
  | Done ((_, None), m) => Some (variables m 3, balance m 3, length (queue m))
  | _ => None
  end.
Definition validated : option (option (list bytes) * option Z) :=
  match fundsStateChange [call] false m_contract with
  | Done (None, m) => Some (variables m 3, balance m 3)
  | _ => None
  end.
End Calls.

(** Applying funds transactions never touches a contract variable. *)
Lemma validation_keeps_variables {DG : Digests} txs init m e m' h :
  ledger_ok (St m) -> fundsStateChange txs init m = Done (e, m') ->
  acc_ContractVariables <$> St m' !! h = acc_ContractVariables <$> St m !! h.
Proof.
  intros Hok H.
  apply (for_each_err_inv _ (fun k => ledger_ok (St k) /\
    acc_ContractVariables <$> St k !! h = acc_ContractVariables <$> St m !! h) _ _ _ _) in H; [by destruct H| |done].
  intros tx k e1 k' _ [Hk Hv] Hx. apply fundsTx_change_inv in Hx; [|done].
  split; [by eapply funds_result_ok|].
  assert (Hal : forall f (s : gmap hash Account) j, (forall a, acc_ContractVariables (f a) = acc_ContractVariables a) ->
    acc_ContractVariables <$> alter f j s !! h = acc_ContractVariables <$> s !! h).
  { intros f s j Hf. destruct (decide (h = j)) as [->|]; [|by rewrite lookup_alter_ne].
    rewrite lookup_alter_eq. destruct (s !! j); simpl; [by rewrite Hf|done]. }
  inversion Hx; subst; [done|done|]. rewrite St_with, <-Hv. unfold funds_applied, root_credit.
  destruct (is_root _ _); by rewrite !Hal.
Qed.

(** Contracts run when a block is prepared, and never when it is
    validated.  Adding a call to a block under preparation already writes the
    contract variable of the account in the state (the copy is shallow), while
    no balance has moved; applying the same transaction as part of a block, as
    every other node does, moves the balance and leaves the variable alone. *)
Theorem contracts_run_only_in_preparation :
  Calls.variables Calls.m_contract 3 = Some [ [Byte.x00] ] /\ Toy.balance Calls.m_contract 3 = Some 10 /\
  Calls.prepared = Some (Some [ [Byte.x00; Byte.x07] ], Some 10, 1%nat) /\
  Calls.validated = Some (Some [ [Byte.x00] ], Some 11).
Proof. vm_compute. repeat split. Qed.
