(* ===== verification/LongestChain.v ===== *)
(** * miner/longestchain.go and slashing.go: competing chains

    Which blocks have to be taken back and which to be validated for a new
    block, and the search for validators that voted on two chains. What the
    network answers to the requests for blocks is a list of answers, consumed
    in order; when it is used up, nobody answers in time. *)

From S2P Require Import Prelude GoLib Format Chameleon Protocol BlockFields Node Storage Params.
From S2P Require Import StateChange Validation Aggregate.

(** The answer to a block request: a block, or a timeout. *)
Abbreviation answers := (list (option Block)).

Definition InvertBlockArray (l : list Block) : list Block := rev l.

Definition find_block (h : hash) (stash : list Block) : option Block :=
  find (fun b => bool_decide (blk_Hash b = h)) stash.

(** The parent among the validated blocks, with or without transactions. *)
Definition read_parent (b : Block) : M Miner (option Block) :=
  p ← ReadClosedBlock (blk_PrevHash b);
  match p with
  | Some p => mret (Some p)
  | None => ReadClosedBlockWithoutTx (blk_PrevHashWithoutTx b)
  end.

(** [p2p.BlockReq] and the wait for its answer. A block that arrives is
    stashed, whatever its hash; after a timeout the stash is searched. *)
Definition request_block (h : hash) (ans : answers) : M Miner (option Block * answers) :=
  match ans with
  | Some b :: ans => WriteToReceivedStash b;; mret (Some b, ans)
  | None :: ans =>
      stash ← ReadReceivedBlockStash; mret (find_block h stash, ans)
  | [] =>
      stash ← ReadReceivedBlockStash; mret (find_block h stash, [])
  end.

(** The chain is collected in reverse. A parent in the open storage makes the
    loop go on with the same block. *)
Fixpoint getNewChain (fuel : nat) (ans : answers) (newBlock : Block) (newChain : list Block)
    : M Miner (option (Block * list Block) * answers) :=
  match fuel with
  | O => timeout
  | S fuel =>
      let newChain := newChain ++ [newBlock] in
      potentialAncestor ← read_parent newBlock;
      match potentialAncestor with
      | Some a => mret (Some (a, InvertBlockArray newChain), ans)
      | None =>
          openBlock ← ReadOpenBlock (blk_PrevHash newBlock);
          match openBlock with
          | Some _ => getNewChain fuel ans newBlock newChain
          | None =>
              stash ← ReadReceivedBlockStash;
              match find_block (blk_PrevHash newBlock) stash with
              | Some b => getNewChain fuel ans b newChain
              | None =>
                  r ← request_block (blk_PrevHash newBlock) ans;
                  match r with
                  | (Some b, ans) => getNewChain fuel ans b newChain
                  | (None, ans) => mret (None, ans)
                  end
              end
          end
      end
  end.

(** From the last block back to the ancestor. *)
Fixpoint blocks_to_rollback (fuel : nat) (ancestor tmpBlock : Block) : M Miner (option (list Block)) :=
  match fuel with
  | O => timeout
  | S fuel =>
      if bool_decide (blk_Hash tmpBlock = blk_Hash ancestor) ||
         bool_decide (blk_HashWithoutTx tmpBlock = blk_HashWithoutTx ancestor) then mret (Some [])
      else
        newTmpBlock ← read_parent tmpBlock;
        match newTmpBlock with
        | None => mret None
        | Some t =>
            rest ← blocks_to_rollback fuel ancestor t;
            mret (cons tmpBlock <$> rest)
        end
  end.

(** Blocks to roll back, blocks to validate, and the error. *)
Definition getBlockSequences (fuel : nat) (ans : answers) (newBlock : Block)
    : M Miner (list Block * list Block * error * answers) :=
  r ← getNewChain fuel ans newBlock [];
  match r with
  | (None, ans) => mret ([], [], Some "Common ancestor not found.", ans)
  | (Some (ancestor, newChain), ans) =>
      last ← gets (fun m => lastBlock (chain m));
      tmpBlock ← match last with Some b => mret (Some b) | None => ReadLastClosedBlock end;
      match (tmpBlock : option Block) with
      | None => mret ([], [], Some "Last Block not found", ans)
      | Some tmpBlock =>
          blocksToRollback ← blocks_to_rollback fuel ancestor tmpBlock;
          match blocksToRollback with
          | None => mret ([], [], Some "Block not found in both closed storages", ans)
          | Some blocksToRollback =>
              if Nat.leb (length newChain) (length blocksToRollback) then
                mret ([], [], Some "Block belongs to shorter or equally long chain --> NO Rollback", ans)
              else mret (blocksToRollback, newChain, None, ans)
          end
      end
  end.

(** ** Slashing *)

(** Walks back from the higher block, down to the genesis block. A parent that
    cannot be found is dereferenced. *)
Fixpoint walk_back (fuel : nat) (ans : answers) (higherBlock lowerBlock : Block)
    : M Miner (bool * answers) :=
  if negb (0 <? blk_Height higherBlock) then mret (false, ans)
  else
    match fuel with
    | O => timeout
    | S fuel =>
        newHigherBlock ← read_parent higherBlock;
        r ← match newHigherBlock with
            | Some b => mret (Some b, ans)
            | None => request_block (blk_PrevHash higherBlock) ans
            end;
        let '(newHigherBlock, ans) := (r : option Block * answers) in
        higherBlock ← of_option newHigherBlock;
        if bool_decide (blk_Hash higherBlock = blk_Hash lowerBlock) then mret (true, ans)
        else walk_back fuel ans higherBlock lowerBlock
    end.

(** The pointers are dereferenced without a check. *)
Definition IsInSameChain (fuel : nat) (ans : answers) (b1 b2 : option Block) : M Miner (bool * answers) :=
  b1 ← of_option b1;
  b2 ← of_option b2;
  if blk_Height b1 =? blk_Height b2 then mret (false, ans)
  else if blk_Height b2 <? blk_Height b1 then walk_back fuel ans b1 b2
  else walk_back fuel ans b2 b1.

Section slashing.
Context {GS : GoSort}.

(** All closed blocks, sorted by height. *)
Definition ReadAllClosedBlocks : M Miner (list Block) :=
  blocks ← gets read_all_closed_blocks;
  of_option (sort_Sort height_less blocks).

Definition set_slashing (h : hash) (p : SlashingProof) : M Miner unit :=
  on_chain (upd_slashingDict (insert h p)).

(** Sums of a uint32 and a uint64 in 64 bits. *)
Definition within_window (prevBlock b : Block) (window : Z) : bool :=
  (blk_Height prevBlock <? u64 (blk_Height b + window)) ||
  (blk_Height b <? u64 (blk_Height prevBlock + window)).

Fixpoint seek_in (fuel : nat) (ans : answers) (b : Block) (prevBlocks : list Block) : M Miner answers :=
  match prevBlocks with
  | [] => mret ans
  | prevBlock :: prevBlocks =>
      r ← IsInSameChain fuel ans (Some prevBlock) (Some b);
      let '(same, ans) := r in
      if (same : bool) then mret ans
      else
        active ← gets (fun m => activeParameters (chain m));
        (if bool_decide (blk_Beneficiary prevBlock = blk_Beneficiary b) &&
            within_window prevBlock b (SlashingWindowSize active) then
           set_slashing (blk_Beneficiary b)
             (mkSlashingProof (blk_Hash b) (blk_Hash prevBlock) (blk_HashWithoutTx b) (blk_PrevHashWithoutTx b))
         else mret tt);;
        seek_in fuel ans b prevBlocks
  end.

Definition seekSlashingProof (fuel : nat) (ans : answers) (b : Block) : M Miner (error * answers) :=
  lastClosedBlock ← ReadLastClosedBlock;
  match lastClosedBlock with
  | None => mret (Some "Latest block not found.", ans)
  | Some last =>
      if bool_decide (blk_Hash last = blk_Hash b) || bool_decide (blk_Hash last = blk_PrevHash b) then
        mret (None, ans)
      else
        prevBlocks ← ReadAllClosedBlocks;
        ans ← seek_in fuel ans b prevBlocks;
        mret (None, ans)
  end.

(** [slashingCheck] of block_validation.go. *)
Definition read_conflicting (h hWithoutTx : hash) : M Miner (option Block) :=
  b ← ReadClosedBlock h;
  match b with
  | Some b => mret (Some b)
  | None => ReadClosedBlockWithoutTx hWithoutTx
  end.

(** A conflicting block that is not known is looked for elsewhere and must
    belong to a chain with a known ancestor. *)
Definition find_conflicting (fuel : nat) (ans : answers) (known : option Block) (h : hash) (n : string)
    : M Miner (error * option Block * answers) :=
  match known with
  | Some b => mret (None, Some b, ans)
  | None =>
      open ← ReadOpenBlock h;
      r ← match open with
          | Some b => mret (Some b, ans)
          | None =>
              match ans with
              | Some b :: ans => mret (Some b, ans)
              | _ => stash ← ReadReceivedBlockStash; mret (find_block h stash, drop 1 ans)
              end
          end;
      match (r : option Block * answers) with
      | (None, ans) =>
          mret (Some ("Invalid slashing proof: Could not find a block with the provided conflicting hash " +:+ n)%string, None, ans)
      | (Some b, ans) =>
          c ← getNewChain fuel ans b [];
          match c with
          | (None, ans) =>
              mret (Some ("Invalid slashing proof: Could not find a ancestor for the provided conflicting hash " +:+ n)%string, None, ans)
          | (Some _, ans) => mret (None, Some b, ans)
          end
      end
  end.

Definition slashingCheck (fuel : nat) (ans : answers) (slashedAddress hash1 hash2 hashWithoutTx1 hashWithoutTx2 : hash)
    : M Miner (bool * error * answers) :=
  if bool_decide (hash1 = zero_hash) || bool_decide (hash2 = zero_hash) then
    mret (false, Some "Invalid slashing proof: Invalid conflicting block hashes provided.", ans)
  else if bool_decide (hash1 = hash2) then
    mret (false, Some "Invalid slashing proof: Conflicting block hashes are the same.", ans)
  else
    conflictingBlock1 ← read_conflicting hash1 hashWithoutTx1;
    conflictingBlock2 ← read_conflicting hash2 hashWithoutTx2;
    r ← IsInSameChain fuel ans conflictingBlock1 conflictingBlock2;
    let '(same, ans) := r in
    if (same : bool) then
      mret (false, Some "Invalid slashing proof: Conflicting block hashes are on the same chain.", ans)
    else
      r1 ← find_conflicting fuel ans conflictingBlock1 hash1 "(1).";
      match r1 with
      | (Some e, _, ans) => mret (false, Some e, ans)
      | (None, b1, ans) =>
      r2 ← find_conflicting fuel ans conflictingBlock2 hash2 "(2).";
      match r2 with
      | (Some e, _, ans) => mret (false, Some e, ans)
      | (None, b2, ans) =>
          b1 ← of_option b1;
          b2 ← of_option b2;
          active ← gets (fun m => activeParameters (chain m));
          if negb (blk_Height b1 <? u32 (u32 (SlashingWindowSize active) + blk_Height b2)) then
            mret (false, Some "Invalid slashing proof: Could not find a ancestor for the provided conflicting hash (2).", ans)
          else
            on_chain (upd_slashingDict (delete slashedAddress));;
            mret (true, None, ans)
      end end.
End slashing.
