(* ===== verification/ChainLemmas.v ===== *)
(** * Lemmas on competing chains

    The parent of a block among the validated ones as a function of the
    database, paths along it, and what the walks of [LongestChain.v] compute
    in terms of such paths. *)

From stdpp Require Import sorting.
From S2P Require Import Prelude GoLib Format Chameleon Protocol Node Storage Ledger Params LongestChain Aggregate.

(** ** Parents and paths *)

Definition parent (d : Buckets) (b : Block) : option Block :=
  match closedblocks d !! blk_PrevHash b with
  | Some p => Some p
  | None => closedblockswithouttx d !! blk_PrevHashWithoutTx b
  end.

(** [back d b l a]: from [b], over the blocks of [l], to [a], which is not in
    [l] itself. *)
Inductive back (d : Buckets) : Block -> list Block -> Block -> Prop :=
  | back_here b : back d b [] b
  | back_step b p l a : parent d b = Some p -> back d p l a -> back d b (b :: l) a.

(** The blocks collected for a new block: each was found under the hash its
    child names, or was sent as an answer. *)
Inductive chain_of (ans : answers) : Block -> list Block -> Prop :=
  | chain_one b : chain_of ans b [b]
  | chain_more b p l : blk_Hash p = blk_PrevHash b \/ Some p ∈ ans ->
      chain_of ans p l -> chain_of ans b (b :: l).

Definition same_block (a b : Block) : bool :=
  bool_decide (blk_Hash a = blk_Hash b) || bool_decide (blk_HashWithoutTx a = blk_HashWithoutTx b).

Definition current_block (m : Miner) : option Block :=
  match lastBlock (chain m) with
  | Some b => Some b
  | None => snd <$> head (ForEach (lastclosedblock (db m)))
  end.

Definition stash (m : Miner) : list Block := ReceivedBlockStash (pool m).

Lemma read_parent_run b m : read_parent b m = Done (parent (db m) b, m).
Proof. unfold read_parent, parent, mbind, M_bind. cbn. by destruct (closedblocks (db m) !! blk_PrevHash b). Qed.

Lemma chain_of_weaken ans ans' b l : (forall x, x ∈ ans -> x ∈ ans') -> chain_of ans b l -> chain_of ans' b l.
Proof. intros H. induction 1 as [|b p l [?|?] ? IH]; econstructor; eauto. Qed.

Lemma chain_of_head ans b l : chain_of ans b l -> head l = Some b.
Proof. by destruct 1. Qed.

Lemma find_block_spec h l b : find_block h l = Some b -> blk_Hash b = h /\ b ∈ l.
Proof.
  intros [H1 H2]%find_some. apply bool_decide_eq_true in H2. split; [done|]. by apply list_elem_of_In.
Qed.

(** ** Requests *)

Lemma stash_write b m :
  pool_only m (upd_pool (upd_ReceivedBlockStash (fun s =>
    if BlockAlreadyInStash s (blk_Hash b) then s
    else let s := s ++ [b] in if Nat.ltb 100 (length s) then drop 1 s else s)) m).
Proof. by split. Qed.

Lemma request_block_inv h ans m r ans' m' : request_block h ans m = Done ((r, ans'), m') ->
  pool_only m m' /\ (forall x, x ∈ ans' -> x ∈ ans) /\
  (forall b, r = Some b -> (blk_Hash b = h /\ b ∈ stash m /\ m' = m) \/
     (Some b ∈ ans /\ (length ans' < length ans)%nat)) /\
  (forall b, b ∈ stash m' -> b ∈ stash m \/ Some b ∈ ans).
Proof.
  destruct ans as [|[b|] ans]; unfold request_block, mbind, M_bind; cbn; intros [= <- <- <-].
  - split; [done|]. split; [done|]. split; [|auto]. intros b E. apply find_block_spec in E as [??]. auto.
  - split; [by split|]. split; [set_solver|]. split; [intros ? [= <-]; right; split; [by left|simpl; lia]|].
    unfold stash. cbn. intros x Hx. destruct (BlockAlreadyInStash _ _); [by left|].
    assert (Hd : forall l : list Block, x ∈ drop 1 l -> x ∈ l) by (intros []; set_solver).
    case_match; [apply Hd in Hx|]; set_solver.
  - split; [done|]. split; [set_solver|]. split; [|auto]. intros b E. apply find_block_spec in E as [??]. auto.
Qed.

(** ** The chain of a new block *)

Lemma getNewChain_unfold fuel ans nb acc m :
  getNewChain (S fuel) ans nb acc m =
  match parent (db m) nb with
  | Some a => Done ((Some (a, rev (acc ++ [nb])), ans), m)
  | None =>
      match openblocks (db m) !! blk_PrevHash nb with
      | Some _ => getNewChain fuel ans nb (acc ++ [nb]) m
      | None =>
          match find_block (blk_PrevHash nb) (stash m) with
          | Some b => getNewChain fuel ans b (acc ++ [nb]) m
          | None =>
              match request_block (blk_PrevHash nb) ans m with
              | Done ((Some b, ans'), m') => getNewChain fuel ans' b (acc ++ [nb]) m'
              | Done ((None, ans'), m') => Done ((None, ans'), m')
              | Panic => Panic
              | Timeout => Timeout
              end
          end
      end
  end.
Proof.
  cbn [getNewChain]. unfold mbind, M_bind. rewrite read_parent_run. destruct (parent (db m) nb); [done|].
  unfold ReadOpenBlock, read_db, ReadReceivedBlockStash, gets. fold (stash m).
  destruct (openblocks (db m) !! blk_PrevHash nb); [done|].
  destruct (find_block _ _); [done|]. by destruct (request_block _ _ _) as [[[[|] ?] ?]| |].
Qed.

(** What the collection finds: a path of linked blocks from the new block down
    to a child of a validated block. *)
Lemma getNewChain_spec fuel ans nb acc m r ans' m' :
  getNewChain fuel ans nb acc m = Done ((r, ans'), m') ->
  pool_only m m' /\
  match r with
  | None => True
  | Some (a, l) => exists path f, l = rev (acc ++ path) /\ chain_of ans nb path /\ last path = Some f /\ parent (db m) f = Some a
  end.
Proof.
  revert ans nb acc m. induction fuel as [|fuel IH]; intros ans nb acc m; [done|].
  rewrite getNewChain_unfold. destruct (parent (db m) nb) as [a|] eqn:Ep.
  { intros [= <- <- <-]. split; [done|]. exists [nb], nb. by repeat split; [constructor|]. }
  assert (Hrec : forall ans1 b m1, blk_Hash b = blk_PrevHash nb \/ Some b ∈ ans ->
    (forall x, x ∈ ans1 -> x ∈ ans) -> pool_only m m1 ->
    getNewChain fuel ans1 b (acc ++ [nb]) m1 = Done ((r, ans'), m') ->
    pool_only m m' /\ match r with None => True | Some (a, l) => exists path f,
      l = rev (acc ++ path) /\ chain_of ans nb path /\ last path = Some f /\ parent (db m) f = Some a end).
  { intros ans1 b m1 Hb Hans Hm H. apply IH in H as [Hs Hr]. split; [by etrans|].
    destruct r as [[a l]|]; [|done]. destruct Hr as (path&f&->&Hc&Hl&Hp). exists (nb :: path), f.
    rewrite <-app_assoc. split; [done|]. split.
    - econstructor; [exact Hb|]. by eapply chain_of_weaken.
    - destruct Hm as (_&Hd&_). rewrite <-Hd. split; [|done]. inversion Hc; subst; done. }
  destruct (openblocks (db m) !! blk_PrevHash nb) eqn:Eo.
  { (* the loop goes on with the same block, and never comes out *)
    intros H. exfalso. clear Hrec IH. revert acc H. induction fuel as [|fuel IH]; intros acc; [done|].
    rewrite getNewChain_unfold, Ep, Eo. apply IH. }
  destruct (find_block (blk_PrevHash nb) (stash m)) as [b|] eqn:Ef.
  { apply find_block_spec in Ef as [Eh _]. by apply Hrec; auto. }
  destruct (request_block (blk_PrevHash nb) ans m) as [[[[b|] ans1] m1]| |] eqn:Er; try done.
  - pose proof (request_block_inv _ _ _ _ _ _ Er) as (Hs&Hin&Hb&_).
    apply Hrec; [|done|done]. destruct (Hb b eq_refl) as [(?&?&?)|(?&?)]; auto.
  - intros [= <- <- <-]. by apply request_block_inv in Er as (?&_).
Qed.

(** Blocks that the collection may meet: the new one, the stash, the answers.
    A block found under the hash its child names is lower than the child. *)
Record grounded (U : list Block) (B : Z) : Prop := {
  gr_height b : b ∈ U -> 0 <= blk_Height b < B;
  gr_link b p : b ∈ U -> p ∈ U -> blk_Hash p = blk_PrevHash b -> blk_Height p < blk_Height b
}.

Lemma getNewChain_ends U B fuel ans nb acc m : grounded U B ->
  nb ∈ U -> (forall x, x ∈ stash m -> x ∈ U) -> (forall x, Some x ∈ ans -> x ∈ U) ->
  openblocks (db m) = ∅ ->
  Z.of_nat (length ans) * B + blk_Height nb < Z.of_nat fuel ->
  is_Some (match getNewChain fuel ans nb acc m with Done x => Some x | _ => None end).
Proof.
  intros [Hh Hl]. revert ans nb acc m. induction fuel as [|fuel IH]; intros ans nb acc m Hnb Hst Hans Hop Hf.
  { pose proof (Hh nb Hnb). nia. }
  pose proof (Hh nb Hnb). rewrite getNewChain_unfold. destruct (parent _ _); [by eexists|].
  rewrite Hop, lookup_empty.
  destruct (find_block (blk_PrevHash nb) (stash m)) as [b|] eqn:Ef.
  { apply find_block_spec in Ef as [Eh Hb%Hst]. apply IH; [done..|]. pose proof (Hl _ _ Hnb Hb Eh). lia. }
  destruct (request_block (blk_PrevHash nb) ans m) as [[[[b|] ans1] m1]| |] eqn:Er.
  - pose proof (request_block_inv _ _ _ _ _ _ Er) as ((_&Hd&_)&Hin&Hb&Hs).
    destruct (Hb b eq_refl) as [(Eh&Hb'&->)|(Hb'&Hlt)].
    + pose proof (find_none _ _ Ef b) as Hn. cbn beta in Hn. rewrite bool_decide_eq_true_2 in Hn by done.
      by apply list_elem_of_In, Hn in Hb'.
    + pose proof (Hh b (Hans _ Hb')). apply IH; [by apply Hans| |naive_solver|by rewrite Hd|nia].
      intros x Hx. destruct (Hs x Hx) as [?|?]; auto.
  - by eexists.
  - destruct ans as [|[]]; discriminate Er.
  - destruct ans as [|[]]; discriminate Er.
Qed.

(** ** The blocks to take back *)

Lemma blocks_to_rollback_spec fuel a t m r m' : blocks_to_rollback fuel a t m = Done (r, m') ->
  m' = m /\ forall l, r = Some l ->
    exists e, back (db m) t l e /\ same_block e a = true /\ forall b, b ∈ l -> same_block b a = false.
Proof.
  revert t r m'. induction fuel as [|fuel IH]; intros t r m' H; [done|]. cbn [blocks_to_rollback] in H.
  fold (same_block t a) in H. destruct (same_block t a) eqn:Es.
  { injection H as <- <-. split; [done|]. intros l [= <-]. exists t. repeat split; [constructor|done|set_solver]. }
  unfold mbind, M_bind in H. rewrite read_parent_run in H.
  destruct (parent (db m) t) as [p|] eqn:Ep; [|by injection H as <- <-].
  destruct (blocks_to_rollback fuel a p m) as [[rest m1]| |] eqn:E; try done.
  apply IH in E as [-> Hr]. injection H as <- <-. split; [done|].
  intros l Hl. destruct rest as [l'|]; [|done]. injection Hl as <-.
  destruct (Hr l' eq_refl) as (e&Hb&He&Hn). exists e. split; [by econstructor|]. split; [done|].
  intros b [->|?]%elem_of_cons; auto.
Qed.

(** Parents are lower: the property that makes the walks end. *)
Definition lower_parent (d : Buckets) (b : Block) : Prop :=
  forall p, parent d b = Some p -> 0 <= blk_Height p < blk_Height b.

Definition stored (d : Buckets) (b : Block) : Prop :=
  exists h, closedblocks d !! h = Some b \/ closedblockswithouttx d !! h = Some b.

Definition descending (d : Buckets) : Prop := forall b, stored d b -> lower_parent d b.

Lemma parent_stored d b p : parent d b = Some p -> stored d p.
Proof. unfold parent. destruct (closedblocks d !! _) eqn:E; intros H; simplify_eq; eexists; eauto. Qed.

Lemma blocks_to_rollback_ends fuel a t m : descending (db m) -> lower_parent (db m) t ->
  blk_Height t < Z.of_nat fuel -> 0 <= blk_Height t -> exists r, blocks_to_rollback fuel a t m = Done (r, m).
Proof.
  intros Hd. revert t. induction fuel as [|fuel IH]; intros t Hlt Hf Ht; [lia|]. cbn [blocks_to_rollback].
  case_match; [by eexists|]. unfold mbind, M_bind. rewrite read_parent_run.
  destruct (parent (db m) t) as [p|] eqn:Ep; [|by eexists].
  destruct (Hlt _ Ep). destruct (IH p) as [r ->]; [by apply Hd, (parent_stored _ t)|lia..|]. by eexists.
Qed.

(** The search as a whole. *)
Lemma getBlockSequences_inv fuel ans nb m rb val e ans' m' :
  getBlockSequences fuel ans nb m = Done ((rb, val, e, ans'), m') ->
  exists r m1, getNewChain fuel ans nb [] m = Done ((r, ans'), m1) /\ m' = m1 /\
    match e with
    | Some _ => rb = [] /\ val = []
    | None => exists a t, r = Some (a, val) /\ current_block m1 = Some t /\
        blocks_to_rollback fuel a t m1 = Done (Some rb, m1) /\ (length rb < length val)%nat
    end.
Proof.
  unfold getBlockSequences. intros H. unfold mbind, M_bind in H.
  destruct (getNewChain fuel ans nb [] m) as [[[r ans1] m1]| |] eqn:Eg; try done.
  destruct r as [[a l]|]; [|injection H as <- <- <- <- <-; by eexists _, _].
  assert (Hc : (match lastBlock (chain m1) with Some b => mret (Some b) | None => ReadLastClosedBlock end : M Miner (option Block)) m1
     = Done (current_block m1, m1)) by (unfold current_block; by destruct (lastBlock (chain m1))).
  cbn [gets] in H. rewrite Hc in H.
  destruct (current_block m1) as [t|] eqn:Et; [|injection H as <- <- <- <- <-; by eexists _, _].
  destruct (blocks_to_rollback fuel a t m1) as [[[rb1|] m2]| |] eqn:Er; try done;
    pose proof (blocks_to_rollback_spec _ _ _ _ _ _ Er) as [-> _];
    [|injection H as <- <- <- <- <-; by eexists _, _].
  destruct (Nat.leb (length l) (length rb1)) eqn:El; injection H as <- <- <- <- <-; [by eexists _, _|].
  apply Nat.leb_gt in El. eexists _, _. split; [done|]. split; [done|]. by exists a, t.
Qed.

(** ** Walking back to the genesis block *)

Definition same_hash (lo b : Block) : bool := bool_decide (blk_Hash b = blk_Hash lo).

Lemma walk_back_path fuel ans hi lo l z m : back (db m) hi l z ->
  (forall b, b ∈ l -> 0 < blk_Height b) -> blk_Height z <= 0 -> (length l <= fuel)%nat ->
  walk_back fuel ans hi lo m = Done ((existsb (same_hash lo) (tail (l ++ [z])), ans), m).
Proof.
  intros Hb. revert fuel. induction Hb as [b|b p l a Ep Hb IH]; intros fuel Hl Hz Hf.
  { destruct fuel; cbn; (rewrite (proj2 (Z.ltb_ge 0 _)) by lia); done. }
  destruct fuel as [|fuel]; [simpl in Hf; lia|].
  cbn [walk_back]. rewrite (proj2 (Z.ltb_lt 0 (blk_Height b))) by (apply Hl; by left). cbn [negb].
  unfold mbind, M_bind. rewrite read_parent_run, Ep. cbn.
  assert (Hh : l ++ [a] = p :: tail (l ++ [a])) by (destruct Hb; done).
  rewrite Hh. cbn. unfold same_hash at 1. case_bool_decide; [done|].
  apply IH; [set_solver|done|simpl in Hf; lia].
Qed.

(** [b1] and [b2] are on one chain when the lower one is met on the way back
    from the higher one. *)
Definition in_same_chain (lo : Block) (l : list Block) (z : Block) : bool := existsb (same_hash lo) (tail (l ++ [z])).

Lemma IsInSameChain_path fuel ans b1 b2 l z m : blk_Height b2 < blk_Height b1 ->
  back (db m) b1 l z -> (forall b, b ∈ l -> 0 < blk_Height b) -> blk_Height z <= 0 -> (length l <= fuel)%nat ->
  IsInSameChain fuel ans (Some b1) (Some b2) m = Done ((in_same_chain b2 l z, ans), m) /\
  IsInSameChain fuel ans (Some b2) (Some b1) m = Done ((in_same_chain b2 l z, ans), m).
Proof.
  intros Hh Hb Hl Hz Hf. unfold IsInSameChain, mbind, M_bind. cbn [of_option mret M_ret].
  rewrite (proj2 (Z.eqb_neq _ _)), (proj2 (Z.eqb_neq (blk_Height b2) _)) by lia.
  rewrite (proj2 (Z.ltb_lt (blk_Height b2) _)), (proj2 (Z.ltb_ge (blk_Height b1) _)) by lia.
  split; by apply walk_back_path.
Qed.

Lemma in_same_chain_root lo l z : l <> [] -> blk_Hash lo = blk_Hash z -> in_same_chain lo l z = true.
Proof.
  intros Hl Hz. unfold in_same_chain. apply existsb_exists. exists z. split; [|by apply bool_decide_eq_true].
  destruct l as [|b l]; [done|]. simpl. rewrite in_app_iff. right. by left.
Qed.
