(* ===== verification/ForkProps.v ===== *)
(** * Properties of competing chains

    Which blocks are taken back and validated for a new block, when the search
    for them ends, and what the slashing rules can detect. *)

From stdpp Require Import sorting.
From S2P Require Import Prelude GoLib Format Chameleon Protocol BlockFields Node Storage Params StateChange Validation.
From S2P Require Import Ledger AddTx Aggregate LongestChain ChainLemmas LedgerProps.

(** ** The longest chain rule *)

(** C8: the longest chain rule.  When [getBlockSequences] succeeds only the pool
    (the stash of received blocks) has changed; the blocks to take back are
    exactly the current block and its parents down to the first one that is
    the common ancestor; the blocks to validate end with the new block, each
    parent among them has the hash its child names or was answered by the
    network, whose answers are taken whatever their hashes, and the first is a
    child of the ancestor, a validated block; and there are strictly more to
    validate than to take back. On an error both lists are empty. *)
Theorem sequences_spec fuel ans nb m rb val e ans' m' :
  getBlockSequences fuel ans nb m = Done ((rb, val, e, ans'), m') ->
  pool_only m m' /\
  match e with
  | Some _ => rb = [] /\ val = []
  | None =>
      (length rb < length val)%nat /\
      exists ancestor t top path first,
        current_block m = Some t /\ back (db m) t rb top /\ same_block top ancestor = true /\
        (forall b, b ∈ rb -> same_block b ancestor = false) /\
        val = rev path /\ chain_of ans nb path /\ last path = Some first /\
        parent (db m) first = Some ancestor
  end.
Proof.
  intros (r & m1 & Hg & -> & He)%getBlockSequences_inv. apply getNewChain_spec in Hg as [Hs Hr].
  split; [done|]. destruct e; [done|]. destruct He as (a&t&->&Ht&Hb&Hl). split; [done|].
  destruct Hs as (_&Hd&Hc). destruct Hr as (path&f&->&?&?&?).
  apply blocks_to_rollback_spec in Hb as [_ Hb]. destruct (Hb _ eq_refl) as (top&?&?&?).
  rewrite Hd in *. exists a, t, top, path, f. repeat split; try done.
  unfold current_block in *. by rewrite Hc, Hd in Ht.
Qed.

(** C37: the search for the chain of a new block ends, and never panics, when
    the open storage of blocks is empty, the parents of validated blocks and of
    the current one are lower than their children, and so are blocks of the stash and of the
    answers found under the hash a child names: fuel for the heights below
    [B], once per answer and twice more, is enough. *)
Theorem sequences_end U B fuel ans nb m :
  grounded U B -> nb ∈ U -> (forall x, x ∈ stash m -> x ∈ U) -> (forall x, Some x ∈ ans -> x ∈ U) ->
  openblocks (db m) = ∅ -> descending (db m) ->
  (forall t, current_block m = Some t -> 0 <= blk_Height t < B /\ lower_parent (db m) t) ->
  (Z.of_nat (length ans) + 1) * B <= Z.of_nat fuel ->
  exists r m', getBlockSequences fuel ans nb m = Done (r, m').
Proof.
  intros Hg Hnb Hst Hans Hop Hd Hcur Hf. pose proof (gr_height _ _ Hg nb Hnb).
  destruct (getNewChain_ends U B fuel ans nb [] m) as [[[r ans1] m1] E]; [done..|nia|].
  destruct (getNewChain fuel ans nb [] m) as [[[r' ans1'] m1']| |] eqn:En; try done. simplify_eq.
  pose proof (getNewChain_spec _ _ _ _ _ _ _ _ En) as [(_&Hdb&Hc) _].
  unfold getBlockSequences, mbind, M_bind. rewrite En. destruct r as [[a l]|]; [|by eexists _, _]. cbn [gets].
  assert (Hcb : current_block m1 = current_block m) by (unfold current_block; by rewrite Hdb, Hc).
  assert (Hrun : (match lastBlock (chain m1) with Some b => mret (Some b) | None => ReadLastClosedBlock end : M Miner (option Block)) m1
     = Done (current_block m1, m1)) by (unfold current_block; by destruct (lastBlock (chain m1))).
  rewrite Hrun. destruct (current_block m1) as [t|] eqn:Et; [|by eexists _, _].
  destruct (Hcur t) as [[??] Hlt]; [congruence|].
  destruct (blocks_to_rollback_ends fuel a t m1) as [[rb|] ->]; [by rewrite Hdb|by rewrite Hdb|nia|lia| |by eexists _, _].
  by destruct (Nat.leb (length l) (length rb)); eexists _, _.
Qed.

(** The search does not end for some blocks.  When the parent of a block is
    not validated, and is in the open storage, or is the block itself in the
    stash (where every received block is put), [getNewChain] runs for ever. *)
Theorem new_chain_hangs fuel ans nb acc m :
  parent (db m) nb = None ->
  is_Some (openblocks (db m) !! blk_PrevHash nb) \/ find_block (blk_PrevHash nb) (stash m) = Some nb ->
  getNewChain fuel ans nb acc m = Timeout.
Proof.
  intros Hp H. revert acc. induction fuel as [|fuel IH]; intros acc; [done|].
  rewrite getNewChain_unfold, Hp.
  destruct (openblocks (db m) !! blk_PrevHash nb); [apply IH|].
  destruct H as [[? ?]|E]; [done|]. rewrite E. apply IH.
Qed.

(** ** Slashing *)

Section slashing.
Context {GS : GoSort} {SL : GoSortLaws}.

Lemma lowest_first l g : g ∈ l ->
  exists x l', sort_Sort height_less l = Some (x :: l') /\ x ∈ l /\ blk_Height x <= blk_Height g.
Proof.
  intros Hg. destruct (sort_total height_less l) as [l1 E]; [intros; by eexists|].
  pose proof (sort_perm _ _ _ E) as Hp. pose proof (sort_sorted _ _ _ (height_strict_weak l) E) as Hs.
  rewrite <-Hp in Hg. apply list_elem_of_lookup in Hg as [i Hi].
  destruct l1 as [|x l1]; [done|]. exists x, l1. split; [done|]. split; [rewrite <-Hp; by left|].
  destruct i as [|i]; [simpl in Hi; injection Hi as ->; lia|].
  assert (Hn : ~ lt_of height_less g x) by (eapply (Hs 0%nat (S i)); [lia|done..]).
  apply Z.nlt_ge. intros Hlt. apply Hn. unfold lt_of, height_less. f_equal. by apply Z.ltb_lt.
Qed.

(** Slashing is never detected.  The blocks are compared from the lowest
    one on, and the search returns at the first one on the same chain: when the
    genesis block is closed and the only one of height 0, and the block leads
    back to it, [seekSlashingProof] changes nothing, whatever was voted for. *)
Theorem slashing_never_detected fuel ans b l g m :
  back (db m) b l g -> (forall x, x ∈ l -> 0 < blk_Height x) -> blk_Height g = 0 -> 0 < blk_Height b ->
  (length l <= fuel)%nat ->
  g ∈ read_all_closed_blocks m ->
  (forall x, x ∈ read_all_closed_blocks m -> blk_Height x <= 0 -> blk_Hash x = blk_Hash g) ->
  exists e, seekSlashingProof fuel ans b m = Done ((e, ans), m).
Proof.
  intros Hb Hl Hg Hh Hf Hin Huniq. unfold seekSlashingProof, mbind, M_bind, ReadLastClosedBlock. cbn [gets].
  destruct (snd <$> head (ForEach (lastclosedblock (db m)))) as [last_|]; [|by eexists].
  case_match; [by eexists|]. unfold ReadAllClosedBlocks, mbind, M_bind. cbn [gets].
  destruct (lowest_first _ _ Hin) as (x&l'&->&Hx&Hxg). cbn [of_option mret M_ret seek_in].
  pose proof (Huniq x Hx ltac:(lia)) as Hhash.
  destruct (IsInSameChain_path fuel ans b x l g m) as [_ Hs]; [lia|done..|lia|done|].
  unfold mbind, M_bind. rewrite Hs, in_same_chain_root; [by eexists| |done].
  destruct Hb; [lia|done].
Qed.

(** The block with a hash, as [slashingCheck] looks it up. *)
Definition known (d : Buckets) (h hWithoutTx : hash) : option Block :=
  match closedblocks d !! h with Some b => Some b | None => closedblockswithouttx d !! hWithoutTx end.

Lemma read_conflicting_run h w m : read_conflicting h w m = Done (known (db m) h w, m).
Proof. unfold read_conflicting, known, mbind, M_bind. cbn. by destruct (closedblocks (db m) !! h). Qed.

(** The higher block leads to genesis without meeting the lower one. *)
Definition apart (fuel : nat) (d : Buckets) (b1 b2 : Block) : Prop :=
  blk_Height b1 = blk_Height b2 \/
  exists hi lo l z, ((hi = b1 /\ lo = b2) \/ (hi = b2 /\ lo = b1)) /\ blk_Height lo < blk_Height hi /\
    back d hi l z /\ (forall x, x ∈ l -> 0 < blk_Height x) /\ blk_Height z <= 0 /\ (length l <= fuel)%nat /\
    in_same_chain lo l z = false.

Lemma apart_run fuel ans b1 b2 m : apart fuel (db m) b1 b2 ->
  IsInSameChain fuel ans (Some b1) (Some b2) m = Done ((false, ans), m).
Proof.
  intros [He|(hi&lo&l&z&[[-> ->]|[-> ->]]&Hlt&Hb&Hl&Hz&Hf&Hn)].
  - unfold IsInSameChain, mbind, M_bind. cbn [of_option mret M_ret]. by rewrite (proj2 (Z.eqb_eq _ _) He).
  - destruct (IsInSameChain_path fuel ans b1 b2 l z m) as [-> _]; [done..|]. by rewrite Hn.
  - destruct (IsInSameChain_path fuel ans b2 b1 l z m) as [_ ->]; [done..|]. by rewrite Hn.
Qed.

(** C39: the check of a slashing proof.  For two different hashes, neither
    zero: when both blocks are known and on different chains, the proof is
    accepted exactly when their heights are within the window, whoever the
    validator to be slashed is, even if he signed neither block; when one of
    them is not known, which is the case when it belongs to a chain that was
    abandoned, the check panics. *)
Theorem slashing_check_spec fuel ans slashedAddress h1 h2 w1 w2 m :
  h1 <> zero_hash -> h2 <> zero_hash -> h1 <> h2 ->
  let window := SlashingWindowSize (activeParameters (chain m)) in
  match known (db m) h1 w1, known (db m) h2 w2 with
  | Some b1, Some b2 => apart fuel (db m) b1 b2 ->
      if blk_Height b1 <? u32 (u32 window + blk_Height b2) then
        slashingCheck fuel ans slashedAddress h1 h2 w1 w2 m =
          Done ((true, None, ans), upd_chain (upd_slashingDict (delete slashedAddress)) m)
      else exists e, slashingCheck fuel ans slashedAddress h1 h2 w1 w2 m = Done ((false, Some e, ans), m)
  | _, _ => slashingCheck fuel ans slashedAddress h1 h2 w1 w2 m = Panic
  end.
Proof.
  intros H1 H2 Hne window. unfold slashingCheck.
  rewrite !bool_decide_eq_false_2 by done. cbn [orb]. unfold mbind, M_bind. rewrite !read_conflicting_run.
  destruct (known (db m) h1 w1) as [b1|], (known (db m) h2 w2) as [b2|]; try done.
  intros Ha. rewrite (apart_run _ _ _ _ _ Ha). cbn. fold window.
  destruct (blk_Height b1 <? _); [done|by eexists].
Qed.
End slashing.

(** ** Witnesses *)

Module Fork.
Import Toy.
#[global] Instance gosort : GoSort := insertion_GoSort.
#[global] Instance gosort_laws : GoSortLaws := insertion_GoSortLaws.

(** Block [n] over block [p]. *)
Definition blk (n p height : Z) : Block :=
  upd_blk_Hash (fun _ => key n) (upd_blk_HashWithoutTx (fun _ => key (n + 100))
    (upd_blk_Beneficiary (fun _ => key 3) (newBlock (key p) (key (p + 100)) (zeros 256) height))).

Definition g : Block := blk 10 9 0.
Definition a1 : Block := blk 11 10 1.
Definition a2 : Block := blk 12 11 2.
Definition b1 : Block := blk 21 10 1.
Definition b2 : Block := blk 22 21 2.
Definition b3 : Block := blk 23 22 3.

Definition closed (l : list Block) (last : Block) : Buckets :=
  upd_lastclosedblock (fun _ => {[blk_Hash last := last]})
    (upd_closedblocks (fun _ => list_to_map (map (fun b => (blk_Hash b, b)) l)) no_buckets).
Definition with_blocks (l : list Block) (last : Block) (st : list Block) (m : Miner) : Miner :=
  upd_pool (upd_ReceivedBlockStash (fun _ => st)) (upd_db (fun _ => closed l last) m).

(** The chain [g, a1, a2] with [b1] received before; [b2] is on its way. *)
Definition m : Miner := with_blocks [g; a1; a2] a2 [b1] m0.

Definition hashes (r : outcome ((list Block * list Block * error * answers) * Miner)) : option (list hash * list hash) :=
  match r with
  | Done ((rb, val, None, _), _) => Some (map blk_Hash rb, map blk_Hash val)
  | _ => None
  end.

Lemma hashes_done r x : hashes r = Some x -> exists rb val ans m', r = Done ((rb, val, None, ans), m') /\
  (map blk_Hash rb, map blk_Hash val) = x.
Proof. destruct r as [ [ [ [ [rb val] [?|]] ans] m']| |]; try done. intros [= <-]. by exists rb, val, ans, m'. Qed.

Definition universe : list Block := [b1; b2; b3].

Lemma universe_grounded : grounded universe 4.
Proof.
  split.
  - intros b Hb. unfold universe in Hb. repeat (apply elem_of_cons in Hb as [->|Hb]; [by vm_compute|]). by apply elem_of_nil in Hb.
  - intros b p Hb Hp. unfold universe in Hb, Hp.
    repeat (apply elem_of_cons in Hb as [->|Hb]); try (by apply elem_of_nil in Hb);
      repeat (apply elem_of_cons in Hp as [->|Hp]); try (by apply elem_of_nil in Hp);
      try (intros He%(f_equal (map bval)); vm_compute in He; discriminate He); by vm_compute.
Qed.

Lemma lower_dec d b : match parent d b with
  | Some p => (0 <=? blk_Height p) && (blk_Height p <? blk_Height b) | None => true end = true -> lower_parent d b.
Proof.
  intros H p E. rewrite E in H. apply andb_true_iff in H as [H1%Z.leb_le H2%Z.ltb_lt]. by split.
Qed.

Lemma m_descending : descending (db m).
Proof.
  intros b [h [H|H]]; [|change ((∅ : gmap hash Block) !! h = Some b) in H; by rewrite lookup_empty in H].
  apply elem_of_list_to_map_2 in H. cbn [map] in H.
  repeat (apply elem_of_cons in H as [ [= _ ->]|H]; [apply lower_dec; by vm_compute|]). by apply elem_of_nil in H.
Qed.

Lemma current_m : current_block m = Some a2.
Proof. vm_compute. reflexivity. Qed.
End Fork.

Section witnesses.
Import Toy Fork.

Lemma sequences_spec_witness : exists rb val ans' m',
  getBlockSequences 10 [Some b2] b3 m = Done ((rb, val, None, ans'), m') /\
  map blk_Hash rb = [key 12; key 11] /\ map blk_Hash val = [key 21; key 22; key 23] /\
  (length rb < length val)%nat.
Proof.
  destruct (hashes_done (getBlockSequences 10 [Some b2] b3 m) ([key 12; key 11], [key 21; key 22; key 23]))
    as (rb&val&ans&m'&H&[= E1 E2]); [vm_compute; reflexivity|].
  exists rb, val, ans, m'. split; [exact H|]. split; [exact E1|]. split; [exact E2|].
  exact (proj1 (proj2 (sequences_spec _ _ _ _ _ _ _ _ _ H))).
Defined.

Lemma sequences_end_witness : exists r m', getBlockSequences 8 [Some b2] b3 m = Done (r, m').
Proof.
  apply (sequences_end universe 4).
  - exact universe_grounded.
  - unfold universe. right. right. left.
  - intros x Hx. unfold universe. cbn in Hx. apply list_elem_of_singleton in Hx as ->. left.
  - intros x Hx. unfold universe. apply list_elem_of_singleton in Hx as [= ->]. right. left.
  - reflexivity.
  - exact m_descending.
  - intros t. rewrite current_m. intros E. injection E as <-. split; [by vm_compute|]. apply lower_dec. by vm_compute.
  - reflexivity.
Defined.

(** [b1] with the parent [b2] that is open; a block over itself. *)
Definition loop_block : Block := blk 21 21 1.

Lemma new_chain_hangs_witness :
  getNewChain 1000 [] loop_block [] (with_blocks [g; a1; a2] a2 [loop_block] m0) = Timeout.
Proof.
  apply (new_chain_hangs 1000).
  - vm_compute. reflexivity.
  - right. vm_compute. reflexivity.
Defined.

(** [b1] voted against [a1], by the same validator. *)
Lemma slashing_never_detected_witness : exists e, seekSlashingProof 5 [] b1 m = Done ((e, []), m).
Proof.
  apply (slashing_never_detected 5 [] b1 [b1] g m).
  - apply back_step with g; [vm_compute; reflexivity|]. apply back_here.
  - intros x Hx. apply list_elem_of_singleton in Hx as ->. by vm_compute.
  - reflexivity.
  - by vm_compute.
  - simpl. lia.
  - apply list_elem_of_In. vm_compute. left. reflexivity.
  - intros x Hx Hh. apply list_elem_of_In in Hx. vm_compute in Hx.
    repeat (destruct Hx as [<-|Hx]; [try reflexivity; exfalso; revert Hh; vm_compute; intros Hh; apply Hh; reflexivity|]).
    destruct Hx.
Defined.

Definition m_fork : Miner := with_blocks [g; a1; b1] a1 [] m0.

(** [a1] and the block [b1] of another chain, not known; both of them known. *)
Lemma slashing_check_spec_witness :
  slashingCheck 5 [] (key 7) (key 11) (key 21) zero_hash zero_hash m = Panic /\
  slashingCheck 5 [] (key 7) (key 11) (key 21) zero_hash zero_hash m_fork =
    Done ((true, None, []), upd_chain (upd_slashingDict (delete (key 7))) m_fork).
Proof.
  assert (H1 : key 11 <> zero_hash) by (intros H%(f_equal (map bval)); vm_compute in H; discriminate H).
  assert (H2 : key 21 <> zero_hash) by (intros H%(f_equal (map bval)); vm_compute in H; discriminate H).
  assert (H3 : key 11 <> key 21) by (intros H%(f_equal (map bval)); vm_compute in H; discriminate H).
  assert (K0 : known (db m) (key 21) zero_hash = None) by (vm_compute; reflexivity).
  assert (K0' : known (db m) (key 11) zero_hash = Some a1) by (vm_compute; reflexivity).
  assert (K1 : known (db m_fork) (key 11) zero_hash = Some a1) by (vm_compute; reflexivity).
  assert (K2 : known (db m_fork) (key 21) zero_hash = Some b1) by (vm_compute; reflexivity).
  assert (Hw : blk_Height a1 <? u32 (u32 (SlashingWindowSize (activeParameters (chain m_fork))) + blk_Height b1) = true)
    by (vm_compute; reflexivity).
  split.
  - pose proof (slashing_check_spec 5 [] (key 7) (key 11) (key 21) zero_hash zero_hash m H1 H2 H3) as H.
    rewrite K0, K0' in H. exact H.
  - pose proof (slashing_check_spec 5 [] (key 7) (key 11) (key 21) zero_hash zero_hash m_fork H1 H2 H3) as H.
    rewrite K1, K2 in H. cbv zeta in H. rewrite Hw in H. apply H. left. reflexivity.
Defined.
End witnesses.
