(* ===== verification/Fetch.v ===== *)
(** * Fetching the transactions of a block

    fetch_transactions.go and the fetch functions of block_accounttx.go,
    block_fundstx.go, block_configtx.go, block_staketx.go, block_updatetx.go
    and block_aggregatetx.go. The answers of the network are an argument. The
    six goroutines work on different lists; they run here one after the other,
    in the order in which they are started, and each to its end. *)

From S2P Require Import Prelude Format Chameleon Protocol Node Storage Params StateChange Validation Verify.

(** The answer to a request: an error, a transaction on a channel, or none in
    time, with the transactions stashed by then. *)
Inductive reply (T : Type) :=
  | ReqFailed (err : string)
  | Got (tx : T)
  | NoReply (fundsStash : list FundsTx) (aggStash : list AggTx).
Arguments ReqFailed {T}.
Arguments Got {T}.
Arguments NoReply {T}.

(** By hash, and for the requests that are repeated by attempt. *)
Record network := mkNetwork {
  ask_acc : hash -> reply AccTx;
  ask_funds : hash -> reply FundsTx;
  ask_config : hash -> reply ConfigTx;
  ask_stake : hash -> reply StakeTx;
  ask_update : hash -> reply UpdateTx;
  ask_agg : hash -> nat -> reply AggTx;
  ask_unknown : hash -> nat -> reply (AggTx + FundsTx)
}.

Definition as_update (tx : Transaction) := match tx with TUpdate t => Some t | _ => None end.

(** What one turn of a loop does: stop with an error, or set the element, which
    may be nil, after sending errors that do not stop the loop. *)
Inductive fetched (T : Type) :=
  | Stop (err : string)
  | Item (errs : list string) (t : option T).
Arguments Stop {T}.
Arguments Item {T}.

(** [slice[cnt] = t] *)
Definition set_at {T} (cnt : nat) (t : option T) (slice : list (option T)) : M Miner (list (option T)) :=
  if Nat.ltb cnt (length slice) then mret (<[cnt := t]> slice) else panic.

(** The loop over the hashes; the errors are those sent on [errChan]. *)
Fixpoint fetch_loop {T} (one : hash -> M Miner (fetched T)) (cnt : nat) (hs : list hash)
    (slice : list (option T)) : M Miner (list string * list (option T)) :=
  match hs with
  | [] => mret ([], slice)
  | txHash :: hs =>
      r ← one txHash;
      match r with
      | Stop e => mret ([e], slice)
      | Item errs t =>
          slice ← set_at cnt t slice;
          rest ← fetch_loop one (S cnt) hs slice;
          mret (errs ++ fst rest, snd rest)
      end
  end.

Section fetch.
Context {DG : Digests} {DL : DigestLaws} {SG : Signatures} {NK : NodeKeys}.
Context (net : network) (initialSetup : bool).

(** The hash of a nil transaction is zero. *)
Definition hash_or_zero {T} (inj : T -> Transaction) (t : option T) : M Miner hash :=
  match t with Some t => tx_hash (inj t) | None => mret zero_hash end.

Definition received_check {T} (inj : T -> Transaction) (msg : string) (txHash : hash) (errs : list string)
    (t : option T) : M Miner (fetched T) :=
  h ← hash_or_zero inj t;
  mret (Item (errs ++ if bool_decide (h = txHash) then [] else [msg]) t).

(** A transaction that is closed is taken only during the initial setup. *)
Definition unless_closed {T} (assert_type : Transaction -> option T) (msg : string) (txHash : hash)
    (otherwise : M Miner (fetched T)) : M Miner (fetched T) :=
  closedTx ← ReadClosedTx txHash;
  match closedTx with
  | Some closedTx =>
      if initialSetup then t ← of_option (assert_type closedTx); mret (Item [] (Some t))
      else mret (Stop msg)
  | None => otherwise
  end.

Definition or_open {T} (assert_type : Transaction -> option T) (txHash : hash)
    (request : M Miner (fetched T)) : M Miner (fetched T) :=
  tx ← ReadOpenTx txHash;
  match tx with
  | Some tx => t ← of_option (assert_type tx); mret (Item [] (Some t))
  | None => request
  end.

(** After a timeout the loops over account and update transactions go on with
    nil, those over configurations and stakes stop. *)
Definition fetch_acc (txHash : hash) : M Miner (fetched AccTx) :=
  unless_closed as_acc "Block validation had accTx that was already in a previous block." txHash
    (or_open as_acc txHash
      (let mismatch := "Received AcctxHash did not correspond to our request."%string in
       match ask_acc net txHash with
       | ReqFailed e => mret (Stop ("AccTx could not be read: " +:+ e))
       | Got t => received_check TAcc mismatch txHash [] (Some t)
       | NoReply _ _ => received_check TAcc mismatch txHash ["AccTx fetch timed out."%string] None
       end)).

Definition fetch_config (txHash : hash) : M Miner (fetched ConfigTx) :=
  unless_closed as_config "Block validation had configTx that was already in a previous block." txHash
    (or_open as_config txHash
      (match ask_config net txHash with
       | ReqFailed e => mret (Stop ("ConfigTx could not be read: " +:+ e))
       | Got t => received_check TConfig "Received ConfigtxHash did not correspond to our request." txHash [] (Some t)
       | NoReply _ _ => mret (Stop "ConfigTx fetch timed out.")
       end)).

Definition fetch_stake (txHash : hash) : M Miner (fetched StakeTx) :=
  unless_closed as_stake "Block validation had stakeTx that was already in a previous block." txHash
    (or_open as_stake txHash
      (match ask_stake net txHash with
       | ReqFailed e => mret (Stop ("StakeTx could not be read: " +:+ e))
       | Got t => received_check TStake "Received StaketxHash did not correspond to our request." txHash [] (Some t)
       | NoReply _ _ => mret (Stop "StakeTx fetch timed out.")
       end)).

Definition fetch_update (txHash : hash) : M Miner (fetched UpdateTx) :=
  unless_closed as_update "Block validation had updateTx that was already in a previous block." txHash
    (or_open as_update txHash
      (let mismatch := "Received UpdateTx hash did not correspond to our request."%string in
       match ask_update net txHash with
       | ReqFailed e => mret (Stop ("UpdateTx could not be read: " +:+ e))
       | Got t => received_check TUpdate mismatch txHash [] (Some t)
       | NoReply _ _ => received_check TUpdate mismatch txHash ["UpdateTx fetch timed out."%string] None
       end)).

(** The first stashed transaction with the hash; hashing may panic. *)
Fixpoint in_stash {T} (inj : T -> Transaction) (txHash : hash) (stash : list T) : M Miner (option T) :=
  match stash with
  | [] => mret None
  | tx :: stash =>
      h ← tx_hash (inj tx);
      if bool_decide (h = txHash) then mret (Some tx) else in_stash inj txHash stash
  end.

(** The open pool, the pool of invalid transactions, the network, the stash. *)
Definition fetch_funds (txHash : hash) : M Miner (fetched FundsTx) :=
  closedTx ← ReadClosedTx txHash;
  match closedTx with
  | Some closedTx =>
      if initialSetup then t ← of_option (as_funds closedTx); mret (Item [] (Some t))
      else tx_hash closedTx;; mret (Stop "Block validation had fundsTx that was already in a previous block.")
  | None =>
      tx ← ReadOpenTx txHash;
      txINVALID ← ReadINVALIDOpenTx txHash;
      valid ← match (tx : option Transaction), (txINVALID : option Transaction) with
              | None, Some t => r ← verify t; mret (snd r)
              | _, _ => mret false
              end;
      let mismatch := "Received FundstxHash did not correspond to our request."%string in
      match tx, txINVALID, (valid : bool) with
      | Some tx, _, _ => t ← of_option (as_funds tx); mret (Item [] (Some t))
      | None, Some t, true => t ← of_option (as_funds t); mret (Item [] (Some t))
      | None, _, _ =>
          match ask_funds net txHash with
          | ReqFailed e => mret (Stop ("FundsTx could not be read: " +:+ e))
          | Got t =>
              WriteOpenTx (TFunds t);;
              (if initialSetup then WriteBootstrapTxReceived (TFunds t) else mret tt);;
              received_check TFunds mismatch txHash [] (Some t)
          | NoReply stash _ =>
              found ← in_stash TFunds txHash stash;
              match found with
              | Some t => received_check TFunds mismatch txHash [] (Some t)
              | None => mret (Stop "FundsTx fetch timed out")
              end
          end
      end
  end.

(** ** Aggregations *)

(** A transaction that is neither closed nor in a pool. When the request times
    out, a transaction known as an aggregation is looked for among the funds
    transactions, and the nil result is hashed. *)
Definition fetch_unknown (txHash : hash) : M Miner (string + Transaction) :=
  r ← match ask_unknown net txHash 0 with
      | ReqFailed e => mret (inl ("RECURSIVE Tx could not be read: " +:+ e)%string)
      | Got (inl t) => mret (inr (Some (TAgg t)))
      | Got (inr t) => mret (inr (Some (TFunds t)))
      | NoReply stash aggTxStash =>
          funds ← in_stash TFunds txHash stash;
          match funds with
          | Some t => mret (inr (Some (TFunds t)))
          | None =>
              agg ← in_stash TAgg txHash aggTxStash;
              match agg with
              | Some _ => trx ← in_stash TFunds txHash stash; mret (inr (TFunds <$> trx))
              | None => mret (inl "RECURSIVE UnknownTx fetch timed out"%string)
              end
          end
      end;
  match (r : string + option Transaction) with
  | inl e => mret (inl e)
  | inr tx =>
      tx ← of_option tx;
      h ← tx_hash tx;
      if negb (bool_decide (h = txHash)) then
        mret (inl "RECURSIVE Received TxHash did not correspond to our request."%string)
      else WriteOpenTx tx;; mret (inr tx)
  end.

(** The error of the last recursive call is the one that is returned; the
    fuel bounds the depth of aggregations in aggregations. *)
Fixpoint fetchFundsTxRecursively (fuel : nat) (AggregatedTxSlice : list hash) {struct fuel}
    : M Miner (error * list FundsTx) :=
  match fuel with
  | O => timeout
  | S fuel =>
      (fix go (hs : list hash) (err : error) (acc : list FundsTx) : M Miner (error * list FundsTx) :=
         match hs with
         | [] => mret (match err with None => (None, acc) | Some e => (Some e, []) end)
         | txHash :: hs =>
             tx ← ReadClosedTx txHash;
             tx ← match tx with Some t => mret (Some t) | None => ReadOpenTx txHash end;
             tx ← match (tx : option Transaction) with Some t => mret (Some t) | None => ReadINVALIDOpenTx txHash end;
             r ← match (tx : option Transaction) with
                 | Some t => mret (inr t)
                 | None => fetch_unknown txHash
                 end;
             match (r : string + Transaction) with
             | inl e => mret (Some e, [])
             | inr (TFunds t) => go hs err (acc ++ [t])
             | inr (TAgg t) =>
                 temp ← fetchFundsTxRecursively fuel (gtx_AggregatedTxSlice t);
                 go hs (fst temp) (acc ++ snd temp)
             | inr _ => go hs err acc
             end
         end) AggregatedTxSlice None []
  end.

(** At most three attempts, as [attempt] counts them. The result is an error
    that stops the loop, or the transaction. *)
Fixpoint request_agg (attempts attempt : nat) (aggTxHash : hash) : M Miner (string + AggTx) :=
  match ask_agg net aggTxHash attempt with
  | ReqFailed e => mret (inl ("AggTx could not be read: " +:+ e)%string)
  | Got t => WriteOpenTx (TAgg t);; mret (inr t)
  | NoReply _ stash =>
      found ← in_stash TAgg aggTxHash stash;
      match found with
      | Some t => mret (inr t)
      | None =>
          match attempts with
          | O => mret (inl "AggTx fetch timed out"%string)
          | S attempts => request_agg attempts (S attempt) aggTxHash
          end
      end
  end.

(** The transaction, and whether it is a new funds transaction. *)
Fixpoint request_unknown (attempts attempt : nat) (txHash : hash) : M Miner (string + Transaction) :=
  match ask_unknown net txHash attempt with
  | ReqFailed e => mret (inl ("Tx could not be read: " +:+ e)%string)
  | Got (inl t) => WriteOpenTx (TAgg t);; mret (inr (TAgg t))
  | Got (inr t) => WriteOpenTx (TFunds t);; mret (inr (TFunds t))
  | NoReply fundsTxStash aggTxStash =>
      agg ← in_stash TAgg txHash aggTxStash;
      match agg with
      | Some t => WriteOpenTx (TAgg t);; mret (inr (TAgg t))
      | None =>
          funds ← in_stash TFunds txHash fundsTxStash;
          match funds with
          | Some t => WriteOpenTx (TFunds t);; mret (inr (TFunds t))
          | None =>
              match attempts with
              | O => mret (inl "UnknownTx fetch timed out"%string)
              | S attempts => request_unknown attempts (S attempt) txHash
              end
          end
      end
  end.

(** The new funds transactions of one aggregation: closed ones are not needed,
    and an open aggregation was validated before. The pool of invalid
    transactions is read in a branch that is never taken. *)
Fixpoint new_aggregated (hs : list hash) (transactions : list FundsTx)
    : M Miner (list string * bool * list FundsTx) :=
  match hs with
  | [] => mret ([], false, transactions)
  | txHash :: hs =>
      closed ← ReadClosedTx txHash;
      match closed with
      | Some closed => tx_hash closed;; new_aggregated hs transactions
      | None =>
          tx ← ReadOpenTx txHash;
          match tx with
          | Some (TAgg _) => new_aggregated hs transactions
          | Some tx => t ← of_option (as_funds tx); new_aggregated hs (transactions ++ [t])
          | None =>
              r ← request_unknown 2 0 txHash;
              match r with
              | inl e => mret ([e], true, transactions)
              | inr tx =>
                  h ← tx_hash tx;
                  let errs := if bool_decide (h = txHash) then [] else
                    ["Received TxHash did not correspond to our request."%string] in
                  rest ← new_aggregated hs (match tx with TFunds t => transactions ++ [t] | _ => transactions end);
                  let '(errs', stop, transactions) := rest in
                  mret (errs ++ errs', stop, transactions)
              end
          end
      end
  end.

(** One aggregation of the block: where it comes from. *)
Definition find_agg (aggTxHash : hash) : M Miner (string + (list string * Transaction)) :=
  closed ← ReadClosedTx aggTxHash;
  refused ← match (closed : option Transaction) with
            | Some c =>
                if initialSetup then mret false
                else t ← of_option (as_agg c); mret (negb (gtx_Aggregated t))
            | None => mret false
            end;
  if (refused : bool) then mret (inl "Block validation had AggTx that was already in a previous block."%string)
  else
    aggTx ← match closed with Some t => mret (Some t) | None => ReadOpenTx aggTxHash end;
    aggTx ← match (aggTx : option Transaction) with Some t => mret (Some t) | None => ReadINVALIDOpenTx aggTxHash end;
    match (aggTx : option Transaction) with
    | Some t => mret (inr ([], t))
    | None =>
        r ← request_agg 2 0 aggTxHash;
        match (r : string + AggTx) with
        | inl e => mret (inl e)
        | inr t =>
            h ← tx_hash (TAgg t);
            mret (inr (if bool_decide (h = aggTxHash) then [] else
              ["Received AggTxHash did not correspond to our request."%string], TAgg t))
        end
    end.

(** During the initial setup the transactions of an aggregation replace those
    of the ones before it. *)
Fixpoint fetch_agg_loop (fuel cnt : nat) (hs : list hash) (slice : list (option AggTx))
    (transactions : list FundsTx) : M Miner (list string * list (option AggTx) * list FundsTx) :=
  match hs with
  | [] => mret ([], slice, transactions)
  | aggTxHash :: hs =>
      found ← find_agg aggTxHash;
      match found with
      | inl e => mret ([e], slice, transactions)
      | inr (errs, tx) =>
          aggTx ← of_option (as_agg tx);
          slice ← set_at cnt (Some aggTx) slice;
          let continue errs transactions :=
            rest ← fetch_agg_loop fuel (S cnt) hs slice transactions;
            let '(errs', slice, transactions) := rest in
            mret (errs ++ errs', slice, transactions) in
          if initialSetup then
            if gtx_Aggregated aggTx then continue errs transactions
            else
              r ← fetchFundsTxRecursively fuel (gtx_AggregatedTxSlice aggTx);
              match r with
              | (Some e, _) => mret (errs ++ [e], slice, transactions)
              | (None, transactions) => continue errs transactions
              end
          else
            r ← new_aggregated (gtx_AggregatedTxSlice aggTx) transactions;
            match r with
            | (errs', true, transactions) => mret (errs ++ errs', slice, transactions)
            | (errs', false, transactions) => continue (errs ++ errs') transactions
            end
      end
  end.

Definition fetchAccTxData (b : Block) := fetch_loop fetch_acc 0 (blk_AccTxData b).
Definition fetchFundsTxData (b : Block) := fetch_loop fetch_funds 0 (blk_FundsTxData b).
Definition fetchConfigTxData (b : Block) := fetch_loop fetch_config 0 (blk_ConfigTxData b).
Definition fetchStakeTxData (b : Block) := fetch_loop fetch_stake 0 (blk_StakeTxData b).
Definition fetchUpdateTxData (b : Block) := fetch_loop fetch_update 0 (blk_UpdateTxData b).
Definition fetchAggTxData (fuel : nat) (b : Block) (slice : list (option AggTx)) :=
  fetch_agg_loop fuel 0 (blk_AggTxData b) slice [].

(** The slices of a block before and after they are filled. *)
Record slices := mkSlices {
  s_acc : list (option AccTx);
  s_funds : list (option FundsTx);
  s_config : list (option ConfigTx);
  s_stake : list (option StakeTx);
  s_agg : list (option AggTx);
  s_aggregated : list FundsTx;
  s_update : list (option UpdateTx)
}.

(** [make([]*T, n)] *)
Definition make {T} (n : Z) : list (option T) := replicate (Z.to_nat n) None.

Definition make_slices (b : Block) : slices :=
  mkSlices (make (blk_NrAccTx b)) (make (blk_NrFundsTx b)) (make (blk_NrConfigTx b))
    (make (blk_NrStakeTx b)) (make (blk_NrAggTx b)) [] (make (blk_NrUpdateTx b)).

(** The first error in the order of the goroutines stands for the one that is
    received first. *)
Definition fetchTransactions (fuel : nat) (b : Block) (s : slices) : M Miner (error * slices) :=
  acc ← fetchAccTxData b (s_acc s);
  funds ← fetchFundsTxData b (s_funds s);
  config ← fetchConfigTxData b (s_config s);
  stake ← fetchStakeTxData b (s_stake s);
  update ← fetchUpdateTxData b (s_update s);
  agg ← fetchAggTxData fuel b (s_agg s);
  let '(aggErrs, aggSlice, transactions) := agg in
  match fst acc ++ fst funds ++ fst config ++ fst stake ++ fst update ++ aggErrs with
  | e :: _ => mret (Some e, mkSlices (snd acc) (snd funds) (snd config) (snd stake) aggSlice [] (snd update))
  | [] =>
      let aggregated := if Nat.ltb 0 (length aggSlice) then transactions else [] in
      mret (None, mkSlices (snd acc) (snd funds) (snd config) (snd stake) aggSlice aggregated (snd update))
  end.
End fetch.
