(* ===== verification/Validate.v ===== *)
(** * Validating a block, and mining one

    block_validation.go, [processBlock] of p2p_interface.go, [finalizeBlock]
    of block.go, and of blockchain.go a round of [mining], the root account
    and what follows the set-up of the state. What comes from outside is an
    argument: the clocks, the answers to requests for blocks and transactions,
    and the ticks of the proof of stake. *)

From S2P Require Import Prelude GoLib Format Chameleon Protocol Merkle BlockFields Node Storage Params StateChange.
From S2P Require Import Validation PoS Verify AddTx Aggregate BlockPrep LongestChain Fetch.

Definition DELAYED_BLOCKS : Z := 10.

(** The RSA operations of the Go library, on the hash of a message: the check
    with a modulus and an exponent, and the signature of this node. *)
Class Commitments := {
  rsa_VerifyPKCS1v15 : Z -> Z -> bytes -> bytes -> bool;
  rsa_SignPKCS1v15 : bytes -> string + bytes;
  rootCommitmentModulus : bytes
}.

Definition COMM_PUBLIC_EXPONENT : Z := 65537.

(** What a validation reads from outside: the time of the peers and the time
    of the node when a block of some height is checked, the transactions of
    other miners, whether this is the first node; with the fuel of the walks. *)
Record surroundings := mkSurroundings {
  systemTime : Z -> Z;
  clock : Z -> Z;
  tx_net : network;
  IsBootstrap : bool;
  walk_fuel : nat
}.

Section validate.
Context {DG : Digests} {DL : DigestLaws} {SO : SortOps} {FO : FloatOps} {SG : Signatures} {NK : NodeKeys}.
Context {GS : GoSort} {MO : MapOrder} {CM : Commitments}.

(** [crypto.CreateRSAPubKeyFromBytes]: it never fails. *)
Definition CreateRSAPubKeyFromBytes (bytModulus : bytes) : Z * Z := (be_val bytModulus, COMM_PUBLIC_EXPONENT).

Definition VerifyMessageWithRSAKey (pubKey : Z * Z) (msg : bytes) (fixedSig : bytes) : bool :=
  rsa_VerifyPKCS1v15 (fst pubKey) (snd pubKey) (sha256 msg) fixedSig.

(** The signature is copied to the start of an array. *)
Definition SignMessageWithRSAKey (msg : bytes) : string + bytes :=
  match rsa_SignPKCS1v15 (sha256 msg) with
  | inl e => inl e
  | inr sig => inr (take COMM_PROOF_LENGTH (sig ++ zeros COMM_PROOF_LENGTH))
  end.

(** The fuel is the number of hashes, which is enough. *)
Definition block_merkle_root (b : Block) : M Miner hash :=
  in_miner (match BuildMerkleTree (S (length (block_txHashes b))) b [] with
            | Done (t, _) => Done (MerkleRoot t)
            | Panic => Panic
            | Timeout => Timeout
            end).

(** ** Before the state is changed *)

Section prevalidate.
Context (env : surroundings).

(** The checks from the clock to the slashing proof, for a known validator. *)
Definition check_block (b : Block) (initialSetup uptodate : bool) (ans : answers) (acc : Account)
    : M Miner (error * answers) :=
  let fail e := mret (Some e, ans) in
  active ← gets (fun m => activeParameters (chain m));
  match (if negb initialSetup && uptodate then timestampCheck (systemTime env (blk_Height b)) (blk_Timestamp b) else None) with
  | Some e => fail e
  | None =>
  if BlockSize active <? GetSize b then fail "Block size too large."%string
  else match validateNoDuplicateTx b with
  | Some e => fail e
  | None =>
  if negb (VerifyMessageWithRSAKey (CreateRSAPubKeyFromBytes (acc_CommitmentKey acc))
             (fmt_int 10 (blk_Height b)) (blk_CommitmentProof b)) then
    fail "The submitted commitment proof can not be verified."%string
  else
    prevProofs ← GetLatestProofs (numIncludedPrevProofs active) b;
    pos ← (if initialSetup then mret true
           else
             diff ← getDifficulty;
             of_option (validateProofOfStake diff prevProofs (blk_Height b) (acc_Balance acc)
                          (blk_CommitmentProof b) (blk_Timestamp b)));
    if negb (pos : bool) then fail "The nonce is incorrect."%string
    else if to_int64 (clock env (blk_Height b) + to_int64 (AcceptedTimeDiff active)) <? blk_Timestamp b then
      fail "The timestamp is too far in the future."%string
    else if u32 (blk_Height b - acc_StakingBlockHeight acc) <? u32 (WaitingMinimum active) then
      fail "The miner must wait a minimum amount of blocks before start validating."%string
    else mret (None, ans)
  end end.

Definition preValidate (b : Block) (initialSetup uptodate : bool) (ans : answers) : M Miner (error * answers) :=
  r ← GetAccount (blk_Beneficiary b);
  match r with
  | (_, Some e) => mret (Some e, ans)
  | (beneficiaryAcc, None) =>
  acc ← of_option beneficiaryAcc;
  if negb (acc_IsStaking acc) then mret (Some "Validator is not part of the validator set."%string, ans)
  else
    r ← check_block b initialSetup uptodate ans acc;
    match r with
    | (Some e, ans) => mret (Some e, ans)
    | (None, ans) =>
    r ← (if bool_decide (blk_SlashedAddress b = zero_hash) then mret (true, None, ans)
         else slashingCheck (walk_fuel env) ans (blk_SlashedAddress b) (blk_ConflictingBlockHash1 b)
                (blk_ConflictingBlockHash2 b) (blk_ConflictingBlockHashWithoutTx1 b)
                (blk_ConflictingBlockHashWithoutTx2 b));
    match (r : bool * error * answers) with
    | (_, Some e, ans) => mret (Some e, ans)
    | (_, None, ans) =>
        if blk_Aggregated b then mret (None, ans)
        else
          root ← block_merkle_root b;
          if negb (bool_decide (root = blk_MerkleRoot b)) then mret (Some "Merkle Root is incorrect."%string, ans)
          else mret (None, ans)
    end end
  end.
End prevalidate.

(** ** After the state has changed *)

Definition close (tx : Transaction) : M Miner unit := WriteClosedTx tx;; DeleteOpenTx tx.

(** The transaction is written before its field [Block] is set, which is
    therefore not seen in the database. *)
Definition close_funds (tx : FundsTx) : M Miner unit :=
  close (TFunds tx);; DeleteINVALIDOpenTx (TFunds tx).

Definition FundsTx_set_Block (h : hash) (tx : FundsTx) : FundsTx :=
  mkFundsTx (ftx_Header tx) (ftx_Amount tx) (ftx_Fee tx) (ftx_TxCnt tx) (ftx_From tx) (ftx_To tx)
    (ftx_Sig1 tx) (ftx_Sig2 tx) (ftx_Aggregated tx) h (ftx_CheckString tx) (ftx_Data tx).

Definition AggTx_set_Block (h : hash) (tx : AggTx) : AggTx :=
  mkAggTx (gtx_Amount tx) (gtx_Fee tx) (gtx_From tx) (gtx_To tx) (gtx_AggregatedTxSlice tx)
    (gtx_Aggregated tx) h (gtx_MerkleRoot tx) (gtx_CheckString tx) (gtx_Data tx).

(** The last of the fetched transactions with the hash. *)
Fixpoint last_with_hash (txs : list FundsTx) (h : hash) (found : option FundsTx) : M Miner (option FundsTx) :=
  match txs with
  | [] => mret found
  | i :: txs => k ← tx_hash (TFunds i); last_with_hash txs h (if bool_decide (k = h) then Some i else found)
  end.

(** A transaction listed in an aggregation is marked, and closed. The loop is
    left at one that is not known. *)
Fixpoint close_aggregated (data : blockData) (aggTx : AggTx) (hs : list hash) : M Miner unit :=
  match hs with
  | [] => mret tt
  | h :: hs =>
      closed ← ReadClosedTx h;
      trx ← match (closed : option Transaction) with
            | Some (TAgg t) => mret (Some (TAgg (AggTx_set_Aggregated true t)))
            | Some (TFunds t) => mret (Some (TFunds (FundsTx_set_Aggregated true t)))
            | Some t => mret (Some t)
            | None =>
                open ← ReadOpenTx h;
                open ← match (open : option Transaction) with
                       | Some t => mret (Some t)
                       | None => t ← last_with_hash (aggregatedFundsTxSlice data) h None; mret (TFunds <$> t)
                       end;
                mret (match open with
                      | Some (TAgg t) => Some (TAgg (AggTx_set_Aggregated true t))
                      | Some (TFunds t) => Some (TFunds (FundsTx_set_Aggregated true
                                             (FundsTx_set_Block (blk_HashWithoutTx (block data)) t)))
                      | t => t
                      end)
            end;
      match (trx : option Transaction) with
      | None => mret tt
      | Some trx =>
          WriteClosedTx trx;;
          DeleteOpenTx trx;;
          DeleteINVALIDOpenTx (TAgg aggTx);;
          close_aggregated data aggTx hs
      end
  end.

Definition close_agg (data : blockData) (tx : AggTx) : M Miner unit :=
  close_aggregated data tx (gtx_AggregatedTxSlice tx);;
  let tx := AggTx_set_Aggregated false (AggTx_set_Block (blk_HashWithoutTx (block data)) tx) in
  close (TAgg tx);;
  DeleteINVALIDOpenTx (TAgg tx).

Definition close_block (b : Block) : M Miner unit :=
  DeleteOpenBlock (blk_Hash b);;
  WriteClosedBlock b;;
  blocks ← ReadAllClosedBlocks;
  for_each (fun old =>
    if negb (blk_Aggregated old) && (0 <? blk_Height old) && (blk_Height old <? blk_Height b - NO_EMPTYING_LENGTH) then
      UpdateBlocksToBlocksWithoutTx old
    else mret tt) blocks;;
  DeleteAllLastClosedBlock;;
  WriteLastClosedBlock b.

(** The broadcast of the funds transactions is left out. *)
Definition postValidate (data : blockData) (initialSetup bootstrap : bool) : M Miner unit :=
  let b := block data in
  configStateChange (configTxSlice data) (blk_Hash b);;
  collectStatistics b;;
  if negb bootstrap || negb initialSetup then
    for_each (fun tx => close (TAcc tx)) (accTxSlice data);;
    for_each close_funds (fundsTxSlice data);;
    for_each (fun tx => close (TConfig tx)) (configTxSlice data);;
    for_each (fun tx => close (TStake tx)) (stakeTxSlice data);;
    for_each (fun tx => close (TUpdate tx)) (updateTxSlice data);;
    (if initialSetup then
       for_each (fun tx => close (TFunds (FundsTx_set_Aggregated true tx))) (aggregatedFundsTxSlice data)
     else mret tt);;
    for_each (close_agg data) (aggTxSlice data);;
    close_block b
  else mret tt.

(** ** Validation *)

(** An element that is still nil panics when the state change reaches it. The
    panic comes at once here; in the code an earlier transaction may be refused
    first, with the error of that one. *)
Definition whole {T} (slice : list (option T)) : M Miner (list T) := of_option (mapM id slice).

Definition block_data (b : Block) (s : slices) : M Miner blockData :=
  acc ← whole (s_acc s);
  funds ← whole (s_funds s);
  config ← whole (s_config s);
  stake ← whole (s_stake s);
  agg ← whole (s_agg s);
  update ← whole (s_update s);
  mret (mkBlockData acc funds config stake agg (s_aggregated s) update b).

Section run.
Context (env : surroundings) (initialSetup uptodate : bool).

Definition validate_one (b : Block) (ans : answers) : M Miner (error * answers) :=
  r ← preValidate env b initialSetup uptodate ans;
  match r with
  | (Some e, ans) => mret (Some e, ans)
  | (None, ans) =>
      r ← fetchTransactions (tx_net env) initialSetup (walk_fuel env) b (make_slices b);
      match r with
      | (Some e, _) => mret (Some e, ans)
      | (None, s) =>
          ans ← (if 0 <? blk_Height b then r ← seekSlashingProof (walk_fuel env) ans b; mret (snd r)
                 else mret ans);
          data ← block_data b s;
          err ← validateState data initialSetup;
          match err with
          | Some e => mret (Some e, ans)
          | None => postValidate data initialSetup (IsBootstrap env);; mret (None, ans)
          end
      end
  end.

Fixpoint validate_all (blocks : list Block) (ans : answers) : M Miner (error * answers) :=
  match blocks with
  | [] => mret (None, ans)
  | b :: blocks =>
      r ← validate_one b ans;
      match r with
      | (Some e, ans) => mret (Some e, ans)
      | (None, ans) => validate_all blocks ans
      end
  end.
End run.

Definition validate (env : surroundings) (b : Block) (initialSetup : bool) (ans : answers) : M Miner (error * answers) :=
  closed ← ReadClosedBlock (blk_Hash b);
  match closed with
  | Some _ => mret (Some "Received Block has already been validated."%string, ans)
  | None =>
      r ← getBlockSequences (walk_fuel env) ans b;
      match r with
      | (_, _, Some e, ans) => mret (Some e, ans)
      | (blocksToRollback, blocksToValidate, None, ans) =>
          let uptodate := Z.of_nat (length blocksToValidate) <? DELAYED_BLOCKS in
          err ← for_each_err rollback blocksToRollback;
          match err with
          | Some e => mret (Some e, ans)
          | None => validate_all env initialSetup uptodate blocksToValidate ans
          end
      end
  end.

(** A received block; whether it is sent on to other miners. *)
Definition processBlock (env : surroundings) (b : Block) (ans : answers) : M Miner bool :=
  closedBlock ← ReadClosedBlock (blk_Hash b);
  match closedBlock with
  | Some c =>
      if blk_NrUpdates c =? blk_NrUpdates b then mret false
      else WriteClosedBlock b;; mret false
  | None =>
      WriteToReceivedStash b;;
      r ← validate env b false ans;
      mret (match fst r with None => true | Some _ => false end)
  end.

(** ** Mining *)

(** Any proof may be taken: the first one of the iteration over the map. *)
Definition add_slashing_proof (dict : gmap hash SlashingProof) (b : Block) : Block :=
  match range_map dict with
  | [] => b
  | (h, p) :: _ =>
      upd_blk_SlashedAddress (fun _ => h)
        (upd_blk_ConflictingBlockHash1 (fun _ => sp_ConflictingBlockHash1 p)
          (upd_blk_ConflictingBlockHash2 (fun _ => sp_ConflictingBlockHash2 p)
            (upd_blk_ConflictingBlockHashWithoutTx1 (fun _ => sp_ConflictingBlockHashWithoutTx1 p)
              (upd_blk_ConflictingBlockHashWithoutTx2 (fun _ => sp_ConflictingBlockHashWithoutTx2 p) b))))
  end.

(** The fields filled in once the proof of stake is found. The hash covers the
    nonce and what the block held before. *)
Definition seal (nonce : Z) (commitmentProof : bytes) (b : Block) : Block :=
  let nonceBuf := be_bytes 8 (u64 nonce) in
  let partialHash := HashBlock b in
  let partialHashWithoutMerkleRoot := HashBlockWithoutMerkleRoot b in
  upd_blk_CommitmentProof (fun _ => commitmentProof)
    (upd_blk_NrUpdateTx (fun _ => u16 (Z.of_nat (length (blk_UpdateTxData b))))
      (upd_blk_NrAggTx (fun _ => u16 (Z.of_nat (length (blk_AggTxData b))))
        (upd_blk_NrStakeTx (fun _ => u16 (Z.of_nat (length (blk_StakeTxData b))))
          (upd_blk_NrConfigTx (fun _ => u8 (Z.of_nat (length (blk_ConfigTxData b))))
            (upd_blk_NrFundsTx (fun _ => u16 (Z.of_nat (length (blk_FundsTxData b))))
              (upd_blk_NrAccTx (fun _ => u16 (Z.of_nat (length (blk_AccTxData b))))
                (upd_blk_HashWithoutTx (fun _ => sha3_256 (nonceBuf ++ partialHashWithoutMerkleRoot))
                  (upd_blk_Hash (fun _ => sha3_256 (nonceBuf ++ partialHash))
                    (upd_blk_Timestamp (fun _ => nonce) (upd_blk_Nonce (fun _ => nonceBuf) b)))))))))).

(** The transactions taken from the pool for the block are put back when
    another block was validated meanwhile. *)
Definition give_back_queue : M Miner unit :=
  queue ← ReadFundsTxBeforeAggregation;
  for_each (fun tx => WriteOpenTx (TFunds tx)) queue;;
  DeleteAllFundsTxBeforeAggregation.

(** [ticks]: what the loop of the proof of stake sees, long enough for it. *)
Definition finalizeBlock (ticks : list tick) (b : Block) : M Miner (Block * error) :=
  dict ← gets (fun m => slashingDict (chain m));
  let b := add_slashing_proof dict b in
  root ← block_merkle_root b;
  let b := upd_blk_MerkleRoot (fun _ => root) b in
  r ← GetAccount (SerializeHashContent (VBytes validatorAccAddress));
  match r with
  | (_, Some e) => mret (b, Some e)
  | (validatorAcc, None) =>
  validatorAcc ← of_option validatorAcc;
  let b := upd_blk_Beneficiary (fun _ => Account_Hash validatorAcc) b in
  match SignMessageWithRSAKey (fmt_int 10 (blk_Height b)) with
  | inl e => mret (b, Some e)
  | inr commitmentProof =>
  active ← gets (fun m => activeParameters (chain m));
  prevProofs ← GetLatestProofs (numIncludedPrevProofs active) b;
  diff ← getDifficulty;
  found ← match proofOfStake ticks diff (blk_PrevHash b) prevProofs (blk_Height b) (acc_Balance validatorAcc)
                  commitmentProof with
          | Some r => mret r
          | None => timeout
          end;
  match (found : Z * error) with
  | (nonce, Some e) => (if nonce =? -2 then give_back_queue else mret tt);; mret (b, Some e)
  | (nonce, None) =>
      let b := seal nonce commitmentProof b in
      storeBlockByTxs b;;
      mret (b, None)
  end end end.

(** One round of [mining]; the result is the next block to work on, and
    whether the one at hand is broadcast. *)
Definition mining_round (map_fuel : nat) (ticks : list tick) (env : surroundings) (txs : environment)
    (ans : answers) (currentBlock : Block) : M Miner (Block * bool) :=
  r ← finalizeBlock ticks currentBlock;
  valid ← match r with
          | (b, None) => r ← validate env b false ans; mret (match fst r with None => true | Some _ => false end)
          | (_, Some _) => mret false
          end;
  last ← gets (fun m => lastBlock (chain m));
  last ← of_option last;
  let nextBlock := newBlock (blk_Hash last) (blk_HashWithoutTx last) (zeros COMM_PROOF_LENGTH) (u32 (blk_Height last + 1)) in
  nextBlock ← prepareBlock map_fuel txs nextBlock;
  mret (nextBlock, valid : bool).

(** ** Start-up *)

(** [rootChamHashParams] is a pointer; the balance is the staking minimum. *)
Definition initRootKey (rootAddress : address) (rootChamHashParams : option ChameleonHashParameters) : M Miner unit :=
  let rootAddressHash := SerializeHashContent (VBytes rootAddress) in
  let commPubKey := take COMM_KEY_LENGTH (rootCommitmentModulus ++ zeros COMM_KEY_LENGTH) in
  active ← gets (fun m => activeParameters (chain m));
  let rootAcc := NewAccount rootAddress zero_hash (StakingMinimum active) true commPubKey None [] rootChamHashParams in
  on_ledger (upd_State (insert rootAddressHash rootAcc));;
  on_ledger (upd_RootKeys (insert rootAddressHash (acc_Address rootAcc)));;
  on_ledger (set_parameters rootAddressHash (acc_Parameters rootAcc)).

(** The pool is read at the hashes that were fetched; entries without an open
    transaction are nil, and skipped. *)
Definition ReadAllBootstrapReceivedTransactions : M Miner (list (option Transaction)) :=
  gets (fun m => map (fun e => txMemPool (pool m) !! fst e) (range_map (bootstrapReceivedMemPool (pool m)))).

(** What is deleted is what is still open. *)
Definition DeleteBootstrapReceivedMempool : M Miner unit :=
  on_pool (fun p => upd_bootstrapReceivedMemPool
    (filter (fun e => txMemPool p !! fst e = None)) p).

(** The part of [Init] between the set-up of the state and the main loop. *)
Definition close_bootstrap : M Miner unit :=
  txs ← ReadAllBootstrapReceivedTransactions;
  for_each (fun o => match o with Some tx => DeleteOpenTx tx;; WriteClosedTx tx | None => mret tt end) txs;;
  DeleteBootstrapReceivedMempool.
End validate.
