(* ===== verification/FetchLemmas.v ===== *)
(** * Lemmas on fetching and validating

    What fetching leaves alone, what it refuses, what becomes of the
    transactions of a validated block, and when a block passes the checks. *)

From S2P Require Import Prelude GoLib Format Chameleon Protocol Merkle BlockFields Node Storage Ledger Params StateChange.
From S2P Require Import StateLemmas Validation PoS Verify AddTx Aggregate BlockPrep LongestChain ChainLemmas Fetch Validate.

(** ** Only the pool changes *)

Section frames.
Context {DG : Digests} {DL : DigestLaws} {SG : Signatures} {NK : NodeKeys}.

Lemma reads_tx_hash (R : relation Miner) `{!PreOrder R} tx : respects R (tx_hash tx).
Proof. unfold tx_hash. apply respects_bind; [apply _|apply respects_gets, _|intros; apply respects_of_option, _]. Qed.
#[local] Hint Extern 1 (respects _ (tx_hash _)) => apply reads_tx_hash, _ : frame.

Lemma pool_WriteOpenTx tx : respects pool_only (WriteOpenTx tx).
Proof. unfold WriteOpenTx, WriteTxcntToTx. frame. Qed.

Lemma pool_WriteBootstrap tx : respects pool_only (WriteBootstrapTxReceived tx).
Proof. unfold WriteBootstrapTxReceived. frame. Qed.
#[local] Hint Resolve pool_WriteOpenTx pool_WriteBootstrap : frame.

Lemma pool_in_stash {T} (inj : T -> Transaction) h l : respects pool_only (in_stash inj h l).
Proof. induction l; cbn [in_stash]; frame. Qed.
#[local] Hint Resolve pool_in_stash : frame.

Lemma pool_verify tx : respects pool_only (verify tx).
Proof.
  unfold verify, verifyFundsTx, verifyAccTx, verifyConfigTx, verifyStakeTx, verifyAggTx, verifyUpdateTx,
    signed_by_root, ReadOpenTx, ReadClosedTx, get_account. frame.
Qed.
#[local] Hint Resolve pool_verify : frame.

Ltac reads := unfold unless_closed, or_open, received_check, hash_or_zero, ReadClosedTx, ReadOpenTx, ReadINVALIDOpenTx.

Section loops.
Context (net : network) (init : bool).

Lemma pool_fetch_acc h : respects pool_only (fetch_acc net init h).
Proof. unfold fetch_acc. reads. frame. Qed.
Lemma pool_fetch_funds h : respects pool_only (fetch_funds net init h).
Proof. unfold fetch_funds. reads. frame. Qed.
Lemma pool_fetch_config h : respects pool_only (fetch_config net init h).
Proof. unfold fetch_config. reads. frame. Qed.
Lemma pool_fetch_stake h : respects pool_only (fetch_stake net init h).
Proof. unfold fetch_stake. reads. frame. Qed.
Lemma pool_fetch_update h : respects pool_only (fetch_update net init h).
Proof. unfold fetch_update. reads. frame. Qed.

Lemma pool_set_at {T} cnt (t : option T) slice : respects pool_only (set_at cnt t slice).
Proof. unfold set_at. frame. Qed.
#[local] Hint Resolve pool_set_at : frame.

Lemma pool_fetch_loop {T} (one : hash -> M Miner (fetched T)) cnt hs slice :
  (forall h, respects pool_only (one h)) -> respects pool_only (fetch_loop one cnt hs slice).
Proof.
  intros H. revert cnt slice. induction hs as [|h hs IH]; intros cnt slice; cbn [fetch_loop]; [frame|].
  apply respects_bind; [apply _|apply H|]. intros []; [frame|].
  apply respects_bind; [apply _|frame|intros]. apply respects_bind; [apply _|apply IH|intros; frame].
Qed.

Lemma pool_request_agg n k h : respects pool_only (request_agg net n k h).
Proof. revert k. induction n; intros k; cbn [request_agg]; frame. Qed.
#[local] Hint Resolve pool_request_agg : frame.

Lemma pool_request_unknown n k h : respects pool_only (request_unknown net n k h).
Proof. revert k. induction n; intros k; cbn [request_unknown]; frame. Qed.
#[local] Hint Resolve pool_request_unknown : frame.

Lemma pool_find_agg h : respects pool_only (find_agg net init h).
Proof. unfold find_agg. reads. frame. Qed.

Lemma pool_new_aggregated hs txs : respects pool_only (new_aggregated net hs txs).
Proof. revert txs. induction hs; intros txs; cbn [new_aggregated]; reads; frame. Qed.
End loops.
End frames.

(** ** What is refused *)

Section refused.
Context {DG : Digests} {DL : DigestLaws} {SG : Signatures} {NK : NodeKeys} (net : network).

(** A loop meets a transaction that every turn refuses as long as the database
    is the same: it sends an error. *)
Lemma fetch_loop_refuses {T} (one : hash -> M Miner (fetched T)) d h :
  (forall h, respects pool_only (one h)) ->
  (forall m r m', db m = d -> one h m = Done (r, m') -> exists e, r = Stop e) ->
  forall hs cnt slice m errs slice' m', h ∈ hs -> db m = d ->
  fetch_loop one cnt hs slice m = Done ((errs, slice'), m') -> errs <> [].
Proof.
  intros Hp Hs hs. induction hs as [|k hs IH]; intros cnt slice m errs slice' m' Hin Hd H; [by apply elem_of_nil in Hin|].
  cbn [fetch_loop] in H. apply bind_inv in H as (r & m1 & H1 & H2).
  pose proof (Hp k _ _ _ H1) as (_ & Hd1 & _). destruct r as [e|errs1 t]; [by injection H2 as <- _ _|].
  apply bind_inv in H2 as (sl & m2 & H2 & H3). assert (m2 = m1) as ->.
  { unfold set_at in H2. destruct (Nat.ltb _ _); by inversion H2. }
  apply bind_inv in H3 as ([errs2 sl2] & m3 & H3 & [= <- _ _]).
  apply elem_of_cons in Hin as [->|Hin].
  - destruct (Hs _ _ _ Hd H1) as [e [=]].
  - assert (errs2 <> []) by (eapply IH; [done| |done]; congruence). by destruct errs1.
Qed.

Lemma unless_closed_refuses {T} (f : Transaction -> option T) msg h k m r m' :
  is_Some (closed_tx (db m) h) -> unless_closed false f msg h k m = Done (r, m') -> exists e, r = Stop e.
Proof.
  intros [t Ht]. unfold unless_closed, ReadClosedTx, mbind, M_bind. cbn. rewrite Ht.
  intros [= <- _]. by eexists.
Qed.

Lemma fetch_funds_refuses h m r m' :
  is_Some (closed_tx (db m) h) -> fetch_funds net false h m = Done (r, m') -> exists e, r = Stop e.
Proof.
  intros [t Ht]. unfold fetch_funds, ReadClosedTx. intros (c & m1 & [= <- <-] & H)%bind_inv. rewrite Ht in H.
  apply bind_inv in H as (x & m2 & _ & [= <- _]). by eexists.
Qed.

(** The loop stops with an error. *)
Lemma new_aggregated_stops hs txs m errs txs' m' : new_aggregated net hs txs m = Done ((errs, true, txs'), m') -> errs <> [].
Proof.
  revert txs m errs txs' m'. induction hs as [|h hs IH]; intros txs m errs txs' m'; cbn [new_aggregated]; [by intros [= ]|].
  intros (c & m1 & _ & H)%bind_inv. destruct c as [c|].
  { apply bind_inv in H as (x & m2 & _ & H). exact (IH _ _ _ _ _ H). }
  apply bind_inv in H as (o & m2 & _ & H). destruct o as [o|].
  - destruct o; first [exact (IH _ _ _ _ _ H)|apply bind_inv in H as (t & m3 & _ & H); exact (IH _ _ _ _ _ H)].
  - apply bind_inv in H as (r & m3 & _ & H). destruct r as [e|tx]; [by injection H as <- _ _|].
    apply bind_inv in H as (k & m4 & _ & H). apply bind_inv in H as ([ [errs2 stop] txs2] & m5 & H & Hr).
    injection Hr as <- -> _ _. apply IH in H. by intros [_ ?]%app_nil.
Qed.

(** The transactions a block lists by their own hash. *)
Definition listed (b : Block) : list hash :=
  blk_AccTxData b ++ blk_FundsTxData b ++ blk_ConfigTxData b ++ blk_StakeTxData b ++ blk_UpdateTxData b.

(** Everything but the aggregations is fetched in five loops. *)
Lemma fetchTransactions_inv init fuel b s m s' m' : fetchTransactions net init fuel b s m = Done ((None, s'), m') ->
  exists a f c k u m1 m2 m3 m4 m5,
    fetchAccTxData net init b (s_acc s) m = Done (([], a), m1) /\
    fetchFundsTxData net init b (s_funds s) m1 = Done (([], f), m2) /\
    fetchConfigTxData net init b (s_config s) m2 = Done (([], c), m3) /\
    fetchStakeTxData net init b (s_stake s) m3 = Done (([], k), m4) /\
    fetchUpdateTxData net init b (s_update s) m4 = Done (([], u), m5) /\
    exists g t, fetchAggTxData net init fuel b (s_agg s) m5 = Done (([], g, t), m').
Proof.
  unfold fetchTransactions. intros H.
  apply bind_inv in H as ([e1 a] & m1 & H1 & H). apply bind_inv in H as ([e2 f] & m2 & H2 & H).
  apply bind_inv in H as ([e3 c] & m3 & H3 & H). apply bind_inv in H as ([e4 k] & m4 & H4 & H).
  apply bind_inv in H as ([e5 u] & m5 & H5 & H). apply bind_inv in H as ([ [e6 g] t] & m6 & H6 & H). cbn in H.
  destruct e1; [|by injection H]. destruct e2; [|by injection H]. destruct e3; [|by injection H].
  destruct e4; [|by injection H]. destruct e5; [|by injection H]. destruct e6; [|by injection H]. injection H as _ <-.
  exists a, f, c, k, u, m1, m2, m3, m4, m5. do 5 (split; [done|]). by exists g, t.
Qed.

(** The fetching leaves the database as it is until the aggregations. *)
Lemma fetched_db init b s m a f c k u m1 m2 m3 m4 m5 :
  fetchAccTxData net init b (s_acc s) m = Done (([], a), m1) ->
  fetchFundsTxData net init b (s_funds s) m1 = Done (([], f), m2) ->
  fetchConfigTxData net init b (s_config s) m2 = Done (([], c), m3) ->
  fetchStakeTxData net init b (s_stake s) m3 = Done (([], k), m4) ->
  fetchUpdateTxData net init b (s_update s) m4 = Done (([], u), m5) ->
  db m1 = db m /\ db m2 = db m /\ db m3 = db m /\ db m4 = db m /\ db m5 = db m.
Proof.
  intros H1 H2 H3 H4 H5.
  apply pool_fetch_loop in H1 as (_&D1&_); [|apply pool_fetch_acc].
  apply pool_fetch_loop in H2 as (_&D2&_); [|apply pool_fetch_funds].
  apply pool_fetch_loop in H3 as (_&D3&_); [|apply pool_fetch_config].
  apply pool_fetch_loop in H4 as (_&D4&_); [|apply pool_fetch_stake].
  apply pool_fetch_loop in H5 as (_&D5&_); [|apply pool_fetch_update].
  split_and!; congruence.
Qed.

(** A closed transaction that is not an aggregation which is aggregated itself. *)
Definition closed_once (d : Buckets) (h : hash) : Prop :=
  exists tx, closed_tx d h = Some tx /\ forall t, tx = TAgg t -> gtx_Aggregated t = false.

Lemma find_agg_refuses h m r m' : closed_once (db m) h -> find_agg net false h m = Done (r, m') -> exists e, r = inl e.
Proof.
  intros (tx&Ht&Hagg). unfold find_agg, ReadClosedTx. intros (c & m1 & [= <- <-] & H)%bind_inv. rewrite Ht in H.
  apply bind_inv in H as (refused & m2 & Hr & H). apply bind_inv in Hr as (t & m3 & Has & Hr).
  destruct tx as [| | | |x|]; try done. injection Has as <- <-. injection Hr as <- <-. rewrite (Hagg x eq_refl) in H.
  injection H as <- _. by eexists.
Qed.

Lemma fetch_agg_refuses fuel h hs cnt slice txs m errs slice' txs' m' : h ∈ hs -> closed_once (db m) h ->
  fetch_agg_loop net false fuel cnt hs slice txs m = Done ((errs, slice', txs'), m') -> errs <> [].
Proof.
  revert cnt slice txs m errs slice' txs' m'. induction hs as [|k hs IH]; intros cnt slice txs m errs slice' txs' m' Hin Hc H;
    [by apply elem_of_nil in Hin|].
  cbn [fetch_agg_loop] in H. apply bind_inv in H as (r & m1 & H1 & H2).
  pose proof (pool_find_agg net false k _ _ _ H1) as (_ & Hd1 & _). destruct r as [e|[errs1 tx]]; [by injection H2 as <- _ _|].
  apply elem_of_cons in Hin as [->|Hin]; [by destruct (find_agg_refuses k m _ m1 Hc H1)|].
  apply bind_inv in H2 as (t & m2 & Ht & H2). assert (m2 = m1) as -> by (destruct (as_agg tx); by inversion Ht).
  apply bind_inv in H2 as (sl & m2 & H2 & H3). assert (m2 = m1) as ->.
  { unfold set_at in H2. destruct (Nat.ltb _ _); by inversion H2. }
  apply bind_inv in H3 as ([ [errs2 [|] ] txs2] & m3 & H3 & H4).
  - injection H4 as <- _ _. intros [-> ->]%app_nil. by apply new_aggregated_stops in H3.
  - pose proof (pool_new_aggregated net _ _ _ _ _ H3) as (_ & Hd3 & _).
    apply bind_inv in H4 as ([ [errs3 sl3] txs3] & m4 & H4 & [= <- _ _]). rewrite <-Hd1, <-Hd3 in Hc.
    pose proof (IH _ _ _ _ _ _ _ _ Hin Hc H4). by intros [_ ?]%app_nil.
Qed.

Lemma closed_agg_refused fuel b s h m s' m' : closed_once (db m) h -> h ∈ blk_AggTxData b ->
  fetchTransactions net false fuel b s m <> Done ((None, s'), m').
Proof.
  intros Hc Hin (a&f&c&k&u&m1&m2&m3&m4&m5&H1&H2&H3&H4&H5&g&t&H6)%fetchTransactions_inv.
  destruct (fetched_db _ _ _ _ _ _ _ _ _ _ _ _ _ _ H1 H2 H3 H4 H5) as (_&_&_&_&D5).
  rewrite <-D5 in Hc. by eapply fetch_agg_refuses in H6.
Qed.

Lemma closed_refused fuel b s h m s' m' : is_Some (closed_tx (db m) h) -> h ∈ listed b ->
  fetchTransactions net false fuel b s m <> Done ((None, s'), m').
Proof.
  intros Hc Hin (a&f&c&k&u&m1&m2&m3&m4&m5&H1&H2&H3&H4&H5&_)%fetchTransactions_inv.
  destruct (fetched_db _ _ _ _ _ _ _ _ _ _ _ _ _ _ H1 H2 H3 H4 H5) as (D1&D2&D3&D4&_).
  unfold listed in Hin. rewrite !elem_of_app in Hin. destruct Hin as [Hin|[Hin|[Hin|[Hin|Hin]]]].
  - eapply (fetch_loop_refuses _ (db m)) in H1; [done|apply pool_fetch_acc| |done|done].
    intros m0 r0 m0' Hd. apply unless_closed_refuses. by rewrite Hd.
  - eapply (fetch_loop_refuses _ (db m)) in H2; [done|apply pool_fetch_funds| |done|congruence].
    intros m0 r0 m0' Hd. apply fetch_funds_refuses. by rewrite Hd.
  - eapply (fetch_loop_refuses _ (db m)) in H3; [done|apply pool_fetch_config| |done|congruence].
    intros m0 r0 m0' Hd. apply unless_closed_refuses. by rewrite Hd.
  - eapply (fetch_loop_refuses _ (db m)) in H4; [done|apply pool_fetch_stake| |done|congruence].
    intros m0 r0 m0' Hd. apply unless_closed_refuses. by rewrite Hd.
  - eapply (fetch_loop_refuses _ (db m)) in H5; [done|apply pool_fetch_update| |done|congruence].
    intros m0 r0 m0' Hd. apply unless_closed_refuses. by rewrite Hd.
Qed.

(** Open transactions of the right type are taken one after the other; the
    loop panics at the first one beyond the length of the slice. *)
Lemma fetch_open_panics {T} (one : hash -> M Miner (fetched T)) m hs :
  (forall h, h ∈ hs -> exists t, one h m = Done (Item [] (Some t), m)) ->
  forall cnt slice, (cnt <= length slice)%nat -> (length slice < cnt + length hs)%nat ->
  fetch_loop one cnt hs slice m = Panic.
Proof.
  induction hs as [|h hs IH]; intros Ho cnt slice Hle Hlt; [simpl in Hlt; lia|].
  cbn [fetch_loop]. destruct (Ho h ltac:(by left)) as [t Et]. unfold mbind, M_bind. rewrite Et. unfold set_at.
  destruct (Nat.ltb_spec cnt (length slice)); [|done]. cbn [mret M_ret].
  rewrite (IH ltac:(intros; apply Ho; by right) (S cnt) (<[cnt:=Some t]> slice)); [done|rewrite length_insert; lia|].
  rewrite length_insert. simpl in Hlt. lia.
Qed.

Lemma fetch_acc_open init h t m : closed_tx (db m) h = None -> txMemPool (pool m) !! h = Some (TAcc t) ->
  fetch_acc net init h m = Done (Item [] (Some t), m).
Proof.
  intros Hc Ho. unfold fetch_acc, unless_closed, or_open, ReadClosedTx, ReadOpenTx, mbind, M_bind. cbn.
  by rewrite Hc, Ho.
Qed.
End refused.

(** ** Closing the transactions of a block *)

(** Closed funds transactions stay closed, nothing is opened, and the keys by
    which transactions are hashed stay the same. *)
Definition advances (m m' : Miner) : Prop :=
  ChameleonHashParametersMap (ledger m') = ChameleonHashParametersMap (ledger m) /\
  (forall h, is_Some (closedfunds (db m) !! h) -> is_Some (closedfunds (db m') !! h)) /\
  (forall h, txMemPool (pool m) !! h = None -> txMemPool (pool m') !! h = None).

#[export] Instance advances_PreOrder : PreOrder advances.
Proof. split; [by intros m; split_and!|]. intros a b c (?&?&?) (?&?&?). split_and!; [congruence|auto..]. Qed.

Section closing.
Context {DG : Digests} {DL : DigestLaws} {SO : SortOps} {FO : FloatOps} {SG : Signatures} {NK : NodeKeys}.
Context {GS : GoSort} {MO : MapOrder} {CM : Commitments}.

Lemma adv_chain f : respects advances (on_chain f).
Proof. by intros m u m' [= _ <-]. Qed.

Lemma adv_State f : respects advances (on_ledger (upd_State f)).
Proof. by intros m u m' [= _ <-]. Qed.

Lemma adv_db f : (forall d, closedfunds (f d) = closedfunds d) -> respects advances (on_db f).
Proof. intros H m u m' [= _ <-]. split_and!; [done| |done]. intros h. cbn. by rewrite H. Qed.

Lemma adv_pool f : (forall p, txMemPool (f p) = txMemPool p) -> respects advances (on_pool f).
Proof. intros H m u m' [= _ <-]. split_and!; [done|done|]. intros h. cbn. by rewrite H. Qed.

Lemma adv_reads_tx_hash tx : respects advances (tx_hash tx).
Proof. apply reads_tx_hash, _. Qed.
#[local] Hint Resolve adv_chain adv_State adv_reads_tx_hash : frame.
#[local] Hint Extern 1 (respects advances (on_db _)) => by apply adv_db : frame.
#[local] Hint Extern 1 (respects advances (on_pool _)) => by apply adv_pool : frame.

Lemma adv_WriteClosedTx tx : respects advances (WriteClosedTx tx).
Proof.
  unfold WriteClosedTx. apply respects_bind; [apply _|auto with frame|]. intros h.
  destruct tx; try (by apply adv_db). intros m u m' [= _ <-]. split_and!; [done| |done].
  intros k Hk. cbn. destruct (decide (h = k)) as [->|]; [rewrite lookup_insert_eq; by eexists|by rewrite lookup_insert_ne].
Qed.

Lemma adv_DeleteOpenTx tx : respects advances (DeleteOpenTx tx).
Proof.
  unfold DeleteOpenTx. apply respects_bind; [apply _|auto with frame|]. intros h m u m' [= _ <-].
  split_and!; [done..|]. intros k Hk. cbn. by apply lookup_delete_None; right.
Qed.

Lemma adv_DeleteINVALIDOpenTx tx : respects advances (DeleteINVALIDOpenTx tx).
Proof. unfold DeleteINVALIDOpenTx. frame. Qed.
#[local] Hint Resolve adv_WriteClosedTx adv_DeleteOpenTx adv_DeleteINVALIDOpenTx : frame.

Lemma adv_close tx : respects advances (close tx).
Proof. unfold close. frame. Qed.
#[local] Hint Resolve adv_close : frame.

Lemma adv_for_each {T} (body : T -> M Miner unit) l :
  (forall x, respects advances (body x)) -> respects advances (for_each body l).
Proof. intros H. induction l; cbn [for_each]; [frame|]. apply respects_bind; [apply _|auto|auto]. Qed.

Lemma adv_last_with_hash txs h o : respects advances (last_with_hash txs h o).
Proof. revert o. induction txs; intros o; cbn [last_with_hash]; frame. Qed.
#[local] Hint Resolve adv_last_with_hash : frame.

Lemma adv_close_aggregated data t hs : respects advances (close_aggregated data t hs).
Proof. induction hs; cbn [close_aggregated]; unfold ReadClosedTx, ReadOpenTx; frame. Qed.
#[local] Hint Resolve adv_close_aggregated : frame.

Lemma adv_all_aggregated is_agg hs : respects advances (all_aggregated is_agg hs).
Proof. induction hs; cbn [all_aggregated]; unfold ReadClosedTx; frame. Qed.
#[local] Hint Resolve adv_all_aggregated : frame.

Lemma adv_UpdateBlocks b : respects advances (UpdateBlocksToBlocksWithoutTx b).
Proof.
  unfold UpdateBlocksToBlocksWithoutTx, BlockReadyToAggregate, WriteClosedBlockWithoutTx, DeleteClosedBlock. frame.
Qed.

Lemma adv_close_block b : respects advances (close_block b).
Proof.
  unfold close_block, DeleteOpenBlock, WriteClosedBlock, ReadAllClosedBlocks, DeleteAllLastClosedBlock,
    WriteLastClosedBlock. frame.
  apply adv_for_each. intros old. destruct (_ && _); [apply adv_UpdateBlocks|frame].
Qed.

Lemma adv_CheckAndChange p txs c : respects advances (CheckAndChangeParameters p txs c).
Proof.
  revert p c. induction txs as [|tx txs IH]; intros p c; cbn [CheckAndChangeParameters]; unfold change_parameter; frame.
Qed.

Lemma adv_config txs h : respects advances (configStateChange txs h).
Proof. pose proof adv_CheckAndChange. unfold configStateChange. frame. Qed.

Lemma adv_statistics b : respects advances (collectStatistics b).
Proof. unfold collectStatistics, calculateNewDifficulty, getDifficulty. frame. Qed.

Lemma close_funds_closes tx h m u m' :
  Transaction_Hash (ChameleonHashParametersMap (ledger m)) (TFunds tx) = Some h -> close_funds tx m = Done (u, m') ->
  is_Some (closedfunds (db m') !! h) /\ txMemPool (pool m') !! h = None.
Proof.
  intros Hh H. unfold close_funds, close, WriteClosedTx, DeleteOpenTx in H.
  apply bind_inv in H as ([] & m2 & H & Hi). apply bind_inv in H as ([] & m1 & H1 & H2).
  apply bind_inv in H1 as (k & m0 & [-> Hk]%tx_hash_inv & [= <-]). rewrite Hh in Hk. injection Hk as <-.
  apply bind_inv in H2 as (k2 & m3 & [-> Hk2]%tx_hash_inv & [= <-]).
  assert (k2 = h) as -> by (cut (Some k2 = Some h); [congruence|]; rewrite <-Hk2; exact Hh).
  apply adv_DeleteINVALIDOpenTx in Hi as (_ & Hc & Ho). split; [apply Hc|apply Ho]; cbn.
  - rewrite lookup_insert_eq. by eexists.
  - apply lookup_delete_eq.
Qed.

Lemma adv_close_funds tx : respects advances (close_funds tx).
Proof. unfold close_funds. frame. Qed.

Lemma for_each_closes txs tx h m u m' : tx ∈ txs ->
  Transaction_Hash (ChameleonHashParametersMap (ledger m)) (TFunds tx) = Some h ->
  for_each close_funds txs m = Done (u, m') ->
  is_Some (closedfunds (db m') !! h) /\ txMemPool (pool m') !! h = None.
Proof.
  revert m. induction txs as [|t txs IH]; intros m Hin Hh H; [by apply elem_of_nil in Hin|].
  cbn [for_each] in H. apply bind_inv in H as ([] & m1 & H1 & H2).
  apply elem_of_cons in Hin as [->|Hin].
  - pose proof (close_funds_closes _ _ _ _ _ Hh H1) as [Hc Ho].
    apply adv_for_each in H2 as (_ & Hc2 & Ho2); [|apply adv_close_funds]. split; auto.
  - apply (IH m1); [done| |done]. apply adv_close_funds in H1 as (-> & _). done.
Qed.

Lemma postValidate_closes data init bootstrap tx h m u m' : init && bootstrap = false ->
  tx ∈ fundsTxSlice data ->
  Transaction_Hash (ChameleonHashParametersMap (ledger m)) (TFunds tx) = Some h ->
  postValidate data init bootstrap m = Done (u, m') ->
  is_Some (closedfunds (db m') !! h) /\ txMemPool (pool m') !! h = None.
Proof.
  intros Hb Hin Hh H. unfold postValidate in H.
  apply bind_inv in H as ([] & m1 & H1%adv_config & H). apply bind_inv in H as ([] & m2 & H2%adv_statistics & H).
  assert (negb bootstrap || negb init = true) as Hg by (by destruct init, bootstrap). rewrite Hg in H.
  apply bind_inv in H as ([] & m3 & H3 & H).
  apply adv_for_each in H3; [|frame; auto with frame].
  apply bind_inv in H as ([] & m4 & H4 & H).
  apply (for_each_closes _ tx h) in H4 as [Hc Ho]; [|done|].
  2: { destruct H1 as (E1&_), H2 as (E2&_), H3 as (E3&_). by rewrite E3, E2, E1. }
  match type of H with ?c m4 = _ => assert (Hr : respects advances c) end.
  { do 3 (apply respects_bind; [apply _|apply adv_for_each; auto with frame|intros _]).
    apply respects_bind; [apply _|destruct init; [apply adv_for_each; auto with frame|frame]|intros _].
    apply respects_bind; [apply _|apply adv_for_each; intros t; unfold close_agg; frame|intros _].
    apply adv_close_block. }
  apply Hr in H as (_ & Hc2 & Ho2). split; auto.
Qed.
End closing.
