(* ===== verification/CheckLemmas.v ===== *)
(** * Lemmas on the checks of a block and on sealing one

    The checks of [preValidate] as a predicate, and the fields that
    [finalizeBlock] fills in. *)

From S2P Require Import Prelude GoLib Format Chameleon Protocol Merkle BlockFields Node Storage Ledger Params StateChange.
From S2P Require Import StateLemmas Validation PoS ParamLemmas Verify AddTx Aggregate BlockPrep LongestChain ChainLemmas Fetch Validate FetchLemmas.

(** Accounts and database stay as they are. *)
Definition quiet (m m' : Miner) : Prop := ledger m' = ledger m /\ db m' = db m.

#[export] Instance quiet_PreOrder : PreOrder quiet.
Proof. split; [by intros m|]. intros a b c [? ?] [? ?]. split; congruence. Qed.

Lemma pool_quiet {A} (c : M Miner A) : respects pool_only c -> respects quiet c.
Proof. apply respects_weaken. by intros m m' (? & ? & _). Qed.

(** ** The walks of the slashing check *)

Lemma pool_request_block h ans : respects pool_only (request_block h ans).
Proof. intros m [r a] m' H. by apply request_block_inv in H as (? & _). Qed.

Lemma pool_getNewChain fuel ans nb acc : respects pool_only (getNewChain fuel ans nb acc).
Proof. intros m [r a] m' H. by apply getNewChain_spec in H as [? _]. Qed.

Lemma pool_walk_back fuel ans hi lo : respects pool_only (walk_back fuel ans hi lo).
Proof.
  revert ans hi. induction fuel as [|fuel IH]; intros ans hi; cbn [walk_back].
  - frame.
  - pose proof pool_request_block. unfold read_parent, ReadClosedBlock, ReadClosedBlockWithoutTx, read_db. frame.
Qed.

Lemma pool_IsInSameChain fuel ans b1 b2 : respects pool_only (IsInSameChain fuel ans b1 b2).
Proof. pose proof pool_walk_back. unfold IsInSameChain. frame. Qed.

Lemma quiet_slashingCheck fuel ans s h1 h2 w1 w2 : respects quiet (slashingCheck fuel ans s h1 h2 w1 w2).
Proof.
  pose proof (fun A c => @pool_quiet A c) as Hq. pose proof pool_getNewChain. pose proof pool_IsInSameChain.
  assert (forall f, respects quiet (on_chain f)) by (by intros f m u m' [= _ <-]).
  unfold slashingCheck, read_conflicting, find_conflicting, ReadClosedBlock, ReadClosedBlockWithoutTx, ReadOpenBlock,
    read_db, ReadReceivedBlockStash. frame.
Qed.

(** ** The checks *)

(** The commitment proofs of the blocks below, along the parents. *)
Fixpoint proofs_back (n : nat) (d : Buckets) (b : Block) : list bytes :=
  match n with
  | O => []
  | S n =>
      if 0 <? blk_Height b then
        match parent d b with None => [] | Some c => blk_CommitmentProof c :: proofs_back n d c end
      else []
  end.

Lemma latest_proofs_run n b m : latest_proofs n b m = Done (proofs_back n (db m) b, m).
Proof.
  revert b. induction n as [|n IH]; intros b; [done|]. cbn [latest_proofs proofs_back].
  destruct (0 <? blk_Height b); [|done].
  pose proof (read_parent_run b m) as Hr. unfold read_parent, mbind, M_bind in Hr. unfold mbind, M_bind.
  unfold parent in *. destruct (ReadClosedBlock (blk_PrevHash b) m) as [ [o m1]| |] eqn:E; try discriminate Hr.
  unfold ReadClosedBlock, read_db, gets in E. injection E as <- <-.
  destruct (closedblocks (db m) !! blk_PrevHash b); cbn in *; [by rewrite IH|].
  destruct (closedblockswithouttx (db m) !! blk_PrevHashWithoutTx b); [by rewrite IH|done].
Qed.

Definition all_hashes (b : Block) : list hash :=
  mjoin [blk_AccTxData b; blk_FundsTxData b; blk_ConfigTxData b; blk_StakeTxData b; blk_AggTxData b; blk_UpdateTxData b].

Section checks.
Context {DG : Digests} {DL : DigestLaws} {SO : SortOps} {FO : FloatOps} {SG : Signatures} {NK : NodeKeys}.
Context {GS : GoSort} {MO : MapOrder} {CM : Commitments}.

Definition proofs_for (m : Miner) (b : Block) : list bytes :=
  proofs_back (Z.to_nat (numIncludedPrevProofs (activeParameters (chain m)))) (db m) b.

Record block_checks (env : surroundings) (init uptodate : bool) (m : Miner) (acc : Account) (b : Block) : Prop := {
  bc_time : negb init && uptodate = true -> timestampCheck (systemTime env (blk_Height b)) (blk_Timestamp b) = None;
  bc_size : GetSize b <= BlockSize (activeParameters (chain m));
  bc_dup : NoDup (all_hashes b);
  bc_commitment : VerifyMessageWithRSAKey (CreateRSAPubKeyFromBytes (acc_CommitmentKey acc))
    (fmt_int 10 (blk_Height b)) (blk_CommitmentProof b) = true;
  bc_stake : init = false -> exists diff, last (target (chain m)) = Some diff /\
    validateProofOfStake diff (proofs_for m b) (blk_Height b) (acc_Balance acc) (blk_CommitmentProof b)
      (blk_Timestamp b) = Some true;
  bc_future : blk_Timestamp b <= to_int64 (clock env (blk_Height b) + to_int64 (AcceptedTimeDiff (activeParameters (chain m))));
  bc_waiting : u32 (WaitingMinimum (activeParameters (chain m))) <= u32 (blk_Height b - acc_StakingBlockHeight acc)
}.

Lemma no_dup_all b : validateNoDuplicateTx b = None <-> NoDup (all_hashes b).
Proof.
  unfold validateNoDuplicateTx. rewrite no_duplicates_all_spec. unfold all_hashes. cbn [fmap list_fmap snd].
  split; [by intros [? _]|]. intros H. split; [done|]. intros h _. apply not_elem_of_empty.
Qed.

Lemma check_block_inv env b init uptodate ans acc m ans' m' :
  check_block env b init uptodate ans acc m = Done ((None, ans'), m') ->
  ans' = ans /\ m' = m /\ block_checks env init uptodate m acc b.
Proof.
  unfold check_block. cbv zeta. unfold mbind, M_bind, gets.
  destruct (if negb init && uptodate then _ else None) eqn:Et; [done|].
  destruct (BlockSize _ <? GetSize b) eqn:Es; [done|]. apply Z.ltb_ge in Es.
  destruct (validateNoDuplicateTx b) eqn:Ed; [done|]. apply no_dup_all in Ed.
  destruct (VerifyMessageWithRSAKey _ _ _) eqn:Ev; cbn [negb]; [|done].
  unfold GetLatestProofs. rewrite latest_proofs_run. fold (proofs_for m b). intros H.
  match type of H with match ?c m with _ => _ end = _ => destruct (c m) as [ [pos m1]| |] eqn:Ep end; try done.
  assert (m1 = m /\ (pos = true -> init = false -> exists diff, last (target (chain m)) = Some diff /\
    validateProofOfStake diff (proofs_for m b) (blk_Height b) (acc_Balance acc) (blk_CommitmentProof b)
      (blk_Timestamp b) = Some true)) as [-> Hpos].
  { destruct init; [injection Ep as <- <-; done|]. unfold getDifficulty, mbind, M_bind, gets in Ep.
    destruct (last (target (chain m))) as [diff|] eqn:El; cbn in Ep; [|done].
    destruct (validateProofOfStake _ _ _ _ _ _) as [v|] eqn:Evp; cbn in Ep; [|done]. injection Ep as <- <-.
    split; [done|]. intros ->. by exists diff. }
  destruct pos; cbn [negb] in H; [|done].
  destruct (_ <? blk_Timestamp b) eqn:Ef; [done|]. apply Z.ltb_ge in Ef.
  destruct (_ <? u32 (WaitingMinimum _)) eqn:Ew; [done|]. apply Z.ltb_ge in Ew.
  injection H as <- <-. split; [done|]. split; [done|]. split; auto.
  intros Hb. by rewrite Hb in Et.
Qed.

Lemma check_block_intro env b init uptodate ans acc m : block_checks env init uptodate m acc b ->
  check_block env b init uptodate ans acc m = Done ((None, ans), m).
Proof.
  intros [Ht Hs Hd Hc Hp Hf Hw]. unfold check_block. cbv zeta. unfold mbind, M_bind, gets.
  replace (if negb init && uptodate then _ else None) with nil_err
    by (destruct (negb init && uptodate); [by rewrite Ht|done]).
  rewrite (proj2 (Z.ltb_ge _ _) Hs), (proj2 (no_dup_all b) Hd), Hc. cbn [negb].
  unfold GetLatestProofs. rewrite latest_proofs_run. fold (proofs_for m b).
  assert (Hrun : (if init then mret true
           else
             diff ← getDifficulty;
             of_option (validateProofOfStake diff (proofs_for m b) (blk_Height b) (acc_Balance acc)
                          (blk_CommitmentProof b) (blk_Timestamp b))) m = Done (true, m)).
  { destruct init; [done|]. destruct Hp as (diff & El & Ev); [done|].
    unfold getDifficulty, mbind, M_bind, gets. rewrite El. cbn. by rewrite Ev. }
  unfold mbind, M_bind in Hrun. rewrite Hrun. cbn [negb].
  by rewrite (proj2 (Z.ltb_ge _ _) Hf), (proj2 (Z.ltb_ge _ _) Hw).
Qed.

Lemma quiet_preValidate env b init uptodate ans : respects quiet (preValidate env b init uptodate ans).
Proof.
  pose proof quiet_slashingCheck.
  assert (forall b, respects quiet (block_merkle_root b)).
  { intros b0 m r m' Hx. unfold block_merkle_root, in_miner in Hx. by destruct (BuildMerkleTree _ _ _) as [ [t h]| |]; simplify_eq. }
  assert (forall n b, respects quiet (GetLatestProofs n b)).
  { intros n b0 m r m' Hx. unfold GetLatestProofs in Hx. rewrite latest_proofs_run in Hx. by injection Hx as _ <-. }
  unfold preValidate, check_block, GetAccount, get_account, getDifficulty. frame.
Qed.

(** ** Sealing a block *)

Lemma merkle_root_ext b1 b2 : block_txHashes b1 = block_txHashes b2 -> block_merkle_root b1 = block_merkle_root b2.
Proof. intros H. unfold block_merkle_root, BuildMerkleTree. by rewrite H. Qed.

Lemma merkle_root_any b m r m' : block_merkle_root b m = Done (r, m') ->
  m' = m /\ forall m2, block_merkle_root b m2 = Done (r, m2).
Proof.
  unfold block_merkle_root, in_miner. destruct (BuildMerkleTree _ _ _) as [ [t h]| |]; [|done..].
  by intros [= <- <-].
Qed.

(** Only the index from transactions to blocks changes. *)
Definition index_only (m m' : Miner) : Prop :=
  ledger m' = ledger m /\ pool m' = pool m /\ chain m' = chain m /\
  closedblocks (db m') = closedblocks (db m) /\ closedblockswithouttx (db m') = closedblockswithouttx (db m).

#[export] Instance index_only_PreOrder : PreOrder index_only.
Proof. split; [by intros m|]. intros a b c (?&?&?&?&?) (?&?&?&?&?). split_and!; congruence. Qed.

Lemma storeBlockByTxs_index b : respects index_only (storeBlockByTxs b).
Proof.
  assert (H : forall hs h, respects index_only (store_block hs h)).
  { intros hs h. induction hs as [|k hs IH]; cbn [store_block]; [frame|]. apply respects_bind; [apply _| |auto].
    intros m u m' [= _ <-]. by split_and!. }
  unfold storeBlockByTxs. frame.
Qed.

Lemma proofs_back_ext n d d' b b' : closedblocks d' = closedblocks d -> closedblockswithouttx d' = closedblockswithouttx d ->
  blk_Height b' = blk_Height b -> blk_PrevHash b' = blk_PrevHash b -> blk_PrevHashWithoutTx b' = blk_PrevHashWithoutTx b ->
  proofs_back n d' b' = proofs_back n d b.
Proof.
  intros H1 H2. assert (Hp : forall b0, parent d' b0 = parent d b0) by (intros; unfold parent; by rewrite H1, H2).
  assert (Hc : forall n0 b0, proofs_back n0 d' b0 = proofs_back n0 d b0).
  { clear -Hp. intros n0. induction n0 as [|n0 IH]; intros b0; cbn [proofs_back]; [done|]. rewrite Hp.
    destruct (0 <? blk_Height b0), (parent d b0); try done. by rewrite IH. }
  intros E1 E2 E3. rewrite Hc. destruct n; [done|]. cbn [proofs_back]. rewrite E1. unfold parent. by rewrite E2, E3.
Qed.

(** The block without a slashing proof, before it is sealed. *)
Definition unsealed (root : hash) (acc : Account) (b : Block) : Block :=
  upd_blk_Beneficiary (fun _ => Account_Hash acc) (upd_blk_MerkleRoot (fun _ => root) b).

Lemma finalizeBlock_inv {ML : MapOrderLaws} ticks b m b' m' :
  slashingDict (chain m) = ∅ -> finalizeBlock ticks b m = Done ((b', None), m') ->
  exists root acc proof diff t,
    (forall m2, block_merkle_root b m2 = Done (root, m2)) /\
    State (ledger m) !! SerializeHashContent (VBytes validatorAccAddress) = Some acc /\
    SignMessageWithRSAKey (fmt_int 10 (blk_Height b)) = inr proof /\
    last (target (chain m)) = Some diff /\
    validateProofOfStake diff (proofs_for m b) (blk_Height b) (acc_Balance acc) proof t = Some true /\
    b' = seal t proof (unsealed root acc b) /\ index_only m m'.
Proof.
  intros Hd H. unfold finalizeBlock in H. apply bind_inv in H as (dict & m1 & E1 & H1). injection E1 as <- <-. rename H1 into H.
  assert (Hr : range_map (slashingDict (chain m)) = []).
  { apply Permutation_nil_r. rewrite range_perm, Hd. by rewrite map_to_list_empty. }
  unfold add_slashing_proof in H. rewrite Hr in H.
  apply bind_inv in H as (root & m1 & [-> Hroot]%merkle_root_any & H). cbv zeta in H.
  apply bind_inv in H as ([acc err] & m1 & Hacc & H).
  apply GetAccount_inv in Hacc as [-> Hacc]. unfold St in Hacc.
  destruct (State (ledger m) !! _) as [a|] eqn:Ea; injection Hacc as -> ->; [|discriminate H].
  cbn [of_option] in H. apply bind_inv in H as (a' & m1 & E1 & H1). injection E1 as <- <-. rename H1 into H.
  destruct (SignMessageWithRSAKey _) as [e|proof] eqn:Es; [done|].
  apply bind_inv in H as (active & m1 & E1 & H1). injection E1 as <- <-. rename H1 into H. apply bind_inv in H as (pp & m1 & Hpp & H).
  unfold GetLatestProofs in Hpp. rewrite latest_proofs_run in Hpp. injection Hpp as <- <-.
  apply bind_inv in H as (diff & m1 & Hdiff & H).
  unfold getDifficulty in Hdiff. apply bind_inv in Hdiff as (t0 & m2 & [= <- <-] & [Hdiff ->]%of_option_inv).
  apply bind_inv in H as ([t e] & m2 & Hp & H). destruct (proofOfStake _ _ _ _ _ _ _) as [r|] eqn:Ep; [|done].
  injection Hp as -> <-. destruct e; [apply bind_inv in H as (? & ? & _ & H); done|].
  apply bind_inv in H as ([] & m2 & Hst%storeBlockByTxs_index & [= <- <-]).
  exists root, a, proof, diff, t. split_and!; try done.
  unfold proofOfStake in Ep. apply search_valid in Ep. rewrite <-Ep. f_equal. by apply proofs_back_ext.
Qed.
End checks.

(** ** The last block, and the closed ones *)

Definition same_chain (m m' : Miner) : Prop := chain m' = chain m.
Definition keeps_closed (m m' : Miner) : Prop := closedblocks (db m') = closedblocks (db m).

#[export] Instance same_chain_PreOrder : PreOrder same_chain.
Proof. split; unfold same_chain; [done|]. intros a b c ? ?. congruence. Qed.
#[export] Instance keeps_closed_PreOrder : PreOrder keeps_closed.
Proof. split; unfold keeps_closed; [done|]. intros a b c ? ?. congruence. Qed.

Lemma same_chain_pool f : respects same_chain (on_pool f).
Proof. by intros m u m' [= _ <-]. Qed.
Lemma same_chain_db f : respects same_chain (on_db f).
Proof. by intros m u m' [= _ <-]. Qed.
Lemma keeps_closed_pool f : respects keeps_closed (on_pool f).
Proof. by intros m u m' [= _ <-]. Qed.
Lemma keeps_closed_chain f : respects keeps_closed (on_chain f).
Proof. by intros m u m' [= _ <-]. Qed.
Lemma keeps_closed_ledger f : respects keeps_closed (on_ledger f).
Proof. by intros m u m' [= _ <-]. Qed.
Lemma keeps_closed_db f : (forall d, closedblocks (f d) = closedblocks d) -> respects keeps_closed (on_db f).
Proof. intros H m u m' [= _ <-]. apply H. Qed.

Section chains.
Context {DG : Digests} {DL : DigestLaws} {SO : SortOps} {FO : FloatOps} {SG : Signatures} {NK : NodeKeys}.
Context {GS : GoSort} {MO : MapOrder} {CM : Commitments}.

#[local] Hint Resolve same_chain_pool same_chain_db keeps_closed_pool keeps_closed_chain keeps_closed_ledger : frame.
#[local] Hint Extern 1 (respects keeps_closed (on_db _)) => by apply keeps_closed_db : frame.
#[local] Hint Extern 1 (respects _ (tx_hash _)) => apply reads_tx_hash, _ : frame.

Lemma for_each_respects (R : relation Miner) `{!PreOrder R} {T} (body : T -> M Miner unit) l :
  (forall x, respects R (body x)) -> respects R (for_each body l).
Proof. intros Hb. induction l; cbn [for_each]; [frame|]. apply respects_bind; [apply _|auto|auto]. Qed.

Ltac walk := repeat first
  [ progress frame
  | match goal with |- respects _ (for_each _ _) => apply for_each_respects; [apply _|intros] end ].

Lemma chain_close tx : respects same_chain (close tx).
Proof. unfold close, WriteClosedTx, DeleteOpenTx. frame. Qed.
Lemma chain_DeleteINVALID tx : respects same_chain (DeleteINVALIDOpenTx tx).
Proof. unfold DeleteINVALIDOpenTx. frame. Qed.
#[local] Hint Resolve chain_close chain_DeleteINVALID : frame.

Lemma chain_last_with_hash txs h o : respects same_chain (last_with_hash txs h o).
Proof. revert o. induction txs; intros o; cbn [last_with_hash]; frame. Qed.
#[local] Hint Resolve chain_last_with_hash : frame.

Lemma chain_close_agg data t : respects same_chain (close_agg data t).
Proof.
  assert (forall hs, respects same_chain (close_aggregated data t hs)).
  { intros hs. induction hs; cbn [close_aggregated];
      unfold ReadClosedTx, ReadOpenTx, WriteClosedTx, DeleteOpenTx, DeleteINVALIDOpenTx; frame. }
  unfold close_agg. frame.
Qed.
#[local] Hint Resolve chain_close_agg : frame.

Lemma chain_all_aggregated is_agg hs : respects same_chain (all_aggregated is_agg hs).
Proof. induction hs; cbn [all_aggregated]; unfold ReadClosedTx; frame. Qed.
#[local] Hint Resolve chain_all_aggregated : frame.

Lemma chain_close_block b : respects same_chain (close_block b).
Proof.
  unfold close_block, DeleteOpenBlock, WriteClosedBlock, ReadAllClosedBlocks, DeleteAllLastClosedBlock,
    WriteLastClosedBlock, UpdateBlocksToBlocksWithoutTx, BlockReadyToAggregate, WriteClosedBlockWithoutTx, DeleteClosedBlock.
  walk.
Qed.

Lemma collectStatistics_last b m u m' : collectStatistics b m = Done (u, m') -> lastBlock (chain m') = Some b.
Proof.
  unfold collectStatistics. intros H. do 3 (apply bind_inv in H as (? & ? & _ & H)).
  apply bind_inv in H as (? & m4 & _ & H). by injection H as _ <-.
Qed.

Lemma postValidate_last data init bootstrap m u m' : postValidate data init bootstrap m = Done (u, m') ->
  lastBlock (chain m') = Some (block data).
Proof.
  unfold postValidate. intros H. apply bind_inv in H as (? & m1 & _ & H).
  apply bind_inv in H as (? & m2 & H2%collectStatistics_last & H). rewrite <-H2. f_equal.
  destruct (negb bootstrap || negb init); [|by injection H as _ <-].
  match type of H with ?c m2 = _ => assert (Hr : respects same_chain c) end; [|by apply Hr in H].
  pose proof chain_close_block. unfold close_funds. destruct init; walk.
Qed.

Lemma validate_all_last env init uptodate blocks ans m ans' m' b :
  validate_all env init uptodate blocks ans m = Done ((None, ans'), m') -> last blocks = Some b ->
  lastBlock (chain m') = Some b.
Proof.
  revert ans m. induction blocks as [|b1 blocks IH]; intros ans m H Hl; [done|].
  cbn [validate_all] in H. apply bind_inv in H as ([ [e|] ans1] & m1 & H1 & H); [done|].
  destruct blocks as [|b2 blocks].
  - injection Hl as ->. injection H as <- <-. unfold validate_one in H1.
    apply bind_inv in H1 as ([ [e|] a1] & k1 & _ & H1); [done|].
    apply bind_inv in H1 as ([ [e|] s] & k2 & _ & H1); [done|].
    apply bind_inv in H1 as (a2 & k3 & _ & H1). apply bind_inv in H1 as (data & k4 & Hd & H1).
    apply bind_inv in H1 as ([e|] & k5 & _ & H1); [done|].
    apply bind_inv in H1 as (? & k6 & Hp%postValidate_last & [= _ <-]). rewrite Hp. f_equal.
    unfold block_data in Hd. do 6 (apply bind_inv in Hd as (? & ? & _ & Hd)). by injection Hd as <- _.
  - by apply (IH ans1 m1).
Qed.

(** ** A rollback takes the block out of the closed ones *)

Lemma closed_reopen tx : respects keeps_closed (reopen tx).
Proof.
  unfold reopen, WriteOpenTx, WriteTxcntToTx, DeleteClosedTx. frame.
  apply keeps_closed_db. intros d. by destruct tx.
Qed.

Lemma closed_read_all {T} (f : Transaction -> option T) msg hs : respects keeps_closed (read_closed_all f msg hs).
Proof. induction hs; cbn [read_closed_all]; unfold ReadClosedTx; frame. Qed.

Lemma preValidateRollback_no_agg b m data m' : blk_AggTxData b = [] ->
  preValidateRollback b m = Done ((None, data), m') -> keeps_closed m m' /\ aggTxSlice data = [] /\ block data = b.
Proof.
  intros Ha H. split.
  - eapply (_ : respects keeps_closed (preValidateRollback b)), H. Unshelve.
    pose proof @closed_read_all. unfold preValidateRollback. frame.
  - unfold preValidateRollback in H. cbv zeta in H. do 4 (apply bind_inv in H as ([ [?|] ?] & ? & _ & H); [done|]).
    rewrite Ha in H. cbn in H. by injection H as <- _.
Qed.

Lemma configRollback_closed txs h : respects keeps_closed (configStateChangeRollback txs h).
Proof. unfold configStateChangeRollback. frame. Qed.

Lemma validateStateRollback_closed data : aggTxSlice data = [] -> respects keeps_closed (validateStateRollback data).
Proof.
  intros Hg. unfold validateStateRollback, aggregated_rollback. rewrite Hg. cbn [aggregatedStateRollback rev for_each].
  unfold collectSlashRewardRollback, collectBlockRewardRollback, fees_rollback, collectTxFeesRollback,
    stakeStateChangeRollback, fundsStateChangeRollback, accStateChangeRollback, stakeTx_rollback, fundsTx_rollback,
    accTx_rollback, take_back, give_back, account, get_account, update_account, slash_reward, block_reward,
    GetRootAccount, GetAccount, IsRootKey, get_account. walk.
Qed.

Lemma postValidateRollback_deletes data m u m' : postValidateRollback data m = Done (u, m') ->
  closedblocks (db m') = delete (blk_Hash (block data)) (closedblocks (db m)).
Proof.
  intros H. unfold postValidateRollback in H. pose proof closed_reopen as Hr.
  assert (Hf : forall T (body : T -> M Miner unit) l, (forall x, respects keeps_closed (body x)) ->
    respects keeps_closed (for_each body l)) by (intros; apply for_each_respects; [apply _|done]).
  apply bind_inv in H as (? & m1 & H1 & H). apply Hf in H1; [|done].
  apply bind_inv in H as (? & m2 & H2 & H). apply Hf in H2; [|done].
  apply bind_inv in H as (? & m3 & H3 & H). apply Hf in H3; [|done].
  apply bind_inv in H as (? & m4 & H4 & H). apply Hf in H4; [|done].
  apply bind_inv in H as (? & m5 & H5 & H). apply Hf in H5; [|intros t; unfold reopen_aggregated, ReadClosedTx; walk].
  apply bind_inv in H as (? & m6 & H6 & H).
  assert (Hs : respects keeps_closed (collectStatisticsRollback (block data)))
    by (unfold collectStatisticsRollback, ReadClosedBlock, read_db; frame).
  apply Hs in H6. apply bind_inv in H as (? & m7 & [= _ <-] & H).
  match type of H with ?c ?k = _ => assert (Hc : respects keeps_closed c) end.
  { unfold WriteToReceivedStash, DeleteAllLastClosedBlock, ReadClosedBlock, read_db, WriteLastClosedBlock. frame. }
  apply Hc in H. unfold keeps_closed in *. rewrite H. cbn. congruence.
Qed.

Lemma rollback_deletes b m m' : blk_AggTxData b = [] -> rollback b m = Done (None, m') ->
  closedblocks (db m') = delete (blk_Hash b) (closedblocks (db m)).
Proof.
  intros Ha H. unfold rollback in H. apply bind_inv in H as ([ [e|] data] & m1 & H1 & H); [done|].
  apply preValidateRollback_no_agg in H1 as (H1 & Hg & Hb); [|done]. unfold keeps_closed in H1.
  apply bind_inv in H as (? & m2 & H2 & H). apply bind_inv in H as (? & m3 & H3 & H).
  apply bind_inv in H as (? & m4 & H4 & [= <-]).
  apply configRollback_closed in H2. apply (validateStateRollback_closed _ Hg) in H3. unfold keeps_closed in *.
  rewrite <-H1, <-H2, <-H3, <-Hb. clear -H4. by apply postValidateRollback_deletes in H4.
Qed.
End chains.
