(* ===== verification/ValidateProps.v ===== *)
(** * Properties of validation and mining

    What an accepted block has been checked for and what has not been checked,
    that a transaction is validated once, that a block an honest node mines is
    accepted, and how a fork that fails leaves the node. *)

From S2P Require Import Prelude GoLib Format Chameleon Protocol Merkle BlockFields Node Storage Ledger Params StateChange.
From S2P Require Import StateLemmas Validation PoS Verify AddTx Aggregate BlockPrep LongestChain ChainLemmas Fetch Validate.
From S2P Require Import FetchLemmas CheckLemmas LedgerProps ChainProps MiningProps ForkProps.

Section props.
Context {DG : Digests} {DL : DigestLaws} {SO : SortOps} {FO : FloatOps} {SG : Signatures} {NK : NodeKeys}.
Context {GS : GoSort} {MO : MapOrder} {ML : MapOrderLaws} {CM : Commitments}.

(** C5: the checks of a block.  When [preValidate] accepts a block the
    accounts and the database are as before, and: the author is a known
    validator; outside the initial setup the time is near that of the peers
    (for a node that is up to date) and the proof of stake holds for his
    balance; the size is allowed, no transaction is listed twice, the
    commitment proof is his signature of the height, the time is not in the
    future, he has waited long enough; a slashing proof names two different
    blocks; and the Merkle root is that of the transactions, unless the block
    says that it was emptied. *)
Theorem prevalidate_checks env b init uptodate ans m ans' m' :
  preValidate env b init uptodate ans m = Done ((None, ans'), m') ->
  ledger m' = ledger m /\ db m' = db m /\
  exists acc, State (ledger m) !! blk_Beneficiary b = Some acc /\ acc_IsStaking acc = true /\
    block_checks env init uptodate m acc b /\
    (blk_SlashedAddress b <> zero_hash -> blk_ConflictingBlockHash1 b <> zero_hash /\
       blk_ConflictingBlockHash2 b <> zero_hash /\ blk_ConflictingBlockHash1 b <> blk_ConflictingBlockHash2 b) /\
    (blk_Aggregated b = false -> forall m2, block_merkle_root b m2 = Done (blk_MerkleRoot b, m2)).
Proof.
  unfold preValidate. intros H. apply bind_inv in H as ([oacc e] & m1 & Ha & H).
  apply GetAccount_inv in Ha as [-> Ha]. unfold St in Ha.
  destruct (State (ledger m) !! blk_Beneficiary b) as [acc|] eqn:Ea; injection Ha as -> ->; [|discriminate H].
  apply bind_inv in H as (a & m1 & E & H). injection E as <- <-.
  destruct (acc_IsStaking acc) eqn:Es; cbn [negb] in H; [|discriminate H].
  apply bind_inv in H as ([ [e|] a1] & m1 & Hc & H); [discriminate H|]. apply check_block_inv in Hc as (-> & -> & Hc).
  apply bind_inv in H as ([ [ok [e|] ] a2] & m2 & Hs & H); [discriminate H|].
  assert (quiet m m2 /\ (blk_SlashedAddress b <> zero_hash -> blk_ConflictingBlockHash1 b <> zero_hash /\
    blk_ConflictingBlockHash2 b <> zero_hash /\ blk_ConflictingBlockHash1 b <> blk_ConflictingBlockHash2 b)) as [ [Hl Hd] Hsl].
  { case_bool_decide as Hz; [injection Hs as _ _ <-; by split|].
    split; [by eapply quiet_slashingCheck|]. intros _. unfold slashingCheck in Hs.
    destruct (bool_decide _ || bool_decide _) eqn:E1 in Hs; [discriminate Hs|].
    apply orb_false_iff in E1 as [E1%bool_decide_eq_false E2%bool_decide_eq_false].
    case_bool_decide as E3; [discriminate Hs|done]. }
  destruct (blk_Aggregated b) eqn:Eg.
  { injection H as <- <-. split; [done|]. split; [done|]. exists acc. by split_and!. }
  apply bind_inv in H as (root & m3 & [-> Hr]%merkle_root_any & H).
  case_bool_decide as Er; cbn [negb] in H; [|discriminate H]. injection H as <- <-. subst root.
  split; [done|]. split; [done|]. exists acc. by split_and!.
Qed.

(** C7: mining and validation agree.  A block that [finalizeBlock] seals is
    accepted by [preValidate], outside the initial setup, on the same node and
    in the state that [finalizeBlock] leaves, when the account of the node is a
    validator whose commitment key verifies the signatures of the node, no
    slashing proof is pending and the block has no slashed address, the block
    is small enough and lists no transaction twice, the time found passes the
    timestamp check and is not too far ahead of the clock, and the waiting time
    of the validator is over: the proof of stake, the Merkle root, the author
    and the commitment proof are right by construction. *)
Theorem mined_block_accepted env uptodate ticks b m b' m' ans acc :
  slashingDict (chain m) = ∅ -> blk_SlashedAddress b = zero_hash ->
  State (ledger m) !! SerializeHashContent (VBytes validatorAccAddress) = Some acc ->
  acc_Address acc = validatorAccAddress -> acc_IsStaking acc = true ->
  (forall msg sig, SignMessageWithRSAKey msg = inr sig ->
     VerifyMessageWithRSAKey (CreateRSAPubKeyFromBytes (acc_CommitmentKey acc)) msg sig = true) ->
  finalizeBlock ticks b m = Done ((b', None), m') ->
  GetSize b' <= BlockSize (activeParameters (chain m)) -> NoDup (all_hashes b) ->
  (uptodate = true -> timestampCheck (systemTime env (blk_Height b)) (blk_Timestamp b') = None) ->
  blk_Timestamp b' <= to_int64 (clock env (blk_Height b) + to_int64 (AcceptedTimeDiff (activeParameters (chain m)))) ->
  u32 (WaitingMinimum (activeParameters (chain m))) <= u32 (blk_Height b - acc_StakingBlockHeight acc) ->
  preValidate env b' false uptodate ans m' = Done ((None, ans), m').
Proof.
  intros Hdict Hsl Hacc Haddr Hst Hlaw Hf Hsize Hdup Htime Hfut Hwait.
  apply finalizeBlock_inv in Hf as (root & a & proof & diff & t & Hroot & Ha & Hsig & Hdiff & Hpos & -> & Hi);
    [|done]. rewrite Hacc in Ha. injection Ha as <-. destruct Hi as (Hl & _ & Hc & Hb1 & Hb2).
  unfold preValidate, mbind, M_bind. rewrite GetAccount_run. unfold St. rewrite Hl.
  change (blk_Beneficiary (seal t proof (unsealed root acc b))) with (Account_Hash acc).
  unfold Account_Hash. rewrite Haddr, Hacc. cbn [of_option mret M_ret]. rewrite Hst. cbn [negb].
  rewrite check_block_intro.
  - change (blk_SlashedAddress (seal t proof (unsealed root acc b))) with (blk_SlashedAddress b). rewrite Hsl.
    rewrite bool_decide_eq_true_2 by done. cbn [mret M_ret].
    destruct (blk_Aggregated _); [done|].
    rewrite (merkle_root_ext _ b) by done. rewrite Hroot. by rewrite bool_decide_eq_true_2.
  - split; rewrite ?Hc; try done.
    + by apply Hlaw.
    + intros _. exists diff. split; [done|]. rewrite <-Hpos. unfold proofs_for. rewrite Hc.
      change (validateProofOfStake diff
        (proofs_back (Z.to_nat (numIncludedPrevProofs (activeParameters (chain m)))) (db m') (seal t proof (unsealed root acc b)))
        (blk_Height b) (acc_Balance acc) proof t = validateProofOfStake diff
        (proofs_back (Z.to_nat (numIncludedPrevProofs (activeParameters (chain m)))) (db m) b)
        (blk_Height b) (acc_Balance acc) proof t).
      f_equal. by apply proofs_back_ext.
Qed.

(** C2: a transaction is validated once, outside the initial setup.  After the
    last step of a block's validation each of its funds transactions is closed
    and no longer open; and, whatever the network answers, a block is not
    fetched without an error outside the initial setup when it lists as an
    account, funds, configuration, stake or update transaction one that is
    closed, or as an aggregation one that is closed and not aggregated itself.
    Closed aggregations that are aggregated, closed transactions inside an
    aggregation, and every closed transaction during the initial setup are
    taken. *)
Theorem validated_once data init bootstrap m u m' :
  init && bootstrap = false -> postValidate data init bootstrap m = Done (u, m') ->
  (forall tx h, tx ∈ fundsTxSlice data ->
     Transaction_Hash (ChameleonHashParametersMap (ledger m)) (TFunds tx) = Some h ->
     is_Some (closed_tx (db m') h) /\ txMemPool (pool m') !! h = None) /\
  (forall net fuel b s m2 h s' m3, is_Some (closed_tx (db m2) h) -> h ∈ listed b ->
     fetchTransactions net false fuel b s m2 <> Done ((None, s'), m3)) /\
  (forall net fuel b s m2 h s' m3, closed_once (db m2) h -> h ∈ blk_AggTxData b ->
     fetchTransactions net false fuel b s m2 <> Done ((None, s'), m3)).
Proof.
  intros Hb H. split; [|split].
  - intros tx h Hin Hh. destruct (postValidate_closes data init bootstrap tx h m u m') as [ [x Hx] Ho]; [done..|].
    split; [|done]. unfold closed_tx. rewrite Hx. by eexists.
  - intros. by eapply closed_refused.
  - intros. by eapply closed_agg_refused.
Qed.

(** C38: validation moves to the block.  When [validate] accepts a block, that
    block, and not another one of its chain, is the current block of the node. *)
Theorem validate_moves_to_block env b init ans m ans' m' :
  validate env b init ans m = Done ((None, ans'), m') -> lastBlock (chain m') = Some b.
Proof.
  unfold validate. intros H. apply bind_inv in H as (c & m1 & E & H). injection E as <- <-.
  destruct (closedblocks (db m) !! blk_Hash b); [discriminate H|].
  apply bind_inv in H as ([ [ [rb val] [e|] ] a] & m1 & Hs & H); [discriminate H|]. cbv zeta in H.
  apply bind_inv in H as ([e|] & m2 & _ & H); [discriminate H|].
  eapply validate_all_last; [exact H|].
  apply getBlockSequences_inv in Hs as (r & m3 & Hg & _ & a0 & t & -> & _).
  apply getNewChain_spec in Hg as (_ & path & f & -> & Hc & _). cbn [app]. rewrite rev_alt. change (rev_append path []) with (reverse path). rewrite last_reverse.
  by eapply chain_of_head.
Qed.

(** A fork that fails is not undone.  When the current chain was taken back
    for a longer one and the first block of that one is refused, [validate]
    returns with the blocks that were taken back gone from the closed ones and
    nothing in their place. *)
Theorem failed_fork_not_restored env nb init ans m rb b1 rest ans1 m1 m2 e ans2 m3 :
  closedblocks (db m) !! blk_Hash nb = None ->
  getBlockSequences (walk_fuel env) ans nb m = Done ((rb, b1 :: rest, None, ans1), m1) ->
  (forall b, b ∈ rb -> blk_AggTxData b = []) ->
  for_each_err rollback rb m1 = Done (None, m2) ->
  preValidate env b1 init (Z.of_nat (length (b1 :: rest)) <? DELAYED_BLOCKS) ans1 m2 = Done ((Some e, ans2), m3) ->
  validate env nb init ans m = Done ((Some e, ans2), m3) /\
  forall b, b ∈ rb -> closedblocks (db m3) !! blk_Hash b = None.
Proof.
  intros Hn Hs Hagg Hr Hp. pose proof (quiet_preValidate _ _ _ _ _ _ _ _ Hp) as Hq. split.
  - unfold validate, ReadClosedBlock, read_db, mbind, M_bind, gets. rewrite Hn, Hs. cbv zeta.
    rewrite Hr. cbn [validate_all]. unfold validate_one, mbind, M_bind. by rewrite Hp.
  - destruct Hq as [_ ->]. clear Hs Hp.
    assert (Hsub : forall l k k', for_each_err rollback l k = Done (None, k') -> (forall b, b ∈ l -> blk_AggTxData b = []) ->
      forall h, (closedblocks (db k) !! h = None \/ exists b, b ∈ l /\ blk_Hash b = h) -> closedblocks (db k') !! h = None).
    { intros l. induction l as [|b l IH]; intros k k' H Ha h Hh; cbn [for_each_err] in H.
      - injection H as <-. destruct Hh as [?|(b & Hb & _)]; [done|by apply elem_of_nil in Hb].
      - apply bind_inv in H as ([e'|] & k1 & H1 & H2); [done|]. apply rollback_deletes in H1; [|apply Ha; by left].
        eapply IH; [exact H2|intros; apply Ha; by right|]. rewrite H1.
        destruct (decide (h = blk_Hash b)) as [->|Hne]; [left; apply lookup_delete_eq|].
        destruct Hh as [Hh|(b' & Hb & <-)]; [left; by rewrite lookup_delete_ne|].
        apply elem_of_cons in Hb as [->|Hb]; [done|]. right. by exists b'. }
    intros b Hb. eapply Hsub; [exact Hr|done|]. right. by exists b.
Qed.

(** The hash of a block is never checked.  [preValidate] gives the same
    answer for a block under any other hash; and a block that is sent under the
    hash of a closed one, with another number of updates, replaces it without
    any check. *)
Theorem hash_never_checked env b init uptodate ans h h' m :
  preValidate env (upd_blk_Hash (fun _ => h) (upd_blk_HashWithoutTx (fun _ => h') b)) init uptodate ans m =
    preValidate env b init uptodate ans m /\
  (forall c, closedblocks (db m) !! blk_Hash b = Some c -> blk_NrUpdates c <> blk_NrUpdates b ->
     exists m', processBlock env b ans m = Done (false, m') /\
       closedblocks (db m') = <[blk_Hash b := Block_persist b]> (closedblocks (db m))).
Proof.
  split.
  - set (b' := upd_blk_Hash _ _).
    assert (Hl : forall n, latest_proofs n b' = latest_proofs n b) by (by intros []).
    assert (Hc : forall acc, check_block env b' init uptodate ans acc m = check_block env b init uptodate ans acc m).
    { intros acc. unfold check_block, GetLatestProofs, mbind, M_bind, gets. cbv zeta beta iota. by rewrite Hl. }
    unfold preValidate, mbind, M_bind. rewrite !GetAccount_run. change (blk_Beneficiary b') with (blk_Beneficiary b).
    destruct (St m !! blk_Beneficiary b) as [acc|]; [|done]. cbn [of_option mret M_ret].
    destruct (acc_IsStaking acc); cbn [negb]; [|done]. by rewrite Hc.
  - intros c Hc Hne. unfold processBlock, ReadClosedBlock, read_db, mbind, M_bind, gets. rewrite Hc.
    rewrite (proj2 (Z.eqb_neq _ _) Hne). by eexists.
Qed.

(** The counters of a block are not checked against its lists.  When a
    block lists more open account transactions than it counts, fetching them
    panics: one received block stops the node. *)
Theorem counters_crash net init fuel b m :
  0 <= blk_NrAccTx b < Z.of_nat (length (blk_AccTxData b)) ->
  (forall h, h ∈ blk_AccTxData b -> closed_tx (db m) h = None /\ exists t, txMemPool (pool m) !! h = Some (TAcc t)) ->
  fetchTransactions net init fuel b (make_slices b) m = Panic.
Proof.
  intros Hn Ho. unfold fetchTransactions, fetchAccTxData, mbind, M_bind.
  rewrite (fetch_open_panics (fetch_acc net init) m (blk_AccTxData b)); [done| |lia|].
  - intros h Hh. destruct (Ho h Hh) as (Hc & t & Ht). exists t. by apply fetch_acc_open.
  - unfold make_slices, make. cbn [s_acc]. rewrite length_replicate. lia.
Qed.
End props.

(** ** Witnesses *)

Module Chains.
Import Toy Mine Small Fork.

(** Every proof is accepted; this node signs with zeros. *)
#[global] Instance commitments : Commitments :=
  {| rsa_VerifyPKCS1v15 _ _ _ _ := true; rsa_SignPKCS1v15 _ := inr (zeros 256); rootCommitmentModulus := [] |}.

Definition no_net : network :=
  mkNetwork (fun _ => NoReply [] []) (fun _ => NoReply [] []) (fun _ => NoReply [] []) (fun _ => NoReply [] [])
    (fun _ => NoReply [] []) (fun _ _ => NoReply [] []) (fun _ _ => NoReply [] []).
Definition env : surroundings := mkSurroundings (fun _ => 0) (fun _ => 0) no_net false 20.

(** The genesis block, and a staking validator. *)
Definition start : Miner := with_blocks [g] g [] (miner [(3, 10000, true)] []).
Definition next : Block := upd_blk_Timestamp (fun _ => 0) (blk 11 10 1).

Definition accepted {A} (r : outcome (error * A * Miner)) : bool :=
  match r with Done ((None, _), _) => true | _ => false end.

Lemma accepted_done {A} (r : outcome (error * A * Miner)) : accepted r = true -> exists a m, r = Done ((None, a), m).
Proof. destruct r as [ [ [ [e|] a] m]| |]; try done. intros _. by exists a, m. Qed.

Definition sealed {A} (r : outcome (A * error * Miner)) : bool :=
  match r with Done ((_, None), _) => true | _ => false end.

Lemma sealed_done {A} (r : outcome (A * error * Miner)) : sealed r = true -> exists a m, r = Done ((a, None), m).
Proof. destruct r as [ [ [a [e|] ] m]| |]; try done. intros _. by exists a, m. Qed.

(** The chain [g, a1, a2] against [b1, b2, b3]. *)
Definition forked : Miner :=
  upd_chain (upd_globalBlockCount (fun _ => 10)) (upd_chain (upd_localBlockCount (fun _ => 10)) Fork.m).
End Chains.

Section witnesses.
Import Toy Mine Small Fork Chains.

Lemma prevalidate_checks_witness : exists ans' m',
  preValidate env next false true [] start = Done ((None, ans'), m') /\ db m' = db start.
Proof.
  destruct (accepted_done (preValidate env next false true [] start)) as (ans' & m' & H); [vm_compute; reflexivity|].
  exists ans', m'. split; [exact H|]. exact (proj1 (proj2 (prevalidate_checks _ _ _ _ _ _ _ _ H))).
Defined.

Lemma validate_moves_to_block_witness : exists ans' m',
  validate env next false [] start = Done ((None, ans'), m') /\ lastBlock (chain m') = Some next.
Proof.
  destruct (accepted_done (validate env next false [] start)) as (ans' & m' & H); [vm_compute; reflexivity|].
  exists ans', m'. split; [exact H|]. exact (validate_moves_to_block _ _ _ _ _ _ _ H).
Defined.

Lemma hash_never_checked_witness : exists m',
  processBlock env (upd_blk_NrUpdates (fun _ => 7) a1) [] Fork.m = Done (false, m').
Proof.
  destruct (proj2 (hash_never_checked env (upd_blk_NrUpdates (fun _ => 7) a1) false true [] zero_hash zero_hash Fork.m) a1)
    as (m' & H & _).
  - vm_compute. reflexivity.
  - vm_compute. discriminate.
  - exists m'. exact H.
Defined.

Definition ticks : list tick := [mkTick 0 (Some g)].

Lemma mined_block_accepted_witness : exists b' m',
  finalizeBlock ticks (blk 0 10 1) start = Done ((b', None), m') /\
  preValidate env b' false true [] m' = Done ((None, []), m').
Proof.
  destruct (sealed_done (finalizeBlock ticks (blk 0 10 1) start)) as (b' & m' & H); [vm_compute; reflexivity|].
  assert (Hb : match finalizeBlock ticks (blk 0 10 1) start with
    | Done ((b', _), _) => (GetSize b' <=? 5000) && (blk_Timestamp b' =? 0) | _ => false end = true) by (vm_compute; reflexivity).
  rewrite H in Hb. apply andb_true_iff in Hb as [Hsize%Z.leb_le Ht%Z.eqb_eq].
  exists b', m'. split; [exact H|].
  apply (mined_block_accepted env true ticks (blk 0 10 1) start b' m' [] (acct 3 10000 true)).
  - reflexivity.
  - reflexivity.
  - vm_compute. reflexivity.
  - reflexivity.
  - reflexivity.
  - intros msg sig _. reflexivity.
  - exact H.
  - exact Hsize.
  - constructor.
  - intros _. rewrite Ht. reflexivity.
  - rewrite Ht. vm_compute. discriminate.
  - vm_compute. discriminate.
Defined.

Definition paid : blockData := mkBlockData [] [pay 3 3 5 1 0] [] [] [] [] [] next.
Definition paid_hash : option hash := Transaction_Hash (ChameleonHashParametersMap (ledger start)) (TFunds (pay 3 3 5 1 0)).

Lemma validated_once_witness : exists m' h, postValidate paid false false start = Done (tt, m') /\
  paid_hash = Some h /\ is_Some (closed_tx (db m') h).
Proof.
  destruct (done_exists (postValidate paid false false start)) as ([] & m' & H); [vm_compute; reflexivity|].
  destruct paid_hash as [h|] eqn:Eh; [|exfalso; revert Eh; vm_compute; discriminate].
  exists m', h. split; [exact H|]. split; [reflexivity|].
  destruct (validated_once paid false false start tt m' eq_refl H) as [Hc _].
  apply (Hc (pay 3 3 5 1 0) h); [left|exact Eh].
Defined.

Lemma failed_fork_not_restored_witness : exists e ans2 m3,
  validate env b3 false [Some b2] forked = Done ((Some e, ans2), m3) /\
  closedblocks (db m3) !! key 12 = None /\ closedblocks (db m3) !! key 11 = None.
Proof.
  destruct (hashes_done (getBlockSequences (walk_fuel env) [Some b2] b3 forked) ([key 12; key 11], [key 21; key 22; key 23]))
    as (rb&val&ans1&m1&Hs&[= E1 E2]); [vm_compute; reflexivity|].
  assert (Hall : match getBlockSequences (walk_fuel env) [Some b2] b3 forked with
    | Done ((rb, b1 :: _, _, ans1), m1) =>
        match for_each_err rollback rb m1 with
        | Done (None, m2) =>
            match preValidate env b1 false true ans1 m2 with Done ((Some _, _), _) => forallb (fun b => bool_decide (blk_AggTxData b = [])) rb | _ => false end
        | _ => false end
    | _ => false end = true) by (vm_compute; reflexivity).
  rewrite Hs in Hall. destruct val as [|v1 vrest]; [discriminate Hall|].
  destruct (for_each_err rollback rb m1) as [ [ [?|] m2]| |] eqn:Er; [discriminate Hall| |discriminate Hall..].
  destruct (preValidate env v1 false true ans1 m2) as [ [ [ [e|] ans2] m3]| |] eqn:Ep;
    [|discriminate Hall..].
  rewrite forallb_forall in Hall.
  assert (Hlen : Z.of_nat (length (v1 :: vrest)) <? DELAYED_BLOCKS = true).
  { apply (f_equal length) in E2. rewrite length_map in E2. rewrite E2. reflexivity. }
  destruct (failed_fork_not_restored env b3 false [Some b2] forked rb v1 vrest ans1 m1 m2 e ans2 m3) as [Hv Hgone].
  - vm_compute. reflexivity.
  - exact Hs.
  - intros b Hb%list_elem_of_In. by apply Hall, bool_decide_eq_true in Hb.
  - exact Er.
  - rewrite Hlen. exact Ep.
  - exists e, ans2, m3. split; [exact Hv|].
    destruct rb as [|r1 [|r2 rb] ]; [discriminate E1..|]. injection E1 as E11 E12 _.
    split; [rewrite <-E11|rewrite <-E12]; apply Hgone; [left|right; left].
Defined.

(** One account transaction listed, none counted. *)
Definition listing : Block := upd_blk_AccTxData (fun _ => [key 50]) next.

Lemma counters_crash_witness : fetchTransactions no_net false 5 listing (make_slices listing)
  (upd_pool (upd_txMemPool (fun _ => {[key 50 := TAcc (open_account 0 7)]})) start) = Panic.
Proof.
  apply counters_crash.
  - vm_compute. split; [discriminate|reflexivity].
  - intros h Hh. apply list_elem_of_singleton in Hh as ->. split; [vm_compute; reflexivity|].
    exists (open_account 0 7). apply lookup_singleton_eq.
Defined.
End witnesses.
