(* ===== verification/Peers.v ===== *)
(** * The peers of a node, and what is sent to them

    peer.go, services.go, server.go, request.go and miner_request.go of p2p/.
    A peer is a pointer into a store; a map keyed by pointers is the set of its
    keys. A write on a connection and a value put on a channel are events, in
    the order in which they happen; that a full channel waits for its reader is
    not modelled, except that of a peer, which holds what is not yet sent.
    Each function runs to its end: the interleaving of the goroutines is the
    order of the steps of a run. *)

From S2P Require Import Prelude Format Chameleon Protocol Node Params Wire.

Definition PEERTYPE_MINER : Z := 1.
Definition PEERTYPE_CLIENT : Z := 2.

Record peer := mkPeer {
  RemoteAddr : bytes;
  listenerPort : bytes;
  p_time : Z;
  peerType : Z;
  ch : list bytes
}.

Definition newPeer (conn listenerPort : bytes) (peerType : Z) : peer := mkPeer conn listenerPort 0 peerType [].

Definition set_listenerPort (v : bytes) (p : peer) : peer := mkPeer (RemoteAddr p) v (p_time p) (peerType p) (ch p).
Definition set_time (v : Z) (p : peer) : peer := mkPeer (RemoteAddr p) (listenerPort p) v (peerType p) (ch p).
Definition set_peerType (v : Z) (p : peer) : peer := mkPeer (RemoteAddr p) (listenerPort p) (p_time p) v (ch p).
Definition set_ch (v : list bytes) (p : peer) : peer :=
  mkPeer (RemoteAddr p) (listenerPort p) (p_time p) (peerType p) v.

Definition getIPPort_of (p : peer) : bytes := default [] (head (Split (RemoteAddr p) colon)) ++ [colon] ++ listenerPort p.

Record delayedMessagesPerSender := mkDelayed { d_peer : nat; delayedMessages : list bytes }.

Inductive event :=
  | Write (p : nat) (packet : bytes)
  | Close (p : nat)
  | minerBrdcstMsg (packet : bytes)
  | clientBrdcstMsg (packet : bytes)
  | goPeerConn (p : nat)
  | TxChan (tx : Transaction)
  | BlockIn (payload : bytes)
  | BlockReqChan (payload : bytes).

(** The transactions received after a request. *)
Record stashes := mkStashes {
  ReceivedFundsTXStash : list FundsTx;
  ReceivedAggTxStash : list AggTx;
  ReceivedStakeTxStash : list StakeTx;
  ReceivedAccTxStash : list AccTx;
  ReceivedUpdateTxStash : list UpdateTx
}.

Record Net := mkNet {
  store : gmap nat peer;
  minerConns : gset nat;
  clientConns : gset nat;
  sendingMap : gmap bytes delayedMessagesPerSender;
  systemTime : Z;
  iplistChan : list bytes;
  lastTriedPeer : bytes;
  lastNotFoundTxWithHash : hash;
  stash : stashes;
  events : list event
}.

Definition upd_store (f : gmap nat peer -> gmap nat peer) (n : Net) : Net :=
  mkNet (f (store n)) (minerConns n) (clientConns n) (sendingMap n) (systemTime n) (iplistChan n)
    (lastTriedPeer n) (lastNotFoundTxWithHash n) (stash n) (events n).
Definition upd_minerConns (f : gset nat -> gset nat) (n : Net) : Net :=
  mkNet (store n) (f (minerConns n)) (clientConns n) (sendingMap n) (systemTime n) (iplistChan n)
    (lastTriedPeer n) (lastNotFoundTxWithHash n) (stash n) (events n).
Definition upd_clientConns (f : gset nat -> gset nat) (n : Net) : Net :=
  mkNet (store n) (minerConns n) (f (clientConns n)) (sendingMap n) (systemTime n) (iplistChan n)
    (lastTriedPeer n) (lastNotFoundTxWithHash n) (stash n) (events n).
Definition upd_sendingMap (f : gmap bytes delayedMessagesPerSender -> gmap bytes delayedMessagesPerSender)
    (n : Net) : Net :=
  mkNet (store n) (minerConns n) (clientConns n) (f (sendingMap n)) (systemTime n) (iplistChan n)
    (lastTriedPeer n) (lastNotFoundTxWithHash n) (stash n) (events n).
Definition upd_systemTime (f : Z -> Z) (n : Net) : Net :=
  mkNet (store n) (minerConns n) (clientConns n) (sendingMap n) (f (systemTime n)) (iplistChan n)
    (lastTriedPeer n) (lastNotFoundTxWithHash n) (stash n) (events n).
Definition upd_iplistChan (f : list bytes -> list bytes) (n : Net) : Net :=
  mkNet (store n) (minerConns n) (clientConns n) (sendingMap n) (systemTime n) (f (iplistChan n))
    (lastTriedPeer n) (lastNotFoundTxWithHash n) (stash n) (events n).
Definition upd_lastTriedPeer (f : bytes -> bytes) (n : Net) : Net :=
  mkNet (store n) (minerConns n) (clientConns n) (sendingMap n) (systemTime n) (iplistChan n)
    (f (lastTriedPeer n)) (lastNotFoundTxWithHash n) (stash n) (events n).
Definition upd_lastNotFoundTxWithHash (f : hash -> hash) (n : Net) : Net :=
  mkNet (store n) (minerConns n) (clientConns n) (sendingMap n) (systemTime n) (iplistChan n)
    (lastTriedPeer n) (f (lastNotFoundTxWithHash n)) (stash n) (events n).
Definition upd_stash (f : stashes -> stashes) (n : Net) : Net :=
  mkNet (store n) (minerConns n) (clientConns n) (sendingMap n) (systemTime n) (iplistChan n)
    (lastTriedPeer n) (lastNotFoundTxWithHash n) (f (stash n)) (events n).
Definition upd_events (f : list event -> list event) (n : Net) : Net :=
  mkNet (store n) (minerConns n) (clientConns n) (sendingMap n) (systemTime n) (iplistChan n)
    (lastTriedPeer n) (lastNotFoundTxWithHash n) (stash n) (f (events n)).

(** The process: the miner and its network side. *)
Record Host := mkHost { miner : Miner; net : Net }.

Definition on_net (f : Net -> Net) : M Host unit := modify (fun h => mkHost (miner h) (f (net h))).
Definition net_gets {A} (f : Net -> A) : M Host A := gets (fun h => f (net h)).
Definition on_miner {A} (m : M Miner A) : M Host A := fun h =>
  match m (miner h) with
  | Done (a, m') => Done (a, mkHost m' (net h))
  | Panic => Panic
  | Timeout => Timeout
  end.

Definition emit (e : event) : M Host unit := on_net (upd_events (fun l => l ++ [e])).
(** Dereference of a peer. *)
Definition the_peer (p : nat) : M Host peer := o ← net_gets (fun n => store n !! p); of_option o.
Definition update_peer (p : nat) (f : peer -> peer) : M Host unit := on_net (upd_store (alter f p)).

(** A nil packet has no byte at index 4. *)
Definition sendData (p : nat) (packet : bytes) : M Host unit :=
  if Nat.ltb 4 (length packet) then emit (Write p packet) else panic.

(** [for _, x := range l] *)
Fixpoint for_each {A} (l : list A) (f : A -> M Host unit) : M Host unit :=
  match l with
  | [] => mret tt
  | x :: l => f x;; for_each l f
  end.

(** The order in which a map is iterated over. *)
Class PeerOrder := {
  range_peers : gset nat -> list nat;
  range_addresses : gset bytes -> list bytes
}.
Class PeerOrderLaws `{!PeerOrder} := {
  range_peers_perm s : range_peers s ≡ₚ elements s;
  range_addresses_perm s : range_addresses s ≡ₚ elements s
}.

Section peers.
Context {PO : PeerOrder}.
(** [p2p.Ipport], which [Init] sets, and [storage.Bootstrap_Server]. *)
Context (Ipport Bootstrap_Server : bytes).

(** ** The maps of the peers (peer.go) *)

Definition getIPPort (p : nat) : M Host bytes := q ← the_peer p; mret (getIPPort_of q).

Definition conns (peerType : Z) (n : Net) : gset nat :=
  if peerType =? PEERTYPE_MINER then minerConns n
  else if peerType =? PEERTYPE_CLIENT then clientConns n
  else ∅.

Fixpoint any_address (ps : list nat) (ipport : bytes) : M Host bool :=
  match ps with
  | [] => mret false
  | p :: ps =>
      a ← getIPPort p;
      if bool_decide (a = ipport) then mret true else any_address ps ipport
  end.

Definition contains (ipport : bytes) (peerType : Z) : M Host bool :=
  s ← net_gets (conns peerType);
  any_address (range_peers s) ipport.

(** The first connection with the address of the peer; its entry is replaced
    when it is that of another peer. *)
Fixpoint connection_in (keys : list bytes) (p : nat) : M Host (bool * bool) :=
  match keys with
  | [] => mret (false, false)
  | k :: keys =>
      connection ← net_gets (fun n => sendingMap n !! k);
      connection ← of_option connection;
      a ← getIPPort (d_peer connection);
      b ← getIPPort p;
      if bool_decide (a = b) then
        if bool_decide (d_peer connection = p) then mret (true, false)
        else
          on_net (upd_sendingMap (insert b (mkDelayed p (delayedMessages connection))));;
          mret (true, true)
      else connection_in keys p
  end.

Definition isConnectionAlreadyInSendingMap (p : nat) : M Host (bool * bool) :=
  keys ← net_gets (fun n => range_addresses (dom (sendingMap n)));
  connection_in keys p.

Definition delete_same_address (p q : nat) : M Host unit :=
  a ← getIPPort p;
  b ← getIPPort q;
  if bool_decide (a = b) then on_net (upd_minerConns (fun s => s ∖ {[q]})) else mret tt.

Definition enter_sending (p : nat) : M Host unit :=
  '(alreadyInSenderMap, needsUpdate) ← isConnectionAlreadyInSendingMap p;
  if negb alreadyInSenderMap && negb needsUpdate then
    a ← getIPPort p;
    on_net (upd_sendingMap (insert a (mkDelayed p [])))
  else mret tt.

Definition peers_add (p : nat) : M Host unit :=
  q ← the_peer p;
  (if peerType q =? PEERTYPE_MINER then
     s ← net_gets minerConns;
     for_each (range_peers s) (delete_same_address p);;
     on_net (upd_minerConns (fun s => {[p]} ∪ s))
   else mret tt);;
  (if peerType q =? PEERTYPE_CLIENT then on_net (upd_clientConns (fun s => {[p]} ∪ s)) else mret tt);;
  s ← net_gets minerConns;
  for_each (range_peers s) enter_sending.

Definition peers_delete (p : nat) : M Host unit :=
  q ← the_peer p;
  (if peerType q =? PEERTYPE_MINER then on_net (upd_minerConns (fun s => s ∖ {[p]})) else mret tt);;
  (if peerType q =? PEERTYPE_CLIENT then on_net (upd_clientConns (fun s => s ∖ {[p]})) else mret tt).

Definition peers_len (peerType : Z) : M Host nat := net_gets (fun n => size (conns peerType n)).
Definition getAllPeers (peerType : Z) : M Host (list nat) := net_gets (fun n => range_peers (conns peerType n)).

(** [r] is the random number. *)
Definition getRandomPeer (peerType : Z) (r : Z) : M Host (option nat) :=
  peerList ← getAllPeers peerType;
  match peerList with
  | [] => mret None
  | _ => mret (peerList !! Z.to_nat (u32 r mod Z.of_nat (length peerList)))
  end.

(** The times are taken out. *)
Fixpoint take_times (ps : list nat) : M Host (list Z) :=
  match ps with
  | [] => mret []
  | p :: ps =>
      q ← the_peer p;
      update_peer p (set_time 0);;
      rest ← take_times ps;
      mret (p_time q :: rest)
  end.

Definition getMinerTimes : M Host (list Z) :=
  s ← net_gets minerConns;
  take_times (range_peers s).

(** time.go; the clock is read twice. *)
Definition writeSystemTime (now now' : Z) : M Host unit :=
  peerTimes ← getMinerTimes;
  let ipeerTimes := filter (fun t => t <> 0) (peerTimes ++ [now]) in
  if Nat.ltb (length ipeerTimes) MIN_PEERS_FOR_TIME then on_net (upd_systemTime (fun _ => now'))
  else
    t ← of_option (calcMedian ipeerTimes);
    on_net (upd_systemTime (fun _ => t)).

(** ** Broadcasting (services.go) *)

(** [make(chan []byte, 100)]. *)
Definition channel_size : nat := 100.

(** [p.ch <- msg] waits while the channel is full. *)
Definition push_ch (p : nat) (msg : bytes) : M Host unit :=
  q ← the_peer p;
  if Nat.leb channel_size (length (ch q)) then timeout
  else update_peer p (fun q => set_ch (ch q ++ [msg]) q).

(** The loop over the stored messages: a message that the channel has no room
    for is passed over, one that is sent drops the first stored one. *)
Fixpoint send_delayed (receiver : nat) (msgs stored : list bytes) : M Host (list bytes) :=
  match msgs with
  | [] => mret stored
  | hMsg :: msgs =>
      q ← the_peer receiver;
      if Nat.leb 100 (length (ch q)) then send_delayed receiver msgs stored
      else push_ch receiver hMsg;; send_delayed receiver msgs (drop 1 stored)
  end.

(** One entry of [sendingMap]. If the lookup has replaced it, it is the entry
    before that changes, which is not in the map any more. *)
Definition send_entry (msg k : bytes) : M Host unit :=
  d ← net_gets (fun n => sendingMap n !! k);
  d ← of_option d;
  a ← getIPPort (d_peer d);
  known ← contains a PEERTYPE_MINER;
  if (known : bool) then
    '(_, needsUpdate) ← isConnectionAlreadyInSendingMap (d_peer d);
    e ← net_gets (fun n => sendingMap n !! a);
    e ← of_option e;
    let receiver := d_peer e in
    push_ch receiver msg;;
    stored ← send_delayed receiver (delayedMessages d) (delayedMessages d);
    if needsUpdate && bool_decide (a = k) then mret tt
    else on_net (upd_sendingMap (insert k (mkDelayed (d_peer d) stored)))
  else
    let messages := if Nat.ltb 40 (length (delayedMessages d)) then drop 1 (delayedMessages d) else delayedMessages d in
    on_net (upd_sendingMap (insert k (mkDelayed (d_peer d) (messages ++ [msg])))).

Definition sendAndSearchMessages (msg : bytes) : M Host unit :=
  keys ← net_gets (fun n => range_addresses (dom (sendingMap n)));
  for_each keys (send_entry msg).

Definition clientBroadcast (msg : bytes) : M Host unit :=
  s ← net_gets clientConns;
  for_each (range_peers s) (fun p =>
    a ← getIPPort p;
    known ← contains a PEERTYPE_CLIENT;
    if (known : bool) then push_ch p msg else mret tt).

(** What the goroutine of the peer writes: the messages of its channel. *)
Definition peerBroadcast (p : nat) : M Host unit :=
  q ← the_peer p;
  update_peer p (set_ch []);;
  for_each (ch q) (sendData p).

(** ** Requests (request.go, miner_request.go) *)

(** A nil peer never is in the map. *)
Definition send_all (packet : bytes) : M Host unit :=
  knownPeers ← getAllPeers PEERTYPE_MINER;
  for_each knownPeers (fun p => sendData p packet).

Definition NeighborReq : M Host unit := send_all (BuildPacket NEIGHBOR_REQ []).

Fixpoint getIPPorts (ps : list nat) : M Host (list bytes) :=
  match ps with
  | [] => mret []
  | p :: ps => a ← getIPPort p; rest ← getIPPorts ps; mret (a :: rest)
  end.

Definition neighborBrdcst : M Host unit :=
  knownPeers ← getAllPeers PEERTYPE_MINER;
  ipportList ← getIPPorts knownPeers;
  payload ← of_option (_neighborRes ipportList);
  let packet := BuildPacket NEIGHBOR_RES (default [] payload) in
  for_each knownPeers (fun p => sendData p packet).

(** Without a miner the request waits for one. *)
Definition BlockReq (h hashWithoutTx : hash) : M Host error :=
  n ← peers_len PEERTYPE_MINER;
  if Nat.eqb n 0 then timeout
  else send_all (BuildPacket BLOCK_REQ (h ++ hashWithoutTx));; mret None.

Definition LastBlockReq (r : Z) : M Host error :=
  p ← getRandomPeer PEERTYPE_MINER r;
  match p with
  | None => mret (Some "Couldn't get a connection, request not transmitted."%string)
  | Some p => sendData p (BuildPacket BLOCK_REQ []);; mret None
  end.

Definition TxReq (h : hash) (reqType : Z) : M Host error := send_all (BuildPacket reqType h);; mret None.
Definition TxWithTxCntReq (payload : bytes) (reqType : Z) : M Host error :=
  send_all (BuildPacket reqType payload);; mret None.

(** ** Connections (server.go) *)

Definition peerExists (newIpport : bytes) : M Host bool := contains newIpport PEERTYPE_MINER.
Definition peerSelfConn (newIpport : bytes) : bool := bool_decide (newIpport = Ipport).

(** [strings.Split(s, ":")[1]] *)
Definition port_of (ipport : bytes) : option bytes := Split ipport colon !! 1%nat.

Definition IsBootstrap_of : option bool :=
  bootstrapPort ← port_of Bootstrap_Server;
  thisPort ← port_of Ipport;
  Some (bool_decide (thisPort = bootstrapPort)).

Definition new_peer (q : peer) : M Host nat :=
  p ← net_gets (fun n => fresh (dom (store n)));
  on_net (upd_store (insert p q));;
  mret p.

(** [conn] is the connection that dialling gives: the address of the other
    side and what it will send. *)
Definition initiateNewMinerConnection (dial : bytes) (conn : string + bytes * list bytes)
    : M Host (string + nat) :=
  known ← peerExists dial;
  if (known : bool) then mret (inl "Connection already established."%string)
  else if peerSelfConn dial then mret (inl "Cannot self-connect."%string)
  else
    port ← of_option (port_of dial);
    match conn with
    | inl err => mret (inl err)
    | inr (remote, chunks) =>
        p ← new_peer (newPeer remote port PEERTYPE_MINER);
        own ← of_option (port_of Ipport);
        match Atoi own with
        | None => emit (Close p);; mret (inl "Parsing port failed."%string)
        | Some localPort =>
            emit (Write p (PrepareHandshake MINER_PING localPort));;
            match RcvData chunks with
            | Some (header, _, _) =>
                if TypeID header =? MINER_PONG then mret (inr p)
                else emit (Close p);; mret (inl "Failed to complete miner handshake"%string)
            | None => emit (Close p);; mret (inl "Failed to complete miner handshake"%string)
            end
        end
    end.

(** The error is only logged: [peerConn] of a nil peer panics. *)
Definition bootstrap (conn : string + bytes * list bytes) : M Host unit :=
  p ← initiateNewMinerConnection Bootstrap_Server conn;
  match p with
  | inl _ => panic
  | inr p => emit (goPeerConn p)
  end.

(** The start of [peerConn]; the registration is received by [peerService]. *)
Definition peerConn (p : nat) : M Host unit :=
  q ← the_peer p;
  (if peerType q =? PEERTYPE_MINER then neighborBrdcst else mret tt);;
  update_peer p (set_ch []);;
  peers_add p.

(** Its end, when receiving fails. *)
Definition peerConn_end (p : nat) : M Host unit :=
  q ← the_peer p;
  if peerType q =? PEERTYPE_MINER then
    peers_delete p;;
    last ← net_gets lastTriedPeer;
    a ← getIPPort p;
    if bool_decide (last = a) then mret tt
    else
      on_net (upd_iplistChan (fun l => l ++ [a]));;
      on_net (upd_lastTriedPeer (fun _ => a))
  else if peerType q =? PEERTYPE_CLIENT then peers_delete p
  else mret tt.

(** The health service tries an address that it takes from the channel. *)
Definition try_address (conn : string + bytes * list bytes) : M Host unit :=
  l ← net_gets iplistChan;
  match l with
  | [] => NeighborReq
  | ipaddr :: l =>
      on_net (upd_iplistChan (fun _ => l));;
      known ← peerExists ipaddr;
      if negb known && negb (peerSelfConn ipaddr) then
        p ← initiateNewMinerConnection ipaddr conn;
        match p with
        | inl _ => mret tt
        | inr p => emit (goPeerConn p)
        end
      else mret tt
  end.

(** Before that it makes sure of the bootstrap server, after a pause of so
    many seconds. *)
Definition health_interval (knownConnections : nat) : nat :=
  let nrOfMiners := if Nat.ltb 1 knownConnections then knownConnections else 1%nat in
  (if Nat.ltb 6 knownConnections then 6 else nrOfMiners) * 5.

Definition check_bootstrap (conn : string + bytes * list bytes) : M Host unit :=
  if bool_decide (Ipport = Bootstrap_Server) then mret tt
  else
    known ← contains Bootstrap_Server PEERTYPE_MINER;
    if (known : bool) then mret tt
    else
      p ← initiateNewMinerConnection Bootstrap_Server conn;
      match p with
      | inl _ => mret tt
      | inr p => emit (goPeerConn p)
      end.

(** The bound of the loop shrinks as it empties the channel. *)
Fixpoint empty_chan (fuel i : nat) (l : list bytes) : list bytes :=
  match fuel with
  | O => l
  | S fuel => if Nat.ltb i (length l) then empty_chan fuel (S i) (drop 1 l) else l
  end.

Definition EmptyingiplistChan : M Host unit := on_net (upd_iplistChan (fun l => empty_chan (S (length l)) 0 l)).

(** ** What the miner and the clock put on the network (miner_interface.go, services.go) *)

Definition forwardBlockBrdcstToMiner (block : bytes) : M Host unit := emit (minerBrdcstMsg (BuildPacket BLOCK_BRDCST block)).
Definition forwardBlockHeaderBrdcstToMiner (blockHeader : bytes) : M Host unit :=
  emit (clientBrdcstMsg (BuildPacket BLOCK_HEADER_BRDCST blockHeader)).
Definition forwardVerifiedTxsToMiner (verifiedTxs : bytes) : M Host unit :=
  emit (clientBrdcstMsg (BuildPacket VERIFIEDTX_BRDCST verifiedTxs)).
Definition forwardVerifiedTxsBrdcstToMiner (verifiedTx : bytes) : M Host unit := emit (minerBrdcstMsg verifiedTx).
Definition broadcast_time (now : Z) : M Host unit := emit (minerBrdcstMsg (BuildPacket TIME_BRDCST (getTime now))).
End peers.

(** Half of the addresses stay. *)
Lemma EmptyingiplistChan_half l : length (empty_chan (S (length l)) 0 l) = (length l / 2)%nat.
Proof.
  assert (H : forall fuel i l, (length l < fuel + i)%nat ->
    length (empty_chan fuel i l) = if Nat.ltb i (length l) then ((length l + i) / 2)%nat else length l).
  { intros fuel. induction fuel as [|fuel IH]; intros i k Hk; cbn [empty_chan].
    - rewrite (proj2 (Nat.ltb_ge _ _)); lia.
    - destruct (Nat.ltb_spec i (length k)); [|done].
      rewrite IH by (rewrite length_drop; lia). rewrite length_drop.
      destruct (Nat.ltb_spec (S i) (length k - 1)); [f_equal; lia|].
      assert (length k = S i \/ length k = S (S i)) as [E|E] by lia; rewrite E.
      + replace (S i + i)%nat with (1 + i * 2)%nat by lia. rewrite Nat.div_add by lia. cbn. lia.
      + replace (S (S i) + i)%nat with ((i + 1) * 2)%nat by lia. rewrite Nat.div_mul by lia. lia. }
  rewrite H by lia. rewrite Nat.add_0_r. destruct l; [done|]. done.
Qed.
