(* ===== verification/PeerLemmas.v ===== *)
(** * The connections of a node: invariant and what each operation does *)

From S2P Require Import Prelude Format Chameleon Protocol Node Params Wire Peers.

Definition with_net (f : Net -> Net) (h : Host) : Host := mkHost (miner h) (f (net h)).

(** The address of a peer of the store. *)
Definition addr (n : Net) (p : nat) : option bytes := getIPPort_of <$> store n !! p.

(** Every registered peer is of its kind; no two miners share an address; an
    entry of the sending map is that of its peer, keyed by the address, keeps
    at most 41 messages, and every registered miner has one. *)
Record peers_ok (n : Net) : Prop := {
  po_miners p : p ∈ minerConns n -> exists q, store n !! p = Some q /\ peerType q = PEERTYPE_MINER;
  po_clients p : p ∈ clientConns n -> exists q, store n !! p = Some q /\ peerType q = PEERTYPE_CLIENT;
  po_distinct p p' : p ∈ minerConns n -> p' ∈ minerConns n -> addr n p = addr n p' -> p = p';
  po_keys k d : sendingMap n !! k = Some d -> addr n (d_peer d) = Some k;
  po_delayed k d : sendingMap n !! k = Some d -> (length (delayedMessages d) <= 41)%nat;
  po_entry p a : p ∈ minerConns n -> addr n p = Some a ->
    exists d, sendingMap n !! a = Some d /\ d_peer d = p
}.

(** The addresses and kinds of the peers stay, as do the maps. *)
Definition keeps_peers (s s' : gmap nat peer) : Prop :=
  forall p q, s !! p = Some q -> exists q', s' !! p = Some q' /\ getIPPort_of q' = getIPPort_of q /\ peerType q' = peerType q.

Lemma keeps_peers_refl s : keeps_peers s s.
Proof. intros p q H. eauto. Qed.

Lemma keeps_peers_trans s1 s2 s3 : keeps_peers s1 s2 -> keeps_peers s2 s3 -> keeps_peers s1 s3.
Proof. intros H1 H2 p q (q1&E1&E2&E3)%H1. apply H2 in E1 as (q2&?&?&?). exists q2. split; [done|]. split; congruence. Qed.

Lemma keeps_alter s p f : (forall q, getIPPort_of (f q) = getIPPort_of q /\ peerType (f q) = peerType q) ->
  keeps_peers s (alter f p s).
Proof.
  intros Hf p' q Hq. destruct (decide (p = p')) as [<-|Hn].
  - exists (f q). rewrite lookup_alter_eq, Hq. split; [done|]. apply Hf.
  - exists q. by rewrite lookup_alter_ne.
Qed.

Lemma keeps_addr n n' p a : keeps_peers (store n) (store n') -> addr n p = Some a -> addr n' p = Some a.
Proof.
  unfold addr. intros Hk. rewrite !fmap_Some. intros (q&Hq&->). apply Hk in Hq as (q'&?&<-&_). eauto.
Qed.

(** Of a peer without connection anything may change. *)
Definition changes_only (P : nat -> Prop) (s s' : gmap nat peer) : Prop :=
  forall p q, s !! p = Some q -> exists q', s' !! p = Some q' /\
    (~ P p -> getIPPort_of q' = getIPPort_of q /\ peerType q' = peerType q).

(** No channel holds more than it has room for. *)
Definition channels (s : gmap nat peer) : Prop := forall p q, s !! p = Some q -> (length (ch q) <= channel_size)%nat.

Definition connected (n : Net) (p : nat) : Prop :=
  p ∈ minerConns n \/ p ∈ clientConns n \/ exists k d, sendingMap n !! k = Some d /\ d_peer d = p.

Lemma peers_ok_change n n' P : peers_ok n -> changes_only P (store n) (store n') -> (forall p, P p -> ~ connected n p) ->
  minerConns n' = minerConns n -> clientConns n' = clientConns n -> sendingMap n' = sendingMap n -> peers_ok n'.
Proof.
  intros [H1 H2 H3 H4 H5 H6] Hs HP Em Ec Es.
  assert (Hq : forall p q, connected n p -> store n !! p = Some q ->
    exists q', store n' !! p = Some q' /\ getIPPort_of q' = getIPPort_of q /\ peerType q' = peerType q).
  { intros p q Hc Hq. destruct (Hs p q Hq) as (q'&E&Hsame). exists q'. split; [done|]. apply Hsame.
    intros Hp. by apply (HP p). }
  assert (Ha : forall p, connected n p -> is_Some (store n !! p) -> addr n' p = addr n p).
  { intros p Hc [q E]. unfold addr. rewrite E. destruct (Hq p q Hc E) as (q'&->&E'&_). simpl. by rewrite E'. }
  assert (Hm : forall p, p ∈ minerConns n -> addr n' p = addr n p).
  { intros p Hp. destruct (H1 p Hp) as (q&E&_). apply Ha; [by left|by eexists]. }
  split.
  - rewrite Em. intros p Hp. destruct (H1 p Hp) as (q&E&E2). destruct (Hq p q) as (q'&?&_&?); [by left|done|].
    exists q'. split; [done|congruence].
  - rewrite Ec. intros p Hp. destruct (H2 p Hp) as (q&E&E2). destruct (Hq p q) as (q'&?&_&?); [right; by left|done|].
    exists q'. split; [done|congruence].
  - rewrite Em. intros p p' Hp Hp'. rewrite !Hm by done. by apply H3.
  - rewrite Es. intros k d Hd. pose proof (H4 k d Hd) as E. rewrite Ha; [done|right; right; eauto|].
    unfold addr in E. apply fmap_Some in E as (q&->&_). eauto.
  - rewrite Es. apply H5.
  - rewrite Em, Es. intros p a Hp. rewrite Hm by done. by apply H6.
Qed.

Lemma peers_ok_keeps n n' : peers_ok n -> keeps_peers (store n) (store n') ->
  minerConns n' = minerConns n -> clientConns n' = clientConns n -> sendingMap n' = sendingMap n -> peers_ok n'.
Proof.
  intros Hok Hk. apply (peers_ok_change n n' (fun _ => False)); [done| |by intros ? []].
  intros p q (q'&?&?)%Hk. eauto.
Qed.

(** ** Pure readings of the operations *)

Section peers.
Context {PO : PeerOrder} {PL : PeerOrderLaws}.

Lemma net_gets_bind {A B} (g : Net -> A) (f : A -> M Host B) h : (net_gets g ≫= f) h = f (g (net h)) h.
Proof. done. Qed.

Lemma the_peer_Done p q h : store (net h) !! p = Some q -> the_peer p h = Done (q, h).
Proof. intros E. unfold the_peer, net_gets, gets, mbind, M_bind. by rewrite E. Qed.

Lemma getIPPort_addr p a h : addr (net h) p = Some a -> getIPPort p h = Done (a, h).
Proof.
  unfold addr. intros (q&E&->)%fmap_Some. unfold getIPPort, the_peer, net_gets, gets, mbind, M_bind.
  by rewrite E.
Qed.

Lemma any_address_spec ps a h : (forall p, p ∈ ps -> is_Some (addr (net h) p)) ->
  any_address ps a h = Done (bool_decide (Some a ∈ addr (net h) <$> ps), h).
Proof.
  induction ps as [|p ps IH]; intros Hs.
  - cbn. rewrite bool_decide_eq_false_2; [done|]. by intros ?%elem_of_nil.
  - destruct (Hs p ltac:(left)) as [b Eb]. cbn [any_address]. rewrite (bind_Done _ _ _ _ _ (getIPPort_addr _ _ _ Eb)).
    rewrite fmap_cons, Eb. destruct (decide (b = a)) as [->|E]; [rewrite (bool_decide_eq_true_2 (a = a)) by done|rewrite (bool_decide_eq_false_2 (b = a)) by done].
    + rewrite bool_decide_eq_true_2; [done|]. apply elem_of_cons. by left.
    + rewrite IH by (intros; apply Hs; by right). unfold mret, M_ret. do 2 f_equal. apply bool_decide_ext.
      rewrite elem_of_cons. naive_solver.
Qed.

Lemma elem_of_range_peers s p : p ∈ range_peers s <-> p ∈ s.
Proof. by rewrite range_peers_perm, elem_of_elements. Qed.

Lemma elem_of_range_addresses s k : k ∈ range_addresses s <-> k ∈ s.
Proof. by rewrite range_addresses_perm, elem_of_elements. Qed.

Lemma miner_addr n p : peers_ok n -> p ∈ minerConns n -> is_Some (addr n p).
Proof. intros Hok Hp. destruct (po_miners n Hok p Hp) as (q&E&_). unfold addr. rewrite E. eauto. Qed.

(** Whether a miner with the address is connected. *)
Definition known_miner (n : Net) (a : bytes) : bool := bool_decide (Some a ∈ addr n <$> elements (minerConns n)).

Lemma known_miner_spec n a : known_miner n a = true <-> exists p, p ∈ minerConns n /\ addr n p = Some a.
Proof.
  unfold known_miner. rewrite bool_decide_eq_true, list_elem_of_fmap. setoid_rewrite elem_of_elements. naive_solver.
Qed.

Lemma contains_miner n m a : peers_ok n ->
  contains a PEERTYPE_MINER (mkHost m n) = Done (known_miner n a, mkHost m n).
Proof.
  intros Hok. unfold contains, net_gets. unfold gets, mbind at 1, M_bind at 1. simpl.
  rewrite any_address_spec.
  - do 2 f_equal. apply bool_decide_ext. simpl. by rewrite range_peers_perm.
  - intros p Hp%elem_of_range_peers. by apply miner_addr.
Qed.

(** ** The sending map *)

(** The entry for [p] under its address; the messages stay. *)
Definition enter (a : bytes) (p : nat) (s : gmap bytes delayedMessagesPerSender) :=
  <[a := mkDelayed p (default [] (delayedMessages <$> s !! a))]> s.

Lemma enter_some a p s d : s !! a = Some d -> enter a p s = <[a := mkDelayed p (delayedMessages d)]> s.
Proof. unfold enter. by intros ->. Qed.

Lemma enter_none a p s : s !! a = None -> enter a p s = <[a := mkDelayed p []]> s.
Proof. unfold enter. by intros ->. Qed.

Lemma upd_sendingMap_ext n f g : f (sendingMap n) = g (sendingMap n) -> upd_sendingMap f n = upd_sendingMap g n.
Proof. unfold upd_sendingMap. by intros ->. Qed.

Lemma on_sendingMap h f g : f (sendingMap (net h)) = g (sendingMap (net h)) ->
  on_net (upd_sendingMap f) h = Done (tt, with_net (upd_sendingMap g) h).
Proof. intros H. unfold on_net, modify, with_net. by rewrite (upd_sendingMap_ext _ _ _ H). Qed.

Lemma connection_in_spec keys p a h :
  (forall k d, sendingMap (net h) !! k = Some d -> addr (net h) (d_peer d) = Some k) ->
  addr (net h) p = Some a -> (forall k, k ∈ keys -> is_Some (sendingMap (net h) !! k)) ->
  connection_in keys p h =
    match sendingMap (net h) !! a with
    | Some d =>
        if decide (a ∈ keys) then
          if decide (d_peer d = p) then Done ((true, false), h)
          else Done ((true, true), with_net (upd_sendingMap (enter a p)) h)
        else Done ((false, false), h)
    | None => Done ((false, false), h)
    end.
Proof.
  intros Hk Ha. induction keys as [|k keys IH]; intros Hin.
  { cbn. destruct (sendingMap (net h) !! a); [|done]. rewrite decide_False; [done|]. by intros ?%elem_of_nil. }
  destruct (Hin k ltac:(left)) as [d Hd]. cbn [connection_in]. unfold net_gets at 1. unfold gets, mbind at 1, M_bind at 1.
  rewrite Hd. cbn [of_option]. unfold mbind at 1, M_bind at 1, mret at 1, M_ret at 1.
  rewrite (bind_Done _ _ _ _ _ (getIPPort_addr _ _ _ (Hk _ _ Hd))), (bind_Done _ _ _ _ _ (getIPPort_addr _ _ _ Ha)).
  destruct (decide (k = a)) as [->|Hne].
  - rewrite bool_decide_eq_true_2, Hd, (decide_True (P := a ∈ a :: keys)) by (done || (apply elem_of_cons; by left)). case_bool_decide as Hp.
    + by rewrite decide_True.
    + rewrite decide_False by done. erewrite bind_Done; [done|]. apply on_sendingMap. by rewrite (enter_some _ _ _ d).
  - rewrite bool_decide_eq_false_2 by done. rewrite IH by (intros; apply Hin; by right).
    destruct (sendingMap (net h) !! a); [|done]. destruct (decide (a ∈ keys)) as [Hi|Hi].
    + rewrite (decide_True (P := a ∈ k :: keys)) by (apply elem_of_cons; by right). done.
    + rewrite (decide_False (P := a ∈ k :: keys)); [done|]. by intros [?|?]%elem_of_cons.
Qed.

Lemma insert_enter_same s a d : s !! a = Some d -> enter a (d_peer d) s = s.
Proof. intros H. unfold enter. rewrite H. simpl. rewrite insert_id; [done|]. by destruct d. Qed.

Lemma upd_sendingMap_id n f : f (sendingMap n) = sendingMap n -> upd_sendingMap f n = n.
Proof. destruct n. unfold upd_sendingMap. simpl. by intros ->. Qed.

Lemma host_eta h : mkHost (miner h) (net h) = h.
Proof. by destruct h. Qed.

Lemma enter_sending_spec p a h :
  (forall k d, sendingMap (net h) !! k = Some d -> addr (net h) (d_peer d) = Some k) ->
  addr (net h) p = Some a ->
  enter_sending p h = Done (tt, with_net (upd_sendingMap (enter a p)) h).
Proof.
  intros Hk Ha. unfold enter_sending. unfold mbind at 1, M_bind at 1.
  change (isConnectionAlreadyInSendingMap p h) with
    (connection_in (range_addresses (dom (sendingMap (net h)))) p h).
  rewrite (connection_in_spec _ _ _ _ Hk Ha) by (intros k; by rewrite elem_of_range_addresses, elem_of_dom).
  destruct (sendingMap (net h) !! a) as [d|] eqn:Hd.
  - rewrite decide_True by (apply elem_of_range_addresses, elem_of_dom; eauto).
    case_decide as Hp; simpl; unfold mret, M_ret; do 2 f_equal. subst p. unfold with_net.
    by rewrite upd_sendingMap_id, host_eta by by apply insert_enter_same.
  - simpl. rewrite (bind_Done _ _ _ _ _ (getIPPort_addr _ _ _ Ha)). apply on_sendingMap.
    by rewrite enter_none.
Qed.

Lemma net_with f h : net (with_net f h) = f (net h).
Proof. done. Qed.

Lemma for_each_cons {A} (x : A) l f h h1 : f x h = Done (tt, h1) -> for_each (x :: l) f h = for_each l f h1.
Proof. intros H. simpl. by rewrite (bind_Done _ _ _ _ _ H). Qed.

Lemma enter_all ps h :
  (forall k d, sendingMap (net h) !! k = Some d -> addr (net h) (d_peer d) = Some k) ->
  (forall p, p ∈ ps -> is_Some (addr (net h) p)) -> NoDup (addr (net h) <$> ps) ->
  exists s', for_each ps enter_sending h = Done (tt, with_net (upd_sendingMap (fun _ => s')) h) /\
    (forall k d, s' !! k = Some d -> addr (net h) (d_peer d) = Some k) /\
    (forall k d, s' !! k = Some d -> delayedMessages d = default [] (delayedMessages <$> sendingMap (net h) !! k)) /\
    (forall k, is_Some (sendingMap (net h) !! k) -> is_Some (s' !! k)) /\
    (forall k, Some k ∉ addr (net h) <$> ps -> s' !! k = sendingMap (net h) !! k) /\
    (forall p a, p ∈ ps -> addr (net h) p = Some a -> exists d, s' !! a = Some d /\ d_peer d = p).
Proof.
  revert h. induction ps as [|p ps IH]; intros h Hk Hs Hnd.
  { exists (sendingMap (net h)). split; [|split; [done|]; split; [by intros k d ->|]; split; [done|]; split; [done|] ].
    - cbn. unfold with_net. rewrite upd_sendingMap_id by done. by rewrite host_eta.
    - by intros ?? ?%elem_of_nil. }
  destruct (Hs p) as [a Ha]; [apply elem_of_cons; by left|].
  rewrite fmap_cons in Hnd. apply NoDup_cons in Hnd as [Hni Hnd]. rewrite Ha in Hni.
  rewrite (for_each_cons _ _ _ _ _ (enter_sending_spec p a h Hk Ha)).
  destruct (IH (with_net (upd_sendingMap (enter a p)) h)) as (s'&E&K1&K2&K3&K4&K5).
  - intros k d Hd. unfold addr in *. cbn in *. unfold enter in Hd.
    destruct (decide (k = a)) as [->|Hne]; [|rewrite lookup_insert_ne in Hd by done; by apply Hk].
    rewrite lookup_insert_eq in Hd. by injection Hd as <-.
  - intros p' Hp'. unfold addr. cbn. apply Hs. apply elem_of_cons. by right.
  - done.
  - exists s'. split; [rewrite E; done|]. split; [exact K1|]. cbn in K2, K3, K4. unfold enter in K2, K3, K4.
    split; [|split; [|split; [|] ] ].
    + intros k d Hd. rewrite (K2 k d Hd). destruct (decide (k = a)) as [->|Hne].
      * rewrite lookup_insert_eq. done.
      * by rewrite lookup_insert_ne.
    + intros k Hk'. apply K3. destruct (decide (k = a)) as [->|Hne]; [rewrite lookup_insert_eq; eauto|by rewrite lookup_insert_ne].
    + intros k Hnk. rewrite fmap_cons, Ha, not_elem_of_cons in Hnk. destruct Hnk as [Hne Hnk].
      rewrite K4 by done. rewrite lookup_insert_ne by congruence. done.
    + intros p' a' [->|Hp']%elem_of_cons Ha'; [|by apply K5].
      assert (a' = a) as -> by congruence. eexists. rewrite K4 by done. by rewrite lookup_insert_eq.
Qed.

Lemma upd_minerConns_ext n f g : f (minerConns n) = g (minerConns n) -> upd_minerConns f n = upd_minerConns g n.
Proof. unfold upd_minerConns. by intros ->. Qed.

Lemma with_minerConns h f g : f (minerConns (net h)) = g (minerConns (net h)) ->
  with_net (upd_minerConns f) h = with_net (upd_minerConns g) h.
Proof. intros H. unfold with_net. by rewrite (upd_minerConns_ext _ _ _ H). Qed.

Lemma with_minerConns_id h : with_net (upd_minerConns (fun s => s)) h = h.
Proof. by destruct h as [m []]. Qed.

Lemma upd_minerConns_twice n f g : upd_minerConns f (upd_minerConns g n) = upd_minerConns (fun s => f (g s)) n.
Proof. done. Qed.

Lemma with_minerConns_twice h f g :
  with_net (upd_minerConns g) (with_net (upd_minerConns f) h) = with_net (upd_minerConns (fun s => g (f s))) h.
Proof. done. Qed.

Lemma delete_all p a ps h : addr (net h) p = Some a -> (forall q, q ∈ ps -> is_Some (addr (net h) q)) ->
  for_each ps (delete_same_address p) h =
  Done (tt, with_net (upd_minerConns (fun s => filter (fun q => ~ (q ∈ ps /\ addr (net h) q = Some a)) s)) h).
Proof.
  revert h. induction ps as [|q ps IH]; intros h Ha Hs.
  { cbn. unfold mret, M_ret. rewrite <-(with_minerConns_id h) at 1. do 2 f_equal. apply with_minerConns.
    apply set_eq. intros x. rewrite elem_of_filter. split; [|by intros [] ]. intros Hx. split; [|done].
    by intros [?%elem_of_nil _]. }
  destruct (Hs q) as [b Hb]; [apply elem_of_cons; by left|].
  assert (E : delete_same_address p q h =
    Done (tt, with_net (upd_minerConns (fun s => if decide (a = b) then s ∖ {[q]} else s)) h)).
  { unfold delete_same_address. rewrite (bind_Done _ _ _ _ _ (getIPPort_addr _ _ _ Ha)), (bind_Done _ _ _ _ _ (getIPPort_addr _ _ _ Hb)).
    case_bool_decide; [unfold on_net, modify; do 2 f_equal; apply with_minerConns; by rewrite decide_True|]. unfold mret, M_ret. rewrite <-(with_minerConns_id h) at 1.
    do 2 f_equal. apply with_minerConns. by rewrite decide_False. }
  rewrite (for_each_cons _ _ _ _ _ E), IH; [|done|intros; apply Hs, elem_of_cons; by right].
  rewrite with_minerConns_twice. do 2 f_equal. apply with_minerConns.
  apply set_eq. intros x. rewrite !elem_of_filter. change (addr (net (with_net _ h)) x) with (addr (net h) x).
  case_decide as Hab; rewrite ?elem_of_difference, ?elem_of_singleton, ?elem_of_cons.
  - subst b. destruct (decide (x = q)) as [->|]; naive_solver.
  - split; [|naive_solver]. intros (H1&H2). split; [|done]. intros ([->|?]&?); [congruence|naive_solver].
Qed.

(** What registering a peer does to the miners. *)
Definition miners_with (n : Net) (p : nat) (a : bytes) : gset nat :=
  {[p]} ∪ filter (fun q => addr n q <> Some a) (minerConns n).

(** The maps of the peers while the entries are missing. *)
Definition registered_peer (q : peer) (a : bytes) (p : nat) (n : Net) : Net :=
  if peerType q =? PEERTYPE_MINER then upd_minerConns (fun _ => miners_with n p a) n
  else if peerType q =? PEERTYPE_CLIENT then upd_clientConns (fun s => {[p]} ∪ s) n
  else n.

Lemma registered_same q a p n :
  store (registered_peer q a p n) = store n /\ sendingMap (registered_peer q a p n) = sendingMap n.
Proof. unfold registered_peer. by repeat case_match. Qed.

(** The miners and clients after a registration are as the invariant wants. *)
Record conns_ok (n : Net) : Prop := {
  co_miners p : p ∈ minerConns n -> exists q, store n !! p = Some q /\ peerType q = PEERTYPE_MINER;
  co_clients p : p ∈ clientConns n -> exists q, store n !! p = Some q /\ peerType q = PEERTYPE_CLIENT;
  co_distinct p p' : p ∈ minerConns n -> p' ∈ minerConns n -> addr n p = addr n p' -> p = p'
}.

Lemma registered_conns q a p n : peers_ok n -> store n !! p = Some q -> getIPPort_of q = a ->
  conns_ok (registered_peer q a p n).
Proof.
  intros [H1 H2 H3 _ _ _] Hq Ha. assert (Hpa : addr n p = Some a) by (unfold addr; rewrite Hq; simpl; congruence).
  unfold registered_peer. destruct (Z.eqb_spec (peerType q) PEERTYPE_MINER); [|destruct (Z.eqb_spec (peerType q) PEERTYPE_CLIENT)].
  - split; [| exact H2 |]; cbn; unfold miners_with.
    + intros x. rewrite elem_of_union, elem_of_singleton, elem_of_filter. intros [->|[_ ?] ]; [eauto|auto].
    + intros x y. rewrite !elem_of_union, !elem_of_singleton, !elem_of_filter.
      change (addr (upd_minerConns _ n)) with (addr n).
      intros [->|[Hx ?] ] [->|[Hy ?] ] E; [done|congruence|congruence|auto].
  - split; [exact H1| |exact H3]. cbn. intros x. rewrite elem_of_union, elem_of_singleton. intros [->|?]; [eauto|auto].
  - by split.
Qed.

Lemma miners_NoDup n : conns_ok n -> NoDup (addr n <$> range_peers (minerConns n)).
Proof.
  intros [H1 H2 H3]. apply NoDup_fmap_2_strong.
  - intros x y. rewrite !elem_of_range_peers. apply H3.
  - rewrite range_peers_perm. apply NoDup_elements.
Qed.

Lemma registration_Done q a p m n : peers_ok n -> store n !! p = Some q -> getIPPort_of q = a ->
  peers_add p (mkHost m n) =
  (s ← net_gets minerConns; for_each (range_peers s) enter_sending) (mkHost m (registered_peer q a p n)).
Proof.
  intros Hok Hq Ha. unfold peers_add. rewrite (bind_Done _ _ _ _ _ (the_peer_Done p q (mkHost m n) Hq)). unfold registered_peer.
  destruct (Z.eqb_spec (peerType q) PEERTYPE_MINER) as [E|E].
  - rewrite (proj2 (Z.eqb_neq (peerType q) PEERTYPE_CLIENT)) by (rewrite E; done).
    erewrite bind_Done; [reflexivity|].
    unfold net_gets at 1. erewrite (bind_Done (gets _)); [|reflexivity]. erewrite bind_Done; [|apply (delete_all p a)].
    + unfold on_net, modify. do 2 f_equal. unfold with_net, miners_with. cbn. f_equal.
      rewrite upd_minerConns_twice. apply upd_minerConns_ext. f_equal. apply set_eq. intros x. rewrite !elem_of_filter, elem_of_range_peers.
      change (addr _ x) with (addr n x) at 1. naive_solver.
    + unfold addr. cbn. rewrite Hq. simpl. congruence.
    + intros x Hx%elem_of_range_peers. cbn in Hx |- *. by apply miner_addr.
  - erewrite bind_Done; [|reflexivity]. destruct (peerType q =? PEERTYPE_CLIENT); reflexivity.
Qed.

Lemma peers_add_spec q a p m n : peers_ok n -> store n !! p = Some q -> getIPPort_of q = a ->
  exists s', let n' := upd_sendingMap (fun _ => s') (registered_peer q a p n) in
    peers_add p (mkHost m n) = Done (tt, mkHost m n') /\ peers_ok n' /\
    (forall k d, s' !! k = Some d -> delayedMessages d = default [] (delayedMessages <$> sendingMap n !! k)) /\
    (forall k, is_Some (sendingMap n !! k) -> is_Some (s' !! k)).
Proof.
  intros Hok Hq Ha. rewrite (registration_Done q a) by done.
  pose proof (registered_conns q a p n Hok Hq Ha) as Hc. pose proof (registered_same q a p n) as [Es Em].
  set (n1 := registered_peer q a p n) in *.
  assert (Hk : forall k d, sendingMap n1 !! k = Some d -> addr n1 (d_peer d) = Some k).
  { unfold addr. rewrite Es, Em. apply (po_keys n Hok). }
  destruct (enter_all (range_peers (minerConns n1)) (mkHost m n1)) as (s'&E&K1&K2&K3&_&K5).
  - exact Hk.
  - intros x Hx%elem_of_range_peers. destruct (co_miners _ Hc x Hx) as (y&Hy&_). unfold addr. cbn. rewrite Hy. eauto.
  - by apply miners_NoDup.
  - exists s'. cbn in *. rewrite Em in K2, K3. split; [exact E|]. split; [|done].
    destruct Hc as [C1 C2 C3]. split; [exact C1|exact C2|exact C3|exact K1| |].
    + cbn. intros k d Hd. rewrite (K2 k d Hd). destruct (sendingMap n !! k) as [d0|] eqn:E0; cbn; [|lia].
      by apply (po_delayed n Hok k).
    + cbn. intros x b Hx. apply K5. by apply elem_of_range_peers.
Qed.

Lemma peers_delete_spec q p m n : peers_ok n -> store n !! p = Some q ->
  exists n', peers_delete p (mkHost m n) = Done (tt, mkHost m n') /\ peers_ok n' /\
    store n' = store n /\ sendingMap n' = sendingMap n /\
    (peerType q = PEERTYPE_MINER -> minerConns n' = minerConns n ∖ {[p]} /\ clientConns n' = clientConns n) /\
    (peerType q = PEERTYPE_CLIENT -> clientConns n' = clientConns n ∖ {[p]} /\ minerConns n' = minerConns n).
Proof.
  intros [H1 H2 H3 H4 H5 H6] Hq. unfold peers_delete. rewrite (bind_Done _ _ _ _ _ (the_peer_Done p q (mkHost m n) Hq)).
  destruct (Z.eqb_spec (peerType q) PEERTYPE_MINER) as [E|E]; destruct (Z.eqb_spec (peerType q) PEERTYPE_CLIENT) as [E'|E'];
    try (rewrite E in E'; discriminate E').
  - eexists. split; [reflexivity|]. split; [|split; [done|]; split; [done|]; split; [done|congruence] ].
    split; cbn; try done.
    + intros x [Hx _]%elem_of_difference. by apply H1.
    + intros x y [Hx _]%elem_of_difference [Hy _]%elem_of_difference. by apply H3.
    + intros x b [Hx _]%elem_of_difference. by apply H6.
  - eexists. split; [reflexivity|]. split; [|split; [done|]; split; [done|]; split; [congruence|done] ].
    split; cbn; try done. intros x [Hx _]%elem_of_difference. by apply H2.
  - exists n. split; [done|]. split; [by split|]. split; [done|]. split; [done|]. split; congruence.
Qed.

(** ** Broadcasting *)

Definition put (r : nat) (q : peer) (h : Host) : Host := with_net (upd_store (insert r q)) h.

Lemma put_put r q q' h : put r q' (put r q h) = put r q' h.
Proof. unfold put, with_net. cbn. f_equal. unfold upd_store. cbn. by rewrite insert_insert_eq. Qed.

Lemma put_id r q h : store (net h) !! r = Some q -> put r q h = h.
Proof. destruct h as [m n]. cbn. intros H. unfold put, with_net. cbn. f_equal. unfold upd_store. rewrite insert_id by done. by destruct n. Qed.

Lemma store_put r q h : store (net (put r q h)) !! r = Some q.
Proof. cbn. apply lookup_insert_eq. Qed.

Lemma update_peer_Done r q f h : store (net h) !! r = Some q -> update_peer r f h = Done (tt, put r (f q) h).
Proof.
  intros H. unfold update_peer, on_net, modify, put, with_net. do 3 f_equal. unfold upd_store. f_equal.
  apply map_eq. intros x. destruct (decide (x = r)) as [->|Hne].
  - by rewrite lookup_alter_eq, lookup_insert_eq, H.
  - by rewrite lookup_alter_ne, lookup_insert_ne by done.
Qed.

Lemma push_ch_room r q msg h : store (net h) !! r = Some q -> (length (ch q) < channel_size)%nat ->
  push_ch r msg h = Done (tt, put r (set_ch (ch q ++ [msg]) q) h).
Proof.
  intros Hq Hl. unfold push_ch. rewrite (bind_Done _ _ _ _ _ (the_peer_Done r q h Hq)), (proj2 (Nat.leb_gt _ _)) by done.
  by apply (update_peer_Done r q (fun x => set_ch (ch x ++ [msg]) x)).
Qed.

Lemma push_ch_full r q msg h : store (net h) !! r = Some q -> (channel_size <= length (ch q))%nat ->
  push_ch r msg h = Timeout.
Proof.
  intros Hq Hl. unfold push_ch. by rewrite (bind_Done _ _ _ _ _ (the_peer_Done r q h Hq)), (proj2 (Nat.leb_le _ _)) by done.
Qed.

Lemma send_delayed_spec r q msgs stored h : store (net h) !! r = Some q ->
  let room := (100 - length (ch q))%nat in
  send_delayed r msgs stored h =
  Done (drop (Nat.min (length msgs) room) stored, put r (set_ch (ch q ++ take room msgs) q) h).
Proof.
  revert q stored h. induction msgs as [|msg msgs IH]; intros q stored h Hq room.
  { cbn. rewrite take_nil, app_nil_r, put_id; [done|]. rewrite Hq. by destruct q. }
  cbn [send_delayed]. rewrite (bind_Done _ _ _ _ _ (the_peer_Done r q h Hq)).
  destruct (Nat.leb_spec 100 (length (ch q))) as [Hf|Hf].
  - rewrite (IH q) by done. unfold room. replace (100 - length (ch q))%nat with 0%nat by lia.
    by rewrite !Nat.min_0_r.
  - rewrite (bind_Done _ _ _ _ _ (push_ch_room r q msg h Hq Hf)), (IH _ _ _ (store_put _ _ _)).
    rewrite put_put. cbn [ch set_ch]. unfold room. rewrite length_app. cbn [length].
    destruct (100 - length (ch q))%nat as [|k] eqn:Ek; [lia|].
    replace (100 - (length (ch q) + 1))%nat with k by lia. rewrite drop_drop. cbn [take Nat.min length].
    by rewrite <-app_assoc.
Qed.

(** What happens to the peer of an entry and to the entry: the message and as
    many stored ones as fit go to the channel of a connected peer; for another
    one the message is stored, the oldest of more than forty dropped. *)
Definition peer_after (n : Net) (msg : bytes) (d : delayedMessagesPerSender) (q : peer) : peer :=
  if decide (d_peer d ∈ minerConns n)
  then set_ch (ch q ++ msg :: take (99 - length (ch q)) (delayedMessages d)) q else q.

Definition delayed_after (n : Net) (msg : bytes) (d : delayedMessagesPerSender) (q : peer) : list bytes :=
  if decide (d_peer d ∈ minerConns n) then drop (99 - length (ch q)) (delayedMessages d)
  else (if Nat.ltb 40 (length (delayedMessages d)) then drop 1 (delayedMessages d) else delayedMessages d) ++ [msg].

Lemma known_entry n k d : peers_ok n -> sendingMap n !! k = Some d ->
  known_miner n k = bool_decide (d_peer d ∈ minerConns n).
Proof.
  intros Hok Hd. pose proof (po_keys n Hok k d Hd) as Ha. apply eq_true_iff_eq.
  rewrite known_miner_spec, bool_decide_eq_true. split.
  - intros (p&Hp&Hpa). destruct (po_entry n Hok p k Hp Hpa) as (d'&Hd'&<-). congruence.
  - intros Hp. eauto.
Qed.

(** The channel of the connected miner of an entry is full. *)
Definition entry_full (n : Net) (d : delayedMessagesPerSender) (q : peer) : Prop :=
  d_peer d ∈ minerConns n /\ (channel_size <= length (ch q))%nat.

#[global] Instance entry_full_dec n d q : Decision (entry_full n d q).
Proof. apply and_dec; apply _. Defined.

Lemma send_entry_spec msg k d q m n : peers_ok n -> sendingMap n !! k = Some d -> store n !! d_peer d = Some q ->
  send_entry msg k (mkHost m n) =
  if decide (entry_full n d q) then Timeout
  else Done (tt, with_net (upd_sendingMap (insert k (mkDelayed (d_peer d) (delayed_after n msg d q))))
              (put (d_peer d) (peer_after n msg d q) (mkHost m n))).
Proof.
  intros Hok Hd Hq. pose proof (po_keys n Hok k d Hd) as Ha.
  unfold send_entry. rewrite net_gets_bind. cbn [net]. rewrite Hd.
  rewrite (bind_Done (of_option _) _ _ d (mkHost m n)) by done.
  rewrite (bind_Done _ _ _ _ _ (getIPPort_addr (d_peer d) k (mkHost m n) Ha)).
  rewrite (bind_Done _ _ _ _ _ (contains_miner n m k Hok)), (known_entry n k d Hok Hd).
  unfold peer_after, delayed_after. destruct (decide (d_peer d ∈ minerConns n)) as [Hp|Hp].
  - rewrite bool_decide_eq_true_2 by done.
    assert (E : isConnectionAlreadyInSendingMap (d_peer d) (mkHost m n) = Done ((true, false), mkHost m n)).
    { change (isConnectionAlreadyInSendingMap (d_peer d) (mkHost m n)) with
        (connection_in (range_addresses (dom (sendingMap n))) (d_peer d) (mkHost m n)).
      rewrite (connection_in_spec _ _ k); [|exact (po_keys n Hok)|done|intros x; by rewrite elem_of_range_addresses, elem_of_dom].
      cbn. rewrite Hd, decide_True by (apply elem_of_range_addresses, elem_of_dom; eauto). by rewrite decide_True. }
    rewrite (bind_Done _ _ _ _ _ E). cbn beta iota.
    rewrite net_gets_bind. cbn [net]. rewrite Hd.
    rewrite (bind_Done (of_option _) _ _ d (mkHost m n)) by done. cbv zeta.
    destruct (decide (entry_full n d q)) as [ [_ Hl]|Hl].
    { unfold mbind at 1, M_bind at 1. by rewrite (push_ch_full _ q). }
    rewrite (bind_Done _ _ _ _ _ (push_ch_room (d_peer d) q msg (mkHost m n) Hq
      ltac:(apply Nat.lt_nge; intros ?; by apply Hl))).
    rewrite (bind_Done _ _ _ _ _ (send_delayed_spec _ _ _ _ _ (store_put _ _ _))). rewrite put_put.
    cbn [ch set_ch andb]. rewrite length_app. cbn [length].
    replace (100 - (length (ch q) + 1))%nat with (99 - length (ch q))%nat by lia.
    assert (El : drop (Nat.min (length (delayedMessages d)) (99 - length (ch q))) (delayedMessages d) =
                 drop (99 - length (ch q)) (delayedMessages d)).
    { destruct (Nat.le_gt_cases (99 - length (ch q)) (length (delayedMessages d))).
      - by rewrite Nat.min_r by lia.
      - rewrite Nat.min_l by lia. by rewrite !drop_ge by lia. }
    rewrite El, <-app_assoc. reflexivity.
  - rewrite bool_decide_eq_false_2, (decide_False (P := entry_full n d q)) by (done || by intros [ ]).
    rewrite put_id by done. reflexivity.
Qed.

Lemma peers_ok_entry m n k d q msg : peers_ok n -> sendingMap n !! k = Some d -> store n !! d_peer d = Some q ->
  peers_ok (net (with_net (upd_sendingMap (insert k (mkDelayed (d_peer d) (delayed_after n msg d q))))
              (put (d_peer d) (peer_after n msg d q) (mkHost m n)))).
Proof.
  intros Hok Hd Hq. cbn.
  assert (H : peers_ok (upd_store (insert (d_peer d) (peer_after n msg d q)) n)).
  { apply (peers_ok_keeps n); [done| |done..]. intros x y Hx. cbn.
    destruct (decide (x = d_peer d)) as [->|]; [rewrite lookup_insert_eq|rewrite lookup_insert_ne by done; eauto].
    exists (peer_after n msg d q). split; [done|]. assert (y = q) as -> by congruence. unfold peer_after.
    by case_decide. }
  destruct H as [H1 H2 H3 H4 H5 H6]. split; cbn in *; [exact H1|exact H2|exact H3| | |].
  - intros k' d'. destruct (decide (k' = k)) as [->|]; [rewrite lookup_insert_eq|rewrite lookup_insert_ne by done; apply H4].
    intros [= <-]. by apply (H4 k d).
  - intros k' d'. destruct (decide (k' = k)) as [->|]; [rewrite lookup_insert_eq|rewrite lookup_insert_ne by done; apply H5].
    intros [= <-]. cbn. pose proof (H5 k d Hd). unfold delayed_after. case_decide; [rewrite length_drop; lia|].
    destruct (Nat.ltb_spec 40 (length (delayedMessages d))); rewrite length_app, ?length_drop; cbn; lia.
  - intros p b Hp Hb. destruct (H6 p b Hp Hb) as (d'&Hd'&<-).
    destruct (decide (b = k)) as [->|]; [rewrite lookup_insert_eq|rewrite lookup_insert_ne by done; eauto].
    assert (d' = d) as -> by congruence. eauto.
Qed.

(** The loop over the entries of some keys: it waits for a full channel. *)
Lemma send_entries msg ks m n : peers_ok n -> NoDup ks -> (forall k, k ∈ ks -> is_Some (sendingMap n !! k)) ->
  (for_each ks (send_entry msg) (mkHost m n) = Timeout /\
   exists k d q, k ∈ ks /\ sendingMap n !! k = Some d /\ store n !! d_peer d = Some q /\ entry_full n d q) \/
  exists n', for_each ks (send_entry msg) (mkHost m n) = Done (tt, mkHost m n') /\ peers_ok n' /\
    minerConns n' = minerConns n /\ clientConns n' = clientConns n /\
    forall k d q, sendingMap n !! k = Some d -> store n !! d_peer d = Some q ->
      if decide (k ∈ ks)
      then ~ entry_full n d q /\ sendingMap n' !! k = Some (mkDelayed (d_peer d) (delayed_after n msg d q)) /\
           store n' !! d_peer d = Some (peer_after n msg d q)
      else sendingMap n' !! k = Some d /\ store n' !! d_peer d = Some q.
Proof.
  revert n. induction ks as [|k0 ks IH]; intros n Hok Hnd Hin.
  { right. exists n. split; [done|]. split; [done|]. split; [done|]. split; [done|]. intros k d q Hd Hq.
    rewrite decide_False; [done|]. by intros ?%elem_of_nil. }
  apply NoDup_cons in Hnd as [Hni Hnd]. destruct (Hin k0) as [d0 Hd0]; [apply elem_of_cons; by left|].
  pose proof (po_keys n Hok k0 d0 Hd0) as Ha0. unfold addr in Ha0. apply fmap_Some in Ha0 as (q0&Hq0&Ea0).
  pose proof (send_entry_spec msg k0 d0 q0 m n Hok Hd0 Hq0) as E0.
  destruct (decide (entry_full n d0 q0)) as [Hf|Hf].
  { left. split; [cbn [for_each]; unfold mbind, M_bind; by rewrite E0|].
    exists k0, d0, q0. split; [apply elem_of_cons; by left|done]. }
  rewrite (for_each_cons _ _ _ _ _ E0).
  pose proof (peers_ok_entry m n k0 d0 q0 msg Hok Hd0 Hq0) as Hok1. cbn [net with_net put upd_store upd_sendingMap] in Hok1 |- *.
  set (n1 := upd_sendingMap _ _) in *.
  assert (Hother : forall k d, k <> k0 -> sendingMap n !! k = Some d ->
    sendingMap n1 !! k = Some d /\ store n1 !! d_peer d = store n !! d_peer d).
  { intros k d Hne Hd. split; [cbn; by rewrite lookup_insert_ne|]. cbn. apply lookup_insert_ne. intros Ep.
    pose proof (po_keys n Hok k d Hd) as Hk. pose proof (po_keys n Hok k0 d0 Hd0) as Hk0. congruence. }
  destruct (IH n1) as [ (E&k&d&q&Hk&Hd&Hq&Hfull)|(n'&E&Hok'&Em&Ec&Hall)]; [done|done| | |].
  { intros k Hk. cbn. destruct (decide (k = k0)) as [->|]; [rewrite lookup_insert_eq; eauto|].
    rewrite lookup_insert_ne by done. apply Hin, elem_of_cons. by right. }
  - left. split; [exact E|]. assert (k <> k0) as Hne by congruence. exists k, d, q. split; [apply elem_of_cons; by right|].
    assert (sendingMap n !! k = Some d) as Hd' by (cbn in Hd; by rewrite lookup_insert_ne in Hd).
    destruct (Hother k d Hne Hd') as [_ Es]. by rewrite <-Es.
  - right. exists n'. split; [exact E|]. split; [done|]. split; [by rewrite Em|]. split; [by rewrite Ec|].
    intros k d q Hd Hq. destruct (decide (k = k0)) as [->|Hne].
    + assert (d = d0) as -> by congruence. assert (q = q0) as -> by congruence.
      rewrite decide_True by (apply elem_of_cons; by left). split; [done|].
      specialize (Hall k0 (mkDelayed (d_peer d0) (delayed_after n msg d0 q0)) (peer_after n msg d0 q0)).
      rewrite decide_False in Hall by done. apply Hall; cbn; apply lookup_insert_eq.
    + destruct (Hother k d Hne Hd) as [Hd1 Es]. rewrite <-Es in Hq. specialize (Hall k d q Hd1 Hq).
      destruct (decide (k ∈ ks)).
      * rewrite decide_True by (apply elem_of_cons; by right). exact Hall.
      * rewrite decide_False; [exact Hall|]. by intros [?|?]%elem_of_cons.
Qed.
End peers.

(** ** Steps that leave the connections alone *)

(** Only the peers of [P] may get another address or kind. *)
Definition calm (P : nat -> Prop) (h h' : Host) : Prop :=
  changes_only P (store (net h)) (store (net h')) /\ minerConns (net h') = minerConns (net h) /\
  clientConns (net h') = clientConns (net h) /\ sendingMap (net h') = sendingMap (net h) /\
  (channels (store (net h)) -> channels (store (net h'))).

Lemma changes_only_refl P s : changes_only P s s.
Proof. intros p q Hq. eauto. Qed.

#[global] Instance calm_preorder P : PreOrder (calm P).
Proof.
  split.
  - intros h. split; [apply changes_only_refl|done].
  - intros h1 h2 h3 (A1&A2&A3&A4&A5) (B1&B2&B3&B4&B5).
    split; [|split; [congruence|split; [congruence|split; [congruence|auto] ] ] ].
    intros p q Hq. destruct (A1 p q Hq) as (q1&H1&Hs1). destruct (B1 p q1 H1) as (q2&?&Hs2).
    exists q2. split; [done|]. intros Hp. destruct (Hs1 Hp), (Hs2 Hp). split; congruence.
Qed.

Lemma calm_ok P h h' : calm P h h' -> (forall p, P p -> ~ connected (net h) p) -> peers_ok (net h) -> peers_ok (net h').
Proof. intros (A1&A2&A3&A4&_) HP Hok. by apply (peers_ok_change (net h) (net h') P). Qed.

Section calm.
Context {PO : PeerOrder} (P : nat -> Prop).

Lemma calm_ret {A} (a : A) : respects (calm P) (mret a).
Proof. apply respects_ret, _. Qed.

Lemma calm_panic {A} : respects (calm P) (@panic Host A).
Proof. apply respects_panic. Qed.

Lemma calm_timeout {A} : respects (calm P) (@timeout Host A).
Proof. apply respects_timeout. Qed.

Lemma calm_of_option {A} (o : option A) : respects (calm P) (of_option o).
Proof. apply respects_of_option, _. Qed.

Lemma calm_bind {A B} (m : M Host A) (f : A -> M Host B) :
  respects (calm P) m -> (forall a, respects (calm P) (f a)) -> respects (calm P) (m ≫= f).
Proof. apply respects_bind, _. Qed.

Lemma calm_net_gets {A} (f : Net -> A) : respects (calm P) (net_gets f).
Proof. apply respects_gets, _. Qed.

Lemma calm_on_miner {A} (m : M Miner A) : respects (calm P) (on_miner m).
Proof.
  intros h a h' H. unfold on_miner in H. destruct (m (miner h)) as [ [x m']| |]; simplify_eq.
  split; [apply changes_only_refl|done].
Qed.

Lemma calm_on_net f : (forall n, store (f n) = store n /\ minerConns (f n) = minerConns n /\
    clientConns (f n) = clientConns n /\ sendingMap (f n) = sendingMap n) -> respects (calm P) (on_net f).
Proof.
  intros Hf h a h' [= <- <-]. destruct (Hf (net h)) as (E1&E2&E3&E4). unfold calm. cbn. rewrite E1.
  split; [apply changes_only_refl|done].
Qed.

Lemma calm_emit e : respects (calm P) (emit e).
Proof. by apply calm_on_net. Qed.

Lemma calm_the_peer p : respects (calm P) (the_peer p).
Proof. apply calm_bind; [apply calm_net_gets|intros; apply calm_of_option]. Qed.

Lemma calm_update_peer p f : P p \/ (forall q, getIPPort_of (f q) = getIPPort_of q /\ peerType (f q) = peerType q) ->
  (forall q, (length (ch (f q)) <= length (ch q))%nat) -> respects (calm P) (update_peer p f).
Proof.
  intros Hf Hl h a h' [= <- <-]. split; [|split; [done|split; [done|split; [done|] ] ] ]; cbn.
  - intros x q Hq. destruct (decide (x = p)) as [->|Hne].
    + exists (f q). rewrite lookup_alter_eq, Hq. split; [done|]. intros Hx. destruct Hf as [?|Hf]; [done|]. apply Hf.
    + exists q. by rewrite lookup_alter_ne.
  - intros Hc x q. destruct (decide (x = p)) as [->|Hne]; [|rewrite lookup_alter_ne by done; apply Hc].
    rewrite lookup_alter_eq. intros (q0&Hq0&->)%fmap_Some. etrans; [apply Hl|by apply (Hc p)].
Qed.

(** Only where there is room. *)
Lemma calm_push_ch p msg : respects (calm P) (push_ch p msg).
Proof.
  intros h [] h' H. unfold push_ch in H. apply bind_inv in H as (q&h1&E1&E2).
  unfold the_peer, net_gets, gets, mbind, M_bind in E1. destruct (store (net h) !! p) as [q'|] eqn:Hq; [|done].
  injection E1 as -> <-. destruct (Nat.leb_spec channel_size (length (ch q))) as [|Hl]; [done|].
  rewrite (update_peer_Done p q _ h Hq) in E2. injection E2 as <-.
  split; [|split; [done|split; [done|split; [done|] ] ] ]; cbn.
  - intros x y Hy. destruct (decide (x = p)) as [->|Hne].
    + rewrite lookup_insert_eq. eexists. split; [done|]. intros _. assert (y = q) as -> by congruence. done.
    + rewrite lookup_insert_ne by done. eauto.
  - intros Hc x y. destruct (decide (x = p)) as [->|Hne].
    + rewrite lookup_insert_eq. intros [= <-]. cbn. rewrite length_app. cbn. lia.
    + rewrite lookup_insert_ne by done. apply Hc.
Qed.

Lemma calm_for_each {A} (l : list A) f : (forall x, respects (calm P) (f x)) -> respects (calm P) (for_each l f).
Proof. intros Hf. induction l as [|x l IH]; cbn [for_each]; [apply calm_ret|]. by apply calm_bind. Qed.

Lemma calm_sendData p packet : respects (calm P) (sendData p packet).
Proof. unfold sendData. case_match; [apply calm_emit|apply calm_panic]. Qed.

Lemma calm_getIPPort p : respects (calm P) (getIPPort p).
Proof. apply calm_bind; [apply calm_the_peer|intros; apply calm_ret]. Qed.

Lemma calm_any_address ps a : respects (calm P) (any_address ps a).
Proof.
  induction ps as [|p ps IH]; cbn [any_address]; [apply calm_ret|]. apply calm_bind; [apply calm_getIPPort|intros].
  case_match; [apply calm_ret|done].
Qed.

Lemma calm_contains a t : respects (calm P) (contains a t).
Proof. apply calm_bind; [apply calm_net_gets|intros; apply calm_any_address]. Qed.

(** A new peer is one of its own. *)
Lemma new_peer_calm q h p h' : (length (ch q) <= channel_size)%nat -> new_peer q h = Done (p, h') ->
  store (net h) !! p = None /\ calm P h h'.
Proof.
  intros Hl. unfold new_peer. intros (p'&h1&E1&(u&h2&E2&E3)%bind_inv)%bind_inv.
  injection E1 as <- <-. injection E2 as <- <-. injection E3 as <- <-.
  assert (Hn : store (net h) !! fresh (dom (store (net h))) = None).
  { apply not_elem_of_dom. apply is_fresh. }
  split; [done|]. split; [|split; [done|split; [done|split; [done|] ] ] ]; cbn.
  - intros x y Hx. exists y. rewrite lookup_insert_ne; [done|]. congruence.
  - intros Hc x y. destruct (decide (x = fresh (dom (store (net h))))) as [->|Hne].
    + rewrite lookup_insert_eq. by intros [= <-].
    + rewrite lookup_insert_ne by done. apply Hc.
Qed.

Lemma calm_new_peer remote port t : respects (calm P) (new_peer (newPeer remote port t)).
Proof. intros h p h' H. apply new_peer_calm in H as [_ ?]; [done|]. apply Nat.le_0_l. Qed.
End calm.

Create HintDb calm.
#[export] Hint Resolve calm_ret calm_panic calm_timeout calm_of_option calm_net_gets calm_on_miner calm_emit calm_the_peer
  calm_sendData calm_push_ch calm_getIPPort calm_any_address calm_contains calm_new_peer : calm.

(** Through binds, branches and loops down to the primitives. *)
Ltac calm_step :=
  first
    [ solve [eauto 2 with calm nocore]
    | apply calm_bind; [|intros ?]
    | apply calm_for_each; intros ?
    | apply calm_on_net; by intros []
    | apply calm_update_peer; [right; by intros []|intros []; apply le_n || apply Nat.le_0_l]
    | progress cbv zeta
    | case_match ].
Ltac calm := repeat calm_step.
