(* ===== verification/Serve.v ===== *)
(** * Answering the messages of other nodes

    response.go, process.go, miner_interface.go and incoming.go of p2p/, with
    the encodings of transactions, blocks and accounts. The bytes of
    encoding/gob and the Bloom filter are parameters. *)

From S2P Require Import Prelude Format Chameleon Protocol Merkle Node Storage Params BlockPrep Wire Peers.

(** ** Encodings

    [gob_T] is what a new encoder writes for a value of type [T]; [ungob_T]
    what a new decoder makes of some bytes when its error is ignored. *)
Class Gob := {
  gob_FundsTx : FundsTx -> bytes;
  gob_AccTx : AccTx -> bytes;
  gob_AggTx : AggTx -> bytes;
  gob_UpdateTx : UpdateTx -> bytes;
  gob_Block : Block -> bytes;
  gob_Account : Account -> bytes;
  ungob_FundsTx : bytes -> FundsTx;
  ungob_AccTx : bytes -> AccTx;
  ungob_AggTx : bytes -> AggTx;
  ungob_UpdateTx : bytes -> UpdateTx;
  ungob_Block : bytes -> Block
}.

(** The filter for some keys, as [GobEncode] gives it. *)
Class Bloom := bloom_filter : list hash -> bytes.

Section serve.
Context {DG : Digests} {GB : Gob} {BL : Bloom} {PO : PeerOrder}.
Context (Ipport : bytes).

Definition FundsTx_Encode (tx : FundsTx) : bytes := gob_FundsTx tx.

Definition AccTx_Encode (tx : AccTx) : bytes :=
  gob_AccTx (mkAccTx (atx_Header tx) (atx_Fee tx) (atx_Issuer tx) (atx_PubKey tx) (atx_Sig tx) None []
    (atx_Parameters tx) (atx_CheckString tx) (atx_Data tx)).

Definition AggTx_Encode (tx : AggTx) : bytes :=
  gob_AggTx (mkAggTx (gtx_Amount tx) (gtx_Fee tx) (gtx_From tx) (gtx_To tx) (gtx_AggregatedTxSlice tx)
    (gtx_Aggregated tx) (gtx_Block tx) (gtx_MerkleRoot tx) None None).

Definition UpdateTx_Encode (tx : UpdateTx) : bytes := gob_UpdateTx tx.

Definition Transaction_Encode (tx : Transaction) : bytes :=
  match tx with
  | TAcc tx => AccTx_Encode tx
  | TFunds tx => FundsTx_Encode tx
  | TConfig tx => ConfigTx_Encode tx
  | TStake tx => StakeTx_Encode tx
  | TAgg tx => AggTx_Encode tx
  | TUpdate tx => UpdateTx_Encode tx
  end.

(** Everything but the copy of the state. *)
Definition Block_Encode (b : Block) : bytes :=
  gob_Block (mkBlock (blk_Header b) (blk_Hash b) (blk_PrevHash b) (blk_HashWithoutTx b)
    (blk_PrevHashWithoutTx b) (blk_NrElementsBF b) (blk_BloomFilter b) (blk_Height b)
    (blk_Beneficiary b) (blk_Aggregated b) (blk_NrUpdates b) (blk_Nonce b) (blk_Timestamp b)
    (blk_MerkleRoot b) (blk_NrAccTx b) (blk_NrConfigTx b) (blk_NrFundsTx b) (blk_NrStakeTx b)
    (blk_NrAggTx b) (blk_NrUpdateTx b) (blk_SlashedAddress b) (blk_CommitmentProof b)
    (blk_ConflictingBlockHash1 b) (blk_ConflictingBlockHash2 b)
    (blk_ConflictingBlockHashWithoutTx1 b) (blk_ConflictingBlockHashWithoutTx2 b) ∅
    (blk_AccTxData b) (blk_FundsTxData b) (blk_ConfigTxData b) (blk_StakeTxData b)
    (blk_AggTxData b) (blk_UpdateTxData b)).

Definition EncodeHeader (b : Block) : bytes :=
  gob_Block (mkBlock (blk_Header b) (blk_Hash b) (blk_PrevHash b) (blk_HashWithoutTx b)
    (blk_PrevHashWithoutTx b) (blk_NrElementsBF b) (blk_BloomFilter b) (blk_Height b)
    (blk_Beneficiary b) (blk_Aggregated b) (blk_NrUpdates b) (zeros 8) 0
    zero_hash 0 (blk_NrConfigTx b) 0 0 0 0 zero_hash (zeros COMM_PROOF_LENGTH)
    zero_hash zero_hash zero_hash zero_hash ∅ [] [] [] [] [] []).

Definition InitBloomFilter (txPubKeys : list hash) (b : Block) : Block :=
  mkBlock (blk_Header b) (blk_Hash b) (blk_PrevHash b) (blk_HashWithoutTx b)
    (blk_PrevHashWithoutTx b) (u16 (Z.of_nat (length txPubKeys))) (Some (bloom_filter txPubKeys)) (blk_Height b)
    (blk_Beneficiary b) (blk_Aggregated b) (blk_NrUpdates b) (blk_Nonce b) (blk_Timestamp b)
    (blk_MerkleRoot b) (blk_NrAccTx b) (blk_NrConfigTx b) (blk_NrFundsTx b) (blk_NrStakeTx b)
    (blk_NrAggTx b) (blk_NrUpdateTx b) (blk_SlashedAddress b) (blk_CommitmentProof b)
    (blk_ConflictingBlockHash1 b) (blk_ConflictingBlockHash2 b)
    (blk_ConflictingBlockHashWithoutTx1 b) (blk_ConflictingBlockHashWithoutTx2 b) (blk_StateCopy b)
    (blk_AccTxData b) (blk_FundsTxData b) (blk_ConfigTxData b) (blk_StakeTxData b)
    (blk_AggTxData b) (blk_UpdateTxData b).

Definition Account_Encode (acc : option Account) : bytes :=
  match acc with None => [] | Some acc => gob_Account acc end.

(** ** Requests of other nodes (response.go) *)

(** The last of the pools that has the transaction. *)
Definition find_any (txHash : hash) : M Host (option Transaction) :=
  openTx ← on_miner (ReadOpenTx txHash);
  closedTx ← on_miner (ReadClosedTx txHash);
  invalidTx ← on_miner (ReadINVALIDOpenTx txHash);
  mret (match invalidTx with
        | Some tx => Some tx
        | None => match closedTx with Some tx => Some tx | None => openTx end
        end).

Definition remember_not_found (txHash : hash) : M Host unit :=
  on_net (upd_lastNotFoundTxWithHash (fun _ => txHash)).

(** The packet for a request of some type: nil when no case of the two switches
    matches. *)
Definition tx_packet (txKind : Z) (tx : Transaction) : bytes :=
  let e := Transaction_Encode tx in
  if txKind =? FUNDSTX_REQ then BuildPacket FUNDSTX_RES e
  else if txKind =? ACCTX_REQ then BuildPacket ACCTX_RES e
  else if txKind =? CONFIGTX_REQ then BuildPacket CONFIGTX_RES e
  else if txKind =? STAKETX_REQ then BuildPacket STAKETX_RES e
  else if txKind =? AGGTX_REQ then BuildPacket AGGTX_RES e
  else if txKind =? UPDATETX_REQ then BuildPacket UPDATETX_RES e
  else if txKind =? UNKNOWNTX_REQ then
    match tx with
    | TFunds _ => BuildPacket FUNDSTX_RES e
    | TAgg _ => BuildPacket AGGTX_RES e
    | _ => []
    end
  else [].

Definition txRes (p : nat) (payload : bytes) (txKind : Z) : M Host unit :=
  if negb (Nat.eqb (length payload) 32) then mret tt
  else
    let txHash := take 32 payload in
    tx ← find_any txHash;
    match tx with
    | None => sendData p (BuildPacket NOT_FOUND []);; remember_not_found txHash
    | Some tx => sendData p (tx_packet txKind tx)
    end.

Definition brdcst_packet (tx : Transaction) : bytes :=
  let e := Transaction_Encode tx in
  match tx with
  | TFunds _ => BuildPacket FUNDSTX_BRDCST e
  | TAcc _ => BuildPacket ACCTX_BRDCST e
  | TConfig _ => BuildPacket CONFIGTX_BRDCST e
  | TStake _ => BuildPacket STAKETX_BRDCST e
  | TAgg _ => BuildPacket AGGTX_BRDCST e
  | TUpdate _ => []
  end.

Definition notFoundTxRes (payload : bytes) : M Host unit :=
  if negb (Nat.eqb (length payload) 32) then mret tt
  else
    let txHash := take 32 payload in
    tx ← find_any txHash;
    match tx with
    | None => remember_not_found txHash
    | Some tx => emit (minerBrdcstMsg (brdcst_packet tx))
    end.

(** The first pool that has the transaction, open before invalid before
    closed, decides whether it is from the sender. *)
Fixpoint search_sender (hs : list hash) (senderHash : hash) : M Host (option Transaction) :=
  match hs with
  | [] => mret None
  | txhash :: hs =>
      open ← on_miner (ReadOpenTx txhash);
      invalid ← on_miner (ReadINVALIDOpenTx txhash);
      closed ← on_miner (ReadClosedTx txhash);
      match (match open with
             | Some tx => Some tx
             | None => match invalid with Some tx => Some tx | None => closed end
             end) with
      | Some tx =>
          if bool_decide (Transaction_Sender tx = senderHash) then mret (Some tx) else search_sender hs senderHash
      | None => search_sender hs senderHash
      end
  end.

Definition specialTxRes (p : nat) (payload : bytes) : M Host unit :=
  if negb (Nat.eqb (length payload) 42) then mret tt
  else
    let txcnt := be_val (sublist 0 4 (sublist 1 8 payload)) in
    let senderHash := sublist 10 32 payload in
    hs ← on_miner (ReadTxcntToTx txcnt);
    searchedTransaction ← search_sender hs senderHash;
    match searchedTransaction with
    | Some tx =>
        sendData p (BuildPacket FUNDSTX_RES (Transaction_Encode tx));;
        emit (minerBrdcstMsg (BuildPacket FUNDSTX_BRDCST (Transaction_Encode tx)))
    | None => sendData p (BuildPacket NOT_FOUND [])
    end.

(** The block of a request with two hashes. *)
Definition requested_block (payload : bytes) : M Host (option Block) :=
  let blockHash := take 32 payload in
  let blockHashWithoutTx := drop 32 payload in
  b ← on_miner (ReadClosedBlock blockHash);
  match b with
  | Some b => mret (Some b)
  | None =>
      b ← on_miner (ReadClosedBlockWithoutTx blockHashWithoutTx);
      match b with
      | Some b => mret (Some b)
      | None => on_miner (ReadOpenBlock blockHash)
      end
  end.

Definition blockRes (p : nat) (payload : bytes) : M Host unit :=
  b ← (if Nat.eqb (length payload) 64 then requested_block payload
       else if Nat.eqb (length payload) 0 then on_miner ReadLastClosedBlock
       else mret None);
  sendData p (match b with
              | Some b => BuildPacket BLOCK_RES (Block_Encode b)
              | None => BuildPacket NOT_FOUND []
              end).

(** An unknown block is dereferenced. *)
Definition blockHeaderRes (p : nat) (payload : bytes) : M Host unit :=
  b ← (if Nat.eqb (length payload) 64 then requested_block payload else on_miner ReadLastClosedBlock);
  b ← of_option b;
  keys ← on_miner (GetTxPubKeys b);
  let encodedHeader := EncodeHeader (InitBloomFilter keys b) in
  sendData p (if Nat.ltb 0 (length encodedHeader) then BuildPacket BlOCK_HEADER_RES encodedHeader
              else BuildPacket NOT_FOUND []).

Definition accRes (p : nat) (payload : bytes) : M Host unit :=
  if negb (Nat.eqb (length payload) 32) then mret tt
  else
    '(acc, _) ← on_miner (GetAccount (take 32 payload));
    sendData p (BuildPacket ACC_RES (Account_Encode acc)).

Definition rootAccRes (p : nat) (payload : bytes) : M Host unit :=
  if negb (Nat.eqb (length payload) 32) then mret tt
  else
    '(acc, _) ← on_miner (GetRootAccount (take 32 payload));
    sendData p (BuildPacket ROOTACC_RES (Account_Encode acc)).

(** [pingType] is [MINER_PING] or [CLIENT_PING]. *)
Definition pongRes (p : nat) (payload : bytes) (pingType : Z) : M Host unit :=
  let port := _pongRes payload in
  match port with
  | [] => emit (Close p)
  | _ =>
      update_peer p (set_listenerPort port);;
      n ← peers_len PEERTYPE_MINER;
      if MAX_MINERS <=? Z.of_nat n then mret tt
      else
        packet ← (if pingType =? MINER_PING then
                    update_peer p (set_peerType PEERTYPE_MINER);; mret (BuildPacket MINER_PONG [])
                  else if pingType =? CLIENT_PING then
                    update_peer p (set_peerType PEERTYPE_CLIENT);; mret (BuildPacket CLIENT_PONG [])
                  else mret []);
        emit (goPeerConn p);;
        sendData p packet
  end.

Definition neighborRes (p : nat) : M Host unit :=
  peerList ← getAllPeers PEERTYPE_MINER;
  ipportList ← getIPPorts peerList;
  payload ← of_option (_neighborRes ipportList);
  sendData p (BuildPacket NEIGHBOR_RES (default [] payload)).

(** The hashes of the intermediate nodes, on a tree of its own; a nil tree, a
    leaf that is not in it are dereferenced. *)
Definition intermediate_hashes (b : Block) (txHash : hash) : M nodes (option (list hash)) :=
  let fuel := S (length (block_txHashes b)) in
  merkleTree ← BuildMerkleTree fuel b;
  merkleTree ← of_option merkleTree;
  leaf ← GetLeaf merkleTree txHash;
  leaf ← of_option leaf;
  h ← get;
  intermediates ← GetIntermediate (S (length h)) leaf;
  match intermediates with
  | Some (q :: qs) =>
      ns ← (fix go l := match l with [] => mret [] | x :: l => n ← deref x; r ← go l; mret (Hash n :: r) end) (q :: qs);
      mret (Some ns)
  | _ => mret None
  end.

Definition on_nodes {A} (m : M nodes A) : M Host A := fun h =>
  match m [] with Done (a, _) => Done (a, h) | Panic => Panic | Timeout => Timeout end.

Definition intermediateNodesRes (p : nat) (payload : bytes) : M Host unit :=
  if negb (Nat.eqb (length payload) 64) then mret tt
  else
    b ← on_miner (ReadClosedBlock (take 32 payload));
    b ← of_option b;
    nodeHashes ← on_nodes (intermediate_hashes b (sublist 32 32 payload));
    sendData p (match nodeHashes with
                | Some hs => BuildPacket INTERMEDIATE_NODES_RES (Encode hs 32)
                | None => BuildPacket NOT_FOUND []
                end).

(** ** Broadcasts (process.go) *)

(** Decoding the gob types always gives a transaction. *)
Definition decode_tx (kind : Z) (payload : bytes) : option Transaction :=
  if (kind =? FUNDSTX_BRDCST) || (kind =? FUNDSTX_RES) then Some (TFunds (ungob_FundsTx payload))
  else if (kind =? ACCTX_BRDCST) || (kind =? ACCTX_RES) then Some (TAcc (ungob_AccTx payload))
  else if (kind =? UPDATETX_BRDCST) || (kind =? UPDATETX_RES) then Some (TUpdate (ungob_UpdateTx payload))
  else if (kind =? CONFIGTX_BRDCST) || (kind =? CONFIGTX_RES) then TConfig <$> ConfigTx_Decode payload
  else if (kind =? STAKETX_BRDCST) || (kind =? STAKETX_RES) then TStake <$> StakeTx_Decode payload
  else if (kind =? AGGTX_BRDCST) || (kind =? AGGTX_RES) then Some (TAgg (ungob_AggTx payload))
  else None.

Definition processTxBrdcst (p : nat) (payload : bytes) (brdcstType : Z) : M Host unit :=
  match decode_tx brdcstType payload with
  | None => mret tt
  | Some tx =>
      a ← getIPPort p;
      isMiner ← contains a PEERTYPE_MINER;
      (if (isMiner : bool) then mret tt else sendData p (BuildPacket TX_BRDCST_ACK []));;
      h ← on_miner (tx_hash tx);
      open ← on_miner (ReadOpenTx h);
      closed ← on_miner (ReadClosedTx h);
      match open, closed with
      | None, None =>
          on_miner (WriteOpenTx tx);;
          emit (minerBrdcstMsg (BuildPacket brdcstType payload))
      | _, _ => mret tt
      end
  end.

Definition processTimeRes (p : nat) (payload : bytes) : M Host unit :=
  if Nat.ltb (length payload) 8 then panic
  else update_peer p (set_time (to_int64 (be_val (take 8 payload)))).

Fixpoint take_neighbors (ipportList : list bytes) : M Host unit :=
  match ipportList with
  | [] => mret tt
  | ipportIter :: ipportList =>
      known ← contains ipportIter PEERTYPE_MINER;
      l ← net_gets iplistChan;
      (if negb known && negb (peerSelfConn Ipport ipportIter) && (Z.of_nat (length l) <=? MIN_MINERS * MIN_MINERS)
       then on_net (upd_iplistChan (fun l => l ++ [ipportIter]))
       else mret tt);;
      take_neighbors ipportList
  end.

Definition processNeighborRes (payload : bytes) : M Host unit := take_neighbors (_processNeighborRes payload).

(** ** Answers for the miner (miner_interface.go) *)

Definition processBlockBrdcst (payload : bytes) : M Host unit := emit (BlockIn payload).

(** [FundsTxAlreadyInStash] and its copies for the other types. *)
Fixpoint AlreadyInStash {T} (inj : T -> Transaction) (slice : list T) (newTXHash : hash) : M Host bool :=
  match slice with
  | [] => mret false
  | txInStash :: slice =>
      h ← on_miner (tx_hash (inj txInStash));
      if bool_decide (h = newTXHash) then mret true else AlreadyInStash inj slice newTXHash
  end.

(** A transaction that is stashed goes to the miner; of more than a hundred
    the oldest is dropped. *)
Definition trim {T} (slice : list T) : list T := if Nat.ltb 100 (length slice) then drop 1 slice else slice.

Definition forward {T} (inj : T -> Transaction) (slice : stashes -> list T) (set_slice : list T -> stashes -> stashes)
    (tx : T) : M Host unit :=
  h ← on_miner (tx_hash (inj tx));
  received ← net_gets (fun n => slice (stash n));
  already ← AlreadyInStash inj received h;
  if (already : bool) then mret tt
  else
    emit (TxChan (inj tx));;
    on_net (upd_stash (set_slice (trim (received ++ [tx])))).

Definition set_funds_stash (l : list FundsTx) (s : stashes) : stashes :=
  mkStashes l (ReceivedAggTxStash s) (ReceivedStakeTxStash s) (ReceivedAccTxStash s) (ReceivedUpdateTxStash s).
Definition set_agg_stash (l : list AggTx) (s : stashes) : stashes :=
  mkStashes (ReceivedFundsTXStash s) l (ReceivedStakeTxStash s) (ReceivedAccTxStash s) (ReceivedUpdateTxStash s).
Definition set_stake_stash (l : list StakeTx) (s : stashes) : stashes :=
  mkStashes (ReceivedFundsTXStash s) (ReceivedAggTxStash s) l (ReceivedAccTxStash s) (ReceivedUpdateTxStash s).
Definition set_acc_stash (l : list AccTx) (s : stashes) : stashes :=
  mkStashes (ReceivedFundsTXStash s) (ReceivedAggTxStash s) (ReceivedStakeTxStash s) l (ReceivedUpdateTxStash s).
Definition set_update_stash (l : list UpdateTx) (s : stashes) : stashes :=
  mkStashes (ReceivedFundsTXStash s) (ReceivedAggTxStash s) (ReceivedStakeTxStash s) (ReceivedAccTxStash s) l.

Definition forwardTxReqToMiner (payload : bytes) (txType : Z) : M Host unit :=
  match decode_tx txType payload with
  | None => mret tt
  | Some (TFunds tx) => forward TFunds ReceivedFundsTXStash set_funds_stash tx
  | Some (TAcc tx) => forward TAcc ReceivedAccTxStash set_acc_stash tx
  | Some (TConfig tx) => emit (TxChan (TConfig tx))
  | Some (TStake tx) => forward TStake ReceivedStakeTxStash set_stake_stash tx
  | Some (TAgg tx) => forward TAgg ReceivedAggTxStash set_agg_stash tx
  | Some (TUpdate tx) => forward TUpdate ReceivedUpdateTxStash set_update_stash tx
  end.

Definition forwardBlockReqToMiner (payload : bytes) : M Host unit :=
  let b := ungob_Block payload in
  received ← on_miner ReadReceivedBlockStash;
  if BlockAlreadyInStash received (blk_Hash b) then mret tt
  else on_miner (WriteToReceivedStash b);; emit (BlockReqChan payload).

(** ** The dispatch (incoming.go) *)

Definition processIncomingMsg (p : nat) (typeID : Z) (payload : bytes) : M Host unit :=
  if bool_decide (typeID ∈ [FUNDSTX_BRDCST; ACCTX_BRDCST; UPDATETX_BRDCST; CONFIGTX_BRDCST; STAKETX_BRDCST; AGGTX_BRDCST])
  then processTxBrdcst p payload typeID
  else if typeID =? BLOCK_BRDCST then processBlockBrdcst payload
  else if typeID =? TIME_BRDCST then processTimeRes p payload
  else if bool_decide (typeID ∈ [FUNDSTX_REQ; ACCTX_REQ; CONFIGTX_REQ; STAKETX_REQ; AGGTX_REQ; UPDATETX_REQ; UNKNOWNTX_REQ])
  then txRes p payload typeID
  else if typeID =? SPECIALTX_REQ then specialTxRes p payload
  else if typeID =? NOT_FOUND_TX_REQ then
    a ← getIPPort p; if peerSelfConn Ipport a then mret tt else notFoundTxRes payload
  else if typeID =? BLOCK_REQ then blockRes p payload
  else if typeID =? BLOCK_HEADER_REQ then blockHeaderRes p payload
  else if typeID =? ACC_REQ then accRes p payload
  else if typeID =? ROOTACC_REQ then rootAccRes p payload
  else if (typeID =? MINER_PING) || (typeID =? CLIENT_PING) then pongRes p payload typeID
  else if typeID =? NEIGHBOR_REQ then neighborRes p
  else if typeID =? INTERMEDIATE_NODES_REQ then intermediateNodesRes p payload
  else if typeID =? NEIGHBOR_RES then
    a ← getIPPort p; if peerSelfConn Ipport a then mret tt else processNeighborRes payload
  else if typeID =? BLOCK_RES then forwardBlockReqToMiner payload
  else if bool_decide (typeID ∈ [FUNDSTX_RES; ACCTX_RES; CONFIGTX_RES; STAKETX_RES; AGGTX_RES; UPDATETX_RES])
  then forwardTxReqToMiner payload typeID
  else mret tt.

(** A new connection: its first message; an error closes it. *)
Definition handleNewConn (remote : bytes) (chunks : list bytes) : M Host unit :=
  p ← new_peer (newPeer remote [] 0);
  match RcvData chunks with
  | None => emit (Close p)
  | Some (header, payload, _) => processIncomingMsg p (TypeID header) payload
  end.

(** One turn of the loop of [peerConn]: the chunks that are left, or the end of
    the connection. *)
Definition receive (p : nat) (chunks : list bytes) : M Host (option (list bytes)) :=
  match RcvData chunks with
  | None => peerConn_end p;; mret None
  | Some (header, payload, rest) => processIncomingMsg p (TypeID header) payload;; mret (Some rest)
  end.
End serve.
