(* ===== verification/ServeLemmas.v ===== *)
(** * The handlers leave the connections alone; runs of a node *)

From S2P Require Import Prelude Format Chameleon Protocol Merkle Node Storage Params BlockPrep Wire Peers Serve PeerLemmas.

Section calm.
Context {DG : Digests} {GB : Gob} {BL : Bloom} {PO : PeerOrder} (Ipport Bootstrap_Server : bytes).
Context (P : nat -> Prop).

Lemma calm_find_any h : respects (calm P) (find_any h).
Proof. unfold find_any. calm. Qed.

Lemma calm_search_sender hs s : respects (calm P) (search_sender hs s).
Proof. induction hs; cbn [search_sender]; calm; auto. Qed.

Lemma calm_getIPPorts ps : respects (calm P) (getIPPorts ps).
Proof. induction ps; cbn [getIPPorts]; calm; auto. Qed.

Lemma calm_AlreadyInStash {T} (inj : T -> Transaction) l h : respects (calm P) (AlreadyInStash inj l h).
Proof. induction l; cbn [AlreadyInStash]; calm; auto. Qed.

Lemma calm_take_neighbors l : respects (calm P) (take_neighbors Ipport l).
Proof. induction l; cbn [take_neighbors]; calm; auto. Qed.

Lemma calm_forward {T} (inj : T -> Transaction) s set tx : respects (calm P) (forward inj s set tx).
Proof. unfold forward. calm; apply calm_AlreadyInStash. Qed.

Lemma calm_on_nodes {A} (m : M nodes A) : respects (calm P) (on_nodes m).
Proof.
  intros h a h' H. unfold on_nodes in H. destruct (m []) as [ [x ?]| |]; simplify_eq. reflexivity.
Qed.

Hint Resolve calm_find_any calm_search_sender calm_getIPPorts calm_take_neighbors calm_forward calm_on_nodes : calm.

Lemma calm_remember h : respects (calm P) (remember_not_found h).
Proof. unfold remember_not_found. calm. Qed.
Hint Resolve calm_remember : calm.

Lemma calm_requested_block b : respects (calm P) (requested_block b).
Proof. unfold requested_block. calm. Qed.
Hint Resolve calm_requested_block : calm.

(** A ping changes the peer that sends it. *)
Lemma calm_pongRes p b t : P p -> respects (calm P) (pongRes p b t).
Proof.
  intros Hp. unfold pongRes, peers_len. cbv zeta.
  repeat first [apply calm_update_peer; [by left|intros []; apply le_n] | calm_step].
Qed.

Lemma calm_handlers p t b : t <> MINER_PING /\ t <> CLIENT_PING \/ P p ->
  respects (calm P) (processIncomingMsg Ipport p t b).
Proof.
  intros Ht. unfold processIncomingMsg.
  case_bool_decide; [unfold processTxBrdcst; calm|].
  case_match; [unfold processBlockBrdcst; calm|].
  case_match; [unfold processTimeRes; calm|].
  case_bool_decide; [unfold txRes; calm|].
  case_match; [unfold specialTxRes; calm|].
  case_match; [unfold notFoundTxRes; calm|].
  case_match; [unfold blockRes; calm|].
  case_match; [unfold blockHeaderRes; calm|].
  case_match; [unfold accRes; calm|].
  case_match; [unfold rootAccRes; calm|].
  destruct ((t =? MINER_PING) || (t =? CLIENT_PING)) eqn:Ep.
  { apply calm_pongRes. destruct Ht as [ [? ?]|?]; [|done].
    apply orb_true_iff in Ep as [?%Z.eqb_eq|?%Z.eqb_eq]; done. }
  case_match; [unfold neighborRes, getAllPeers; calm|].
  case_match; [unfold intermediateNodesRes; calm|].
  case_match; [unfold processNeighborRes; calm|].
  case_match; [unfold forwardBlockReqToMiner; calm|].
  case_bool_decide; [unfold forwardTxReqToMiner; calm|]. calm.
Qed.

Lemma calm_send_all b : respects (calm P) (send_all b).
Proof. unfold send_all, getAllPeers. calm. Qed.
Hint Resolve calm_send_all : calm.

Lemma calm_neighborBrdcst : respects (calm P) neighborBrdcst.
Proof. unfold neighborBrdcst, getAllPeers. calm. Qed.

Lemma calm_initiate dial conn : respects (calm P) (initiateNewMinerConnection Ipport dial conn).
Proof. unfold initiateNewMinerConnection, peerExists. calm. Qed.
Hint Resolve calm_initiate : calm.

Lemma calm_try_address conn : respects (calm P) (try_address Ipport conn).
Proof. unfold try_address, NeighborReq, peerExists. calm. Qed.

Lemma calm_bootstrap conn : respects (calm P) (bootstrap Ipport Bootstrap_Server conn).
Proof. unfold bootstrap. calm. Qed.

Lemma calm_check_bootstrap conn : respects (calm P) (check_bootstrap Ipport Bootstrap_Server conn).
Proof. unfold check_bootstrap. calm. Qed.

Lemma calm_clientBroadcast b : respects (calm P) (clientBroadcast b).
Proof. unfold clientBroadcast. calm. Qed.

Lemma calm_peerBroadcast p : respects (calm P) (peerBroadcast p).
Proof. unfold peerBroadcast. calm. Qed.

Lemma calm_take_times ps : respects (calm P) (take_times ps).
Proof. induction ps; cbn [take_times]; calm; auto. Qed.
Hint Resolve calm_take_times : calm.

Lemma calm_writeSystemTime t t' : respects (calm P) (writeSystemTime t t').
Proof. unfold writeSystemTime, getMinerTimes. calm. Qed.
End calm.

(** ** What no message can break *)

(** Every peer of the maps is one of the store, no entry stores more than 41
    messages, and no channel holds more than it has room for. *)
Record peers_safe (n : Net) : Prop := {
  ps_miners p : p ∈ minerConns n -> is_Some (store n !! p);
  ps_clients p : p ∈ clientConns n -> is_Some (store n !! p);
  ps_entries k d : sendingMap n !! k = Some d -> is_Some (store n !! d_peer d);
  ps_delayed k d : sendingMap n !! k = Some d -> (length (delayedMessages d) <= 41)%nat;
  ps_channels : channels (store n)
}.

(** No peer leaves the store. *)
Definition kept_safe (h h' : Host) : Prop :=
  (forall p, is_Some (store (net h) !! p) -> is_Some (store (net h') !! p)) /\
  (peers_safe (net h) -> peers_safe (net h')).

#[global] Instance kept_safe_preorder : PreOrder kept_safe.
Proof. split; [by intros h|]. intros h1 h2 h3 [A1 A2] [B1 B2]. split; auto. Qed.

Lemma calm_safe P h h' : calm P h h' -> kept_safe h h'.
Proof.
  intros (A1&A2&A3&A4&A5).
  assert (Hs : forall p, is_Some (store (net h) !! p) -> is_Some (store (net h') !! p)).
  { intros p [q (q'&?&_)%A1]. eauto. }
  split; [done|]. intros [S1 S2 S3 S4 S5]. split; rewrite ?A2, ?A3, ?A4; eauto.
Qed.

Lemma respects_safe {A} (m : M Host A) : respects (calm (fun _ => True)) m -> respects kept_safe m.
Proof. intros Hm h a h' E. by eapply calm_safe, Hm. Qed.

Lemma kept_entry h k d : is_Some (store (net h) !! d_peer d) ->
  (peers_safe (net h) -> (length (delayedMessages d) <= 41)%nat) ->
  kept_safe h (with_net (upd_sendingMap (insert k d)) h).
Proof.
  intros Hp Hl. split; [done|]. intros Hs. pose proof Hs as [S1 S2 S3 S4 S5]. split; cbn; [done|done| | |done];
    intros k' d'; (destruct (decide (k' = k)) as [->|]; [rewrite lookup_insert_eq|rewrite lookup_insert_ne by done; eauto]);
    intros [= <-]; auto.
Qed.

Lemma the_peer_inv p h q h' : the_peer p h = Done (q, h') -> h' = h /\ store (net h) !! p = Some q.
Proof.
  unfold the_peer, net_gets, gets, mbind, M_bind. destruct (store (net h) !! p); [|done]. by intros [= <- <-].
Qed.

Lemma getIPPort_inv p h a h' : getIPPort p h = Done (a, h') -> h' = h /\ is_Some (store (net h) !! p).
Proof. unfold getIPPort. intros (q&h1&[-> Hq]%the_peer_inv&E)%bind_inv. injection E as _ <-. eauto. Qed.

Lemma net_gets_inv {A} (f : Net -> A) h a h' : net_gets f h = Done (a, h') -> a = f (net h) /\ h' = h.
Proof. by intros [= <- <-]. Qed.

Lemma host_option_inv {A} (o : option A) (h h' : Host) a : of_option o h = Done (a, h') -> o = Some a /\ h' = h.
Proof. destruct o; [|done]. by intros [= <- <-]. Qed.

Lemma for_each_safe {A} (l : list A) f : (forall x, respects kept_safe (f x)) -> respects kept_safe (for_each l f).
Proof.
  intros Hf. induction l; cbn [for_each]; [apply respects_ret, _|].
  apply respects_bind; [apply _|apply Hf|by intros []].
Qed.

Section safe.
Context {PO : PeerOrder}.

Lemma connection_in_safe keys p : respects kept_safe (connection_in keys p).
Proof.
  induction keys as [|k keys IH]; intros h r h'; cbn [connection_in]; [by intros [= <- <-]|].
  intros (o&h1&[-> ->]%net_gets_inv&E)%bind_inv. apply bind_inv in E as (c&h1&[Hc ->]%host_option_inv&E).
  apply bind_inv in E as (a&h1&[-> _]%getIPPort_inv&E). apply bind_inv in E as (b&h1&[-> Hp]%getIPPort_inv&E).
  case_bool_decide; [|by eapply IH]. case_bool_decide; [by revert E; intros [= _ <-]|].
  injection E as _ <-. apply kept_entry; [done|]. intros Hs. exact (ps_delayed _ Hs k c Hc).
Qed.

Lemma isConnection_safe p : respects kept_safe (isConnectionAlreadyInSendingMap p).
Proof. apply respects_bind; [apply _|apply respects_safe, calm_net_gets|]. intros keys. apply connection_in_safe. Qed.

Lemma enter_sending_safe p : respects kept_safe (enter_sending p).
Proof.
  apply respects_bind; [apply _|apply isConnection_safe|]. intros [b1 b2]. case_match; [|apply respects_ret, _].
  intros h [] h' (a&h1&[-> Hp]%getIPPort_inv&E)%bind_inv. injection E as <-.
  apply kept_entry; [done|]. cbn. lia.
Qed.

Lemma kept_conns f g h : (forall n, store (f n) = store n /\ sendingMap (f n) = sendingMap n) ->
  (forall p, p ∈ minerConns (f (net h)) -> p ∈ minerConns (net h) \/ is_Some (store (net h) !! p)) ->
  (forall p, p ∈ clientConns (f (net h)) -> p ∈ clientConns (net h) \/ is_Some (store (net h) !! p)) ->
  g = with_net f h -> kept_safe h g.
Proof.
  intros Hf Hm Hc ->. destruct (Hf (net h)) as [E1 E2]. split; cbn; [by rewrite E1|].
  intros [S1 S2 S3 S4 S5]. split; rewrite ?E1, ?E2; try done; intros p Hp.
  - by destruct (Hm p Hp); [apply S1|].
  - by destruct (Hc p Hp); [apply S2|].
Qed.

Lemma delete_same_safe p q : respects kept_safe (delete_same_address p q).
Proof.
  intros h [] h' (a&h1&[-> _]%getIPPort_inv&E)%bind_inv. apply bind_inv in E as (b&h1&[-> _]%getIPPort_inv&E).
  case_bool_decide; injection E as <-; [|done]. eapply (kept_conns (upd_minerConns _)); [done| |intros; by left|reflexivity].
  intros x [? _]%elem_of_difference. by left.
Qed.

(** A registered peer is one of the store. *)
Lemma peers_add_safe p : respects kept_safe (peers_add p).
Proof.
  intros h [] h' (q&h1&[-> Hq]%the_peer_inv&E)%bind_inv.
  apply bind_inv in E as ([]&h1&E1&E). apply bind_inv in E as ([]&h2&E2&E).
  assert (H1 : kept_safe h h1).
  { clear E2. destruct (peerType q =? PEERTYPE_MINER); [|injection E1 as <-; reflexivity].
    revert E1. intros (s&h0&[-> ->]%net_gets_inv&E1)%bind_inv.
    apply bind_inv in E1 as ([]&h0&E0&E1). assert (H0 : kept_safe h h0) by (eapply for_each_safe, E0; apply delete_same_safe).
    injection E1 as <-. etrans; [exact H0|]. eapply (kept_conns (upd_minerConns _)); [done| |intros; by left|reflexivity].
    intros x [->%elem_of_singleton|?]%elem_of_union; [|by left]. right. apply (proj1 H0). by exists q. }
  assert (H2 : kept_safe h1 h2).
  { clear E1. destruct (peerType q =? PEERTYPE_CLIENT); injection E2 as <-; [|reflexivity].
    eapply (kept_conns (upd_clientConns _)); [done|intros; by left| |reflexivity].
    intros x [->%elem_of_singleton|?]%elem_of_union; [|by left]. right. apply (proj1 H1). by exists q. }
  etrans; [exact H1|]. etrans; [exact H2|]. revert E. apply respects_bind; [apply _|apply respects_safe, calm_net_gets|].
  intros s. apply for_each_safe, enter_sending_safe.
Qed.

Lemma peers_delete_safe p : respects kept_safe (peers_delete p).
Proof.
  apply respects_bind; [apply _|apply respects_safe, calm_the_peer|]. intros q.
  apply respects_bind; [apply _| |intros []]; (case_match; [|apply respects_ret, _]); intros h [] h' E; injection E as <-.
  - eapply (kept_conns (upd_minerConns _)); [done| |intros; by left|reflexivity]. intros x [? _]%elem_of_difference. by left.
  - eapply (kept_conns (upd_clientConns _)); [done|intros; by left| |reflexivity]. intros x [? _]%elem_of_difference. by left.
Qed.

Lemma calm_send_delayed P r msgs stored : respects (calm P) (send_delayed r msgs stored).
Proof. revert stored. induction msgs; intros stored; cbn [send_delayed]; calm; auto. Qed.

Lemma send_delayed_length r msgs stored h stored' h' : send_delayed r msgs stored h = Done (stored', h') ->
  (length stored' <= length stored)%nat.
Proof.
  revert stored h. induction msgs as [|msg msgs IH]; intros stored h; cbn [send_delayed]; [by intros [= <- _]|].
  intros (q&h1&_&E)%bind_inv. case_match; [by eapply IH|]. apply bind_inv in E as ([]&h2&_&E).
  apply IH in E. rewrite length_drop in E. lia.
Qed.

Lemma send_entry_safe msg k : respects kept_safe (send_entry msg k).
Proof.
  intros h [] h' (o&h1&[-> ->]%net_gets_inv&E)%bind_inv. apply bind_inv in E as (d&h1&[Hd ->]%host_option_inv&E).
  apply bind_inv in E as (a&h1&[-> Hp]%getIPPort_inv&E). apply bind_inv in E as (known&h1&E1&E).
  assert (H1 : kept_safe h h1) by (eapply respects_safe, E1; apply calm_contains).
  destruct known.
  - apply bind_inv in E as ([r needsUpdate]&h2&E2%isConnection_safe&E).
    apply bind_inv in E as (e&h3&[-> ->]%net_gets_inv&E). apply bind_inv in E as (e&h3&[_ ->]%host_option_inv&E).
    apply bind_inv in E as ([]&h3&E3&E). apply bind_inv in E as (stored&h4&E4&E).
    pose proof (send_delayed_length _ _ _ _ _ _ E4) as Hl.
    assert (H4 : kept_safe h h4).
    { etrans; [exact H1|]. etrans; [exact E2|]. etrans; [eapply respects_safe, E3; apply calm_push_ch|].
      eapply respects_safe, E4. apply calm_send_delayed. }
    clear E3 E4. destruct (needsUpdate && _); injection E as <-; [done|]. split; [by apply (proj1 H4)|]. intros Hs.
    apply kept_entry; [by apply (proj1 H4)| |by apply (proj2 H4)]. intros _. cbn. pose proof (ps_delayed _ Hs k d Hd). lia.
  - injection E as <-. split; [by apply (proj1 H1)|]. intros Hs.
    apply kept_entry; [by apply (proj1 H1)| |by apply (proj2 H1)]. intros _. cbn [delayedMessages]. pose proof (ps_delayed _ Hs k d Hd).
    destruct (Nat.ltb_spec 40 (length (delayedMessages d))); rewrite length_app, ?length_drop; cbn; lia.
Qed.
End safe.

(** ** Runs

    A step is a function of the package run to its end: a new connection with
    its first message, a message of a peer, a registration, the end of a
    connection, a broadcast, which may also come entry by entry with other steps
    in between, the writer of a peer, the clock, the health service, a request
    or any change of the miner. [again] says whether a peer that is or was
    registered pings again. *)

Definition is_ping (t : Z) : bool := (t =? MINER_PING) || (t =? CLIENT_PING).

Section runs.
Context {DG : Digests} {GB : Gob} {BL : Bloom} {PO : PeerOrder} (Ipport Bootstrap_Server : bytes) (again : bool).

Inductive step : Host -> Host -> Prop :=
  | step_new remote chunks h h' : handleNewConn Ipport remote chunks h = Done (tt, h') -> step h h'
  | step_message p t payload h h' : again = true \/ is_ping t = false \/ ~ connected (net h) p ->
      processIncomingMsg Ipport p t payload h = Done (tt, h') -> step h h'
  | step_register p h h' : peerConn p h = Done (tt, h') -> step h h'
  | step_end p h h' : peerConn_end p h = Done (tt, h') -> step h h'
  | step_broadcast msg h h' : sendAndSearchMessages msg h = Done (tt, h') -> step h h'
  | step_entry msg k h h' : send_entry msg k h = Done (tt, h') -> step h h'
  | step_clients msg h h' : clientBroadcast msg h = Done (tt, h') -> step h h'
  | step_write p h h' : peerBroadcast p h = Done (tt, h') -> step h h'
  | step_time now now' h h' : writeSystemTime now now' h = Done (tt, h') -> step h h'
  | step_health conn h h' : try_address Ipport conn h = Done (tt, h') -> step h h'
  | step_bootstrap conn h h' : bootstrap Ipport Bootstrap_Server conn h = Done (tt, h') -> step h h'
  | step_server conn h h' : check_bootstrap Ipport Bootstrap_Server conn h = Done (tt, h') -> step h h'
  | step_empty h h' : EmptyingiplistChan h = Done (tt, h') -> step h h'
  | step_request packet h h' : send_all packet h = Done (tt, h') -> step h h'
  | step_miner m h : step h (mkHost m (net h)).

Context {PL : PeerOrderLaws}.

Lemma calm_none_ok h h' : calm (fun _ => False) h h' -> peers_ok (net h) -> peers_ok (net h').
Proof. intros H. apply (calm_ok _ _ _ H). by intros p []. Qed.

Lemma handleNewConn_ok remote chunks h h' : handleNewConn Ipport remote chunks h = Done (tt, h') ->
  peers_ok (net h) -> peers_ok (net h').
Proof.
  unfold handleNewConn. intros (p&h1&E1&E2)%bind_inv Hok.
  apply (new_peer_calm (fun x => x = p)) in E1 as [Hn Hc]; [|apply Nat.le_0_l].
  apply (calm_ok (fun x => x = p) h); [|intros x ->|done].
  - etrans; [exact Hc|]. case_match; [|by eapply calm_emit].
    case_match. case_match. eapply calm_handlers; [by right|exact E2].
  - destruct Hok as [H1 H2 _ H4 _ _].
    intros [Hm|[Hm|(k&d&Hd&Ed)] ]; [by destruct (H1 p Hm) as (q&?&_); congruence|by destruct (H2 p Hm) as (q&?&_); congruence|].
    apply H4 in Hd. unfold addr in Hd. by rewrite Ed, Hn in Hd.
Qed.

Lemma peers_add_ok p h h' : peers_add p h = Done (tt, h') -> peers_ok (net h) -> peers_ok (net h').
Proof.
  intros E Hok. destruct h as [m n]. pose proof E as (q&h1&Eq&_)%bind_inv.
  unfold the_peer, net_gets, gets, mbind, M_bind in Eq. cbn in Eq.
  destruct (store n !! p) as [q'|] eqn:Hq; [|done].
  destruct (peers_add_spec q' _ p m n Hok Hq eq_refl) as (s'&E'&Hok'&_). rewrite E in E'. by injection E' as ->.
Qed.

Lemma peers_delete_ok p h h' : peers_delete p h = Done (tt, h') -> peers_ok (net h) -> peers_ok (net h').
Proof.
  intros E Hok. destruct h as [m n]. pose proof E as (q&h1&Eq&_)%bind_inv.
  unfold the_peer, net_gets, gets, mbind, M_bind in Eq. cbn in Eq.
  destruct (store n !! p) as [q'|] eqn:Hq; [|done].
  destruct (peers_delete_spec q' p m n Hok Hq) as (n'&E'&Hok'&_). rewrite E in E'. by injection E' as ->.
Qed.

Lemma peerConn_ok p h h' : peerConn p h = Done (tt, h') -> peers_ok (net h) -> peers_ok (net h').
Proof.
  unfold peerConn. intros (q&h1&E1&([]&h2&E2&([]&h3&E3&E4)%bind_inv)%bind_inv)%bind_inv Hok.
  apply (peers_add_ok _ _ _ E4), (calm_none_ok h2).
  { eapply calm_update_peer; [| |exact E3]; [right; by intros []|intros []; apply Nat.le_0_l]. }
  apply (calm_none_ok h1); [|apply (calm_none_ok h); [|done] ].
  - revert E2. case_match; intros E2; [by eapply calm_neighborBrdcst|by eapply calm_ret].
  - by eapply calm_the_peer.
Qed.

Lemma peerConn_end_ok p h h' : peerConn_end p h = Done (tt, h') -> peers_ok (net h) -> peers_ok (net h').
Proof.
  unfold peerConn_end. intros (q&h1&E1&E2)%bind_inv Hok.
  assert (Hok1 : peers_ok (net h1)) by (apply (calm_none_ok h); [by eapply calm_the_peer|done]). clear E1 Hok.
  case_match.
  - apply bind_inv in E2 as ([]&h2&E2&E3). apply (calm_none_ok h2); [|by apply (peers_delete_ok _ _ _ E2)].
    lazymatch type of E3 with ?m h2 = _ => assert (respects (calm (fun _ => False)) m) as Hr by calm end.
    by eapply Hr.
  - case_match; [by apply (peers_delete_ok _ _ _ E2)|]. by injection E2 as <-.
Qed.

Lemma sendAndSearchMessages_cases msg m n : peers_ok n ->
  (sendAndSearchMessages msg (mkHost m n) = Timeout /\
   exists k d q, sendingMap n !! k = Some d /\ store n !! d_peer d = Some q /\ entry_full n d q) \/
  exists n', sendAndSearchMessages msg (mkHost m n) = Done (tt, mkHost m n') /\ peers_ok n' /\
    minerConns n' = minerConns n /\ clientConns n' = clientConns n /\
    forall k d q, sendingMap n !! k = Some d -> store n !! d_peer d = Some q ->
      ~ entry_full n d q /\ sendingMap n' !! k = Some (mkDelayed (d_peer d) (delayed_after n msg d q)) /\
      store n' !! d_peer d = Some (peer_after n msg d q).
Proof.
  intros Hok. unfold sendAndSearchMessages. rewrite net_gets_bind. cbn [net].
  destruct (send_entries msg (range_addresses (dom (sendingMap n))) m n)
    as [ (E&k&d&q&_&H)|(n'&E&Hok'&Em&Ec&H)]; [done| | | |].
  - rewrite range_addresses_perm. apply NoDup_elements.
  - intros k. by rewrite elem_of_range_addresses, elem_of_dom.
  - left. eauto 6.
  - right. exists n'. split; [done|]. split; [done|]. split; [done|]. split; [done|]. intros k d q Hd Hq.
    specialize (H k d q Hd Hq). rewrite decide_True in H; [done|]. apply elem_of_range_addresses, elem_of_dom. eauto.
Qed.

Lemma send_entry_ok msg k h h' : send_entry msg k h = Done (tt, h') -> peers_ok (net h) -> peers_ok (net h').
Proof.
  intros E Hok. pose proof E as (o&h1&[-> ->]%net_gets_inv&E1)%bind_inv.
  apply bind_inv in E1 as (d&h1&[Hd _]%host_option_inv&_). pose proof (po_keys _ Hok k d Hd) as Ha.
  unfold addr in Ha. apply fmap_Some in Ha as (q&Hq&_). destruct h as [m n].
  rewrite (send_entry_spec msg k d q) in E by done. destruct (decide _); [done|]. injection E as <-.
  by apply peers_ok_entry.
Qed.

Lemma step_ok h h' : step h h' -> again = false -> peers_ok (net h) -> peers_ok (net h').
Proof.
  intros [remote chunks h1 h2 E|p t b h1 h2 Ht E|p h1 h2 E|p h1 h2 E|msg h1 h2 E|msg k h1 h2 E|msg h1 h2 E|p h1 h2 E|
    now now' h1 h2 E|conn h1 h2 E|conn h1 h2 E|conn h1 h2 E|h1 h2 E|packet h1 h2 E|m h1] Hagain.
  - by eapply handleNewConn_ok.
  - destruct Ht as [?|[Ht|Hn] ]; [congruence| |].
    + apply calm_none_ok. eapply calm_handlers; [left|exact E]. by apply orb_false_iff in Ht as [?%Z.eqb_neq ?%Z.eqb_neq].
    + apply (calm_ok (fun x => x = p)); [|by intros x ->]. eapply calm_handlers; [by right|exact E].
  - by eapply peerConn_ok.
  - by eapply peerConn_end_ok.
  - destruct h1 as [m n]. intros Hok. destruct (sendAndSearchMessages_cases msg m n Hok) as [ [E' _]|(n'&E'&Hok'&_)].
    + by rewrite E in E'.
    + rewrite E in E'. by injection E' as ->.
  - by eapply send_entry_ok.
  - apply calm_none_ok. by eapply calm_clientBroadcast.
  - apply calm_none_ok. by eapply calm_peerBroadcast.
  - apply calm_none_ok. by eapply calm_writeSystemTime.
  - apply calm_none_ok. by eapply calm_try_address.
  - apply calm_none_ok. by eapply calm_bootstrap.
  - apply calm_none_ok. by eapply calm_check_bootstrap.
  - apply calm_none_ok. unfold EmptyingiplistChan in E. eapply calm_on_net; [|exact E]. by intros [].
  - apply calm_none_ok. by eapply calm_send_all.
  - done.
Qed.

Lemma handleNewConn_calm P remote chunks : (forall p, P p) -> respects (calm P) (handleNewConn Ipport remote chunks).
Proof.
  intros HP. unfold handleNewConn. apply calm_bind; [apply calm_new_peer|intros p]. case_match; [|apply calm_emit].
  case_match. case_match. apply calm_handlers. auto.
Qed.

Lemma peerConn_safe p : respects kept_safe (peerConn p).
Proof.
  unfold peerConn. apply respects_bind; [apply _|apply respects_safe, calm_the_peer|]. intros q.
  apply respects_bind; [apply _|apply respects_safe; case_match; [apply calm_neighborBrdcst|apply calm_ret]|]. intros [].
  apply respects_bind; [apply _|apply respects_safe; calm|]. intros []. apply peers_add_safe.
Qed.

Lemma peerConn_end_safe p : respects kept_safe (peerConn_end p).
Proof.
  unfold peerConn_end. apply respects_bind; [apply _|apply respects_safe, calm_the_peer|]. intros q.
  case_match; [|case_match; [apply peers_delete_safe|apply respects_ret, _] ].
  apply respects_bind; [apply _|apply peers_delete_safe|]. intros []. apply respects_safe. calm.
Qed.

Lemma step_safe_peers h h' : step h h' -> kept_safe h h'.
Proof.
  intros [remote chunks h1 h2 E|p t b h1 h2 _ E|p h1 h2 E|p h1 h2 E|msg h1 h2 E|msg k h1 h2 E|msg h1 h2 E|p h1 h2 E|
    now now' h1 h2 E|conn h1 h2 E|conn h1 h2 E|conn h1 h2 E|h1 h2 E|packet h1 h2 E|m h1].
  - eapply respects_safe, E. by apply handleNewConn_calm.
  - eapply respects_safe, E. apply calm_handlers. by right.
  - by eapply peerConn_safe.
  - by eapply peerConn_end_safe.
  - revert E. apply respects_bind; [apply _|apply respects_safe, calm_net_gets|].
    intros keys. apply for_each_safe, send_entry_safe.
  - by eapply send_entry_safe.
  - eapply respects_safe, E. apply calm_clientBroadcast.
  - eapply respects_safe, E. apply calm_peerBroadcast.
  - eapply respects_safe, E. apply calm_writeSystemTime.
  - eapply respects_safe, E. apply calm_try_address.
  - eapply respects_safe, E. apply calm_bootstrap.
  - eapply respects_safe, E. apply calm_check_bootstrap.
  - eapply respects_safe, E. apply calm_on_net. by intros [].
  - eapply respects_safe, E. apply calm_send_all.
  - by split; [|intros []; split].
Qed.

(** [Init]: no peer, nothing stored. *)
Definition Init_net : Net := mkNet ∅ ∅ ∅ ∅ 0 [] [] zero_hash (mkStashes [] [] [] [] []) [].

Lemma Init_ok : peers_ok Init_net.
Proof.
  split; cbn; try (intros x; rewrite elem_of_empty; done); try done.
Qed.

Lemma Init_safe : peers_safe Init_net.
Proof. split; cbn; try (intros x; rewrite elem_of_empty; done); done. Qed.
End runs.
