(* ===== verification/NetProps.v ===== *)
(** * What holds of the network side of a node

    The connections, the delivery of broadcasts, requests and their answers,
    and the messages with which any peer stops a node. *)

From S2P Require Import Prelude Format Chameleon Protocol Merkle Node Storage Params BlockPrep LedgerProps.
From S2P Require Import Wire WireLemmas Peers Serve PeerLemmas ServeLemmas.

Section props.
Context {DG : Digests} {GB : Gob} {BL : Bloom} {PO : PeerOrder} {PL : PeerOrderLaws}.
Context (Ipport Bootstrap_Server : bytes).

(** What is sent, stored and dropped. *)
Lemma entry_after n msg d q :
  if decide (d_peer d ∈ minerConns n)
  then exists sent, delayedMessages d = sent ++ delayed_after n msg d q /\
    ch (peer_after n msg d q) = ch q ++ msg :: sent /\
    (delayed_after n msg d q <> [] -> (100 <= length (ch (peer_after n msg d q)))%nat)
  else ch (peer_after n msg d q) = ch q /\ exists dropped, dropped ++ delayed_after n msg d q = delayedMessages d ++ [msg] /\
    (length dropped <= 1)%nat /\ (dropped <> [] -> (40 < length (delayedMessages d))%nat).
Proof.
  unfold peer_after, delayed_after. case_decide.
  - exists (take (99 - length (ch q)) (delayedMessages d)). split; [by rewrite take_drop|]. cbn [ch set_ch].
    split; [done|]. intros Hne. rewrite length_app. cbn [length]. rewrite length_take.
    destruct (Nat.le_gt_cases (length (delayedMessages d)) (99 - length (ch q))); [|lia].
    exfalso. apply Hne. by apply drop_ge.
  - split; [done|]. destruct (Nat.ltb_spec 40 (length (delayedMessages d))) as [Hl|Hl].
    + exists (take 1 (delayedMessages d)). rewrite app_assoc, take_drop, length_take. split; [done|]. split; [lia|done].
    + exists []. cbn. split; [done|]. split; [lia|done].
Qed.

(** C14: In every run of a node, whatever its peers send and however often they
    ping: the registered peers and those of the sending map exist, no entry
    stores more than 41 messages and no channel holds more than 100. In the
    runs in which no peer that is or was registered pings again, moreover,
    registered peers are what they are registered as, no two miners have the
    same address, and each registered miner has the entry of the sending map at
    its address. *)
Theorem connections_invariant again h0 h :
  net h0 = Init_net -> rtc (step Ipport Bootstrap_Server again) h0 h ->
  peers_safe (net h) /\ (again = false -> peers_ok (net h)).
Proof using PL.
  intros H0 Hr.
  assert (Hok : peers_safe (net h0) /\ (again = false -> peers_ok (net h0))).
  { rewrite H0. split; [apply Init_safe|intros _; apply Init_ok]. }
  clear H0. induction Hr as [|h1 h2 h3 Hs _ IH]; [done|]. destruct Hok as [H1 H2]. apply IH. split.
  - by apply (proj2 (step_safe_peers _ _ _ _ _ Hs)).
  - intros E. apply (step_ok _ _ _ _ _ Hs E); auto.
Qed.

(** C30: When the channel of every connected miner has room, a broadcast ends, and
    for every address that was ever connected the message is either put on the
    channel of its connection, followed by the messages stored for it, oldest
    first, as far as the channel has room, or it is stored last, the oldest
    message being dropped when there are more than forty: nothing else is lost,
    nothing is sent twice. When the channel of a connected miner is full, it
    waits. *)
Theorem broadcast_spec msg m n : peers_ok n ->
  ((forall p q, p ∈ minerConns n -> store n !! p = Some q -> (length (ch q) < 100)%nat) ->
   exists n', sendAndSearchMessages msg (mkHost m n) = Done (tt, mkHost m n') /\ peers_ok n' /\
    forall k d, sendingMap n !! k = Some d -> exists q q' d',
      store n !! d_peer d = Some q /\ store n' !! d_peer d = Some q' /\
      sendingMap n' !! k = Some d' /\ d_peer d' = d_peer d /\
      if decide (d_peer d ∈ minerConns n)
      then exists sent, delayedMessages d = sent ++ delayedMessages d' /\ ch q' = ch q ++ msg :: sent /\
        (delayedMessages d' <> [] -> (100 <= length (ch q'))%nat)
      else ch q' = ch q /\ exists dropped, dropped ++ delayedMessages d' = delayedMessages d ++ [msg] /\
        (length dropped <= 1)%nat /\ (dropped <> [] -> (40 < length (delayedMessages d))%nat)) /\
  (forall p q, p ∈ minerConns n -> store n !! p = Some q -> (100 <= length (ch q))%nat ->
     sendAndSearchMessages msg (mkHost m n) = Timeout).
Proof using PL.
  intros Hok. destruct (sendAndSearchMessages_cases msg m n Hok) as [ (E&k&d&q&Hd&Hq&Hp&Hl)|(n'&E&Hok'&_&_&H)]; split.
  - intros Hroom. specialize (Hroom _ _ Hp Hq). unfold channel_size in Hl. lia.
  - done.
  - intros _. exists n'. split; [done|]. split; [done|]. intros k d Hd.
    pose proof (po_keys n Hok k d Hd) as Ha. unfold addr in Ha. apply fmap_Some in Ha as (q&Hq&_).
    destruct (H k d q Hd Hq) as [_ [H1 H2] ]. exists q, (peer_after n msg d q), (mkDelayed (d_peer d) (delayed_after n msg d q)).
    do 4 (split; [done|]). apply entry_after.
  - intros p q Hp Hq Hl. destruct (miner_addr n p Hok Hp) as [a Ha]. destruct (po_entry n Hok p a Hp Ha) as (d&Hd&<-).
    destruct (H a d q Hd Hq) as [Hnf _]. by destruct Hnf.
Qed.

(** Registering a miner always ends; it takes the place of the miner with
    its address, and what is stored for the address is kept for it, so that the
    next broadcast delivers it to the new connection. *)
Theorem registration_spec p q m n : peers_ok n -> store n !! p = Some q -> peerType q = PEERTYPE_MINER ->
  exists n', peers_add p (mkHost m n) = Done (tt, mkHost m n') /\ peers_ok n' /\
    (forall x, x ∈ minerConns n' <-> x = p \/ x ∈ minerConns n /\ addr n x <> Some (getIPPort_of q)) /\
    (forall k d, sendingMap n !! k = Some d -> exists d', sendingMap n' !! k = Some d' /\
       delayedMessages d' = delayedMessages d /\ (k = getIPPort_of q -> d_peer d' = p)).
Proof using PL.
  intros Hok Hq Ht. destruct (peers_add_spec q _ p m n Hok Hq eq_refl) as (s'&E&Hok'&K2&K3).
  eexists. split; [exact E|]. split; [exact Hok'|].
  assert (Em : minerConns (registered_peer q (getIPPort_of q) p n) = miners_with n p (getIPPort_of q)).
  { unfold registered_peer. by rewrite Ht, Z.eqb_refl. }
  split.
  - intros x. cbn. rewrite Em. unfold miners_with. rewrite elem_of_union, elem_of_singleton, elem_of_filter. naive_solver.
  - intros k d Hd. destruct (K3 k) as [d' Hd']; [eauto|]. exists d'. split; [done|].
    split; [rewrite (K2 k d' Hd'), Hd; done|]. intros ->.
    destruct (po_entry _ Hok' p (getIPPort_of q)) as (d2&Hd2&<-).
    + cbn. rewrite Em. unfold miners_with. rewrite elem_of_union, elem_of_singleton. by left.
    + unfold addr. cbn. destruct (registered_same q (getIPPort_of q) p n) as [-> _]. by rewrite Hq.
    + cbn in Hd2. congruence.
Qed.

(** ** Requests *)

Definition req_of (tx : Transaction) : Z :=
  match tx with TFunds _ => FUNDSTX_REQ | TAcc _ => ACCTX_REQ | TConfig _ => CONFIGTX_REQ | TStake _ => STAKETX_REQ
  | TAgg _ => AGGTX_REQ | TUpdate _ => UPDATETX_REQ end.
Definition res_of (tx : Transaction) : Z :=
  match tx with TFunds _ => FUNDSTX_RES | TAcc _ => ACCTX_RES | TConfig _ => CONFIGTX_RES | TStake _ => STAKETX_RES
  | TAgg _ => AGGTX_RES | TUpdate _ => UPDATETX_RES end.

Definition emitted (es : list event) (h : Host) : Host := with_net (upd_events (fun l => l ++ es)) h.

Lemma find_any_host x h :
  find_any x h = Done (match txINVALIDMemPool (pool (miner h)) !! x with
                       | Some tx => Some tx
                       | None => match closed_tx (db (miner h)) x with
                                 | Some tx => Some tx
                                 | None => txMemPool (pool (miner h)) !! x
                                 end
                       end, h).
Proof. by destruct h. Qed.

Definition stored_tx (m : Miner) (x : hash) : option Transaction :=
  match txINVALIDMemPool (pool m) !! x with
  | Some tx => Some tx
  | None => match closed_tx (db m) x with Some tx => Some tx | None => txMemPool (pool m) !! x end
  end.

Lemma sendData_Done p b h : (4 < length b)%nat -> sendData p b h = Done (tt, emitted [Write p b] h).
Proof. intros H. unfold sendData. by rewrite (proj2 (Nat.ltb_lt _ _)). Qed.

Lemma receive_packet p t payload rest h : registered t = true -> Z.of_nat (length payload) <= 800000 ->
  receive Ipport p (BuildPacket t payload :: rest) h =
  (processIncomingMsg Ipport p t payload;; mret (Some rest)) h.
Proof.
  intros Ht Hl. unfold receive.
  pose proof (RcvData_chunks [] (BuildPacket t payload) rest t payload []) as E. cbn [app] in E.
  rewrite E; [done..| |].
  - by rewrite app_nil_r.
  - rewrite length_BuildPacket. cbn. lia.
Qed.

(** The transaction of the answer, as it is decoded. *)
Definition forwarded (tx : Transaction) : M Host unit :=
  match tx with
  | TFunds tx => forward TFunds ReceivedFundsTXStash set_funds_stash tx
  | TAcc tx => forward TAcc ReceivedAccTxStash set_acc_stash tx
  | TConfig tx => emit (TxChan (TConfig tx))
  | TStake tx => forward TStake ReceivedStakeTxStash set_stake_stash tx
  | TAgg tx => forward TAgg ReceivedAggTxStash set_agg_stash tx
  | TUpdate tx => forward TUpdate ReceivedUpdateTxStash set_update_stash tx
  end.

(** The answer to a request for a stored transaction. *)
Lemma request_answered x tx hB p : length x = 32%nat -> stored_tx (miner hB) x = Some tx ->
  receive Ipport p [BuildPacket (req_of tx) x] hB =
  Done (Some [], emitted [Write p (BuildPacket (res_of tx) (Transaction_Encode tx))] hB).
Proof.
  intros Hx Htx.
  assert (E : processIncomingMsg Ipport p (req_of tx) x = txRes p x (req_of tx)) by (by destruct tx).
  rewrite receive_packet by first [lia | by destruct tx]. rewrite E. unfold txRes. rewrite Hx. cbn [Nat.eqb negb].
  rewrite (take_ge x) by lia.
  erewrite bind_Done; [reflexivity|]. erewrite bind_Done; [|apply find_any_host].
  unfold stored_tx in Htx. rewrite Htx.
  replace (tx_packet (req_of tx) tx) with (BuildPacket (res_of tx) (Transaction_Encode tx)) by (by destruct tx).
  apply sendData_Done. rewrite length_BuildPacket. lia.
Qed.

(** A transaction that another node stores, in any of its pools, can be
    requested: receiving the request it writes one packet and changes nothing
    else, and receiving that packet gives the miner the transaction that decoding
    gives back, through the stash of its type. *)
Theorem request_roundtrip x tx tx' hB p hA q : length x = 32%nat -> stored_tx (miner hB) x = Some tx ->
  Z.of_nat (length (Transaction_Encode tx)) <= 800000 ->
  decode_tx (res_of tx) (Transaction_Encode tx) = Some tx' ->
  exists answer,
    receive Ipport p [BuildPacket (req_of tx) x] hB = Done (Some [], emitted [Write p answer] hB) /\
    receive Ipport q [answer] hA = (forwarded tx';; mret (Some [])) hA.
Proof.
  intros Hx Htx Hl Hd. exists (BuildPacket (res_of tx) (Transaction_Encode tx)). split.
  - by apply request_answered.
  - assert (E : processIncomingMsg Ipport q (res_of tx) (Transaction_Encode tx) =
      forwardTxReqToMiner (Transaction_Encode tx) (res_of tx)) by (by destruct tx).
    rewrite receive_packet by first [lia | by destruct tx]. rewrite E. unfold forwardTxReqToMiner. rewrite Hd. by destruct tx'.
Qed.

(** ** Answers go to the miner once *)

Lemma on_miner_Done {A} (m : M Miner A) a h : m (miner h) = Done (a, miner h) -> on_miner m h = Done (a, h).
Proof. intros E. unfold on_miner. rewrite E. by destruct h. Qed.

Definition has_hash {T} (inj : T -> Transaction) (m : Miner) (x : hash) (tx : T) : Prop :=
  tx_hash (inj tx) m = Done (x, m).

Lemma AlreadyInStash_spec {T} (inj : T -> Transaction) l xs x h : Forall2 (has_hash inj (miner h)) xs l ->
  AlreadyInStash inj l x h = Done (bool_decide (x ∈ xs), h).
Proof.
  induction 1 as [|y tx xs l Hy _ IH]; [done|]. cbn [AlreadyInStash].
  rewrite (bind_Done _ _ _ _ _ (on_miner_Done _ _ _ Hy)).
  destruct (decide (y = x)) as [->|Hne].
  - rewrite (bool_decide_eq_true_2 (x = x)), (bool_decide_eq_true_2 (x ∈ _)); [done|apply elem_of_cons; by left|done].
  - rewrite (bool_decide_eq_false_2 (y = x)) by done. rewrite IH. unfold mret, M_ret. do 2 f_equal.
    apply bool_decide_ext. rewrite elem_of_cons. naive_solver.
Qed.

(** A transaction that arrives after a request goes to the miner unless one
    with its hash is in the stash; then it is put into the stash, which drops its
    oldest element beyond a hundred, so that the hashes of the stash stay
    distinct and there are never more than a hundred. *)
Theorem stash_spec {T} (inj : T -> Transaction) slice set_slice (tx : T) x xs h :
  (forall l s, slice (set_slice l s) = l) ->
  has_hash inj (miner h) x tx -> Forall2 (has_hash inj (miner h)) xs (slice (stash (net h))) -> NoDup xs ->
  (length xs <= 100)%nat ->
  (x ∈ xs -> forward inj slice set_slice tx h = Done (tt, h)) /\
  (x ∉ xs -> exists h' xs', forward inj slice set_slice tx h = Done (tt, h') /\ miner h' = miner h /\
     events (net h') = events (net h) ++ [TxChan (inj tx)] /\
     (exists old, old ++ xs' = xs ++ [x] /\ (old <> [] -> length xs = 100%nat)) /\
     Forall2 (has_hash inj (miner h')) xs' (slice (stash (net h'))) /\ NoDup xs' /\ (length xs' <= 100)%nat).
Proof.
  intros Hset Hx Hxs Hnd Hlen. unfold forward. rewrite (bind_Done _ _ _ _ _ (on_miner_Done _ _ _ Hx)), net_gets_bind.
  rewrite (bind_Done _ _ _ _ _ (AlreadyInStash_spec inj _ _ x h Hxs)). split; intros Hin.
  { by rewrite bool_decide_eq_true_2. }
  rewrite bool_decide_eq_false_2 by done.
  assert (Hxs' : Forall2 (has_hash inj (miner h)) (xs ++ [x]) (slice (stash (net h)) ++ [tx])).
  { apply Forall2_app; [done|]. by constructor. }
  assert (Hnd' : NoDup (xs ++ [x])).
  { apply NoDup_app. split; [done|]. split; [|apply NoDup_singleton]. intros y Hy ->%list_elem_of_singleton. done. }
  pose proof (Forall2_length _ _ _ Hxs) as El. unfold trim. rewrite length_app, <-El. cbn [length].
  destruct (Nat.ltb_spec 100 (length xs + 1)) as [Hl|Hl].
  - eexists _, (drop 1 (xs ++ [x])). split; [reflexivity|]. split; [done|]. split; [done|]. split.
    + exists (take 1 (xs ++ [x])). rewrite take_drop. split; [done|]. lia.
    + cbn. rewrite Hset. split; [by apply Forall2_drop|]. split; [|rewrite length_drop, length_app; cbn; lia].
      rewrite <-(take_drop 1) in Hnd'. by apply NoDup_app in Hnd' as (_&_&?).
  - eexists _, (xs ++ [x]). split; [reflexivity|]. split; [done|]. split; [done|]. split; [by exists []|].
    cbn. rewrite Hset. split; [done|]. split; [done|]. rewrite length_app. cbn. lia.
Qed.

(** ** Broadcasts *)

Definition known_tx (m : Miner) (x : hash) : Prop :=
  is_Some (txMemPool (pool m) !! x) \/ is_Some (closed_tx (db m) x).

Definition ack (n : Net) (p : nat) (a : bytes) : list event :=
  if known_miner n a then [] else [Write p (BuildPacket TX_BRDCST_ACK [])].

Lemma emitted_nil h : emitted [] h = h.
Proof. destruct h as [m []]. unfold emitted, with_net, upd_events. cbn. by rewrite app_nil_r. Qed.

Lemma brdcst_known p payload t tx x a h : peers_ok (net h) -> addr (net h) p = Some a ->
  decode_tx t payload = Some tx -> tx_hash tx (miner h) = Done (x, miner h) -> known_tx (miner h) x ->
  processTxBrdcst p payload t h = Done (tt, emitted (ack (net h) p a) h).
Proof.
  intros Hok Ha Ht Hx Hk. destruct h as [m n]. cbn in *. unfold processTxBrdcst. rewrite Ht.
  rewrite (bind_Done _ _ _ _ _ (getIPPort_addr p a (mkHost m n) Ha)), (bind_Done _ _ _ _ _ (contains_miner n m a Hok)).
  unfold ack. cbn [net].
  rewrite (bind_Done _ _ _ tt (emitted (if known_miner n a then [] else [Write p (BuildPacket TX_BRDCST_ACK [])]) (mkHost m n))).
  2: { destruct (known_miner n a); [by rewrite emitted_nil|]. apply sendData_Done. rewrite length_BuildPacket. cbn. lia. }
  set (h1 := emitted _ _). rewrite (bind_Done _ _ h1 x h1) by by apply on_miner_Done.
  rewrite (bind_Done _ _ h1 (txMemPool (pool m) !! x) h1) by by apply on_miner_Done.
  rewrite (bind_Done _ _ h1 (closed_tx (db m) x) h1) by by apply on_miner_Done.
  destruct Hk as [ [y ->]|[y ->] ]; [done|]. by destruct (txMemPool (pool m) !! x).
Qed.

(** A transaction is spread once: one that the node does not know is written
    to the open pool and broadcast as it came, after an acknowledgement if the
    sender is not a miner; received again, from anyone connected, it is
    acknowledged and nothing else changes. *)
Theorem broadcast_once p payload t tx x a h : peers_ok (net h) -> addr (net h) p = Some a ->
  decode_tx t payload = Some tx -> tx_hash tx (miner h) = Done (x, miner h) -> ~ known_tx (miner h) x ->
  exists h', processTxBrdcst p payload t h = Done (tt, h') /\
    net h' = net (emitted (ack (net h) p a ++ [minerBrdcstMsg (BuildPacket t payload)]) h) /\
    ledger (miner h') = ledger (miner h) /\ db (miner h') = db (miner h) /\
    txMemPool (pool (miner h')) = <[x := tx]> (txMemPool (pool (miner h))) /\
    forall p' a', addr (net h') p' = Some a' ->
      processTxBrdcst p' payload t h' = Done (tt, emitted (ack (net h') p' a') h').
Proof.
  intros Hok Ha Ht Hx Hk. destruct h as [m n]. cbn in Hok, Ha, Hx, Hk.
  assert (Hw : exists m', WriteOpenTx tx m = Done (tt, m') /\ ledger m' = ledger m /\ db m' = db m /\
    txMemPool (pool m') = <[x := tx]> (txMemPool (pool m))).
  { unfold WriteOpenTx. rewrite (bind_Done _ _ _ _ _ Hx).
    destruct tx; try (eexists; split; [reflexivity|done]).
    unfold tx_hash, gets, mbind, M_bind in Hx. cbn in Hx.
    destruct (FundsTx_Hash _ _) as [y|] eqn:Ey; [|done]. cbn in Hx. injection Hx as ->.
    eexists. unfold WriteTxcntToTx, tx_hash, on_pool, modify, gets, mbind, M_bind. cbn. rewrite Ey. cbn.
    split; [reflexivity|done]. }
  destruct Hw as (m'&Hw&El&Ed&Ep).
  exists (mkHost m' (net (emitted (ack n p a ++ [minerBrdcstMsg (BuildPacket t payload)]) (mkHost m n)))).
  split.
  - unfold processTxBrdcst. rewrite Ht.
    rewrite (bind_Done _ _ _ _ _ (getIPPort_addr p a (mkHost m n) Ha)), (bind_Done _ _ _ _ _ (contains_miner n m a Hok)).
    unfold ack. cbn [net].
    rewrite (bind_Done _ _ _ tt (emitted (if known_miner n a then [] else [Write p (BuildPacket TX_BRDCST_ACK [])]) (mkHost m n))).
    2: { destruct (known_miner n a); [by rewrite emitted_nil|]. apply sendData_Done. rewrite length_BuildPacket. cbn. lia. }
    set (h1 := emitted _ _). rewrite (bind_Done _ _ h1 x h1) by by apply on_miner_Done.
    rewrite (bind_Done _ _ h1 (txMemPool (pool m) !! x) h1) by by apply on_miner_Done.
    rewrite (bind_Done _ _ h1 (closed_tx (db m) x) h1) by by apply on_miner_Done.
    destruct (txMemPool (pool m) !! x) eqn:E1; [exfalso; apply Hk; left; eauto|].
    destruct (closed_tx (db m) x) eqn:E2; [exfalso; apply Hk; right; eauto|].
    assert (E : on_miner (WriteOpenTx tx) h1 = Done (tt, mkHost m' (net h1))) by (unfold on_miner; cbn; by rewrite Hw).
    rewrite (bind_Done _ _ _ _ _ E). unfold emit, on_net, modify, h1, emitted, with_net. cbn. do 3 f_equal.
    unfold upd_events. cbn. by rewrite <-app_assoc.
  - split; [done|]. split; [done|]. split; [done|]. split; [done|]. intros p' a' Ha'.
    apply (brdcst_known p' payload t tx x); [|exact Ha'|done| |].
    + cbn. by destruct Hok.
    + cbn. unfold tx_hash, gets, mbind, M_bind in Hx |- *. rewrite El. destruct (Transaction_Hash _ _); [|done].
      cbn in Hx |- *. by injection Hx as ->.
    + left. cbn. rewrite Ep, lookup_insert_eq. eauto.
Qed.

(** ** Messages that stop a node *)

(** C23: Every one of these messages of any peer panics, and with it the node: a
    request for an unknown type of a transaction that is neither a payment nor
    an aggregation; a request for the header of a block that is not known; one
    for the intermediate nodes of an unknown block; a time of fewer than eight
    bytes; and the broadcast of a payment whose sender has no chameleon-hash
    parameters, or that has no check string. *)
Theorem messages_that_panic p h : 
  (forall x tx, length x = 32%nat -> stored_tx (miner h) x = Some tx ->
     match tx with TFunds _ | TAgg _ => False | _ => True end -> processIncomingMsg Ipport p UNKNOWNTX_REQ x h = Panic) /\
  (forall x y, length x = 32%nat -> length y = 32%nat -> closedblocks (db (miner h)) !! x = None ->
     closedblockswithouttx (db (miner h)) !! y = None -> openblocks (db (miner h)) !! x = None ->
     processIncomingMsg Ipport p BLOCK_HEADER_REQ (x ++ y) h = Panic) /\
  (forall x y, length x = 32%nat -> length y = 32%nat -> closedblocks (db (miner h)) !! x = None ->
     processIncomingMsg Ipport p INTERMEDIATE_NODES_REQ (x ++ y) h = Panic) /\
  (forall payload, (length payload < 8)%nat -> processIncomingMsg Ipport p TIME_BRDCST payload h = Panic) /\
  (forall payload, is_Some (addr (net h) p) -> peers_ok (net h) ->
     ChameleonHashParametersMap (ledger (miner h)) !! ftx_From (ungob_FundsTx payload) = None \/
       ftx_CheckString (ungob_FundsTx payload) = None ->
     processIncomingMsg Ipport p FUNDSTX_BRDCST payload h = Panic).
Proof.
  destruct h as [m n]. cbn. split; [|split; [|split; [|split] ] ].
  - intros x tx Hx Htx Hk. change (txRes p x UNKNOWNTX_REQ (mkHost m n) = Panic). unfold txRes. rewrite Hx. cbn [Nat.eqb negb].
    rewrite (take_ge x) by lia. rewrite (bind_Done _ _ _ _ _ (find_any_host x (mkHost m n))).
    cbn [miner]. unfold stored_tx in Htx. rewrite Htx. by destruct tx.
  - intros x y Hx Hy E1 E2 E3. change (blockHeaderRes p (x ++ y) (mkHost m n) = Panic). unfold blockHeaderRes.
    rewrite length_app, Hx, Hy. cbn [Nat.add Nat.eqb]. unfold requested_block. rewrite <-Hx, take_app_length, drop_app_length.
    unfold ReadClosedBlock, ReadClosedBlockWithoutTx, ReadOpenBlock, read_db, on_miner, gets, mbind, M_bind. cbn.
    rewrite E1. cbn. rewrite E2. cbn. by rewrite E3.
  - intros x y Hx Hy E1. change (intermediateNodesRes p (x ++ y) (mkHost m n) = Panic). unfold intermediateNodesRes.
    rewrite length_app, Hx, Hy. cbn [Nat.add Nat.eqb negb]. rewrite <-Hx, take_app_length.
    unfold ReadClosedBlock, read_db, on_miner, gets, mbind, M_bind. cbn. by rewrite E1.
  - intros payload Hl. change (processTimeRes p payload (mkHost m n) = Panic). unfold processTimeRes.
    by rewrite (proj2 (Nat.ltb_lt _ _)).
  - intros payload [a Ha] Hok Hk. change (processTxBrdcst p payload FUNDSTX_BRDCST (mkHost m n) = Panic).
    unfold processTxBrdcst. cbn [decode_tx Z.eqb orb]. change (decode_tx FUNDSTX_BRDCST payload) with (Some (TFunds (ungob_FundsTx payload))).
    cbn beta iota.
    rewrite (bind_Done _ _ _ _ _ (getIPPort_addr p a (mkHost m n) Ha)), (bind_Done _ _ _ _ _ (contains_miner n m a Hok)).
    rewrite (bind_Done _ _ _ tt (emitted (ack n p a) (mkHost m n))).
    2: { unfold ack. destruct (known_miner n a); [by rewrite emitted_nil|]. apply sendData_Done. rewrite length_BuildPacket. cbn. lia. }
    assert (E : FundsTx_Hash (ChameleonHashParametersMap (ledger m)) (ungob_FundsTx payload) = None).
    { unfold FundsTx_Hash, FundsTx_ChameleonHash, ChameleonHash. destruct Hk as [->| ->]; [done|].
      by destruct (_ !! _). }
    unfold tx_hash, on_miner, gets, mbind, M_bind. cbn. by rewrite E.
Qed.

(** ** Three more behaviours *)

Lemma pongRes_ne payload : length payload = PORT_SIZE -> _pongRes payload <> [].
Proof.
  intros Hl E. unfold _pongRes in E. rewrite Hl in E. unfold Itoa, fmt_int in E. cbn [Nat.eqb PORT_SIZE] in E.
  rewrite (proj2 (Z.ltb_ge _ _)) in E by apply be_val_bound. unfold fmt_nat in E. apply fmap_nil_inv in E.
  by apply digits_nonempty in E.
Qed.

(** A ping of a connected miner changes its address under the maps. *)
Lemma second_ping_breaks p q payload m n : peers_ok n -> store n !! p = Some q -> p ∈ minerConns n ->
  length payload = PORT_SIZE -> _pongRes payload <> listenerPort q -> Z.of_nat (size (minerConns n)) < MAX_MINERS ->
  exists h', processIncomingMsg Ipport p MINER_PING payload (mkHost m n) = Done (tt, h') /\ ~ peers_ok (net h').
Proof.
  intros Hok Hq Hp Hl Hport Hsz. destruct (_pongRes payload) as [|c port] eqn:E; [by apply pongRes_ne in E|].
  eexists. split.
  - change (processIncomingMsg Ipport p MINER_PING payload (mkHost m n)) with (pongRes p payload MINER_PING (mkHost m n)).
    unfold pongRes. rewrite E. cbv zeta. rewrite (bind_Done _ _ _ _ _ (update_peer_Done p q _ (mkHost m n) Hq)).
    unfold peers_len. rewrite net_gets_bind. change (conns PEERTYPE_MINER _) with (minerConns n).
    rewrite (proj2 (Z.leb_gt _ _)) by done. change (MINER_PING =? MINER_PING) with true. cbn beta iota.
    erewrite bind_Done; [|erewrite bind_Done; [reflexivity|apply update_peer_Done, store_put] ].
    rewrite put_put. erewrite bind_Done; [|reflexivity]. apply sendData_Done. rewrite length_BuildPacket. lia.
  - cbn. intros Hok'. unfold with_net in Hok'. cbn in Hok'.
    assert (Ha : addr n p = Some (getIPPort_of q)) by (unfold addr; by rewrite Hq).
    destruct (po_entry n Hok p _ Hp Ha) as (d&Hd&Ed). apply (po_keys _ Hok' (getIPPort_of q) d) in Hd.
    revert Hd. unfold addr. cbn. rewrite Ed, lookup_insert_eq. cbn. unfold getIPPort_of. cbn. intros [= Hx].
    apply app_inv_head in Hx. by injection Hx.
Qed.

(** With as many miners as are allowed a client gets no answer either. *)
Lemma full_node_refuses_clients p q payload m n : store n !! p = Some q -> length payload = PORT_SIZE ->
  MAX_MINERS <= Z.of_nat (size (minerConns n)) ->
  exists h', processIncomingMsg Ipport p CLIENT_PING payload (mkHost m n) = Done (tt, h') /\
    events (net h') = events n /\ clientConns (net h') = clientConns n.
Proof.
  intros Hq Hl Hsz. destruct (_pongRes payload) as [|c port] eqn:E; [by apply pongRes_ne in E|].
  eexists. split.
  - change (processIncomingMsg Ipport p CLIENT_PING payload (mkHost m n)) with (pongRes p payload CLIENT_PING (mkHost m n)).
    unfold pongRes. rewrite E. cbv zeta. rewrite (bind_Done _ _ _ _ _ (update_peer_Done p q _ (mkHost m n) Hq)).
    unfold peers_len. rewrite net_gets_bind. change (conns PEERTYPE_MINER _) with (minerConns n).
    by rewrite (proj2 (Z.leb_le _ _)) by done.
  - done.
Qed.

(** A bootstrap server that does not answer stops the node. *)
Lemma bootstrap_panics err m n : peers_ok n ->
  bootstrap Ipport Bootstrap_Server (inl err) (mkHost m n) = Panic.
Proof.
  intros Hok. unfold bootstrap, initiateNewMinerConnection, peerExists. unfold mbind at 1, M_bind at 1.
  rewrite (bind_Done _ _ _ _ _ (contains_miner n m Bootstrap_Server Hok)).
  destruct (known_miner _ _); [done|]. destruct (peerSelfConn _ _); [done|].
  by destruct (port_of Bootstrap_Server).
Qed.
End props.

(** ** A node with three peers *)

Module Nodes.
Import Toy.
#[global] Instance peer_order : PeerOrder := {| range_peers s := elements s; range_addresses s := elements s |}.
#[global] Instance peer_order_laws : PeerOrderLaws.
Proof. by split. Qed.

(** Encodings of one value each. *)
Definition payment : FundsTx := pay 1 2 30 2 0.
#[global] Instance gob : Gob := {|
  gob_FundsTx _ := [Byte.x01]; gob_AccTx _ := [Byte.x02]; gob_AggTx _ := []; gob_UpdateTx _ := []; gob_Block _ := [];
  gob_Account _ := [];
  ungob_FundsTx b := match b with [] => pay 77 2 0 0 0 | _ => payment end; ungob_AccTx _ := open_account 0 9;
  ungob_AggTx _ := mkAggTx 0 0 [] [] [] false zero_hash zero_hash None None;
  ungob_UpdateTx _ := mkUpdateTx 0 zero_hash None None zero_hash zero_sig None None;
  ungob_Block _ := Toy.blk 3 |}.
#[global] Instance bloom : Bloom := fun _ => [].

Definition self : bytes := str_bytes "10.0.0.9:8000".
Definition boot : bytes := str_bytes "10.0.0.8:8000".

(** Two miners, the second at the address at which the first is, and another. *)
Definition peer_at (remote port : string) : peer := newPeer (str_bytes remote) (str_bytes port) PEERTYPE_MINER.
Definition three : gmap nat peer :=
  {[0%nat := peer_at "10.0.0.1:5011" "8001"; 1%nat := peer_at "10.0.0.1:5012" "8001"; 2%nat := peer_at "10.0.0.2:5013" "8000"]}.
Definition h0 : Host := mkHost m0 (upd_store (fun _ => three) Init_net).

Definition state_of {A} (h : Host) (r : outcome (A * Host)) : Host := match r with Done (_, h') => h' | _ => h end.
Definition is_done {A} (r : outcome (A * Host)) : bool := match r with Done _ => true | _ => false end.

Lemma done_state h (r : outcome (unit * Host)) : is_done r = true -> r = Done (tt, state_of h r).
Proof. by destruct r as [ [ [] h'] | | ]. Qed.

Lemma h0_ok : peers_ok (net h0).
Proof. split; cbn; try (intros x; rewrite elem_of_empty; done); done. Qed.

(** The first and the third are registered, the third is gone. *)
Definition h1 : Host := state_of h0 (peers_add 0 h0).
Definition h2 : Host := state_of h1 (peers_add 2 h1).
Definition h3 : Host := state_of h2 (peers_delete 2 h2).

Lemma h1_ok : peers_ok (net h1).
Proof. eapply peers_add_ok; [|exact h0_ok]. apply done_state. by vm_compute. Qed.
Lemma h2_ok : peers_ok (net h2).
Proof. eapply peers_add_ok; [|exact h1_ok]. apply done_state. by vm_compute. Qed.
Lemma h3_ok : peers_ok (net h3).
Proof. eapply peers_delete_ok; [|exact h2_ok]. apply done_state. by vm_compute. Qed.

(** A message for the one that is gone is stored. *)
Definition h4 : Host := state_of h3 (sendAndSearchMessages (getTime 7) h3).
Lemma h4_ok : peers_ok (net h4).
Proof. apply (step_ok self boot false h3); [|done|exact h3_ok]. apply (step_broadcast self boot false (getTime 7)), done_state. by vm_compute. Qed.

(** A miner connects, is registered, and a message is sent to it. *)
Definition start : Host := mkHost m0 Init_net.
Definition pinged : Host := state_of start (handleNewConn self (str_bytes "10.0.0.1:5011") [PrepareHandshake MINER_PING 8001] start).
Definition joined : Host := state_of pinged (peerConn 0 pinged).
Definition sent : Host := state_of joined (sendAndSearchMessages (getTime 7) joined).

(** A registered miner that pings again with another port moves to an address
    without entry; being registered once more does not give it one, and the next
    broadcast dereferences the missing entry. *)
Definition port_8002 : bytes := drop 5 (PrepareHandshake MINER_PING 8002).
Definition moved : Host := state_of joined (processIncomingMsg self 0 MINER_PING port_8002 joined).
Definition rejoined : Host := state_of moved (peerConn 0 moved).

Example second_ping_stops :
  processIncomingMsg self 0 MINER_PING port_8002 joined = Done (tt, moved) /\ peerConn 0 moved = Done (tt, rejoined) /\
  sendAndSearchMessages (getTime 7) moved = Panic /\ sendAndSearchMessages (getTime 7) rejoined = Panic.
Proof.
  split; [apply done_state; by vm_compute|]. split; [apply done_state; by vm_compute|]. split; by vm_compute.
Qed.

Lemma connections_invariant_witness :
  rtc (step self boot false) start sent /\ peers_ok (net sent) /\ elements (minerConns (net sent)) = [0%nat].
Proof.
  assert (R : rtc (step self boot false) start sent).
  { apply (rtc_l _ _ pinged).
    { apply (step_new self boot false (str_bytes "10.0.0.1:5011") [PrepareHandshake MINER_PING 8001]), done_state. by vm_compute. }
    apply (rtc_l _ _ joined); [apply (step_register self boot false 0), done_state; by vm_compute|].
    apply (rtc_l _ _ sent); [apply (step_broadcast self boot false (getTime 7)), done_state; by vm_compute|]. apply rtc_refl. }
  split; [exact R|]. split; [|by vm_compute].
  exact (proj2 (connections_invariant self boot false start sent eq_refl R) eq_refl).
Defined.

Lemma h4_room p q : p ∈ minerConns (net h4) -> store (net h4) !! p = Some q -> (length (ch q) < 100)%nat.
Proof.
  intros Hp%elem_of_elements Hq. assert (E : elements (minerConns (net h4)) = [0%nat]) by by vm_compute.
  rewrite E in Hp. apply list_elem_of_singleton in Hp as ->. vm_compute in Hq. injection Hq as <-. cbn. lia.
Qed.

(** Its channel is full when a hundred messages wait in it. *)
Definition h5 : Host := put 0 (set_ch (replicate 100 (getTime 7)) (peer_at "10.0.0.1:5011" "8001")) h4.
Lemma h5_ok : peers_ok (net h5).
Proof.
  apply (peers_ok_keeps (net h4)); [exact h4_ok| |done..]. intros p q Hq. cbn.
  destruct (decide (p = 0%nat)) as [->|]; [rewrite lookup_insert_eq|rewrite lookup_insert_ne by done; eauto].
  eexists. split; [done|]. vm_compute in Hq. injection Hq as <-. done.
Qed.

Lemma broadcast_spec_witness :
  (exists n', sendAndSearchMessages (getTime 8) h4 = Done (tt, mkHost (Peers.miner h4) n') /\ peers_ok n') /\
  sendAndSearchMessages (getTime 8) h5 = Timeout.
Proof.
  split.
  - destruct (proj1 (broadcast_spec (getTime 8) (Peers.miner h4) (net h4) h4_ok) h4_room) as (n'&E&Hok&_).
    exists n'. split; [|exact Hok]. rewrite <-E. by destruct h4.
  - apply (proj2 (broadcast_spec (getTime 8) (Peers.miner h5) (net h5) h5_ok) 0%nat
      (set_ch (replicate 100 (getTime 7)) (peer_at "10.0.0.1:5011" "8001"))); [by vm_compute|reflexivity|simpl; lia].
Defined.

(** The second peer takes the place of the first. *)
Lemma registration_spec_witness : exists n', peers_add 1 (mkHost (Peers.miner h4) (net h4)) = Done (tt, mkHost (Peers.miner h4) n') /\
  peers_ok n' /\ 1%nat ∈ minerConns n'.
Proof.
  destruct (registration_spec 1 (peer_at "10.0.0.1:5012" "8001") (Peers.miner h4) (net h4) h4_ok) as (n'&E&Hok&Hm&_);
    [by vm_compute|reflexivity|].
  exists n'. split; [exact E|]. split; [exact Hok|]. apply Hm. by left.
Defined.

(** The other side has the payment in its open pool. *)
Definition with_open (x : hash) (tx : Transaction) (h : Host) : Host :=
  mkHost (upd_pool (upd_txMemPool (insert x tx)) (Peers.miner h)) (net h).
Lemma net_with_open x tx h : net (with_open x tx h) = net h.
Proof. done. Qed.

Definition server : Host := with_open (key 1) (TFunds payment) h4.

Lemma request_roundtrip_witness : exists answer,
  receive self 0 [BuildPacket FUNDSTX_REQ (key 1)] server = Done (Some [], emitted [Write 0 answer] server) /\
  receive self 2 [answer] h4 = (forwarded (TFunds payment);; mret (Some [])) h4.
Proof.
  apply (request_roundtrip self (key 1) (TFunds payment) (TFunds payment) server 0 h4 2); by vm_compute.
Defined.

Definition payment_hash : hash := default [] (Transaction_Hash (ChameleonHashParametersMap (ledger (Peers.miner h4))) (TFunds payment)).

Lemma payment_hashed : tx_hash (TFunds payment) (Peers.miner h4) = Done (payment_hash, Peers.miner h4).
Proof. vm_compute. reflexivity. Qed.

Lemma stash_spec_witness : exists h', forward TFunds ReceivedFundsTXStash set_funds_stash payment h4 = Done (tt, h') /\
  events (net h') = events (net h4) ++ [TxChan (TFunds payment)].
Proof.
  destruct (proj2 (stash_spec TFunds ReceivedFundsTXStash set_funds_stash payment payment_hash [] h4
    (fun _ _ => eq_refl) payment_hashed (Forall2_nil_2 _ _ _) NoDup_nil_2 ltac:(simpl; lia))) as (h'&xs'&E&_&Ev&_).
  - intros H. by apply elem_of_nil in H.
  - exists h'. split; [exact E|exact Ev].
Defined.

Lemma broadcast_once_witness : exists h', processTxBrdcst 0 [Byte.x01] FUNDSTX_BRDCST h4 = Done (tt, h') /\
  processTxBrdcst 0 [Byte.x01] FUNDSTX_BRDCST h' = Done (tt, emitted (ack (net h') 0 (str_bytes "10.0.0.1:8001")) h').
Proof.
  destruct (broadcast_once 0 [Byte.x01] FUNDSTX_BRDCST (TFunds payment) payment_hash (str_bytes "10.0.0.1:8001") h4)
    as (h'&E&En&_&_&_&Hagain).
  - exact h4_ok.
  - by vm_compute.
  - reflexivity.
  - exact payment_hashed.
  - intros [ [x Hx]|[x Hx] ]; vm_compute in Hx; discriminate Hx.
  - exists h'. split; [exact E|]. apply Hagain. rewrite En. by vm_compute.
Defined.

(** All five, on one node: an account in the pool, nothing in the database. *)
Definition target : Host := with_open (key 2) (TAcc (open_account 0 9)) h4.

Lemma messages_that_panic_witness :
  processIncomingMsg self 0 UNKNOWNTX_REQ (key 2) target = Panic /\
  processIncomingMsg self 0 BLOCK_HEADER_REQ (key 1 ++ key 1) target = Panic /\
  processIncomingMsg self 0 INTERMEDIATE_NODES_REQ (key 1 ++ key 1) target = Panic /\
  processIncomingMsg self 0 TIME_BRDCST [] target = Panic /\
  processIncomingMsg self 0 FUNDSTX_BRDCST [] target = Panic.
Proof.
  destruct (messages_that_panic self 0 target) as (A&B&C&D&E). split; [|split; [|split; [|split] ] ].
  - apply (A (key 2) (TAcc (open_account 0 9))); [vm_compute; reflexivity|vm_compute; reflexivity|exact I].
  - apply (B (key 1) (key 1)); vm_compute; reflexivity.
  - apply (C (key 1) (key 1)); vm_compute; reflexivity.
  - apply D. simpl. lia.
  - apply E; [eexists; by vm_compute| |left; by vm_compute]. unfold target. rewrite net_with_open. exact h4_ok.
Defined.
End Nodes.
