(* ===== verification/InitState.v ===== *)
(** * miner/state.go: the state of a node that starts

    [initState] replays the closed blocks: those of the database on the first
    node, on the others the chain that it asks the network for, block by block
    down to the genesis block. The answers of the network are a list, as in
    [LongestChain.v]; the first is to the request for the last block. *)

From S2P Require Import Prelude GoLib Format Chameleon Protocol Merkle BlockFields Node Storage Params StateChange.
From S2P Require Import Validation PoS Verify AddTx Aggregate BlockPrep LongestChain Fetch Validate.

Section init.
Context {DG : Digests} {DL : DigestLaws} {SO : SortOps} {FO : FloatOps} {SG : Signatures} {NK : NodeKeys}.
Context {GS : GoSort} {MO : MapOrder} {CM : Commitments}.
(** The signature with the commitment key of the root account. *)
Context (root_SignPKCS1v15 : bytes -> string + bytes).
Context (env : surroundings).

(** The handler of the network ([forwardBlockReqToMiner] of
    p2p/miner_interface.go) keeps a block back that is in the stash, and puts
    another one there before it hands it over. *)
Definition hand_over (ans : answers) : M Miner (option Block * answers) :=
  match ans with
  | Some b :: ans =>
      stash ← ReadReceivedBlockStash;
      if BlockAlreadyInStash stash (blk_Hash b) then mret (None, ans)
      else WriteToReceivedStash b;; mret (Some b, ans)
  | None :: ans => mret (None, ans)
  | [] => mret (None, [])
  end.

(** The answer to a request for a parent, or the parent from the stash. *)
Definition receive_parent (h : hash) (ans : answers) : M Miner (option Block * answers) :=
  r ← hand_over ans;
  match (r : option Block * answers) with
  | (Some b, ans) => mret (Some b, ans)
  | (None, ans) => stash ← ReadReceivedBlockStash; mret (find_block h stash, ans)
  end.

(** A block of the chain is closed, without its transactions if they are
    aggregated. *)
Definition write_received (b : Block) : M Miner unit :=
  if blk_Aggregated b then WriteClosedBlockWithoutTx b else WriteClosedBlock b.

(** A block with the hash of the one before it is not listed again. *)
Definition list_block (allClosedBlocks : list Block) (b : Block) : list Block :=
  match last allClosedBlocks with
  | Some l => if bool_decide (blk_Hash l = blk_Hash b) then allClosedBlocks else allClosedBlocks ++ [b]
  | None => allClosedBlocks ++ [b]
  end.

(** Whatever block arrives is taken for the parent; without an answer, and
    without the parent in the stash, the request is repeated. *)
Fixpoint collect_chain (fuel : nat) (ans : answers) (lastBlock : Block) (allClosedBlocks : list Block)
    : M Miner (list Block * answers) :=
  match fuel with
  | O => timeout
  | S fuel =>
      r ← receive_parent (blk_PrevHash lastBlock) ans;
      match r with
      | (None, ans) => collect_chain fuel ans lastBlock allClosedBlocks
      | (Some b, ans) =>
          write_received b;;
          let allClosedBlocks := list_block allClosedBlocks b in
          if blk_Height b =? 0 then mret (allClosedBlocks, ans)
          else collect_chain fuel ans b allClosedBlocks
      end
  end.

(** The blocks of the other nodes, or the error of the first request. *)
Definition request_chain (ans : answers) : M Miner ((string + list Block) * answers) :=
  r ← hand_over ans;
  match (r : option Block * answers) with
  | (Some b, ans) =>
      WriteClosedBlock b;;
      WriteLastClosedBlock b;;
      r ← collect_chain (walk_fuel env) ans b [b];
      mret (inr (fst r), snd r)
  | (None, ans) => mret (inl "Timeout requesting last block for initial startup..."%string, ans)
  end.

Definition genesis (commitmentProof : bytes) : Block :=
  upd_blk_CommitmentProof (fun _ => commitmentProof) (newBlock zero_hash zero_hash (zeros COMM_PROOF_LENGTH) 0).

(** The first block of the largest height. *)
Definition highest (initial : Block) (blocks : list Block) : Block :=
  foldl (fun best b => if blk_Height best <? blk_Height b then b else best) initial blocks.

(** The genesis block, of hash zero, has nothing to validate. *)
Definition replay_block (b : Block) (ans : answers) : M Miner (error * answers) :=
  if bool_decide (blk_Hash b = zero_hash) then
    postValidate (mkBlockData [] [] [] [] [] [] [] b) true (IsBootstrap env);; mret (None, ans)
  else
    r ← preValidate env b true false ans;
    match r with
    | (Some e, ans) => mret (Some ("Block could not be prevalidated: " +:+ e), ans)
    | (None, ans) =>
        r ← fetchTransactions (tx_net env) true (walk_fuel env) b (make_slices b);
        match r with
        | (Some e, _) => mret (Some ("Block could not be prevalidated: " +:+ e), ans)
        | (None, s) =>
            data ← block_data b s;
            err ← validateState data true;
            match err with
            | Some e => mret (Some ("Block could not be statevalidated: " +:+ e), ans)
            | None => postValidate data true (IsBootstrap env);; mret (None, ans)
            end
        end
    end.

Fixpoint replay (blocks : list Block) (ans : answers) : M Miner (error * answers) :=
  match blocks with
  | [] => mret (None, ans)
  | b :: blocks =>
      r ← replay_block b ans;
      match r with
      | (Some e, ans) => mret (Some e, ans)
      | (None, ans) => replay blocks ans
      end
  end.

(** The last block is the highest one; it was set by the replay. *)
Fixpoint raise_last (blocks : list Block) : M Miner unit :=
  match blocks with
  | [] => mret tt
  | b :: blocks =>
      l ← gets (fun m => lastBlock (chain m));
      l ← of_option l;
      (if blk_Height l <? blk_Height b then on_chain (upd_lastBlock (fun _ => Some b)) else mret tt);;
      raise_last blocks
  end.

Definition initState (ans : answers) : M Miner (string + Block) :=
  r ← (if IsBootstrap env then l ← ReadAllClosedBlocks; mret (inr l, ans) else request_chain ans);
  match (r : (string + list Block) * answers) with
  | (inl e, _) => mret (inl e)
  | (inr allClosedBlocks, ans) =>
      start ← match allClosedBlocks with
              | b :: _ => mret (inr (highest b allClosedBlocks, allClosedBlocks))
              | [] =>
                  match root_SignPKCS1v15 (sha256 (fmt_int 10 0)) with
                  | inl e => mret (inl e)
                  | inr sig =>
                      let b := genesis (take COMM_PROOF_LENGTH (sig ++ zeros COMM_PROOF_LENGTH)) in
                      WriteLastClosedBlock b;;
                      WriteClosedBlock b;;
                      mret (inr (b, [b]))
                  end
              end;
      match (start : string + Block * list Block) with
      | inl e => mret (inl e)
      | inr (initialBlock, allClosedBlocks) =>
          let allClosedBlocks := if IsBootstrap env then allClosedBlocks else InvertBlockArray allClosedBlocks in
          r ← replay allClosedBlocks ans;
          match fst r with
          | Some e => mret (inl e)
          | None => raise_last allClosedBlocks;; mret (inr initialBlock)
          end
      end
  end.

(** ** Start-up *)

(** The package variables at the start of the program, with the default
    parameters that [Init] sets first, and the database [d]. *)
Definition fresh (d : Buckets) : Miner :=
  mkMiner (mkLedger ∅ ∅ ∅) (mkPool ∅ ∅ [] ∅ [] ∅) d
    (mkChain [NewDefaultParameters] NewDefaultParameters [] [] (mkTimerange 0 0) (-1) (-1) None ∅).

(** The first block to work on, or the error that ends the program. *)
Definition Init (rootWallet : address) (rootChamHashParams : option ChameleonHashParameters) (ans : answers)
    : M Miner (string + Block) :=
  initRootKey rootWallet rootChamHashParams;;
  on_chain (upd_currentTargetTime (fun _ => mkTimerange 0 0));;
  on_chain (upd_target (fun l => l ++ [13]));;
  r ← initState ans;
  match (r : string + Block) with
  | inl e => mret (inl e)
  | inr initialBlock =>
      close_bootstrap;;
      mret (inr (newBlock (blk_Hash initialBlock) (blk_HashWithoutTx initialBlock) (zeros COMM_PROOF_LENGTH)
                   (u32 (blk_Height initialBlock + 1))))
  end.
End init.
