(* ===== verification/InitProps.v ===== *)
(** * What a node that starts ends up with

    The chain asked from the network, the replay of the closed blocks, and the
    first start of the first node. *)

From S2P Require Import Prelude GoLib Format Chameleon Protocol Merkle BlockFields Node Storage Ledger Params StateChange.
From S2P Require Import Validation PoS Verify AddTx Aggregate BlockPrep LongestChain ChainLemmas Fetch Validate CheckLemmas InitState LedgerProps ChainProps MiningProps ForkProps ValidateProps.

Section sync.
Context {DG : Digests} {DL : DigestLaws} {SO : SortOps} {FO : FloatOps} {SG : Signatures} {NK : NodeKeys}.
Context {GS : GoSort} {GL : GoSortLaws} {MO : MapOrder} {CM : Commitments}.
Context (sign : bytes -> string + bytes) (env : surroundings).

(** ** The chain from the network *)

Lemma in_stash_spec l h : BlockAlreadyInStash l h = true <-> h ∈ map blk_Hash l.
Proof.
  unfold BlockAlreadyInStash. rewrite existsb_exists, list_elem_of_In, in_map_iff. split.
  - intros (b & Hb & E%bool_decide_eq_true). by exists b.
  - intros (b & E & Hb). exists b. by rewrite bool_decide_eq_true.
Qed.

(** A block that is not in the stash is handed over; the stash grows by at
    most that block. *)
Lemma hand_over_fresh b ans m : blk_Hash b ∉ map blk_Hash (stash m) ->
  exists m', hand_over (Some b :: ans) m = Done ((Some b, ans), m') /\ pool_only m m' /\
    forall x, x ∈ stash m' -> x = b \/ x ∈ stash m.
Proof.
  intros Hn. unfold hand_over, mbind, M_bind, ReadReceivedBlockStash, gets. fold (stash m).
  destruct (BlockAlreadyInStash (stash m) (blk_Hash b)) eqn:E; [by apply in_stash_spec in E|].
  eexists. split; [reflexivity|]. split; [done|]. intros x. unfold stash at 1. cbn. fold (stash m). rewrite E.
  assert (Hd : forall l : list Block, x ∈ drop 1 l -> x ∈ l) by (intros []; set_solver).
  intros Hx. case_match; [apply Hd in Hx|]; set_solver.
Qed.

(** What closing a received block does to the database. *)
Definition received (d : Buckets) (b : Block) : Buckets :=
  if blk_Aggregated b then upd_closedblockswithouttx (insert (blk_HashWithoutTx b) (Block_persist b)) d
  else upd_closedblocks (insert (blk_Hash b) (Block_persist b)) d.

Lemma write_received_run b m : write_received b m = Done (tt, upd_db (fun d => received d b) m).
Proof. unfold write_received, received. by destruct (blk_Aggregated b). Qed.

Lemma list_block_new acc b : (forall l, last acc = Some l -> blk_Hash l <> blk_Hash b) -> list_block acc b = acc ++ [b].
Proof. intros H. unfold list_block. destruct (last acc); [|done]. by rewrite bool_decide_eq_false_2 by auto. Qed.

Lemma collect_step fuel b ans b0 acc m : blk_Hash b ∉ map blk_Hash (stash m) ->
  (forall l, last acc = Some l -> blk_Hash l <> blk_Hash b) ->
  exists m1, collect_chain (S fuel) (Some b :: ans) b0 acc m =
      (if blk_Height b =? 0 then Done ((acc ++ [b], ans), m1) else collect_chain fuel ans b (acc ++ [b]) m1) /\
    ledger m1 = ledger m /\ chain m1 = chain m /\ db m1 = received (db m) b /\
    forall x, x ∈ stash m1 -> x = b \/ x ∈ stash m.
Proof.
  intros Hb Hl. destruct (hand_over_fresh b ans m Hb) as (m1 & E & (Hle & Hd & Hc) & Hs).
  exists (upd_db (fun d => received d b) m1). cbn [ledger chain db upd_db]. rewrite Hle, Hc, Hd. split; [|done].
  cbn [collect_chain]. unfold receive_parent, mbind, M_bind. rewrite E. cbn -[collect_chain write_received list_block].
  rewrite write_received_run, list_block_new by done. by destruct (_ =? 0).
Qed.

(** The blocks are taken as they come: neither their hashes nor their parents
    are compared with anything. *)
Lemma collect_chain_run bs g ans fuel b0 acc m :
  (length bs < fuel)%nat -> NoDup (map blk_Hash (bs ++ [g])) ->
  (forall b, b ∈ bs ++ [g] -> blk_Hash b ∉ map blk_Hash (stash m)) ->
  (forall b, b ∈ bs -> blk_Height b <> 0) -> blk_Height g = 0 ->
  (forall l, last acc = Some l -> blk_Hash l ∉ map blk_Hash (bs ++ [g])) ->
  exists m', collect_chain fuel (map Some (bs ++ [g]) ++ ans) b0 acc m = Done ((acc ++ bs ++ [g], ans), m') /\
    ledger m' = ledger m /\ chain m' = chain m /\ db m' = foldl received (db m) (bs ++ [g]).
Proof.
  revert fuel b0 acc m. induction bs as [|b bs IH]; intros [|fuel] b0 acc m Hf Hnd Hs Hh Hg Hl; cbn in Hf; try lia.
  - destruct (collect_step fuel g ans b0 acc m) as (m1 & E & H1 & H2 & H3 & _); [apply Hs; by left| |].
    { intros l Hla E. apply (Hl l Hla). rewrite E. by left. }
    exists m1. cbn [app map]. rewrite E, Hg. done.
  - apply NoDup_cons in Hnd as [Hnb Hnd].
    destruct (collect_step fuel b (map Some (bs ++ [g]) ++ ans) b0 acc m) as (m1 & E & H1 & H2 & H3 & H4); [apply Hs; by left| |].
    { intros l Hla E. apply (Hl l Hla). rewrite E. by left. }
    cbn [app map]. rewrite E, (proj2 (Z.eqb_neq _ _)) by (apply Hh; by left).
    destruct (IH fuel b (acc ++ [b]) m1) as (m' & E' & L1 & L2 & L3); [lia|done| |intros; apply Hh; by right|done| |].
    + intros x Hx (y & Exy & Hy)%list_elem_of_fmap. apply H4 in Hy as [->|Hy].
      * apply Hnb. rewrite <-Exy. by apply list_elem_of_fmap_2.
      * apply (Hs x); [by right|]. apply list_elem_of_fmap. by exists y.
    + intros l. rewrite last_snoc. intros [= <-]. done.
    + exists m'. rewrite E', <-app_assoc. split; [done|]. rewrite L1, L2, L3, H1, H2, H3. done.
Qed.
(** Without an answer, and without the parent in the stash, the requests are
    repeated for ever. *)
Lemma sync_waits fuel b acc m : find_block (blk_PrevHash b) (stash m) = None ->
  collect_chain fuel [] b acc m = Timeout.
Proof.
  intros H. induction fuel as [|fuel IH]; [done|]. cbn [collect_chain]. unfold receive_parent, mbind, M_bind.
  cbn -[collect_chain find_block]. fold (stash m). by rewrite H.
Qed.

Definition kept (d : Buckets) (b : Block) : Prop :=
  if blk_Aggregated b then closedblockswithouttx d !! blk_HashWithoutTx b = Some (Block_persist b)
  else closedblocks d !! blk_Hash b = Some (Block_persist b).

Lemma received_keeps d b b' : kept d b' -> blk_Hash b <> blk_Hash b' -> blk_HashWithoutTx b <> blk_HashWithoutTx b' ->
  kept (received d b) b'.
Proof.
  unfold kept, received. intros H ??. destruct (blk_Aggregated b), (blk_Aggregated b'); cbn; by rewrite ?lookup_insert_ne.
Qed.

Lemma received_kept d b : kept (received d b) b.
Proof. unfold kept, received. destruct (blk_Aggregated b); cbn; by rewrite lookup_insert_eq. Qed.

Lemma all_received_kept l d : NoDup (map blk_Hash l) -> NoDup (map blk_HashWithoutTx l) ->
  forall b, b ∈ l -> kept (foldl received d l) b.
Proof.
  induction l as [|b l IH] using rev_ind; [intros _ _ b []%elem_of_nil|].
  rewrite !map_app, foldl_app. intros (H1 & H1' & _)%NoDup_app (H2 & H2' & _)%NoDup_app x [Hx|Hx]%elem_of_app.
  - apply received_keeps; [by apply IH| |]; intros E.
    + apply (H1' (blk_Hash x)); [by apply list_elem_of_fmap_2|]. rewrite <-E. by left.
    + apply (H2' (blk_HashWithoutTx x)); [by apply list_elem_of_fmap_2|]. rewrite <-E. by left.
  - apply list_elem_of_singleton in Hx as ->. apply received_kept.
Qed.

(** The first synchronisation.  A node that joins and is sent the last
    block, then others, of heights above zero, down to one of height zero, in
    [walk_fuel] answers and none of them twice, takes exactly these blocks in
    this order and keeps each of them among the closed ones.  That the blocks
    are linked is not among the hypotheses: whatever arrives is taken. *)
Theorem sync_collects b0 bs g ans m :
  (length bs < walk_fuel env)%nat ->
  NoDup (map blk_Hash (b0 :: bs ++ [g])) -> NoDup (map blk_HashWithoutTx (bs ++ [g])) ->
  (forall b, b ∈ b0 :: bs ++ [g] -> blk_Hash b ∉ map blk_Hash (stash m)) ->
  (forall b, b ∈ bs -> blk_Height b <> 0) -> blk_Height g = 0 ->
  exists m', request_chain env (map Some (b0 :: bs ++ [g]) ++ ans) m = Done ((inr (b0 :: bs ++ [g]), ans), m') /\
    ledger m' = ledger m /\ chain m' = chain m /\
    lastclosedblock (db m') !! blk_Hash b0 = Some (Block_persist b0) /\
    forall b, b ∈ bs ++ [g] -> kept (db m') b.
Proof.
  intros Hf [Hn0 Hnd]%NoDup_cons Hnd' Hs Hh Hg.
  destruct (hand_over_fresh b0 (map Some (bs ++ [g]) ++ ans) m) as (m1 & E & (Hle & Hd & Hc) & Hs1); [apply Hs; by left|].
  set (d := upd_lastclosedblock (insert (blk_Hash b0) (Block_persist b0))
              (upd_closedblocks (insert (blk_Hash b0) (Block_persist b0)) (db m1))).
  destruct (collect_chain_run bs g ans (walk_fuel env) b0 [b0] (upd_db (fun _ => d) m1)) as (m' & E' & L1 & L2 & L3);
    [lia|done| |done|done|by intros l [= <-]|].
  { intros b Hb (y & Exy & Hy)%list_elem_of_fmap. apply Hs1 in Hy as [->|Hy].
    - apply Hn0. rewrite <-Exy. by apply list_elem_of_fmap_2.
    - apply (Hs b); [by right|]. apply list_elem_of_fmap. by exists y. }
  exists m'. unfold request_chain, mbind, M_bind. cbn [app map]. rewrite E.
  cbn -[collect_chain]. unfold on_db. cbn -[collect_chain].
  change (collect_chain _ _ _ _ _) with (collect_chain (walk_fuel env) (map Some (bs ++ [g]) ++ ans) b0 [b0] (upd_db (fun _ => d) m1)).
  rewrite E'. cbn. rewrite L1, L2, L3. cbn. split; [done|]. split; [done|]. split; [done|]. split; [|by apply all_received_kept].
  assert (Hlast : forall l x, lastclosedblock (foldl received x l) = lastclosedblock x).
  { induction l as [|b l IH]; intros x; [done|]. cbn. rewrite IH. unfold received. by destruct (blk_Aggregated b). }
  rewrite Hlast. apply lookup_insert_eq.
Qed.
(** ** The replay *)

Lemma replay_block_last b ans m ans' m' : replay_block env b ans m = Done ((None, ans'), m') ->
  lastBlock (chain m') = Some b.
Proof.
  unfold replay_block. destruct (bool_decide _).
  { intros H. apply bind_inv in H as (u & m1 & H%postValidate_last & [= _ <-]). exact H. }
  intros H. apply bind_inv in H as ([ [e|] a1] & k1 & _ & H); [done|].
  apply bind_inv in H as ([ [e|] s] & k2 & _ & H); [done|].
  apply bind_inv in H as (data & k3 & Hd & H). apply bind_inv in H as ([e|] & k4 & _ & H); [done|].
  apply bind_inv in H as (u & k5 & H%postValidate_last & [= _ <-]). rewrite H. f_equal.
  unfold block_data in Hd. do 6 (apply bind_inv in Hd as (? & ? & _ & Hd)). by injection Hd as <- _.
Qed.

Lemma replay_last blocks b ans m ans' m' : replay env blocks ans m = Done ((None, ans'), m') ->
  last blocks = Some b -> lastBlock (chain m') = Some b.
Proof.
  revert ans m. induction blocks as [|b1 blocks IH]; intros ans m H Hl; [done|].
  cbn [replay] in H. apply bind_inv in H as ([ [e|] ans1] & m1 & H1 & H); [done|].
  destruct blocks as [|b2 blocks].
  - injection Hl as ->. injection H as <- <-. by eapply replay_block_last.
  - by eapply IH.
Qed.

Lemma raise_last_run blocks m l : lastBlock (chain m) = Some l ->
  exists m' l', raise_last blocks m = Done (tt, m') /\ lastBlock (chain m') = Some l' /\
    (l' = l \/ l' ∈ blocks) /\ blk_Height l <= blk_Height l' /\ forall b, b ∈ blocks -> blk_Height b <= blk_Height l'.
Proof.
  revert m l. induction blocks as [|b blocks IH]; intros m l Hl.
  { exists m, l. split_and!; [done|done|by left|lia|]. intros b []%elem_of_nil. }
  cbn [raise_last]. unfold mbind, M_bind, gets. rewrite Hl. cbn -[raise_last]. destruct (blk_Height l <? blk_Height b) eqn:E.
  - destruct (IH (upd_chain (upd_lastBlock (fun _ => Some b)) m) b eq_refl) as (m' & l' & H1 & H2 & H3 & H4 & H5).
    exists m', l'. split; [exact H1|]. split; [done|]. apply Z.ltb_lt in E. split; [|split; [lia|]].
    + right. destruct H3 as [->|]; [by left|by right].
    + intros x [->|Hx]%elem_of_cons; [done|by apply H5].
  - destruct (IH m l Hl) as (m' & l' & H1 & H2 & H3 & H4 & H5). exists m', l'. split; [exact H1|]. split; [done|].
    apply Z.ltb_ge in E. split; [|split; [lia|]].
    + destruct H3 as [->|]; [by left|right; by right].
    + intros x [->|Hx]%elem_of_cons; [lia|by apply H5].
Qed.

Lemma highest_spec b blocks : (highest b blocks = b \/ highest b blocks ∈ blocks) /\
  blk_Height b <= blk_Height (highest b blocks) /\ forall x, x ∈ blocks -> blk_Height x <= blk_Height (highest b blocks).
Proof.
  revert b. induction blocks as [|c blocks IH]; intros b; cbn.
  { split; [by left|]. split; [lia|]. intros x []%elem_of_nil. }
  specialize (IH (if blk_Height b <? blk_Height c then c else b)) as (H1 & H2 & H3). fold (highest (if blk_Height b <? blk_Height c then c else b) blocks).
  split; [|split].
  - destruct H1 as [->|]; [|right; by right]. destruct (_ <? _); [right; by left|by left].
  - destruct (blk_Height b <? blk_Height c) eqn:E; [apply Z.ltb_lt in E|]; lia.
  - intros x [->|Hx]%elem_of_cons; [|auto]. destruct (blk_Height b <? blk_Height c) eqn:E; [|apply Z.ltb_ge in E]; lia.
Qed.

(** The list starts with the answer to the first request. *)
Lemma collect_chain_cons fuel ans b l m r m' : collect_chain fuel ans b l m = Done (r, m') -> l <> [] -> fst r <> [].
Proof.
  revert ans b l m. induction fuel as [|fuel IH]; intros ans b l m; cbn [collect_chain]; [done|].
  intros H Hl. apply bind_inv in H as ([ [c|] ans1] & m1 & _ & H); [|by eapply IH].
  apply bind_inv in H as ([] & m2 & _ & H).
  assert (Hlist : list_block l c <> []).
  { unfold list_block. destruct (last l); [destruct (bool_decide _); [done|]|]; by intros [? ?]%app_nil. }
  destruct (blk_Height c =? 0); [by injection H as <- <-|by eapply IH].
Qed.

Lemma request_chain_cons ans m ans1 m1 : request_chain env ans m = Done ((inr [], ans1), m1) -> False.
Proof.
  unfold request_chain. intros H. apply bind_inv in H as ([ [c|] ans2] & m2 & _ & H); [|done].
  apply bind_inv in H as ([] & m3 & _ & H). apply bind_inv in H as ([] & m4 & _ & H).
  apply bind_inv in H as ([l ans3] & m5 & Hc & H). injection H as El _ _. cbn in El.
  by apply collect_chain_cons in Hc; [rewrite El in Hc|].
Qed.

(** C18: where a start ends.  When [initState] succeeds it has replayed a list
    of blocks without an error, in this order: the first node the closed blocks
    of its database, or a genesis block of hash zero if there are none; another
    one those that [request_chain] got from the network, the last received
    first.  The block that it returns, on which the node will build, is one of
    them and the highest, and the current block is one of them and as high. *)
Theorem start_highest ans m b m' : initState sign env ans m = Done (inr b, m') ->
  exists blocks l ans1 m1 ans2 m2,
    (if IsBootstrap env then
       blocks ≡ₚ read_all_closed_blocks m \/ read_all_closed_blocks m = [] /\ exists proof, blocks = [genesis proof]
     else request_chain env ans m = Done ((inr blocks, ans1), m1)) /\
    replay env (if IsBootstrap env then blocks else rev blocks) ans1 m1 = Done ((None, ans2), m2) /\
    b ∈ blocks /\ (forall x, x ∈ blocks -> blk_Height x <= blk_Height b) /\
    lastBlock (chain m') = Some l /\ l ∈ blocks /\ blk_Height l = blk_Height b.
Proof.
  unfold initState. intros H. apply bind_inv in H as ([ [e|all] a0] & m1 & Hall & H); [done|].
  apply bind_inv in H as ([e|[b0 blocks] ] & m2 & Hst & H); [done|].
  change (InvertBlockArray blocks) with (rev blocks) in H.
  set (order := if IsBootstrap env then blocks else rev blocks) in H.
  assert (Ho : order ≡ₚ blocks) by (unfold order; destruct (IsBootstrap env); [done|by rewrite <-Permutation_rev]).
  assert (Hb0 : b0 ∈ blocks /\ (forall x, x ∈ blocks -> blk_Height x <= blk_Height b0) /\
    (blocks = all /\ m2 = m1 \/ all = [] /\ exists proof, blocks = [genesis proof])).
  { destruct all as [|c all].
    - destruct (sign _) as [e|sig]; [done|]. apply bind_inv in Hst as (? & k & _ & Hst). apply bind_inv in Hst as (? & k2 & _ & [= <- <- _]).
      split; [by left|]. split; [intros y Hy; apply list_elem_of_singleton in Hy as ->; lia|]. right. split; [done|]. by eexists.
    - injection Hst as <- <- <-. destruct (highest_spec c (c :: all)) as (Hi & _ & Hx). split; [|split; [exact Hx|by left]].
      change (highest c (c :: all) ∈ c :: all). destruct Hi as [->|Hi]; [by left|exact Hi]. }
  destruct Hb0 as (Hin & Hmax & Hwhere).
  apply bind_inv in H as ([ [e|] ans2] & m3 & Hr & H); [done|]. cbn [fst] in H.
  assert (exists z, last order = Some z) as [z Hz].
  { destruct (last order) eqn:E; [by eexists|]. apply last_None in E. rewrite <-Ho, E in Hin. by apply elem_of_nil in Hin. }
  pose proof (replay_last _ _ _ _ _ _ Hr Hz) as Hl. destruct (raise_last_run order m3 z Hl) as (m4 & l & E4 & Hl4 & Hi4 & _ & Hm4).
  unfold mbind, M_bind in H. rewrite E4 in H. injection H as <- <-.
  assert (Hlo : l ∈ order) by (destruct Hi4 as [->|]; [by apply last_Some_elem_of|done]).
  exists blocks, l, a0, m2, ans2, m3. split; [|split; [exact Hr|split; [done|split; [done|split; [done|split; [by rewrite <-Ho|] ] ] ] ] ].
  - destruct (IsBootstrap env).
    + apply bind_inv in Hall as (l0 & k & Hread & [= <- <- _]).
      unfold ReadAllClosedBlocks in Hread. apply bind_inv in Hread as (bs & k1 & [= <- <-] & [Hsort _]%of_option_inv).
      apply sort_perm in Hsort. destruct Hwhere as [ [-> _]|[-> ?] ]; [by left|right].
      split; [|done]. by apply Permutation_nil_l in Hsort.
    + destruct Hwhere as [ [-> ->]|[-> _] ]; [exact Hall|]. by apply request_chain_cons in Hall.
  - apply Z.le_antisymm; [apply Hmax; by rewrite <-Ho|apply Hm4; by rewrite Ho].
Qed.
(** ** The first start *)

Context {ML : MapOrderLaws}.

Lemma read_no_blocks m : lastclosedblock (db m) = ∅ -> ReadAllClosedBlocks m = Done ([], m).
Proof.
  intros H. unfold ReadAllClosedBlocks, mbind, M_bind, gets, read_all_closed_blocks. rewrite H.
  change (ForEach ∅) with (@nil (hash * Block)).
  destruct (sort_total height_less []) as [l Hl]; [intros x y []%elem_of_nil|]. unfold ReadAllClosedBlocks. rewrite Hl.
  by apply sort_perm, Permutation_nil_r in Hl as ->.
Qed.

Lemma close_nothing m : bootstrapReceivedMemPool (pool m) = ∅ ->
  exists m', close_bootstrap m = Done (tt, m') /\ pool_only m m'.
Proof.
  intros H. unfold close_bootstrap, mbind, M_bind, ReadAllBootstrapReceivedTransactions, gets. rewrite H.
  pose proof (range_perm (∅ : gmap bytes Transaction)) as Hp. rewrite map_to_list_empty in Hp.
  apply Permutation_nil_r in Hp. rewrite Hp. cbn. by eexists.
Qed.

(** The genesis block is only counted, and becomes the current block. *)
Lemma genesis_replayed proof ans m : IsBootstrap env = true -> localBlockCount (chain m) = -1 ->
  activeParameters (chain m) = NewDefaultParameters ->
  exists m', replay env [genesis proof] ans m = Done ((None, ans), m') /\ lastBlock (chain m') = Some (genesis proof) /\
    db m' = db m /\ ledger m' = ledger m /\ pool m' = pool m /\ target (chain m') = target (chain m) /\
    activeParameters (chain m') = activeParameters (chain m).
Proof.
  intros Hb Hl Ha. unfold replay, replay_block. rewrite bool_decide_eq_true_2 by reflexivity.
  unfold postValidate. rewrite Hb. cbn [block configTxSlice negb orb].
  unfold configStateChange, collectStatistics, on_chain, modify, gets, mbind, M_bind, mret, M_ret.
  cbn [chain upd_chain upd_globalBlockCount upd_localBlockCount localBlockCount activeParameters]. rewrite Hl, Ha.
  change (to_int64 (DiffInterval NewDefaultParameters) <=? to_int64 (-1 + 1)) with false. cbn. by eexists.
Qed.

(** C19: the first start.  The first node, with an empty database, comes up
    with a genesis block of hash zero and height zero that carries the proof
    of the root key, stored as closed and as last block and set as the current
    one; with the root account as its only account, staking, with the staking
    minimum as its balance; with the default parameters and a difficulty of
    13; and with a block of height one on top to work on. *)
Theorem first_start rootWallet params ans d sig :
  IsBootstrap env = true -> lastclosedblock d = ∅ -> sign (sha256 (fmt_int 10 0)) = inr sig ->
  let g := genesis (take COMM_PROOF_LENGTH (sig ++ zeros COMM_PROOF_LENGTH)) in
  let root := SerializeHashContent (VBytes rootWallet) in
  exists m' acc, Init sign env rootWallet params ans (fresh d)
      = Done (inr (newBlock zero_hash zero_hash (zeros COMM_PROOF_LENGTH) 1), m') /\
    lastBlock (chain m') = Some g /\ blk_Height g = 0 /\
    db m' = upd_closedblocks (insert zero_hash (Block_persist g)) (upd_lastclosedblock (insert zero_hash (Block_persist g)) d) /\
    State (ledger m') = {[root := acc]} /\ acc_Balance acc = STAKING_MINIMUM /\ acc_IsStaking acc = true /\
    RootKeys (ledger m') = {[root := rootWallet]} /\
    target (chain m') = [13] /\ activeParameters (chain m') = NewDefaultParameters.
Proof.
  intros Hb Hd Hsig g root.
  set (m0 := upd_chain (upd_target (fun l => l ++ [13])) (upd_chain (upd_currentTargetTime (fun _ => mkTimerange 0 0))
     (snd (match initRootKey rootWallet params (fresh d) with Done x => x | _ => (tt, fresh d) end)))).
  assert (E0 : Init sign env rootWallet params ans (fresh d) = (r ← initState sign env ans; match (r : string + Block) with
    | inl e => mret (inl e)
    | inr b => close_bootstrap;; mret (inr (newBlock (blk_Hash b) (blk_HashWithoutTx b) (zeros COMM_PROOF_LENGTH) (u32 (blk_Height b + 1))))
    end) m0) by reflexivity.
  rewrite E0. clear E0. unfold initState. rewrite Hb, Hsig. fold g.
  unfold mbind, M_bind. rewrite read_no_blocks by exact Hd.
  unfold mret, M_ret, WriteLastClosedBlock, WriteClosedBlock, on_db, modify.
  cbv beta iota zeta. fold g.
  match goal with |- context [replay env [g] ans ?m] =>
    destruct (genesis_replayed (take COMM_PROOF_LENGTH (sig ++ zeros COMM_PROOF_LENGTH)) ans m) as (m1 & E & H1 & H2 & H3 & H4 & H5 & H6);
    [exact Hb|reflexivity|reflexivity|] end.
  fold g in E, H1. rewrite E. cbn [fst].
  assert (Er : raise_last [g] m1 = Done (tt, m1)).
  { cbn [raise_last]. unfold mbind, M_bind, gets. rewrite H1. unfold of_option, mret, M_ret. rewrite (proj2 (Z.ltb_ge (blk_Height g) (blk_Height g))) by lia. done. }
  rewrite Er. destruct (close_nothing m1) as (m2 & E2 & L1 & L2 & L3); [by rewrite H4|].
  unfold mret, M_ret. rewrite E2. eexists m2, _. split; [reflexivity|]. rewrite L1, L2, L3, H1, H2, H3, H5, H6.
  repeat (split; [reflexivity|]). done.
Qed.

End sync.

(** ** Witnesses *)

Section witnesses.
Import Toy Mine Small Fork Chains.


Definition joining : Miner := with_blocks [] g [] (miner [] []).

Lemma sync_collects_witness : exists m',
  request_chain env [Some a2; Some a1; Some g] joining = Done ((inr [a2; a1; g], []), m') /\ kept (db m') a1.
Proof.
  destruct (sync_collects env a2 [a1] g [] joining) as (m' & H & _ & _ & _ & Hk).
  - vm_compute. repeat constructor.
  - apply (bool_decide_unpack _). vm_compute. exact I.
  - apply (bool_decide_unpack _). vm_compute. exact I.
  - intros b _ Hb. vm_compute in Hb. apply elem_of_nil in Hb. exact Hb.
  - intros b Hb. apply list_elem_of_singleton in Hb as ->. vm_compute. discriminate.
  - reflexivity.
  - exists m'. split; [exact H|]. apply Hk. left.
Defined.

Definition first_env : surroundings := mkSurroundings (fun _ => 0) (fun _ => 0) no_net true 20.
Definition signer (h : bytes) : string + bytes := inr (zeros 256).

Definition started {A B} (r : outcome ((A + B) * Miner)) : bool :=
  match r with Done (inr _, _) => true | _ => false end.

Lemma started_done {A B} (r : outcome ((A + B) * Miner)) : started r = true -> exists b m, r = Done (inr b, m).
Proof. destruct r as [ [ [a|b] m]| |]; try done. intros _. by exists b, m. Qed.

(** A genesis block and a block over it. *)
Definition stopped : Miner := with_blocks [genesis (zeros 256); next] next [] (miner [(3, 10000, true)] []).

(** A node that knows the validator and is sent the two blocks. *)
Definition newcomer : Miner := miner [(3, 10000, true)] [].
Definition sent : answers := [Some next; Some (genesis (zeros 256))].

Lemma start_highest_witness :
  (exists b m' l, initState signer first_env [] stopped = Done (inr b, m') /\
    lastBlock (chain m') = Some l /\ blk_Height l = blk_Height b) /\
  (exists b m' blocks ans1 m1, initState signer env sent newcomer = Done (inr b, m') /\
    request_chain env sent newcomer = Done ((inr blocks, ans1), m1) /\ b ∈ blocks).
Proof.
  split.
  - destruct (started_done (initState signer first_env [] stopped)) as (b & m' & H); [vm_compute; reflexivity|].
    destruct (start_highest signer first_env [] stopped b m' H) as (blocks & l & _ & _ & _ & _ & _ & _ & _ & _ & Hl & _ & Hh).
    exists b, m', l. split; [exact H|]. split; [exact Hl|exact Hh].
  - destruct (started_done (initState signer env sent newcomer)) as (b & m' & H); [vm_compute; reflexivity|].
    destruct (start_highest signer env sent newcomer b m' H) as (blocks & l & ans1 & m1 & _ & _ & Hr & _ & Hb & _).
    exists b, m', blocks, ans1, m1. split; [exact H|]. split; [exact Hr|exact Hb].
Defined.

Lemma first_start_witness : exists m' b, Init signer first_env (addr 1) (Some keys) [] (fresh no_buckets) = Done (inr b, m') /\
  RootKeys (ledger m') = {[key 1 := addr 1]}.
Proof.
  destruct (first_start signer first_env (addr 1) (Some keys) [] no_buckets (zeros 256)) as (m' & acc & H & _ & _ & _ & _ & _ & _ & Hr & _).
  - reflexivity.
  - reflexivity.
  - reflexivity.
  - exists m'. eexists. split; [exact H|exact Hr].
Defined.
End witnesses.
