(* ===== verification/Base64.v ===== *)
(** * encoding/base64: the text of the RSA keys

    [base64.StdEncoding] as crypto/commitment.go uses it: the alphabet with
    [+] and [/], padding with [=], line breaks skipped when decoding. *)

From S2P Require Import Prelude.

Definition equals_sign : byte := mkb 61.

Definition b64_char (d : Z) : byte :=
  if d <? 26 then mkb (65 + d)
  else if d <? 52 then mkb (71 + d)
  else if d <? 62 then mkb (d - 4)
  else if d =? 62 then mkb 43
  else mkb 47.

Definition b64_value (c : byte) : option Z :=
  let v := bval c in
  if (65 <=? v) && (v <=? 90) then Some (v - 65)
  else if (97 <=? v) && (v <=? 122) then Some (v - 71)
  else if (48 <=? v) && (v <=? 57) then Some (v + 4)
  else if v =? 43 then Some 62
  else if v =? 47 then Some 63
  else None.

(** The [i]-th digit in base 64 of a 24-bit number, the first the highest. *)
Definition b64_digit (v : Z) (i : Z) : byte := b64_char (v / 2 ^ (18 - 6 * i) mod 64).

(** [EncodeToString] *)
Fixpoint b64_encode (s : bytes) : bytes :=
  match s with
  | a :: b :: c :: rest =>
      let v := bval a * 65536 + bval b * 256 + bval c in
      b64_digit v 0 :: b64_digit v 1 :: b64_digit v 2 :: b64_digit v 3 :: b64_encode rest
  | [a; b] =>
      let v := bval a * 65536 + bval b * 256 in
      [b64_digit v 0; b64_digit v 1; b64_digit v 2; equals_sign]
  | [a] =>
      let v := bval a * 65536 in
      [b64_digit v 0; b64_digit v 1; equals_sign; equals_sign]
  | [] => []
  end.

(** Groups of four; the last one may be padded. *)
Fixpoint b64_groups (s : bytes) : option bytes :=
  match s with
  | [] => Some []
  | c0 :: c1 :: c2 :: c3 :: rest =>
      d0 ← b64_value c0;
      d1 ← b64_value c1;
      if bool_decide (c2 = equals_sign) then
        if bool_decide (c3 = equals_sign) && bool_decide (rest = []) then Some [mkb ((d0 * 64 + d1) / 16)] else None
      else
        d2 ← b64_value c2;
        let v2 := (d0 * 64 + d1) * 64 + d2 in
        if bool_decide (c3 = equals_sign) then
          if bool_decide (rest = []) then Some [mkb (v2 / 1024); mkb (v2 / 4 mod 256)] else None
        else
          d3 ← b64_value c3;
          let v := v2 * 64 + d3 in
          rest ← b64_groups rest;
          Some (mkb (v / 65536) :: mkb (v / 256 mod 256) :: mkb (v mod 256) :: rest)
  | _ => None
  end.

Definition line_break (c : byte) : bool := bool_decide (c = Byte.x0a) || bool_decide (c = Byte.x0d).

(** [DecodeString] *)
Definition b64_decode (s : bytes) : option bytes := b64_groups (List.filter (fun c => negb (line_break c)) s).

(** ** The round trip *)

Lemma b64_value_char d : 0 <= d < 64 -> b64_value (b64_char d) = Some d.
Proof.
  intros Hd. unfold b64_value, b64_char.
  repeat case_match; rewrite ?bval_mkb in * by lia; rewrite ?andb_true_iff, ?andb_false_iff, ?Z.leb_le, ?Z.leb_gt, ?Z.ltb_lt, ?Z.ltb_ge, ?Z.eqb_eq, ?Z.eqb_neq in *; try (f_equal; lia); exfalso; lia.
Qed.

Lemma b64_digit_value v i : b64_value (b64_digit v i) = Some (v / 2 ^ (18 - 6 * i) mod 64).
Proof. apply b64_value_char. apply Z.mod_pos_bound. lia. Qed.

Lemma b64_digit_padding v i : b64_digit v i <> equals_sign.
Proof. intros E. pose proof (b64_digit_value v i) as H. rewrite E in H. vm_compute in H. discriminate H. Qed.

Lemma b64_digit_line v i : line_break (b64_digit v i) = false.
Proof.
  pose proof (b64_digit_value v i) as H. unfold line_break.
  rewrite !bool_decide_eq_false_2; [done|intros E; rewrite E in H; vm_compute in H; discriminate H..].
Qed.

(** A number of 24 bits from its digits in base 64, the last ones left out. *)
Lemma b64_two v : 0 <= v < 2 ^ 24 -> v / 2 ^ 18 mod 64 * 64 + v / 2 ^ 12 mod 64 = v / 2 ^ 12.
Proof.
  intros Hv. change (2 ^ 18) with (2 ^ 12 * 64). rewrite <-Z.div_div by lia.
  pose proof (Z.div_mod (v / 2 ^ 12) 64). rewrite (Z.mod_small (v / 2 ^ 12 / 64)); [lia|].
  rewrite Z.div_div by lia. split; [apply Z.div_pos|apply Z.div_lt_upper_bound]; lia.
Qed.

Lemma b64_three v : 0 <= v < 2 ^ 24 ->
  (v / 2 ^ 18 mod 64 * 64 + v / 2 ^ 12 mod 64) * 64 + v / 2 ^ 6 mod 64 = v / 2 ^ 6.
Proof.
  intros Hv. rewrite b64_two by done. change (2 ^ 12) with (2 ^ 6 * 64). rewrite <-Z.div_div by lia.
  pose proof (Z.div_mod (v / 2 ^ 6) 64). lia.
Qed.

Lemma b64_four v : 0 <= v < 2 ^ 24 ->
  ((v / 2 ^ 18 mod 64 * 64 + v / 2 ^ 12 mod 64) * 64 + v / 2 ^ 6 mod 64) * 64 + v / 2 ^ 0 mod 64 = v.
Proof.
  intros Hv. rewrite b64_three by done. change (2 ^ 6) with 64. change (2 ^ 0) with 1. rewrite Z.div_1_r.
  pose proof (Z.div_mod v 64). lia.
Qed.

Lemma mkb_val z b : z = bval b -> mkb z = b.
Proof. intros ->. apply byte.of_Z_unsigned. Qed.

(** Induction by three bytes. *)
Lemma bytes_ind3 (P : bytes -> Prop) : P [] -> (forall a, P [a]) -> (forall a b, P [a; b]) ->
  (forall a b c s, P s -> P (a :: b :: c :: s)) -> forall s, P s.
Proof.
  intros H0 H1 H2 H3. fix IH 1. intros [|a [|b [|c s] ] ]; [done|apply H1|apply H2|]. apply H3, IH.
Qed.

Lemma b64_lines s : Forall (fun c => line_break c = false) (b64_encode s).
Proof.
  induction s as [|a|a b|a b c s IH] using bytes_ind3; cbn [b64_encode]; repeat constructor;
    solve [apply b64_digit_line|reflexivity|done].
Qed.

Lemma b64_groups_encode s : b64_groups (b64_encode s) = Some s.
Proof.
  induction s as [|a|a b|a b c s IH] using bytes_ind3; cbn [b64_encode b64_groups]; [done|..];
    rewrite !b64_digit_value; cbn [mbind option_bind];
    rewrite ?(bool_decide_eq_false_2 (b64_digit _ _ = equals_sign)) by apply b64_digit_padding;
    change (18 - 6 * 0) with 18; change (18 - 6 * 1) with 12; change (18 - 6 * 2) with 6; change (18 - 6 * 3) with 0;
    rewrite ?(bool_decide_eq_true_2 (equals_sign = equals_sign)) by done; cbn [andb]; rewrite ?b64_digit_value; cbn [mbind option_bind].
  - pose proof (bval_range a). rewrite b64_two by lia. do 2 f_equal. apply mkb_val. rewrite Z.div_div by lia.
    change (2 ^ 12 * 16) with 65536. apply Z.div_mul. lia.
  - pose proof (bval_range a). pose proof (bval_range b). rewrite b64_three by lia.
    f_equal. f_equal; [|f_equal]; apply mkb_val; rewrite !Z.div_div by lia; change (2 ^ 6) with 64; Z.to_euclidean_division_equations; lia.
  - rewrite IH. cbn [mbind option_bind].
    pose proof (bval_range a). pose proof (bval_range b). pose proof (bval_range c).
    rewrite b64_four by lia. f_equal. f_equal; [|f_equal; [|f_equal] ]; apply mkb_val; Z.to_euclidean_division_equations; lia.
Qed.

Theorem b64_roundtrip s : b64_decode (b64_encode s) = Some s.
Proof.
  unfold b64_decode. rewrite <-(b64_groups_encode s). f_equal.
  pose proof (b64_lines s) as H. induction H as [|c l Hc _ IH]; [done|]. cbn. rewrite Hc. cbn. by rewrite IH.
Qed.
