(* ===== verification/KeyFiles.v ===== *)
(** * crypto/keypair.go, crypto/commitment.go: keys and their files

    The ECDSA keys, the RSA commitment keys and the chameleon-hash parameters
    as text files. The state is the directory: a map from file names to
    contents. What the operating system refuses, the generated keys and the
    signatures of the standard library are parameters. *)

From S2P Require Import Prelude Format Chameleon Protocol Node Base64 Verify Validate.

(** ** Files *)

Abbreviation Files := (gmap bytes bytes).

(** The errors of the operating system for a file, if it refuses. *)
Class Disk := {
  open_error : bytes -> error;
  create_error : bytes -> error;
  write_error : bytes -> error
}.

Definition newline : byte := Byte.x0a.

(** [os.Stat] and [os.IsNotExist] *)
Definition exists_file (filename : bytes) : M Files bool := gets (fun fs => bool_decide (is_Some (fs !! filename))).

Section files.
Context {DK : Disk}.

Definition os_Open (filename : bytes) : M Files (string + bytes) :=
  match open_error filename with
  | Some e => mret (inl e)
  | None =>
      c ← gets (fun fs => fs !! filename);
      mret (match c with Some s => inr s | None => inl "no such file or directory"%string end)
  end.

(** The file is emptied if it exists. *)
Definition os_Create (filename : bytes) : M Files error :=
  match create_error filename with
  | Some e => mret (Some e)
  | None => modify (insert filename []);; mret None
  end.

Definition WriteString (filename s : bytes) : M Files error :=
  match write_error filename with
  | Some e => mret (Some e)
  | None => modify (alter (fun c => c ++ s) filename);; mret None
  end.
End files.

(** ** Reading lines *)

(** The text up to the first line break, and what follows it. *)
Fixpoint cut_line (s : bytes) : bytes * option bytes :=
  match s with
  | [] => ([], None)
  | c :: s => if bool_decide (c = newline) then ([], Some s) else let r := cut_line s in (c :: fst r, snd r)
  end.

(** [reader.ReadString] without the delimiter, which the callers split off;
    the end of the file before it is an error. *)
Definition ReadString (reader : bytes) : bytes * error * bytes :=
  match cut_line reader with
  | (l, Some rest) => (l, None, rest)
  | (l, None) => (l, Some "EOF"%string, [])
  end.

(** bufio.Scanner: lines without a carriage return at their end; the last one
    need not be terminated. A line that does not fit the buffer ends the scan
    with an error. *)
Definition drop_cr (l : bytes) : bytes :=
  match last l with Some Byte.x0d => removelast l | _ => l end.

Fixpoint scan_lines (fuel : nat) (s : bytes) : list bytes * error :=
  match fuel, s with
  | O, _ | _, [] => ([], None)
  | S fuel, _ =>
      let '(l, rest) := cut_line s in
      if 65535 <? Z.of_nat (length l) then ([], Some "bufio.Scanner: token too long"%string)
      else
        match rest with
        | Some rest => let '(ls, e) := scan_lines fuel rest in (drop_cr l :: ls, e)
        | None => ([drop_cr l], None)
        end
  end.

Definition Scanner (s : bytes) : list bytes * error := scan_lines (S (length s)) s.

(** [Scan] and [Text]: empty after the last line. *)
Definition nextLine (scanner : list bytes) : bytes * list bytes :=
  match scanner with [] => ([], []) | l :: ls => (l, ls) end.

(** ** ECDSA keys *)

(** A coordinate that could not be read is a nil pointer. *)
Record PublicKey := mkPublicKey { pk_X : option Z; pk_Y : Z }.
Record PrivateKey := mkPrivateKey { key_Public : PublicKey; key_D : Z }.

Definition GetPubKeyFromString (x y : bytes) : PublicKey + string :=
  let pub1Int := parse_int 16 x in
  match parse_int 16 y with
  | None => inr "failed to convert the key strings to big.Int"%string
  | Some pub2Int => inl (mkPublicKey pub1Int pub2Int)
  end.

Definition GetPrivKeyFromString (x y d : bytes) : PrivateKey + string :=
  match GetPubKeyFromString x y with
  | inr e => inr e
  | inl publicKey =>
      match parse_int 16 d with
      | None => inr "failed to convert the key strings to big.Int"%string
      | Some D => inl (mkPrivateKey publicKey D)
      end
  end.

Definition readECDSAPublicKey (reader : bytes) : (PublicKey + string) * bytes :=
  let '(pub1, _, reader) := ReadString reader in
  let '(pub2, err, reader) := ReadString reader in
  match err with
  | Some e => (inr ("Could not read key from file: " +:+ e)%string, reader)
  | None => (GetPubKeyFromString pub1 pub2, reader)
  end.

Definition readECDSAPrivateKey (reader : bytes) : PrivateKey + string :=
  let '(pubKey, reader) := readECDSAPublicKey reader in
  let '(priv, err2, reader) := ReadString reader in
  match pubKey, err2 with
  | inr e, _ => inr ("Could not read key from file: " +:+ e)%string
  | inl _, Some e => inr "Could not read key from file: <nil>"%string
  | inl pubKey, None =>
      match parse_int 16 priv with
      | None => inr "failed to convert the key strings to big.Int"%string
      | Some privInt => inl (mkPrivateKey pubKey privInt)
      end
  end.

(** [ecdsa.Sign] with the numbers it draws. *)
Class Signers := { ecdsa_Sign : PrivateKey -> bytes -> (Z * Z) + string }.

Section ecdsa.
Context {DK : Disk} {SG : Signatures} {SN : Signers}.

Definition testing : bytes := str_bytes "testing".

(** A nil coordinate panics. *)
Definition VerifyECDSAKey (privKey : PrivateKey) : M Files error :=
  match ecdsa_Sign privKey testing with
  | inr _ => mret (Some "the ecdsa key you provided is invalid and cannot sign hashes"%string)
  | inl (r, s) =>
      x ← of_option (pk_X (key_Public privKey));
      if ecdsa_Verify x (pk_Y (key_Public privKey)) testing r s then mret None
      else mret (Some "the ecdsa key you provided is invalid and cannot verify hashes"%string)
  end.

Definition key_line (n : Z) : bytes := fmt_int 16 n ++ [newline].

(** [newKey]: the key of [ecdsa.GenerateKey], nil if it fails, an error that is
    overwritten. *)
Definition createECDSAKeyFile (newKey : option PrivateKey) (filename : bytes) : M Files error :=
  there ← exists_file filename;
  if (there : bool) then mret None
  else
    err ← os_Create filename;
    match err with
    | Some e => mret (Some e)
    | None =>
        newKey ← of_option newKey;
        x ← of_option (pk_X (key_Public newKey));
        err1 ← WriteString filename (key_line x);
        err2 ← WriteString filename (key_line (pk_Y (key_Public newKey)));
        err3 ← WriteString filename (key_line (key_D newKey));
        match err1, err2, err3 with
        | None, None, None => mret None
        | _, _, _ => mret (Some "failed to write key to file"%string)
        end
    end.

Definition create_missing (create : bytes -> M Files error) (filename : bytes) : M Files error :=
  there ← exists_file filename;
  if (there : bool) then mret None else create filename.

(** The key and the error of its check. *)
Definition ExtractECDSAKeyFromFile (newKey : option PrivateKey) (filename : bytes)
    : M Files (option PrivateKey * error) :=
  err ← create_missing (createECDSAKeyFile newKey) filename;
  match err with
  | Some e => mret (None, Some e)
  | None =>
      f ← os_Open filename;
      match f with
      | inl e => mret (None, Some e)
      | inr reader =>
          match readECDSAPrivateKey reader with
          | inr e => mret (None, Some e)
          | inl privKey => err ← VerifyECDSAKey privKey; mret (Some privKey, err)
          end
      end
  end.

Definition GetOrCreateECDSAPublicKeyFromFile (newKey : option PrivateKey) (filename : bytes)
    : M Files (PublicKey + string) :=
  err ← create_missing (createECDSAKeyFile newKey) filename;
  match err with
  | Some e => mret (inr e)
  | None =>
      f ← os_Open filename;
      match f with
      | inl e => mret (inr e)
      | inr reader => mret (fst (readECDSAPublicKey reader))
      end
  end.

(** [log.Fatal] ends the program. *)
Definition ReadFile (filename : bytes) : M Files (list bytes) :=
  f ← os_Open filename;
  match f with
  | inl _ => panic
  | inr s =>
      match Scanner s with
      | (lines, None) => mret lines
      | (_, Some _) => panic
      end
  end.
End ecdsa.

(** ** RSA commitment keys *)

Definition COMM_NOF_PRIMES : nat := 2.

Record RSAPrivateKey := mkRSAKey { rsa_N : Z; rsa_E : Z; rsa_D : Z; rsa_Primes : list Z }.

(** [rsa.SignPKCS1v15] with a given key. *)
Class RSASigners := { rsa_Sign : RSAPrivateKey -> bytes -> bytes + string }.

Definition fromBase64 (encoded : bytes) (err : error) : option Z * error :=
  match err with
  | Some e => (None, Some e)
  | None =>
      match b64_decode encoded with
      | None => (None, Some "illegal base64 data"%string)
      | Some byteArray => (Some (be_val byteArray), None)
      end
  end.

(** An error leaves nil numbers, the last prime always, and [Precompute]
    dereferences the primes. *)
Definition CreateRSAPrivKeyFromBase64 {S} (strModulus strPrivExponent : bytes) (strPrimes : list bytes)
    : M S (RSAPrivateKey * error) :=
  let '(modulus, err) := fromBase64 strModulus None in
  let '(privExponent, err) := fromBase64 strPrivExponent err in
  p0 ← of_option (strPrimes !! 0%nat);
  let '(p0, err) := fromBase64 p0 err in
  p1 ← of_option (strPrimes !! 1%nat);
  let '(p1, err) := fromBase64 p1 err in
  p0 ← of_option p0;
  p1 ← of_option p1;
  modulus ← of_option modulus;
  privExponent ← of_option privExponent;
  mret (mkRSAKey modulus COMM_PUBLIC_EXPONENT privExponent [p0; p1], err).

Definition encode_number (n : Z) : bytes := b64_encode (min_bytes n).

Definition stringifyRSAKey (key : RSAPrivateKey) : bytes :=
  foldl (fun keyString prime => keyString ++ newline :: encode_number prime)
    (encode_number (rsa_N key) ++ newline :: encode_number (rsa_D key)) (rsa_Primes key).

Section rsa.
Context {DG : Digests} {DK : Disk} {CM : Commitments} {RS : RSASigners}.

(** The signature is copied to the start of an array. *)
Definition SignWithRSAKey (privKey : RSAPrivateKey) (msg : bytes) : bytes + string :=
  match rsa_Sign privKey (sha256 msg) with
  | inr e => inr e
  | inl sig => inl (take COMM_PROOF_LENGTH (sig ++ zeros COMM_PROOF_LENGTH))
  end.

Definition VerifyRSAKey (privKey : RSAPrivateKey) : error :=
  let message := str_bytes "Test" in
  match SignWithRSAKey privKey message with
  | inr e => Some ("Could not sign message. Failed with error: " +:+ e)%string
  | inl cipher =>
      if VerifyMessageWithRSAKey (rsa_N privKey, rsa_E privKey) message cipher then None
      else Some "Could not verify message. Failed with error: crypto/rsa: verification error"%string
  end.

(** [key]: the result of [rsa.GenerateMultiPrimeKey]; the file is created
    before it is known. *)
Definition CreateRSAKeyFile (key : RSAPrivateKey + string) (filename : bytes) : M Files error :=
  err ← os_Create filename;
  match err with
  | Some e => mret (Some e)
  | None =>
      match key with
      | inr e => mret (Some e)
      | inl key => WriteString filename (stringifyRSAKey key)
      end
  end.

Definition ExtractRSAKeyFromFile (key : RSAPrivateKey + string) (filename : bytes)
    : M Files (option RSAPrivateKey * error) :=
  err ← create_missing (CreateRSAKeyFile key) filename;
  match err with
  | Some e => mret (None, Some e)
  | None =>
      f ← os_Open filename;
      match f with
      | inl e => mret (None, Some e)
      | inr s =>
          let '(lines, scanErr) := Scanner s in
          let '(strModulus, lines) := nextLine lines in
          let '(strPrivExponent, lines) := nextLine lines in
          let '(p0, lines) := nextLine lines in
          let '(p1, lines) := nextLine lines in
          match scanErr with
          | Some e => mret (None, Some "Could not read key from file: <nil>"%string)
          | None =>
              r ← CreateRSAPrivKeyFromBase64 strModulus strPrivExponent [p0; p1];
              match r with
              | (privKey, Some e) => mret (Some privKey, Some e)
              | (privKey, None) => mret (Some privKey, VerifyRSAKey privKey)
              end
          end
      end
  end.
End rsa.

(** ** Chameleon-hash parameters *)

Section chameleon.
Context {DK : Disk}.

(** What is written is never checked. *)
Definition write_parameters (params : ChameleonHashParameters) (filename : bytes) : M Files error :=
  err ← os_Create filename;
  match err with
  | Some e => mret (Some e)
  | None =>
      WriteString filename (par_G params ++ [newline]);;
      WriteString filename (par_P params ++ [newline]);;
      WriteString filename (par_Q params ++ [newline]);;
      WriteString filename (par_HK params ++ [newline]);;
      WriteString filename (par_TK params ++ [newline]);;
      mret None
  end.

Definition GetParametersFromString (g p q hk tk : bytes) : ChameleonHashParameters := mkCHParams g p q hk tk.

(** [params]: the generated ones. They are returned with the error when the
    file cannot be created. *)
Definition GetOrCreateParametersFromFile (params : ChameleonHashParameters) (filename : bytes)
    : M Files (option ChameleonHashParameters * error) :=
  err ← create_missing (write_parameters params) filename;
  match err with
  | Some e => mret (Some params, Some e)
  | None =>
      f ← os_Open filename;
      match f with
      | inl e => mret (None, Some e)
      | inr s =>
          let '(lines, scanErr) := Scanner s in
          let '(g, lines) := nextLine lines in
          let '(p, lines) := nextLine lines in
          let '(q, lines) := nextLine lines in
          let '(hk, lines) := nextLine lines in
          let '(tk, lines) := nextLine lines in
          match scanErr with
          | Some e => mret (None, Some "Could not read key from file: <nil>"%string)
          | None => mret (Some (mkCHParams g p q hk tk), None)
          end
      end
  end.
End chameleon.
