(* ===== verification/KeyFileLemmas.v ===== *)
(** * Lemmas on key files

    Lines that survive writing and reading, and what the readers give for
    files that hold such lines. *)

From S2P Require Import Prelude Format Chameleon Protocol Node Base64 Verify Validate KeyFiles.

(** ** Lines *)

Definition plain (l : bytes) : Prop := Forall (fun c => line_break c = false) l /\ Z.of_nat (length l) <= 65535.

Lemma not_break c : line_break c = false -> c <> newline /\ c <> Byte.x0d.
Proof. unfold line_break. rewrite orb_false_iff, !bool_decide_eq_false. done. Qed.

Lemma cut_line_app l rest : Forall (fun c => line_break c = false) l -> cut_line (l ++ newline :: rest) = (l, Some rest).
Proof.
  induction 1 as [|c l Hc _ IH]; [done|]. cbn [cut_line app]. apply not_break in Hc as [Hc _].
  by rewrite bool_decide_eq_false_2, IH.
Qed.

Lemma cut_line_end l : Forall (fun c => line_break c = false) l -> cut_line l = (l, None).
Proof.
  induction 1 as [|c l Hc _ IH]; [done|]. cbn [cut_line]. apply not_break in Hc as [Hc _].
  by rewrite bool_decide_eq_false_2, IH.
Qed.

Lemma ReadString_line l rest : Forall (fun c => line_break c = false) l -> ReadString (l ++ newline :: rest) = (l, None, rest).
Proof. intros H. unfold ReadString. by rewrite cut_line_app. Qed.

Lemma drop_cr_plain l : Forall (fun c => line_break c = false) l -> drop_cr l = l.
Proof.
  intros H. unfold drop_cr. destruct (last l) as [c|] eqn:E; [|done]. apply last_Some_elem_of in E.
  rewrite Forall_forall in H. apply H, not_break in E as [_ E]. by destruct c.
Qed.

Definition unlines (ls : list bytes) : bytes := concat (map (fun l => l ++ [newline]) ls).

Lemma scan_unlines ls tail fuel : Forall plain ls -> plain tail -> (length (unlines ls ++ tail) < fuel)%nat ->
  scan_lines fuel (unlines ls ++ tail) = (ls ++ match tail with [] => [] | _ => [tail] end, None).
Proof.
  intros Hls [Ht Hlt]. revert fuel. induction Hls as [|l ls [Hl Hll] _ IH]; intros [|fuel] Hf; try (cbn in Hf; lia).
  - cbn [unlines map concat app]. destruct tail as [|c t] eqn:E; [done|]. rewrite <-E in *. cbn [scan_lines].
    rewrite E at 1. rewrite cut_line_end by done. rewrite (proj2 (Z.ltb_ge _ _)) by done. by rewrite drop_cr_plain.
  - assert (E : unlines (l :: ls) ++ tail = l ++ newline :: (unlines ls ++ tail)).
    { unfold unlines. cbn [map concat]. by rewrite <-!app_assoc. }
    rewrite E in *. rewrite length_app in Hf. cbn [length] in Hf.
    assert (Hne : forall A (x y : A), match l ++ newline :: (unlines ls ++ tail) with [] => x | _ => y end = y) by (by destruct l).
    cbn [scan_lines]. rewrite Hne, cut_line_app, (proj2 (Z.ltb_ge _ _)), drop_cr_plain by done.
    by rewrite IH by lia.
Qed.

Lemma Scanner_lines ls tail : Forall plain ls -> plain tail ->
  Scanner (unlines ls ++ tail) = (ls ++ match tail with [] => [] | _ => [tail] end, None).
Proof. intros. apply scan_unlines; [done..|lia]. Qed.

Lemma plain_nil : plain [].
Proof. split; [constructor|done]. Qed.

(** ** Numbers as lines *)

Lemma digit_no_break d : 0 <= d < 16 -> line_break (digit_char d) = false.
Proof.
  intros Hd. pose proof (digit_char_val d Hd) as H. unfold line_break.
  rewrite !bool_decide_eq_false_2; [done|intros E; rewrite E in H; revert H; case_match; vm_compute (bval _); lia..].
Qed.

Lemma hex_no_break n : 0 <= n -> Forall (fun c => line_break c = false) (fmt_int 16 n).
Proof.
  intros Hn. unfold fmt_int. rewrite (proj2 (Z.ltb_ge _ _)) by done.
  eapply Forall_impl; [apply (fmt_nat_chars 16); [lia|done]|]. intros c (d & Hd & ->). by apply digit_no_break.
Qed.

Lemma length_digits_le b fuel n : (length (digits_le b fuel n) <= fuel)%nat.
Proof. revert n. induction fuel as [|fuel IH]; intros n; [done|]. cbn. specialize (IH (n / b)). case_match; cbn; lia. Qed.

Lemma plain_hex n : 0 <= n -> Z.log2 n < 65535 -> plain (hex n).
Proof.
  intros Hn Hl. split; [by apply hex_no_break|]. unfold hex, fmt_int, HEX_BASE. rewrite (proj2 (Z.ltb_ge _ _)) by done.
  unfold fmt_nat, digits. rewrite length_fmap, length_rev.
  pose proof (length_digits_le 16 (S (Z.to_nat (Z.log2 n))) n). pose proof (Z.log2_nonneg n). lia.
Qed.

Lemma length_b64 s : (length (b64_encode s) <= 4 + 2 * length s)%nat.
Proof. induction s as [|a|a b|a b c s IH] using bytes_ind3; cbn [b64_encode length]; lia. Qed.

(** RSA numbers of any size in use. *)
Definition key_number (n : Z) : Prop := 0 <= n < 2 ^ (8 * 1024).

Lemma plain_number n : key_number n -> plain (encode_number n).
Proof.
  intros Hn. split; [apply b64_lines|]. unfold encode_number. pose proof (length_b64 (min_bytes n)) as Hl.
  rewrite length_min_bytes in Hl. pose proof (nbytes_le n 1024 Hn). lia.
Qed.

Lemma fromBase64_number n : 0 <= n -> fromBase64 (encode_number n) None = (Some n, None).
Proof. intros. unfold fromBase64, encode_number. by rewrite b64_roundtrip, be_val_min_bytes. Qed.
