(* ===== verification/KeyProps.v ===== *)
(** * Key files are read as they were written

    The three kinds of key files: created when they are missing, read back as
    the keys that were generated; and what the readers do with files that are
    damaged. *)

From S2P Require Import Prelude Format Chameleon Protocol Node Base64 Verify Validate KeyFiles KeyFileLemmas LedgerProps.

Section files.
Context {DK : Disk}.

(** The operating system lets the program have this file. *)
Definition usable (f : bytes) : Prop := open_error f = None /\ create_error f = None /\ write_error f = None.

Lemma open_run f s fs : usable f -> fs !! f = Some s -> os_Open f fs = Done (inr s, fs).
Proof. intros (H & _) Hf. unfold os_Open, mbind, M_bind, gets. by rewrite H, Hf. Qed.

Lemma create_run f fs : usable f -> os_Create f fs = Done (None, <[f := []]> fs).
Proof. intros (_ & H & _). unfold os_Create. by rewrite H. Qed.

Lemma write_run f s c fs : usable f -> fs !! f = Some c -> WriteString f s fs = Done (None, <[f := c ++ s]> fs).
Proof.
  intros (_ & _ & H) Hf. unfold WriteString. rewrite H. unfold mbind, M_bind, modify, mret, M_ret. do 2 f_equal.
  apply (map_eq (M := gmap bytes)). intros g. destruct (decide (g = f)) as [->|].
  - rewrite lookup_alter_eq, Hf, lookup_insert_eq. done.
  - by rewrite lookup_alter_ne, lookup_insert_ne.
Qed.

Lemma create_missing_run create f fs :
  create_missing create f fs = match fs !! f with Some _ => Done (None, fs) | None => create f fs end.
Proof.
  unfold create_missing, exists_file, mbind, M_bind, gets. destruct (fs !! f) eqn:E.
  - by rewrite bool_decide_eq_true_2 by eauto.
  - by rewrite bool_decide_eq_false_2 by (intros [? [=]]).
Qed.

(** ** ECDSA keys *)

Section ecdsa.
Context {SG : Signatures} {SN : Signers}.

Definition ecdsa_text (x y d : Z) : bytes := key_line x ++ key_line y ++ key_line d.

Lemma create_ecdsa_run x y d f fs : usable f -> fs !! f = None ->
  createECDSAKeyFile (Some (mkPrivateKey (mkPublicKey (Some x) y) d)) f fs = Done (None, <[f := ecdsa_text x y d]> fs).
Proof.
  intros Hu Hf. unfold createECDSAKeyFile, exists_file, mbind, M_bind, gets.
  rewrite bool_decide_eq_false_2 by (rewrite Hf; intros [? [=]]). rewrite create_run by done.
  cbn -[WriteString key_line].
  do 3 (erewrite write_run; [|done|apply lookup_insert_eq]; cbn -[WriteString key_line]). rewrite !insert_insert_eq.
  unfold ecdsa_text. cbn [app pk_Y key_D key_Public]. by rewrite <-!app_assoc.
Qed.

Lemma key_line_app n s : key_line n ++ s = fmt_int 16 n ++ newline :: s.
Proof. unfold key_line. by rewrite <-app_assoc. Qed.

Lemma read_ecdsa_public x y s : 0 <= x -> 0 <= y ->
  readECDSAPublicKey (key_line x ++ key_line y ++ s) = (inl (mkPublicKey (Some x) y), s).
Proof.
  intros. unfold readECDSAPublicKey. rewrite !key_line_app, !ReadString_line by (by apply hex_no_break).
  unfold GetPubKeyFromString. pose proof parse_hex as P. unfold HEX_BASE, hex in P. by rewrite !P.
Qed.

Lemma read_ecdsa_private x y d : 0 <= x -> 0 <= y -> 0 <= d ->
  readECDSAPrivateKey (ecdsa_text x y d) = inl (mkPrivateKey (mkPublicKey (Some x) y) d).
Proof.
  intros. unfold readECDSAPrivateKey, ecdsa_text. rewrite read_ecdsa_public by done.
  unfold key_line. rewrite ReadString_line by (by apply hex_no_break).
  pose proof parse_hex as P. unfold HEX_BASE, hex in P. by rewrite P.
Qed.

(** A file that holds a key gives this key, whatever would be generated;
    a missing one is made first. *)
Lemma ecdsa_readable x y d f fs r s : usable f -> fs !! f = Some (ecdsa_text x y d) -> 0 <= x -> 0 <= y -> 0 <= d ->
  let key := mkPrivateKey (mkPublicKey (Some x) y) d in
  ecdsa_Sign key testing = inl (r, s) -> ecdsa_Verify x y testing r s = true ->
  forall fs0 other, create_missing (createECDSAKeyFile other) f fs0 = Done (None, fs) ->
    ExtractECDSAKeyFromFile other f fs0 = Done ((Some key, None), fs) /\
    GetOrCreateECDSAPublicKeyFromFile other f fs0 = Done (inl (key_Public key), fs).
Proof.
  intros Hu Hl Hx Hy Hd key Hs Hv fs0 other H.
  assert (Hver : VerifyECDSAKey key fs = Done (None, fs)).
  { unfold VerifyECDSAKey. rewrite Hs. cbn [key key_Public pk_X pk_Y of_option]. unfold mbind, M_bind, mret, M_ret. by rewrite Hv. }
  split.
  - unfold ExtractECDSAKeyFromFile. erewrite bind_Done by exact H. cbn.
    erewrite bind_Done by (by apply open_run). cbn. rewrite read_ecdsa_private by done. by erewrite bind_Done by exact Hver.
  - unfold GetOrCreateECDSAPublicKeyFromFile. erewrite bind_Done by exact H. cbn.
    erewrite bind_Done by (by apply open_run). cbn. unfold ecdsa_text. by rewrite read_ecdsa_public.
Qed.

Lemma ecdsa_made x y d f fs : usable f -> fs !! f = None ->
  create_missing (createECDSAKeyFile (Some (mkPrivateKey (mkPublicKey (Some x) y) d))) f fs = Done (None, <[f := ecdsa_text x y d]> fs).
Proof. intros. rewrite create_missing_run. simplify_option_eq. by apply create_ecdsa_run. Qed.
End ecdsa.

(** ** RSA keys *)

Section rsa.
Context {DG : Digests} {CM : Commitments} {RS : RSASigners}.

Lemma rsa_text n d p q : stringifyRSAKey (mkRSAKey n COMM_PUBLIC_EXPONENT d [p; q]) =
  unlines [encode_number n; encode_number d; encode_number p] ++ encode_number q.
Proof. unfold stringifyRSAKey, unlines. cbn -[app]. rewrite <-!app_assoc. by rewrite app_nil_l. Qed.

(** The last line of a zero is empty, and is read as one again. *)
Lemma rsa_lines n d p q : key_number n -> key_number d -> key_number p -> key_number q ->
  exists tl, Scanner (stringifyRSAKey (mkRSAKey n COMM_PUBLIC_EXPONENT d [p; q])) =
    (encode_number n :: encode_number d :: encode_number p :: tl, None) /\ fst (nextLine tl) = encode_number q.
Proof.
  intros Hn Hd Hp Hq. rewrite rsa_text, Scanner_lines by (repeat constructor; by apply plain_number).
  eexists. split; [reflexivity|]. by destruct (encode_number q).
Qed.

Lemma rsa_numbers {S} n d p q (s : S) : key_number n -> key_number d -> key_number p -> key_number q ->
  CreateRSAPrivKeyFromBase64 (encode_number n) (encode_number d) [encode_number p; encode_number q] s =
  Done ((mkRSAKey n COMM_PUBLIC_EXPONENT d [p; q], None), s).
Proof.
  intros [Hn _] [Hd _] [Hp _] [Hq _]. unfold CreateRSAPrivKeyFromBase64. rewrite !fromBase64_number by done.
  unfold mbind, M_bind. cbn -[fromBase64 encode_number]. rewrite !fromBase64_number by done. done.
Qed.

Lemma rsa_readable n d p q f fs : usable f ->
  key_number n -> key_number d -> key_number p -> key_number q ->
  let key := mkRSAKey n COMM_PUBLIC_EXPONENT d [p; q] in VerifyRSAKey key = None -> fs !! f = Some (stringifyRSAKey key) ->
  forall fs0 other, create_missing (CreateRSAKeyFile other) f fs0 = Done (None, fs) ->
    ExtractRSAKeyFromFile other f fs0 = Done ((Some key, None), fs).
Proof.
  intros Hu Hn Hd Hp Hq key Hv Hl fs0 other H.
  destruct (rsa_lines n d p q) as (tl & Hsc & Htl); [done..|]. fold key in Hsc.
  unfold ExtractRSAKeyFromFile. erewrite bind_Done by exact H. cbn beta iota.
  erewrite bind_Done by (by apply open_run). cbn beta iota. rewrite Hsc. cbn [nextLine].
  destruct (nextLine tl) as [l4 rest]. cbn [fst] in Htl. subst l4.
  erewrite bind_Done by (by apply rsa_numbers). cbn beta iota. fold key. by rewrite Hv.
Qed.

Lemma rsa_made key f fs : usable f -> fs !! f = None ->
  create_missing (CreateRSAKeyFile (inl key)) f fs = Done (None, <[f := stringifyRSAKey key]> fs).
Proof.
  intros Hu Hf. rewrite create_missing_run, Hf. unfold CreateRSAKeyFile. erewrite bind_Done by (by apply create_run).
  cbn beta iota. erewrite write_run by (done || apply lookup_insert_eq). by rewrite insert_insert_eq.
Qed.
End rsa.

(** ** Chameleon-hash parameters *)

Definition plain_parameters (params : ChameleonHashParameters) : Prop :=
  plain (par_G params) /\ plain (par_P params) /\ plain (par_Q params) /\ plain (par_HK params) /\ plain (par_TK params).

Lemma plain_below n m : 0 <= n < m -> Z.log2 m < 65535 -> plain (hex n).
Proof. intros [? ?] ?. apply plain_hex; [done|]. pose proof (Z.log2_le_mono n m). lia. Qed.

Lemma keygen_plain p g t : 2 < p -> Z.log2 p < 65535 -> 0 <= t < p -> plain_parameters (newChameleonHashParameters p g t).
Proof.
  intros Hp Hl Ht. unfold plain_parameters, newChameleonHashParameters, keygen. cbn.
  rewrite !big_Exp_pos by lia. pose proof (Z.div_lt_upper_bound (p - 1) 2 p ltac:(lia) ltac:(lia)).
  split; [|split; [by apply plain_hex; [lia|] |split_and!] ]; (apply plain_below with p; [|done]);
    [apply Z.mod_pos_bound; lia|split; [apply Z.div_pos; lia|done]|apply Z.mod_pos_bound; lia|done].
Qed.

Definition parameter_lines (params : ChameleonHashParameters) : bytes :=
  unlines [par_G params; par_P params; par_Q params; par_HK params; par_TK params].

Lemma write_parameters_run params f fs : usable f ->
  write_parameters params f fs = Done (None, <[f := parameter_lines params]> fs).
Proof.
  intros Hu. unfold write_parameters. erewrite bind_Done by (by apply create_run). cbn beta iota.
  do 5 (erewrite bind_Done by (apply write_run; [done|apply lookup_insert_eq])). cbn -[app].
  unfold mret, M_ret. rewrite !insert_insert_eq. unfold parameter_lines, unlines. cbn. by rewrite <-!app_assoc.
Qed.

Lemma parameters_readable p g t f fs : usable f -> 2 < p -> Z.log2 p < 65535 -> 0 <= t < p ->
  let params := newChameleonHashParameters p g t in fs !! f = Some (parameter_lines params) ->
  forall fs0 other, create_missing (write_parameters other) f fs0 = Done (None, fs) ->
    GetOrCreateParametersFromFile other f fs0 = Done ((Some params, None), fs).
Proof.
  intros Hu Hp Hlp Ht params Hl fs0 other H.
  destruct (keygen_plain p g t Hp Hlp Ht) as (P1 & P2 & P3 & P4 & P5). fold params in P1, P2, P3, P4, P5.
  assert (Hsc : Scanner (parameter_lines params) = ([par_G params; par_P params; par_Q params; par_HK params; par_TK params], None)).
  { unfold parameter_lines. rewrite <-(app_nil_r (unlines _)), Scanner_lines; [done| |apply plain_nil].
    do 5 (apply Forall_cons; split; [done|]). constructor. }
  unfold GetOrCreateParametersFromFile. erewrite bind_Done by exact H. cbn beta iota.
  erewrite bind_Done by (by apply open_run). cbn beta iota. rewrite Hsc. cbn [nextLine]. by destruct params.
Qed.

Lemma parameters_made params f fs : usable f -> fs !! f = None ->
  create_missing (write_parameters params) f fs = Done (None, <[f := parameter_lines params]> fs).
Proof. intros Hu Hf. rewrite create_missing_run, Hf. by apply write_parameters_run. Qed.

(** ** Damaged files *)

Section damaged.
Context {DG : Digests} {SG : Signatures} {SN : Signers} {CM : Commitments} {RS : RSASigners}.

Lemma bad_base64_panics {S} l1 l2 l3 l4 (s : S) :
  b64_decode l1 = None \/ b64_decode l2 = None \/ b64_decode l3 = None \/ b64_decode l4 = None ->
  CreateRSAPrivKeyFromBase64 l1 l2 [l3; l4] s = Panic.
Proof.
  intros H. unfold CreateRSAPrivKeyFromBase64, fromBase64, mbind, M_bind.
  destruct (b64_decode l1); [|done]. destruct (b64_decode l2); [|done].
  cbn. destruct (b64_decode l3); [|done]. cbn. destruct (b64_decode l4); [|done].
  by destruct H as [|[|[|] ] ].
Qed.

(** C35: damaged key files.  A file of an ECDSA key whose first line is no
    number is accepted: the public key that it gives has no x-coordinate, and
    the check of the private key panics as soon as the key can sign.  A file
    of an RSA key one of whose four lines is not base64 panics instead of
    giving the error that was found.  An empty file of chameleon-hash
    parameters gives empty parameters without an error. *)
Theorem damaged_key_files f fs : usable f ->
  (forall x y d, fs !! f = Some (x ++ newline :: key_line y ++ key_line d) ->
     Forall (fun c => line_break c = false) x -> parse_int 16 x = None -> 0 <= y -> 0 <= d ->
     (forall new, GetOrCreateECDSAPublicKeyFromFile new f fs = Done (inl (mkPublicKey None y), fs)) /\
     (forall new sig, ecdsa_Sign (mkPrivateKey (mkPublicKey None y) d) testing = inl sig -> ExtractECDSAKeyFromFile new f fs = Panic)) /\
  (forall s ls new, fs !! f = Some s -> Scanner s = (ls, None) ->
     (exists i, (i < 4)%nat /\ b64_decode (nth i ls []) = None) -> ExtractRSAKeyFromFile new f fs = Panic) /\
  (forall new, fs !! f = Some [] -> GetOrCreateParametersFromFile new f fs = Done ((Some (mkCHParams [] [] [] [] []), None), fs)).
Proof.
  intros Hu. split; [|split].
  - intros x y d Hf Hx Hp Hy Hd.
    assert (Hr : readECDSAPublicKey (x ++ newline :: key_line y ++ key_line d) = (inl (mkPublicKey None y), key_line d)).
    { unfold readECDSAPublicKey. rewrite ReadString_line by done. rewrite !key_line_app, ReadString_line by (by apply hex_no_break).
      unfold GetPubKeyFromString. rewrite Hp. pose proof parse_hex as P. unfold HEX_BASE, hex in P. by rewrite P. }
    assert (Hc : forall new, create_missing (createECDSAKeyFile new) f fs = Done (None, fs)) by (intros; by rewrite create_missing_run, Hf).
    split.
    + intros new. unfold GetOrCreateECDSAPublicKeyFromFile. erewrite bind_Done by apply Hc. cbn beta iota.
      erewrite bind_Done by (by apply open_run). cbn beta iota. by rewrite Hr.
    + intros new sig Hs. unfold ExtractECDSAKeyFromFile. erewrite bind_Done by apply Hc. cbn beta iota.
      erewrite bind_Done by (by apply open_run). cbn beta iota.
      assert (Hpriv : readECDSAPrivateKey (x ++ newline :: key_line y ++ key_line d) = inl (mkPrivateKey (mkPublicKey None y) d)).
      { unfold readECDSAPrivateKey. rewrite Hr. unfold key_line. rewrite ReadString_line by (by apply hex_no_break).
        pose proof parse_hex as P. unfold HEX_BASE, hex in P. by rewrite P. }
      rewrite Hpriv. unfold VerifyECDSAKey, mbind, M_bind. rewrite Hs. by destruct sig.
  - intros s ls new Hf Hsc (i & Hi & Hb). unfold ExtractRSAKeyFromFile.
    erewrite bind_Done by (by rewrite create_missing_run, Hf). cbn beta iota.
    erewrite bind_Done by (by apply open_run). cbn beta iota. rewrite Hsc.
    assert (Hl : forall n, exists r, nextLine (drop n ls) = (nth n ls [], r) /\ r = drop (S n) ls).
    { intros n. clear. revert ls. induction n as [|n IH]; intros [|l ls]; try by eexists. cbn [drop nth].
      destruct (IH ls) as (r & -> & ->). by eexists. }
    destruct (Hl 0%nat) as (r0 & E0 & R0), (Hl 1%nat) as (r1 & E1 & R1), (Hl 2%nat) as (r2 & E2 & R2), (Hl 3%nat) as (r3 & E3 & R3).
    rewrite drop_0 in E0. subst r0 r1 r2 r3. rewrite E0, E1, E2, E3. unfold mbind, M_bind.
    rewrite bad_base64_panics; [done|]. destruct i as [|[|[|[|i] ] ] ]; [tauto..|lia].
  - intros new Hf. unfold GetOrCreateParametersFromFile. erewrite bind_Done by (by rewrite create_missing_run, Hf).
    cbn beta iota. by erewrite bind_Done by (by apply open_run).
Qed.
End damaged.
End files.

(** ** Witnesses *)

Module Keys.
Import Toy.
(** A system that refuses nothing, and signatures that are always right. *)
#[global] Instance disk : Disk := {| open_error _ := None; create_error _ := None; write_error _ := None |}.
#[global] Instance sign_all : Signers := {| ecdsa_Sign _ _ := inl (1, 1) |}.
Definition verify_all : Signatures := {| ecdsa_Verify _ _ _ _ _ := true |}.
#[global] Instance rsa_sign_all : RSASigners := {| rsa_Sign _ _ := inl (zeros 256) |}.
Definition accept_all : Commitments :=
  {| rsa_VerifyPKCS1v15 _ _ _ _ := true; rsa_SignPKCS1v15 _ := inr (zeros 256); rootCommitmentModulus := [] |}.

Definition wallet : bytes := str_bytes "wallet.txt".

Lemma usable_all f : usable f.
Proof. done. Qed.

Lemma key_number_small n : 0 <= n < 2 ^ 64 -> key_number n.
Proof. unfold key_number. intros. pose proof (Z.pow_le_mono_r 2 64 (8 * 1024) ltac:(lia) ltac:(lia)). lia. Qed.
End Keys.

Section witnesses.
Import Toy Keys.

Definition damaged : Files := {[wallet := str_bytes "xyz" ++ newline :: key_line 5 ++ key_line 7]}.

Lemma damaged_key_files_witness :
  ExtractECDSAKeyFromFile (SG := verify_all) None wallet damaged = Panic /\
  ExtractRSAKeyFromFile (CM := accept_all) (inr "none"%string) wallet damaged = Panic.
Proof.
  destruct (damaged_key_files (SG := verify_all) (CM := accept_all) wallet damaged (usable_all wallet)) as (H1 & H2 & _). split.
  - destruct (H1 (str_bytes "xyz") 5 7) as [_ H]; [reflexivity|repeat constructor|reflexivity|lia|lia|].
    exact (H None (1, 1) eq_refl).
  - destruct (Scanner (str_bytes "xyz" ++ newline :: key_line 5 ++ key_line 7)) as [ls e] eqn:E.
    vm_compute in E. injection E as <- <-. eapply H2; [reflexivity|vm_compute; reflexivity|].
    exists 0%nat. split; [lia|vm_compute; reflexivity].
Defined.
End witnesses.
