(* ===== verification/TxMethods.v ===== *)
(** * protocol: the methods of a transaction

    The interface [protocol.Transaction] as a class, one instance per type of
    transaction, and the laws that the code outside the package relies on. The
    methods that print a transaction are left out. *)

From S2P Require Import Prelude Format Chameleon Protocol.

Definition ACCTX_SIZE : Z := 169.
Definition AGGTX_SIZE : Z := 85.
Definition UPDATE_TX_SIZE : Z := 42.

(** [Hash] reads the parameters of the author from the map of the node,
    [ChameleonHash] takes them as an argument; both may panic. *)
Class TxMethods (T : Type) := {
  Hash : ParametersMap -> T -> option hash;
  ChameleonHash_of : option ChameleonHashParameters -> T -> option hash;
  SHA3 : T -> option hash;
  TxFee : T -> Z;
  Size : T -> Z;
  Sender : T -> hash;
  Receiver : T -> hash;
  SetData : option bytes -> T -> T;
  GetData : T -> option bytes;
  SetCheckString : option ChameleonHashCheckString -> T -> T;
  GetCheckString : T -> option ChameleonHashCheckString;
  SetSignature : bytes -> T -> T
}.

(** ** Signatures *)

Definition AccTx_SetSignature (signature : bytes) (tx : AccTx) : AccTx :=
  mkAccTx (atx_Header tx) (atx_Fee tx) (atx_Issuer tx) (atx_PubKey tx) signature (atx_Contract tx)
    (atx_ContractVariables tx) (atx_Parameters tx) (atx_CheckString tx) (atx_Data tx).
Definition FundsTx_SetSignature (signature : bytes) (tx : FundsTx) : FundsTx :=
  mkFundsTx (ftx_Header tx) (ftx_Amount tx) (ftx_Fee tx) (ftx_TxCnt tx) (ftx_From tx) (ftx_To tx)
    signature (ftx_Sig2 tx) (ftx_Aggregated tx) (ftx_Block tx) (ftx_CheckString tx) (ftx_Data tx).
Definition ConfigTx_SetSignature (signature : bytes) (tx : ConfigTx) : ConfigTx :=
  mkConfigTx (ctx_Header tx) (ctx_Id tx) (ctx_Payload tx) (ctx_Fee tx) (ctx_TxCnt tx) signature
    (ctx_CheckString tx) (ctx_Data tx).
Definition StakeTx_SetSignature (signature : bytes) (tx : StakeTx) : StakeTx :=
  mkStakeTx (stx_Header tx) (stx_Fee tx) (stx_IsStaking tx) (stx_Account tx) signature
    (stx_CommitmentKey tx) (stx_CheckString tx) (stx_Data tx).
(** An aggregation is not signed. *)
Definition AggTx_SetSignature (signature : bytes) (tx : AggTx) : AggTx := tx.
Definition UpdateTx_SetSignature (signature : bytes) (tx : UpdateTx) : UpdateTx :=
  mkUpdateTx (utx_Fee tx) (utx_TxToUpdateHash tx) (utx_TxToUpdateCheckString tx) (utx_TxToUpdateData tx)
    (utx_Issuer tx) signature (utx_CheckString tx) (utx_Data tx).

(** ** The six types *)

Section methods.
Context {DG : Digests}.

Definition AccTx_methods : TxMethods AccTx := {|
  Hash _ tx := AccTx_Hash tx;
  ChameleonHash_of := AccTx_ChameleonHash;
  SHA3 tx := Some (AccTx_SHA3 tx);
  TxFee := atx_Fee;
  Size _ := ACCTX_SIZE;
  Sender := atx_Issuer;
  Receiver _ := zero_hash;
  SetData := AccTx_SetData;
  GetData := atx_Data;
  SetCheckString := AccTx_SetCheckString;
  GetCheckString := atx_CheckString;
  SetSignature := AccTx_SetSignature
|}.

Definition FundsTx_methods : TxMethods FundsTx := {|
  Hash := FundsTx_Hash;
  ChameleonHash_of := FundsTx_ChameleonHash;
  SHA3 tx := Some (FundsTx_SHA3 tx);
  TxFee := ftx_Fee;
  Size _ := Z.of_nat FUNDSTX_SIZE;
  Sender := ftx_From;
  Receiver := ftx_To;
  SetData := FundsTx_SetData;
  GetData := ftx_Data;
  SetCheckString := FundsTx_SetCheckString;
  GetCheckString := ftx_CheckString;
  SetSignature := FundsTx_SetSignature
|}.

(** These three hash their content only. *)
Definition ConfigTx_methods : TxMethods ConfigTx := {|
  Hash _ tx := Some (ConfigTx_Hash tx);
  ChameleonHash_of _ tx := Some (ConfigTx_Hash tx);
  SHA3 tx := Some (ConfigTx_Hash tx);
  TxFee := ctx_Fee;
  Size _ := Z.of_nat CONFIGTX_SIZE;
  Sender _ := zero_hash;
  Receiver _ := zero_hash;
  SetData := ConfigTx_SetData;
  GetData := ctx_Data;
  SetCheckString := ConfigTx_SetCheckString;
  GetCheckString := ctx_CheckString;
  SetSignature := ConfigTx_SetSignature
|}.

Definition StakeTx_methods : TxMethods StakeTx := {|
  Hash _ tx := Some (StakeTx_Hash tx);
  ChameleonHash_of _ tx := Some (StakeTx_Hash tx);
  SHA3 tx := Some (StakeTx_Hash tx);
  TxFee := stx_Fee;
  Size _ := Z.of_nat STAKETX_SIZE;
  Sender _ := zero_hash;
  Receiver _ := zero_hash;
  SetData := StakeTx_SetData;
  GetData := stx_Data;
  SetCheckString := StakeTx_SetCheckString;
  GetCheckString := stx_CheckString;
  SetSignature := StakeTx_SetSignature
|}.

Definition AggTx_methods : TxMethods AggTx := {|
  Hash _ tx := Some (AggTx_Hash tx);
  ChameleonHash_of _ tx := Some (AggTx_Hash tx);
  SHA3 tx := Some (AggTx_Hash tx);
  TxFee := gtx_Fee;
  Size _ := AGGTX_SIZE;
  Sender _ := zero_hash;
  Receiver _ := zero_hash;
  SetData := AggTx_SetData;
  GetData := gtx_Data;
  SetCheckString := AggTx_SetCheckString;
  GetCheckString := gtx_CheckString;
  SetSignature := AggTx_SetSignature
|}.

Definition UpdateTx_methods : TxMethods UpdateTx := {|
  Hash := UpdateTx_Hash;
  ChameleonHash_of := UpdateTx_ChameleonHash;
  SHA3 := UpdateTx_SHA3;
  TxFee := utx_Fee;
  Size _ := UPDATE_TX_SIZE;
  Sender := utx_Issuer;
  Receiver := utx_Issuer;
  SetData := UpdateTx_SetData;
  GetData := utx_Data;
  SetCheckString := UpdateTx_SetCheckString;
  GetCheckString := utx_CheckString;
  SetSignature := UpdateTx_SetSignature
|}.
End methods.

#[export] Existing Instances AccTx_methods FundsTx_methods ConfigTx_methods StakeTx_methods AggTx_methods UpdateTx_methods.

(** ** Laws

    The data and the check string are fields of their own, and no signature
    is part of what is hashed. *)
Class TxLaws (T : Type) `{!TxMethods T} := {
  get_set_data v tx : GetData (SetData v tx) = v;
  set_set_data v w tx : SetData v (SetData w tx) = SetData v tx;
  get_set_check c tx : GetCheckString (SetCheckString c tx) = c;
  check_set_data v tx : GetCheckString (SetData v tx) = GetCheckString tx;
  data_set_check c tx : GetData (SetCheckString c tx) = GetData tx;
  sender_set_data v tx : Sender (SetData v tx) = Sender tx;
  sender_set_check c tx : Sender (SetCheckString c tx) = Sender tx;
  hash_unsigned ps s tx : Hash ps (SetSignature s tx) = Hash ps tx
}.

(** Types whose hash is the chameleon hash of a content that does not hold
    the check string. *)
Class Rewritable (T : Type) `{DG : Digests, !TxMethods T} := {
  author : ParametersMap -> T -> option ChameleonHashParameters;
  author_kept ps v c tx : author ps (SetCheckString c (SetData v tx)) = author ps tx;
  content_unchecked c tx : SHA3 (SetCheckString c tx) = SHA3 tx;
  hash_is_chameleon ps tx sha3 : SHA3 tx = Some sha3 ->
    Hash ps tx = ChameleonHash (author ps tx) (GetCheckString tx) sha3
}.

Section laws.
Context {DG : Digests}.

#[global] Instance AccTx_laws : TxLaws AccTx.
Proof. by split. Qed.
#[global] Instance FundsTx_laws : TxLaws FundsTx.
Proof. by split. Qed.
#[global] Instance ConfigTx_laws : TxLaws ConfigTx.
Proof. by split. Qed.
#[global] Instance StakeTx_laws : TxLaws StakeTx.
Proof. by split. Qed.
#[global] Instance AggTx_laws : TxLaws AggTx.
Proof. by split. Qed.
#[global] Instance UpdateTx_laws : TxLaws UpdateTx.
Proof. by split. Qed.

#[global] Instance FundsTx_rewritable : Rewritable FundsTx.
Proof.
  refine {| author ps tx := ps !! ftx_From tx |}; [done..|]. intros ps tx sha3 [= <-]. done.
Defined.

#[global] Instance AccTx_rewritable : Rewritable AccTx.
Proof. refine {| author ps tx := atx_Parameters tx |}; [done..|]. intros ps tx sha3 [= <-]. done. Defined.
End laws.
