(* ===== verification/Signing.v ===== *)
(** * protocol: transactions that are signed when they are made

    [ConstrConfigTx] and [ConstrStakeTx] with the layout of a signature, and
    what a miner reads back from it. The signature function of the standard
    library is the parameter of [KeyFiles.v]. *)

From S2P Require Import Prelude Format Chameleon Protocol Node Storage Base64 Verify Validate KeyFiles TxMethods.

(** [copy(Sig[32-len(r):32], r)] and [copy(Sig[64-len(s):], s)] into a fresh
    array: an [r] of more than 32 bytes panics, a longer [s] overwrites [r]. *)
Definition signature_array (r s : Z) : option bytes :=
  if (32 <? nbytes r)%nat then None
  else if (64 <? nbytes s)%nat then None
  else
    let sig := zeros (32 - nbytes r) ++ min_bytes r ++ zeros 32 in
    Some (take (64 - nbytes s) sig ++ min_bytes s).

Section constructors.
Context {DG : Digests} {SN : Signers}.

(** The transaction, or the error of the signature. *)
Definition ConstrConfigTx (header id payload fee txCnt : Z) (rootPrivKey : PrivateKey) : option (ConfigTx + string) :=
  let tx := mkConfigTx header id payload fee txCnt zero_sig None None in
  let txHash := ConfigTx_Hash tx in
  match ecdsa_Sign rootPrivKey txHash with
  | inr err => Some (inr err)
  | inl (r, s) =>
      sig ← signature_array r s;
      Some (inl (ConfigTx_SetSignature sig tx))
  end.

Definition ConstrStakeTx (header fee : Z) (isStaking : bool) (account : hash) (signKey : PrivateKey)
    (commPubKey : Z) : option (StakeTx + string) :=
  let commitmentKey := take COMM_KEY_LENGTH (min_bytes commPubKey ++ zeros COMM_KEY_LENGTH) in
  let tx := mkStakeTx header fee isStaking account zero_sig commitmentKey None None in
  let txHash := StakeTx_Hash tx in
  match ecdsa_Sign signKey txHash with
  | inr err => Some (inr err)
  | inl (r, s) =>
      sig ← signature_array r s;
      Some (inl (StakeTx_SetSignature sig tx))
  end.
End constructors.

(** ** What is read back *)

Lemma signature_array_read r s : 0 <= r < 2 ^ 256 -> 0 <= s < 2 ^ 256 ->
  exists sig, signature_array r s = Some sig /\ be_val (take 32 sig) = r /\ be_val (drop 32 sig) = s /\ length sig = 64%nat.
Proof.
  intros Hr Hs. pose proof (nbytes_le r 32 Hr). pose proof (nbytes_le s 32 Hs). unfold signature_array.
  rewrite (proj2 (Nat.ltb_ge _ _)), (proj2 (Nat.ltb_ge _ _)) by lia.
  set (rs := zeros (32 - nbytes r) ++ min_bytes r).
  assert (Hlen : length rs = 32%nat) by (unfold rs, zeros; rewrite length_app, length_replicate, length_min_bytes; lia).
  assert (E : take (64 - nbytes s) (zeros (32 - nbytes r) ++ min_bytes r ++ zeros 32) = rs ++ zeros (32 - nbytes s)).
  { rewrite app_assoc. fold rs. rewrite take_app_ge by lia. f_equal. unfold zeros. rewrite take_replicate. f_equal. lia. }
  eexists. split; [reflexivity|]. rewrite E, <-app_assoc, take_app_length', drop_app_length' by done. split_and!.
  - unfold rs. by rewrite be_val_zeros_app, be_val_min_bytes by lia.
  - by rewrite be_val_zeros_app, be_val_min_bytes by lia.
  - rewrite !length_app, Hlen. unfold zeros. rewrite length_replicate, length_min_bytes. lia.
Qed.

(** A key pair whose signatures verify; both coordinates fill their 32 bytes. *)
Class GoodKey `{SG : Signatures, SN : Signers} (key : PrivateKey) (x y : Z) := {
  good_x : pk_X (key_Public key) = Some x;
  good_y : pk_Y (key_Public key) = y;
  range_x : 0 <= x < 2 ^ 256;
  range_y : 0 <= y < 2 ^ 256;
  full_x : x = 0 \/ nbytes x = 32%nat;
  full_y : y = 0 \/ nbytes y = 32%nat;
  signs h : exists r s, ecdsa_Sign key h = inl (r, s) /\ 0 <= r < 2 ^ 256 /\ 0 <= s < 2 ^ 256 /\ ecdsa_Verify x y h r s = true
}.

Section good.
Context {DG : Digests} {SG : Signatures} {SN : Signers} {NK : NodeKeys}.

Lemma good_signature key x y h `{!GoodKey key x y} : exists r s sig,
  ecdsa_Sign key h = inl (r, s) /\ signature_array r s = Some sig /\ IsSigned h sig (GetAddressFromPubKey (x, y)) = true.
Proof.
  destruct (signs h) as (r & s & E & Hr & Hs & Hv). destruct (signature_array_read r s Hr Hs) as (sig & Es & H1 & H2 & _).
  exists r, s, sig. split; [done|]. split; [done|]. unfold IsSigned, GetAddressFromPubKey. cbn [fst snd].
  rewrite take_app_length', drop_app_length' by (by rewrite length_copy32).
  rewrite (proj2 (coordinate_kept x range_x) full_x), (proj2 (coordinate_kept y range_y) full_y). by rewrite H1, H2.
Qed.

Lemma signed_by_root_run tx sig m k a h : RootKeys (ledger m) !! k = Some a ->
  Transaction_Hash (ChameleonHashParametersMap (ledger m)) tx = Some h -> IsSigned h sig a = true ->
  signed_by_root tx sig m = Done (true, m).
Proof.
  intros Hk Hh Hs. unfold signed_by_root, mbind, M_bind, gets.
  assert (Hin : a ∈ (map_to_list (RootKeys (ledger m))).*2).
  { apply list_elem_of_fmap. exists (k, a). split; [done|]. by apply elem_of_map_to_list. }
  destruct ((map_to_list _).*2) as [|r0 roots] eqn:E; [by apply elem_of_nil in Hin|]. rewrite <-E in *. clear E.
  unfold tx_hash, mbind, M_bind, gets. rewrite Hh. cbn. rewrite (proj2 (existsb_exists _ _)); [done|].
  exists a. split; [by apply list_elem_of_In|done].
Qed.
End good.
