(* ===== verification/TxProps.v ===== *)
(** * Transactions that are signed, and transactions that are updated

    What a client makes is accepted by a miner, and the data of a transaction
    can be replaced under its hash: proved against the interface of
    [TxMethods.v], for the types that satisfy its laws. *)

From S2P Require Import Prelude Format Chameleon Protocol Node Storage Ledger Params Base64 Verify Validate KeyFiles TxMethods Signing.
From S2P Require Import LedgerProps ChainProps MiningProps ValidateProps KeyProps.

(** ** Updates *)

Section update.
Context {DG : Digests} {T : Type} {TM : TxMethods T} {TL : TxLaws T} {RW : Rewritable T}.

End update.

(** An update is not of such a type, although updates of updates are
    accepted: its content holds its own check string. *)
Lemma update_content_checked `{DG : Digests} tx c c' : UpdateTx_SHA3 (UpdateTx_SetCheckString (Some c) tx) =
    UpdateTx_SHA3 (UpdateTx_SetCheckString (Some c') tx) ->
  utx_TxToUpdateCheckString tx <> None -> (forall s s', sha3_256 s = sha3_256 s' -> s = s') -> c = c'.
Proof.
  unfold UpdateTx_SHA3. cbn. destruct (utx_TxToUpdateCheckString tx); [|done]. cbn. intros [= H] _ Hinj.
  apply Hinj in H. match type of H with fmt_v ?a = fmt_v ?b => destruct (fmt_v_inj_app a b [] []) as [E _]; [done|done|by rewrite !app_nil_r|] end.
  injection E as E1 E2. destruct c, c'. cbn in *. f_equal.
  - eapply list_fmap_eq_inj in E1; [done|]. intros x y [= E]. by apply byte.unsigned_inj.
  - eapply list_fmap_eq_inj in E2; [done|]. intros x y [= E]. by apply byte.unsigned_inj.
Qed.

(** ** Signatures *)

Section signing.
Context {DG : Digests} {SG : Signatures} {SN : Signers} {NK : NodeKeys}.

(** C20: what is signed is accepted.  With a key whose signatures verify and
    whose coordinates fill their 32 bytes, a miner accepts: a configuration
    transaction made with a root key; a stake made with the key of its
    account; and a payment to which the signature of its hash was set with the
    key of its sender.  Each is left as it is by the check. *)
Theorem signed_accepted key x y m `{!GoodKey key x y} :
  let owner := GetAddressFromPubKey (x, y) in
  (forall header id payload fee cnt k, RootKeys (ledger m) !! k = Some owner ->
     exists tx, ConstrConfigTx header id payload fee cnt key = Some (inl tx) /\
       ctx_Payload tx = payload /\ verify (TConfig tx) m = Done ((TConfig tx, true), m)) /\
  (forall header fee on n acc, let account := SerializeHashContent (VBytes owner) in
     State (ledger m) !! account = Some acc -> acc_Address acc = owner ->
     exists tx, ConstrStakeTx header fee on account key n = Some (inl tx) /\
       stx_IsStaking tx = on /\ verify (TStake tx) m = Done ((TStake tx, true), m)) /\
  (forall tx h snd rcv r s sig, 0 < ftx_Amount tx <= MAX_MONEY -> ftx_Sig2 tx = zero_sig ->
     State (ledger m) !! ftx_From tx = Some snd -> State (ledger m) !! ftx_To tx = Some rcv -> acc_Address snd = owner ->
     Hash (ChameleonHashParametersMap (ledger m)) tx = Some h ->
     ecdsa_Sign key h = inl (r, s) -> signature_array r s = Some sig ->
     verify (TFunds (SetSignature sig tx)) m = Done ((TFunds (SetSignature sig tx), true), m)).
Proof.
  intros owner. split; [|split].
  - intros header id payload fee cnt k Hk. set (tx := mkConfigTx header id payload fee cnt zero_sig None None).
    destruct (good_signature key x y (ConfigTx_Hash tx)) as (r & s & sig & E & Es & Hs).
    exists (ConfigTx_SetSignature sig tx). unfold ConstrConfigTx. fold tx. rewrite E, Es. split; [done|]. split; [done|].
    unfold verify, verifyConfigTx, mbind, M_bind. by erewrite signed_by_root_run by done.
  - intros header fee on n acc account Ha Hown.
    set (tx := mkStakeTx header fee on account zero_sig (take COMM_KEY_LENGTH (min_bytes n ++ zeros COMM_KEY_LENGTH)) None None).
    destruct (good_signature key x y (StakeTx_Hash tx)) as (r & s & sig & E & Es & Hs).
    exists (StakeTx_SetSignature sig tx). unfold ConstrStakeTx. fold tx. rewrite E, Es. split; [done|]. split; [done|].
    unfold verify, verifyStakeTx, get_account, mbind, M_bind, gets. change (stx_Account (StakeTx_SetSignature sig tx)) with account.
    rewrite Ha, Hown. fold account. cbn [tx_hash Transaction_Hash of_option].
    change (StakeTx_set_Account account (StakeTx_SetSignature sig tx)) with (StakeTx_SetSignature sig tx).
    unfold tx_hash, mbind, M_bind, gets. cbn -[IsSigned]. 
    change (StakeTx_Hash (StakeTx_SetSignature sig tx)) with (StakeTx_Hash tx). fold owner in Hs. cbn [stx_Sig StakeTx_SetSignature]. by rewrite Hs.
  - intros tx h snd rcv r s sig Hamt Hz Hs1 Hr Hown Hh E Es.
    destruct (good_signature key x y h) as (r' & s' & sig' & E' & Es' & Hok). rewrite E in E'. injection E' as <- <-.
    rewrite Es in Es'. injection Es' as <-.
    unfold verify, verifyFundsTx, get_account, mbind, M_bind, gets. cbn [SetSignature FundsTx_methods].
    cbn [FundsTx_SetSignature ftx_Amount ftx_From ftx_To ftx_Sig1 ftx_Sig2].
    rewrite (proj2 (Z.eqb_neq _ _)), (proj2 (Z.ltb_ge _ _)) by lia. cbn [orb]. rewrite Hs1, Hr.
    unfold tx_hash, mbind, M_bind, gets. 
    change (Transaction_Hash _ (TFunds _)) with (Hash (ChameleonHashParametersMap (ledger m)) tx). rewrite Hh. cbn [of_option].
    unfold mret, M_ret. rewrite bool_decide_eq_true_2 by done. rewrite Hown. unfold owner. by rewrite Hok.
Qed.
End signing.

(** ** Witnesses *)

Section witnesses.
Import Toy Mine Small Chains Keys.

Definition signer : PrivateKey := mkPrivateKey (mkPublicKey (Some (2 ^ 255)) (2 ^ 255)) 1.

Lemma signer_good : GoodKey signer (2 ^ 255) (2 ^ 255).
Proof.
  split; [reflexivity|reflexivity|lia|lia|right; reflexivity|right; reflexivity|].
  intros h. exists 1, 1. split_and!; try reflexivity; lia.
Defined.

Definition rooted : Miner :=
  mkMiner (mkLedger ∅ {[key 9 := GetAddressFromPubKey (2 ^ 255, 2 ^ 255)]} ∅) no_pool no_buckets chain0.

Lemma signed_accepted_witness : exists tx, ConstrConfigTx 0 1 2000 5 0 signer = Some (inl tx) /\
  verify (TConfig tx) rooted = Done ((TConfig tx, true), rooted).
Proof.
  destruct (@signed_accepted _ _ _ _ signer (2 ^ 255) (2 ^ 255) rooted signer_good) as (H & _ & _).
  destruct (H 0 1 2000 5 0 (key 9)) as (tx & E & _ & Hv).
  - unfold rooted, ledger, RootKeys. apply lookup_singleton_eq.
  - exists tx. split; [exact E|exact Hv].
Defined.


End witnesses.
