(* ===== verification/Cli.v ===== *)
(** * cli: the commands

    For the start command, of start.go, the arguments, their check, the keys that are read or made, and what is
    handed to [miner.Init]. The parsing of the command line (a package outside
    the repository) is the parameter [CliContext]; that the database is opened
    and the network started before the keys are read has no effect on them. The commands of wallet.go and commitment.go make, or
    show, one key file. *)

From S2P Require Import Prelude Format Chameleon Protocol Node Base64 Verify Validate KeyFiles.

(** The values of the flags: [c.String], [c.IsSet]. *)
Class CliContext := { c_String : string -> bytes; c_IsSet : string -> bool }.

Record startArgs := mkStartArgs {
  dbname : bytes;
  myNodeAddress : bytes;
  bootstrapNodeAddress : bytes;
  walletFile : bytes;
  multisigFile : bytes;
  commitmentFile : bytes;
  rootWalletFile : bytes;
  rootCommitmentFile : bytes;
  rootChParamsFile : bytes
}.

(** Without a bootstrap address the node is the first one. *)
Definition parse_args `{CliContext} : startArgs :=
  mkStartArgs (c_String "database") (c_String "address")
    (if c_IsSet "bootstrap" then c_String "bootstrap" else c_String "address")
    (c_String "wallet") (c_String "multisig") (c_String "commitment") (c_String "rootwallet")
    (c_String "rootcommitment") (c_String "root-chparams").

Definition empty_arg (s : bytes) : bool := (length s =? 0)%nat.

Definition ValidateInput (args : startArgs) : error :=
  if empty_arg (dbname args) then Some "argument missing: dbname"%string
  else if empty_arg (myNodeAddress args) then Some "argument missing: myNodeAddress"%string
  else if empty_arg (bootstrapNodeAddress args) then Some "argument missing: bootstrapNodeAddress"%string
  else if empty_arg (walletFile args) then Some "argument missing: keyFile"%string
  else if empty_arg (commitmentFile args) then Some "argument missing: commitmentFile"%string
  else if empty_arg (rootWalletFile args) then Some "argument missing: rootWalletFile"%string
  else if empty_arg (rootCommitmentFile args) then Some "argument missing: rootCommitmentFile"%string
  else if empty_arg (rootChParamsFile args) then Some "argument missing: rootChParamsFile"%string
  else None.

(** ** The keys *)

(** What the generators would give for each file that is missing. *)
Record generated := mkGenerated {
  new_wallet : option PrivateKey;
  new_root : option PrivateKey;
  new_multisig : option PrivateKey;
  new_commitment : RSAPrivateKey + string;
  new_root_commitment : RSAPrivateKey + string;
  new_parameters : ChameleonHashParameters
}.

(** The arguments of [miner.Init]. *)
Record launch := mkLaunch {
  validatorPubKey : PublicKey;
  multisigKey : PublicKey;
  rootPubKey : PublicKey;
  commPrivKey : RSAPrivateKey;
  rootCommPrivKey : RSAPrivateKey;
  rootChParams : ChameleonHashParameters
}.

Section start.
Context {DG : Digests} {DK : Disk} {SG : Signatures} {SN : Signers} {CM : Commitments} {RS : RSASigners}.

(** A result [(pointer, error)] whose error ends the start. *)
Definition checked {A B} (r : option A * error) (k : A -> M Files (string + B)) : M Files (string + B) :=
  match r with
  | (_, Some e) => mret (inl e)
  | (Some a, None) => k a
  | (None, None) => panic
  end.

Definition Start (args : startArgs) (g : generated) : M Files (string + launch) :=
  v ← GetOrCreateECDSAPublicKeyFromFile (new_wallet g) (walletFile args);
  match v with
  | inr e => mret (inl e)
  | inl validatorPubKey =>
      r ← ExtractECDSAKeyFromFile (new_root g) (rootWalletFile args);
      checked r (fun rootPrivKey =>
        ms ← (if empty_arg (multisigFile args) then mret (inl (key_Public rootPrivKey))
              else GetOrCreateECDSAPublicKeyFromFile (new_multisig g) (multisigFile args));
        match (ms : PublicKey + string) with
        | inr e => mret (inl e)
        | inl multisigPubKey =>
            c ← ExtractRSAKeyFromFile (new_commitment g) (commitmentFile args);
            checked c (fun commPrivKey =>
              rc ← ExtractRSAKeyFromFile (new_root_commitment g) (rootCommitmentFile args);
              checked rc (fun rootCommPrivKey =>
                p ← GetOrCreateParametersFromFile (new_parameters g) (rootChParamsFile args);
                checked p (fun rootChParams =>
                  mret (inr (mkLaunch validatorPubKey multisigPubKey (key_Public rootPrivKey) commPrivKey rootCommPrivKey rootChParams)))))
        end)
  end.

(** The action of the command: the error of the check, or the start. *)
Definition start_action (args : startArgs) (g : generated) : M Files (string + launch) :=
  match ValidateInput args with
  | Some e => mret (inl e)
  | None => Start args g
  end.

(** ** The commands that make a key file (wallet.go, commitment.go)

    What they print, the key, and the error that they return. The error is not
    looked at before the key is printed: a nil key panics. *)
Definition generate_wallet (newKey : option PrivateKey) (filename : bytes) : M Files (PrivateKey * error) :=
  r ← ExtractECDSAKeyFromFile newKey filename;
  privKey ← of_option (fst r);
  mret (privKey, snd r).

Definition generate_commitment (newKey : RSAPrivateKey + string) (filename : bytes) : M Files (RSAPrivateKey * error) :=
  r ← ExtractRSAKeyFromFile newKey filename;
  privKey ← of_option (fst r);
  mret (privKey, snd r).
End start.

(** ** The keys of the node

    What [miner.Init] keeps of its arguments; a key without an x-coordinate
    panics. *)
Definition public_pair (k : PublicKey) : option (Z * Z) := x ← pk_X k; Some (x, pk_Y k).

Definition launch_keys (l : launch) : option NodeKeys :=
  v ← public_pair (validatorPubKey l);
  m ← public_pair (multisigKey l);
  Some {| multisigPubKey := Some m; validatorAccAddress := GetAddressFromPubKey v |}.

Definition root_address (l : launch) : option address := GetAddressFromPubKey <$> public_pair (rootPubKey l).
