(* ===== verification/CliProps.v ===== *)
(** * Starting a node again

    With the same arguments a node that is started again has the same keys. *)

From S2P Require Import Prelude Format Chameleon Protocol Node Base64 Verify Validate KeyFiles KeyFileLemmas LedgerProps KeyProps Cli.

(** ** The check of the arguments *)

Lemma nonempty_arg s : empty_arg s = false <-> s <> [].
Proof. by destruct s. Qed.

Definition complete (args : startArgs) : Prop :=
  dbname args <> [] /\ myNodeAddress args <> [] /\ bootstrapNodeAddress args <> [] /\ walletFile args <> [] /\
  commitmentFile args <> [] /\ rootWalletFile args <> [] /\ rootCommitmentFile args <> [] /\ rootChParamsFile args <> [].

(** Every file but the one of the multi-signature key has to be named. *)
Lemma ValidateInput_spec args : ValidateInput args = None <-> complete args.
Proof.
  unfold ValidateInput, complete. rewrite <-!nonempty_arg.
  repeat match goal with |- context [if empty_arg ?s then _ else _] => destruct (empty_arg s) end; naive_solver.
Qed.

Section start.
Context {DG : Digests} {DK : Disk} {SG : Signatures} {SN : Signers} {CM : Commitments} {RS : RSASigners}.

(** Keys that [ecdsa.GenerateKey] and [rsa.GenerateMultiPrimeKey] may give. *)
Definition sound_key (k : PrivateKey) : Prop :=
  exists x r s, pk_X (key_Public k) = Some x /\ 0 <= x /\ 0 <= pk_Y (key_Public k) /\ 0 <= key_D k /\
    ecdsa_Sign k testing = inl (r, s) /\ ecdsa_Verify x (pk_Y (key_Public k)) testing r s = true.

Definition sound_rsa (k : RSAPrivateKey) : Prop :=
  exists n d p q, k = mkRSAKey n COMM_PUBLIC_EXPONENT d [p; q] /\
    key_number n /\ key_number d /\ key_number p /\ key_number q /\ VerifyRSAKey k = None.

Lemma checked_ok {A B} (a : A) (k : A -> M Files (string + B)) : checked (Some a, None) k = k a.
Proof. done. Qed.

(** C22: the keys outlive the node.  A node whose arguments name one wallet
    file, one commitment file and one file of parameters, none of which
    exists, makes them: the validator, root and multi-signature keys are the
    generated wallet key, both commitment keys the generated one.  Started
    again with the files, it has the same keys, whatever the generators would
    give then, and changes nothing. *)
Theorem restart_same_keys args g fs k c pr gp tk :
  complete args -> multisigFile args = [] ->
  rootWalletFile args = walletFile args -> rootCommitmentFile args = commitmentFile args ->
  NoDup [walletFile args; commitmentFile args; rootChParamsFile args] ->
  (forall f, f ∈ [walletFile args; commitmentFile args; rootChParamsFile args] -> usable f /\ fs !! f = None) ->
  new_wallet g = Some k -> sound_key k -> new_commitment g = inl c -> sound_rsa c ->
  new_parameters g = newChameleonHashParameters pr gp tk -> 2 < pr -> Z.log2 pr < 65535 -> 0 <= tk < pr ->
  let l := mkLaunch (key_Public k) (key_Public k) (key_Public k) c c (new_parameters g) in
  exists fs', start_action args g fs = Done (inr l, fs') /\
    forall g', start_action args g' fs' = Done (inr l, fs').
Proof.
  intros Hc Hm Hrw Hrc Hnd Hf Hk (x & r & s & Hx & Hx0 & Hy & Hd & Hs & Hv) Hcm (n & d & p & q & -> & Hn & Hd2 & Hp & Hq & Hver) Hpar Hp2 Hlp Htk l.
  assert (HV : ValidateInput args = None) by by apply ValidateInput_spec.
  destruct k as [ [xo y] d0]. cbn in Hx, Hy, Hd, Hv. subst xo.
  set (w := walletFile args) in *. set (cf := commitmentFile args) in *. set (pf := rootChParamsFile args) in *.
  assert (w <> cf /\ w <> pf /\ cf <> pf) as (H1 & H2 & H3).
  { apply NoDup_cons in Hnd as [Ha [Hb _]%NoDup_cons]. set_solver. }
  destruct (Hf w) as [Uw Fw]; [set_solver|]. destruct (Hf cf) as [Uc Fc]; [set_solver|]. destruct (Hf pf) as [Up Fp]; [set_solver|].
  set (f1 := <[w := ecdsa_text x y d0]> fs).
  set (f2 := <[cf := stringifyRSAKey (mkRSAKey n COMM_PUBLIC_EXPONENT d [p; q])]> f1).
  set (f3 := <[pf := parameter_lines (newChameleonHashParameters pr gp tk)]> f2).
  assert (W1 : f1 !! w = Some (ecdsa_text x y d0)) by apply lookup_insert_eq.
  assert (W3 : f3 !! w = Some (ecdsa_text x y d0)) by (unfold f3, f2; by rewrite !lookup_insert_ne).
  assert (C1 : f1 !! cf = None) by (unfold f1; by rewrite lookup_insert_ne).
  assert (C2 : f2 !! cf = Some (stringifyRSAKey (mkRSAKey n COMM_PUBLIC_EXPONENT d [p; q]))) by apply lookup_insert_eq.
  assert (C3 : f3 !! cf = f2 !! cf) by (unfold f3; by rewrite lookup_insert_ne).
  assert (P2 : f2 !! pf = None) by (unfold f2, f1; by rewrite !lookup_insert_ne).
  assert (P3 : f3 !! pf = Some (parameter_lines (newChameleonHashParameters pr gp tk))) by apply lookup_insert_eq.
  assert (there : forall create f fs0 t, fs0 !! f = Some t -> create_missing create f fs0 = Done (None, fs0)).
  { intros create f fs0 t E. by rewrite create_missing_run, E. }
  unfold start_action. rewrite HV. exists f3. unfold Start. rewrite Hm, Hrw, Hrc. fold w cf pf. cbn [empty_arg length Nat.eqb].
  split; [rewrite Hk, Hcm, Hpar|intros g'].
  - erewrite bind_Done by (apply (ecdsa_readable x y d0 _ _ r s); [done|exact W1|done|done|done|exact Hs|exact Hv|by apply ecdsa_made]). cbn beta iota.
    erewrite bind_Done by (apply (ecdsa_readable x y d0 _ _ r s); [done|exact W1|done|done|done|exact Hs|exact Hv|by eapply there]). rewrite checked_ok. cbn beta.
    erewrite bind_Done by reflexivity. cbn beta iota.
    erewrite bind_Done by (apply (rsa_readable n d p q); [done..|exact C2|by apply rsa_made]). rewrite checked_ok. cbn beta.
    erewrite bind_Done by (apply (rsa_readable n d p q); [done..|exact C2|by eapply there]). rewrite checked_ok. cbn beta.
    erewrite bind_Done by (apply (parameters_readable pr gp tk); [done..|exact P3|by apply parameters_made]). rewrite checked_ok.
    unfold l. by rewrite Hpar.
  - erewrite bind_Done by (apply (ecdsa_readable x y d0 _ _ r s); [done|exact W3|done|done|done|exact Hs|exact Hv|by eapply there]). cbn beta iota.
    erewrite bind_Done by (apply (ecdsa_readable x y d0 _ _ r s); [done|exact W3|done|done|done|exact Hs|exact Hv|by eapply there]). rewrite checked_ok. cbn beta.
    erewrite bind_Done by reflexivity. cbn beta iota.
    rewrite C2 in C3.
    erewrite bind_Done by (apply (rsa_readable n d p q); [done..|exact C3|by eapply there]). rewrite checked_ok. cbn beta.
    erewrite bind_Done by (apply (rsa_readable n d p q); [done..|exact C3|by eapply there]). rewrite checked_ok. cbn beta.
    erewrite bind_Done by (apply (parameters_readable pr gp tk); [done..|exact P3|by eapply there]). rewrite checked_ok.
    unfold l. by rewrite Hpar.
Qed.

(** ** The two other commands *)

(** A new file: the key that is shown is the one that the node reads later. *)
Lemma generated_wallet k w fs : usable w -> fs !! w = None -> sound_key k ->
  exists fs', generate_wallet (Some k) w fs = Done ((k, None), fs') /\
    forall other, GetOrCreateECDSAPublicKeyFromFile other w fs' = Done (inl (key_Public k), fs').
Proof.
  intros Hu Hw (x & r & s & Hx & Hx0 & Hy & Hd & Hs & Hv). destruct k as [ [xo y] d]. cbn in Hx, Hy, Hd, Hv. subst xo.
  exists (<[w := ecdsa_text x y d]> fs). assert (Hl : <[w := ecdsa_text x y d]> fs !! w = Some (ecdsa_text x y d)) by apply lookup_insert_eq.
  split.
  - unfold generate_wallet. by erewrite bind_Done by (apply (ecdsa_readable x y d _ _ r s); [done|exact Hl|done|done|done|exact Hs|exact Hv|by apply ecdsa_made]).
  - intros other. apply (ecdsa_readable x y d _ _ r s); [done|exact Hl|done|done|done|exact Hs|exact Hv|].
    by rewrite create_missing_run, Hl.
Qed.

Lemma generated_commitment n d p q f fs : usable f -> fs !! f = None ->
  key_number n -> key_number d -> key_number p -> key_number q ->
  let key := mkRSAKey n COMM_PUBLIC_EXPONENT d [p; q] in VerifyRSAKey key = None ->
  exists fs', generate_commitment (inl key) f fs = Done ((key, None), fs') /\
    forall other, ExtractRSAKeyFromFile other f fs' = Done ((Some key, None), fs').
Proof.
  intros Hu Hf Hn Hd Hp Hq key Hv. exists (<[f := stringifyRSAKey key]> fs).
  assert (Hl : <[f := stringifyRSAKey key]> fs !! f = Some (stringifyRSAKey key)) by apply lookup_insert_eq. split.
  - unfold generate_commitment. by erewrite bind_Done by (apply (rsa_readable n d p q); [done..|exact Hl|by apply rsa_made]).
  - intros other. apply (rsa_readable n d p q); [done..|exact Hl|]. by rewrite create_missing_run, Hl.
Qed.

(** An existing file that may not be opened stops the commands: they print a
    key that is nil. *)
Lemma unreadable_file_panics newKey newRSA f fs e : is_Some (fs !! f) -> open_error f = Some e ->
  generate_wallet newKey f fs = Panic /\ generate_commitment newRSA f fs = Panic.
Proof.
  intros [t Ht] He. unfold generate_wallet, generate_commitment, ExtractECDSAKeyFromFile, ExtractRSAKeyFromFile.
  split; unfold mbind, M_bind; rewrite create_missing_run, Ht; unfold os_Open, mbind, M_bind, gets; by rewrite He.
Qed.
End start.

(** ** Witness *)

Section witness.
Import Toy Keys.
#[local] Existing Instances verify_all accept_all.

Definition home : startArgs :=
  mkStartArgs (str_bytes "store.db") (str_bytes "localhost:8000") (str_bytes "localhost:8000") wallet []
    (str_bytes "commitment.txt") wallet (str_bytes "commitment.txt") (str_bytes "root.txt").

Definition my_key : PrivateKey := mkPrivateKey (mkPublicKey (Some 10) 255) 7.
Definition my_rsa : RSAPrivateKey := mkRSAKey 3233 COMM_PUBLIC_EXPONENT 413 [61; 53].
Definition first_keys : generated := mkGenerated (Some my_key) None None (inl my_rsa) (inr "none"%string) keys.
Definition later_keys : generated := mkGenerated None None None (inr "none"%string) (inr "none"%string) (mkCHParams [] [] [] [] []).

Lemma restart_same_keys_witness : exists l fs', start_action home first_keys ∅ = Done (inr l, fs') /\
  start_action home later_keys fs' = Done (inr l, fs') /\ rootPubKey l = mkPublicKey (Some 10) 255.
Proof.
  destruct (restart_same_keys home first_keys ∅ my_key my_rsa 23 2 3) as (fs' & H1 & H2).
  - apply ValidateInput_spec. reflexivity.
  - reflexivity.
  - reflexivity.
  - reflexivity.
  - apply (bool_decide_unpack _). vm_compute. exact I.
  - intros f _. split; [apply usable_all|reflexivity].
  - reflexivity.
  - exists 10, 1, 1. split_and!; try reflexivity; cbn; lia.
  - reflexivity.
  - exists 3233, 413, 61, 53. split_and!; try reflexivity; apply key_number_small; lia.
  - reflexivity.
  - lia.
  - reflexivity.
  - lia.
  - eexists _, fs'. split; [exact H1|]. split; [exact (H2 later_keys)|reflexivity].
Defined.
End witness.
