(* ===== verification/NodeTypes.v ===== *)
(** * Well-typed states of a node

    What the maps of a node hold, whatever it received: an account is kept
    under the hash of its address, with a balance and a counter of their
    widths; a block is kept under its own hash, without the copy of the state,
    and without its transactions only if they are aggregated; the stash has at most a hundred blocks, all of different hashes; the
    parameters are within their bounds. [preserves f] says that [f] keeps this;
    a program preserves it when its leaves do. *)

From S2P Require Import Prelude GoLib Format Chameleon Protocol Merkle BlockFields Node Storage Ledger Params StateChange.
From S2P Require Import StateLemmas Validation PoS ParamLemmas Verify AddTx Aggregate BlockPrep LongestChain ChainLemmas Fetch Validate FetchLemmas CheckLemmas InitState.

(** ** The types *)

(** What is stored was decoded: the copy of the state is not encoded. *)
Definition keyed (key : Block -> hash) (bucket : gmap hash Block) : Prop :=
  map_Forall (fun h b => key b = h /\ blk_StateCopy b = ∅) bucket.

Record buckets_typed (d : Buckets) : Prop := {
  bt_open : keyed blk_Hash (openblocks d);
  bt_closed : keyed blk_Hash (closedblocks d);
  bt_without : keyed blk_HashWithoutTx (closedblockswithouttx d);
  bt_aggregated : map_Forall (fun _ b => blk_Aggregated b = true) (closedblockswithouttx d);
  bt_last : keyed blk_Hash (lastclosedblock d)
}.

Definition stash_typed (l : list Block) : Prop := NoDup (map blk_Hash l) /\ (length l <= 100)%nat.

Record ledger_typed `{DG : Digests} (l : Ledger) : Prop := {
  lt_accounts : map_Forall (fun h a => Account_Hash a = h /\ account_ok a) (State l);
  lt_roots : map_Forall (fun h a => SerializeHashContent (VBytes a) = h) (RootKeys l)
}.

Record chain_typed (c : Chain) : Prop := {
  ct_parameters : chain_ok c;
  ct_target : Forall is_u8 (target c)
}.

Record node_ok `{DG : Digests} (m : Miner) : Prop := {
  no_ledger : ledger_typed (ledger m);
  no_stash : stash_typed (ReceivedBlockStash (pool m));
  no_db : buckets_typed (db m);
  no_chain : chain_typed (chain m)
}.

(** [P] holds afterwards if it held before. *)
Definition stable (P : Miner -> Prop) (m m' : Miner) : Prop := P m -> P m'.

#[export] Instance stable_PreOrder P : PreOrder (stable P).
Proof. split; [by intros m ?|]. intros a b c Hab Hbc Ha. by apply Hbc, Hab. Qed.

Abbreviation preserves := (respects (stable node_ok)).

(** ** Maps of blocks, and the stash *)

Lemma keyed_insert key bucket h b : key b = h -> blk_StateCopy b = ∅ -> keyed key bucket -> keyed key (<[h := b]> bucket).
Proof. intros Hk Hc Hb. by apply map_Forall_insert_2. Qed.

Lemma keyed_delete key bucket h : keyed key bucket -> keyed key (delete h bucket).
Proof. apply map_Forall_delete. Qed.

Lemma keyed_empty key : keyed key ∅.
Proof. apply map_Forall_empty. Qed.

Create HintDb keyed.
#[export] Hint Resolve keyed_insert keyed_delete keyed_empty : keyed.

Lemma stashed_typed b l : stash_typed l ->
  stash_typed (if BlockAlreadyInStash l (blk_Hash b) then l
    else let stash := l ++ [b] in if Nat.ltb 100 (length stash) then drop 1 stash else stash).
Proof.
  intros [Hn Hl]. destruct (BlockAlreadyInStash l (blk_Hash b)) eqn:E; [done|]. cbv zeta.
  assert (Hnd : NoDup (map blk_Hash (l ++ [b]))).
  { rewrite map_app. apply NoDup_app. split; [done|]. split; [|apply NoDup_singleton].
    intros h (x & -> & Hx)%list_elem_of_fmap Hh%list_elem_of_singleton. apply not_true_iff_false in E. apply E.
    apply existsb_exists. exists x. split; [by apply list_elem_of_In|]. by apply bool_decide_eq_true. }
  rewrite length_app. cbn [length]. destruct (Nat.ltb_spec 100 (length l + 1)); split; [|..].
  - rewrite <-(take_drop 1 (l ++ [b])), map_app in Hnd. by apply NoDup_app in Hnd as (_ & _ & ?).
  - rewrite length_drop, length_app. cbn. lia.
  - done.
  - rewrite length_app. cbn. lia.
Qed.

Section leaves.
Context {DG : Digests}.

(** ** The leaves *)

Lemma stable_pool (f : Pool -> Pool) :
  (forall p, stash_typed (ReceivedBlockStash p) -> stash_typed (ReceivedBlockStash (f p))) -> preserves (on_pool f).
Proof. intros H m u m' [= _ <-] []. split; cbn; auto. Qed.

Lemma stable_db (f : Buckets -> Buckets) : (forall d, buckets_typed d -> buckets_typed (f d)) -> preserves (on_db f).
Proof. intros H m u m' [= _ <-] []. split; cbn; auto. Qed.

Lemma stable_chain (f : Chain -> Chain) : (forall c, chain_typed c -> chain_typed (f c)) -> preserves (on_chain f).
Proof. intros H m u m' [= _ <-] []. split; cbn; auto. Qed.

Lemma stable_ledger (f : Ledger -> Ledger) : (forall l, ledger_typed l -> ledger_typed (f l)) -> preserves (on_ledger f).
Proof. intros H m u m' [= _ <-] []. split; cbn; auto. Qed.

(** The parameters and the difficulty are not touched. *)
Lemma chain_typed_same c c' : parameterSlice c' = parameterSlice c -> activeParameters c' = activeParameters c ->
  target c' = target c -> chain_typed c -> chain_typed c'.
Proof. intros E1 E2 E3 [ [] ]. split; [split|]; by rewrite ?E1, ?E2, ?E3. Qed.

(** Neither the address nor the ranges are lost. *)
Definition sound (f : Account -> Account) : Prop :=
  forall a, acc_Address (f a) = acc_Address a /\ (account_ok a -> account_ok (f a)).

Lemma stable_update h f : sound f -> preserves (update_account h f).
Proof.
  intros Hf. apply stable_ledger. intros l [Ha Hr]. split; [|done]. cbn. intros k a Hk. unfold Account_Hash in *.
  apply lookup_alter_Some in Hk as [(-> & b & Hb & ->)|[_ Hk] ]; [|exact (Ha k a Hk)].
  destruct (Hf b) as [-> Hs]. destruct (Ha k b Hb). auto.
Qed.

Lemma sound_credit x : sound (credit x).
Proof. split; [done|apply account_ok_credit]. Qed.
Lemma sound_debit x : sound (debit x).
Proof. split; [done|apply account_ok_debit]. Qed.
Lemma sound_inc : sound inc_TxCnt.
Proof. split; [done|apply account_ok_inc]. Qed.
Lemma sound_dec : sound dec_TxCnt.
Proof. split; [done|apply account_ok_dec]. Qed.
Lemma sound_IsStaking v : sound (set_IsStaking v).
Proof. by split. Qed.
Lemma sound_CommitmentKey v : sound (set_CommitmentKey v).
Proof. by split. Qed.
Lemma sound_StakingBlockHeight v : sound (set_StakingBlockHeight v).
Proof. by split. Qed.
Lemma sound_contract r : sound (set_contract_state r).
Proof. by split. Qed.
Lemma sound_unstake v : sound (unstake_below v).
Proof. intros a. unfold unstake_below. by destruct (_ && _). Qed.

Lemma stable_unstake v : preserves (on_ledger (upd_State (fmap (unstake_below v)))).
Proof.
  apply stable_ledger. intros l [Ha Hr]. split; [|done]. cbn. intros k a Hk.
  apply lookup_fmap_Some in Hk as (b & <- & Hb). destruct (sound_unstake v b) as [E Hs]. destruct (Ha k b Hb).
  unfold Account_Hash in *. rewrite E. auto.
Qed.

Lemma stable_new_account h a : Account_Hash a = h -> account_ok a -> preserves (on_ledger (upd_State (insert h a))).
Proof. intros Hh Ha. apply stable_ledger. intros l [Hs Hr]. split; [|done]. by apply map_Forall_insert_2. Qed.

Lemma stable_delete_account h : preserves (on_ledger (upd_State (delete h))).
Proof. apply stable_ledger. intros l [Hs Hr]. split; [|done]. by apply map_Forall_delete. Qed.

Lemma stable_set_parameters h p : preserves (on_ledger (set_parameters h p)).
Proof. by apply stable_ledger; intros l []. Qed.

Lemma stable_new_root h a : SerializeHashContent (VBytes a) = h -> preserves (on_ledger (upd_RootKeys (insert h a))).
Proof. intros Hh. apply stable_ledger. intros l [Hs Hr]. split; [done|]. by apply map_Forall_insert_2. Qed.

Lemma stable_delete_root h : preserves (on_ledger (upd_RootKeys (delete h))).
Proof. apply stable_ledger. intros l [Hs Hr]. split; [done|]. by apply map_Forall_delete. Qed.
End leaves.

Create HintDb typed.
#[export] Hint Extern 1 (respects _ (gets _)) => apply respects_gets, _ : typed.
#[export] Hint Extern 1 (respects _ (mret _)) => apply respects_ret, _ : typed.
#[export] Hint Extern 1 (respects _ (of_option _)) => apply respects_of_option, _ : typed.
#[export] Hint Extern 1 (respects _ panic) => apply respects_panic : typed.
#[export] Hint Extern 1 (respects _ timeout) => apply respects_timeout : typed.
#[export] Hint Extern 1 (respects _ (tx_hash _)) => apply reads_tx_hash, _ : typed.
#[export] Hint Extern 1 (respects _ (on_pool _)) => by apply stable_pool : typed.
#[export] Hint Extern 1 (respects _ (on_chain _)) =>
  apply stable_chain; intros; eapply chain_typed_same; [..|eassumption]; reflexivity : typed.
#[export] Hint Resolve stable_update stable_unstake stable_delete_account stable_set_parameters stable_delete_root
  sound_credit sound_debit sound_inc sound_dec sound_IsStaking sound_CommitmentKey sound_StakingBlockHeight sound_contract : typed.

(** Through binds, branches and loops down to the leaves. *)
Ltac typed_step :=
  match goal with
  | |- respects _ (_ ≫= _) => apply respects_bind; [apply _| |intros]
  | |- respects _ (for_each _ _) => apply for_each_respects; [apply _|intros]
  | |- respects _ (match ?x with _ => _ end) => destruct x
  | |- respects _ ((match ?x with _ => _ end) _) => destruct x
  | |- respects _ _ => solve [auto with typed]
  end.
Ltac typed := cbv zeta; repeat typed_step.

(** ** Storage *)

Section storage.
Context {DG : Digests}.

Ltac bucket := apply stable_db; intros d []; split; cbn; auto with keyed; by apply map_Forall_delete.

Lemma stable_WriteOpenBlock b : preserves (WriteOpenBlock b).
Proof. bucket. Qed.
Lemma stable_WriteClosedBlock b : preserves (WriteClosedBlock b).
Proof. bucket. Qed.
Lemma stable_WriteClosedBlockWithoutTx b : blk_Aggregated b = true -> preserves (WriteClosedBlockWithoutTx b).
Proof. intros Ha. apply stable_db. intros d []. split; cbn; auto with keyed. by apply map_Forall_insert_2. Qed.
Lemma stable_WriteLastClosedBlock b : preserves (WriteLastClosedBlock b).
Proof. bucket. Qed.
Lemma stable_WriteBlockHashByTxHash h k : preserves (WriteBlockHashByTxHash h k).
Proof. bucket. Qed.
Lemma stable_DeleteOpenBlock h : preserves (DeleteOpenBlock h).
Proof. bucket. Qed.
Lemma stable_DeleteClosedBlock h : preserves (DeleteClosedBlock h).
Proof. bucket. Qed.
Lemma stable_DeleteClosedBlockWithoutTx h : preserves (DeleteClosedBlockWithoutTx h).
Proof. bucket. Qed.
Lemma stable_DeleteAllLastClosedBlock : preserves DeleteAllLastClosedBlock.
Proof. bucket. Qed.
Lemma stable_put_closed h tx : preserves (on_db (put_closed h tx)).
Proof. destruct tx; bucket. Qed.
Lemma stable_delete_closed h tx : preserves (on_db (delete_closed h tx)).
Proof. destruct tx; bucket. Qed.
Lemma stable_WriteToReceivedStash b : preserves (WriteToReceivedStash b).
Proof. apply stable_pool. intros p. apply stashed_typed. Qed.
#[local] Hint Resolve stable_WriteClosedBlock stable_DeleteClosedBlock stable_put_closed stable_delete_closed : typed.
#[local] Hint Extern 1 (respects _ (WriteClosedBlockWithoutTx _)) => by apply stable_WriteClosedBlockWithoutTx : typed.

Lemma stable_WriteOpenTx tx : preserves (WriteOpenTx tx).
Proof. unfold WriteOpenTx, WriteTxcntToTx. typed. Qed.
Lemma stable_WriteINVALIDOpenTx tx : preserves (WriteINVALIDOpenTx tx).
Proof. unfold WriteINVALIDOpenTx. typed. Qed.
Lemma stable_WriteBootstrapTxReceived tx : preserves (WriteBootstrapTxReceived tx).
Proof. unfold WriteBootstrapTxReceived. typed. Qed.
Lemma stable_DeleteOpenTx tx : preserves (DeleteOpenTx tx).
Proof. unfold DeleteOpenTx. typed. Qed.
Lemma stable_DeleteINVALIDOpenTx tx : preserves (DeleteINVALIDOpenTx tx).
Proof. unfold DeleteINVALIDOpenTx. typed. Qed.
Lemma stable_WriteClosedTx tx : preserves (WriteClosedTx tx).
Proof. unfold WriteClosedTx. typed. Qed.
Lemma stable_DeleteClosedTx tx : preserves (DeleteClosedTx tx).
Proof. unfold DeleteClosedTx. typed. Qed.
Lemma stable_DeleteAllFunds : preserves DeleteAllFundsTxBeforeAggregation.
Proof. unfold DeleteAllFundsTxBeforeAggregation. typed. Qed.

Lemma stable_all_aggregated is_agg hs : preserves (all_aggregated is_agg hs).
Proof. induction hs; cbn [all_aggregated]; unfold ReadClosedTx; typed. Qed.
#[local] Hint Resolve stable_all_aggregated : typed.

Lemma stable_UpdateBlocks b : preserves (UpdateBlocksToBlocksWithoutTx b).
Proof. unfold UpdateBlocksToBlocksWithoutTx, BlockReadyToAggregate. typed. Qed.
End storage.

#[export] Hint Resolve stable_WriteOpenBlock stable_WriteClosedBlock
  stable_WriteLastClosedBlock stable_WriteBlockHashByTxHash stable_DeleteOpenBlock stable_DeleteClosedBlock
  stable_DeleteClosedBlockWithoutTx stable_DeleteAllLastClosedBlock stable_put_closed stable_delete_closed
  stable_WriteToReceivedStash stable_WriteOpenTx stable_WriteINVALIDOpenTx stable_WriteBootstrapTxReceived
  stable_DeleteOpenTx stable_DeleteINVALIDOpenTx stable_WriteClosedTx stable_DeleteClosedTx stable_DeleteAllFunds
  stable_UpdateBlocks : typed.

(** What only reads. *)
Ltac reads := unfold GetRootAccount, GetAccount, IsRootKey, account, get_account, ReadClosedTx, ReadOpenTx, ReadINVALIDOpenTx,
  ReadOpenBlock, ReadClosedBlock, ReadClosedBlockWithoutTx, read_db, ReadLastClosedBlock, ReadReceivedBlockStash,
  ReadFundsTxBeforeAggregation, ReadTxcntToTx, ReadAllClosedFundsAndAggTransactions in *.
