(* ===== verification/NodeSteps.v ===== *)
(** * Every operation of a miner keeps its state well-typed

    One lemma per operation, in the order of the components; each follows from
    the leaves of [NodeTypes.v] but those that write what they read. *)

From S2P Require Import Prelude GoLib Format Chameleon Protocol Merkle BlockFields Node Storage Ledger Params StateChange.
From S2P Require Import StateLemmas Validation PoS ParamLemmas Verify AddTx Aggregate BlockPrep LongestChain ChainLemmas Fetch Validate FetchLemmas CheckLemmas InitState NodeTypes.

(** ** Loops *)

Section loops.
Context {DG : Digests}.

Lemma stable_for_each_err {T} (body : T -> M Miner error) l :
  (forall x, preserves (body x)) -> preserves (for_each_err body l).
Proof. intros Hb. induction l; cbn [for_each_err]; typed. Qed.

Lemma stable_for_each_tmp {T} (body : T -> M Miner error) l :
  (forall x, preserves (body x)) -> preserves (for_each_tmp body l).
Proof. intros Hb. induction l; cbn [for_each_tmp]; typed. Qed.

(** ** State changes (StateChange.v) *)

Lemma stable_accTx_change tx : preserves (accTx_change tx).
Proof.
  unfold accTx_change. reads. typed; first [by apply stable_new_account|by apply stable_new_root].
Qed.

(** The root key that is put back belongs to the account that is deleted. *)
Lemma stable_accTx_rollback tx : preserves (accTx_rollback tx).
Proof.
  unfold accTx_rollback. destruct (_ || _); [|typed]. intros m u m' H Hm.
  apply bind_inv in H as (acc & m1 & H1 & H). apply account_inv in H1 as [Ha ->].
  pose proof (lt_accounts _ (no_ledger _ Hm) _ _ Ha) as [Hh _].
  revert Hm. cbv zeta in H. match type of H with ?c m = _ => assert (Hc : preserves c) end; [|exact (Hc m u m' H)].
  typed. by apply stable_new_root.
Qed.

Lemma stable_fundsTx_change init tx : preserves (fundsTx_change init tx).
Proof. unfold fundsTx_change, fundsTx_checks. reads. typed. Qed.
Lemma stable_fundsTx_rollback tx : preserves (fundsTx_rollback tx).
Proof. unfold fundsTx_rollback. reads. typed. Qed.
Lemma stable_stakeTx_change height init tx : preserves (stakeTx_change height init tx).
Proof. unfold stakeTx_change. reads. typed. Qed.
Lemma stable_stakeTx_rollback tx : preserves (stakeTx_rollback tx).
Proof. unfold stakeTx_rollback. reads. typed. Qed.
Lemma stable_take_back h fee : preserves (take_back h fee).
Proof. unfold take_back. reads. typed. Qed.
Lemma stable_give_back h fee : preserves (give_back h fee).
Proof. unfold give_back. reads. typed. Qed.
Lemma stable_collect_minted h fee : preserves (collect_minted h fee).
Proof. unfold collect_minted. reads. typed. Qed.
Lemma stable_collect_funds_fee h tx : preserves (collect_funds_fee h tx).
Proof. unfold collect_funds_fee. reads. typed. Qed.
Lemma stable_collect_stake_fee h tx : preserves (collect_stake_fee h tx).
Proof. unfold collect_stake_fee. reads. typed. Qed.
#[local] Hint Resolve stable_for_each_err stable_for_each_tmp stable_accTx_change stable_accTx_rollback
  stable_fundsTx_change stable_fundsTx_rollback stable_stakeTx_change stable_stakeTx_rollback stable_take_back
  stable_give_back stable_collect_minted stable_collect_funds_fee stable_collect_stake_fee : typed.

Lemma stable_accStateChange l : preserves (accStateChange l).
Proof. unfold accStateChange. typed. Qed.
Lemma stable_accStateChangeRollback l : preserves (accStateChangeRollback l).
Proof. unfold accStateChangeRollback. typed. Qed.
Lemma stable_fundsStateChange l init : preserves (fundsStateChange l init).
Proof. unfold fundsStateChange. typed. Qed.
Lemma stable_fundsStateChangeRollback l : preserves (fundsStateChangeRollback l).
Proof. unfold fundsStateChangeRollback. typed. Qed.
Lemma stable_stakeStateChange l height init : preserves (stakeStateChange l height init).
Proof. unfold stakeStateChange. typed. Qed.
Lemma stable_stakeStateChangeRollback l : preserves (stakeStateChangeRollback l).
Proof. unfold stakeStateChangeRollback. typed. Qed.

Lemma stable_getFundsTxFromAggTx hs : preserves (getFundsTxFromAggTx hs).
Proof. induction hs; cbn [getFundsTxFromAggTx]; reads; typed. Qed.
#[local] Hint Resolve stable_getFundsTxFromAggTx : typed.
Lemma stable_aggregated_funds l : preserves (aggregated_funds l).
Proof. induction l; cbn [aggregated_funds]; typed. Qed.
#[local] Hint Resolve stable_aggregated_funds : typed.

Lemma stable_collectTxFeesRollback a f c s h : preserves (collectTxFeesRollback a f c s h).
Proof. unfold collectTxFeesRollback. typed. Qed.
#[local] Hint Resolve stable_collectTxFeesRollback : typed.
Lemma stable_collectTxFees a f c s g h init : preserves (collectTxFees a f c s g h init).
Proof. unfold collectTxFees. reads. typed. Qed.
Lemma stable_collectBlockReward r h init : preserves (collectBlockReward r h init).
Proof. unfold collectBlockReward. reads. typed. Qed.
Lemma stable_collectBlockRewardRollback r h : preserves (collectBlockRewardRollback r h).
Proof. unfold collectBlockRewardRollback. typed. Qed.
Lemma stable_collectSlashReward r b : preserves (collectSlashReward r b).
Proof. unfold collectSlashReward. reads. typed. Qed.
Lemma stable_collectSlashRewardRollback r b : preserves (collectSlashRewardRollback r b).
Proof. unfold collectSlashRewardRollback. reads. typed. Qed.
Lemma stable_updateStakingHeight b : preserves (updateStakingHeight b).
Proof. unfold updateStakingHeight. reads. typed. Qed.
End loops.

#[export] Hint Resolve stable_for_each_err stable_for_each_tmp stable_accStateChange stable_accStateChangeRollback
  stable_fundsStateChange stable_fundsStateChangeRollback stable_stakeStateChange stable_stakeStateChangeRollback
  stable_collectTxFeesRollback stable_collectTxFees stable_collectBlockReward stable_collectBlockRewardRollback
  stable_collectSlashReward stable_collectSlashRewardRollback stable_updateStakingHeight : typed.

(** ** Parameters and statistics (Params.v) *)

Section params.
Context {DG : Digests} {FO : FloatOps}.

(** Everything but the chain. *)
Definition rest_ok (m : Miner) : Prop :=
  ledger_typed (ledger m) /\ stash_typed (ReceivedBlockStash (pool m)) /\ buckets_typed (db m).

Lemma node_ok_split m : node_ok m <-> rest_ok m /\ chain_typed (chain m).
Proof. split; [intros []; by split_and!|by intros [(? & ? & ?) ?]; split]. Qed.

Lemma rest_chain f : respects (stable rest_ok) (on_chain f).
Proof. intros m u m' [= _ <-] Hm. exact Hm. Qed.

Lemma rest_unstake v : respects (stable rest_ok) (on_ledger (upd_State (fmap (unstake_below v)))).
Proof.
  intros m u m' [= _ <-] (Hl & ? & ?). split; [|done]. destruct Hl as [Ha Hr]. split; [|done]. cbn. intros k a Hk.
  apply lookup_fmap_Some in Hk as (b & <- & Hb). destruct (sound_unstake v b) as [E Hs]. destruct (Ha k b Hb).
  unfold Account_Hash in *. rewrite E. auto.
Qed.
#[local] Hint Resolve rest_chain rest_unstake : frame.

Lemma rest_CheckAndChange p l c : respects (stable rest_ok) (CheckAndChangeParameters p l c).
Proof. revert p c. induction l; intros p c; cbn [CheckAndChangeParameters]; unfold change_parameter; frame. Qed.
#[local] Hint Resolve rest_CheckAndChange : frame.

Lemma target_config txs h m m' : chain_ok (chain m) -> configStateChange txs h m = Done (tt, m') ->
  target (chain m') = target (chain m).
Proof. intros Hc H. by destruct (configStateChange_inv _ _ _ _ Hc H) as [->|(_ & p & _ & _ & ->)]. Qed.

Lemma stable_configStateChange txs h : preserves (configStateChange txs h).
Proof.
  intros m [] m' H Hm. apply node_ok_split in Hm as [Hr [Hc Ht] ]. apply node_ok_split. split.
  - revert Hr. assert (Hf : respects (stable rest_ok) (configStateChange txs h)) by (unfold configStateChange; frame).
    by eapply Hf.
  - split; [by eapply configStateChange_ok|]. by rewrite (target_config txs h m).
Qed.

Lemma target_config_rollback txs h : respects (fun m m' => target (chain m') = target (chain m)) (configStateChangeRollback txs h).
Proof.
  assert (PreOrder (fun m m' => target (chain m') = target (chain m))).
  { split; [done|]. intros a b c ? ?. congruence. }
  assert (forall p, respects (fun m m' => target (chain m') = target (chain m)) (on_chain (upd_parameterSlice p))) by (by intros p m u m' [= _ <-]).
  assert (forall p, respects (fun m m' => target (chain m') = target (chain m)) (on_chain (upd_activeParameters p))) by (by intros p m u m' [= _ <-]).
  unfold configStateChangeRollback. frame.
Qed.

Lemma stable_configStateChangeRollback txs h : preserves (configStateChangeRollback txs h).
Proof.
  intros m [] m' H Hm. apply node_ok_split in Hm as [Hr [Hc Ht] ]. apply node_ok_split. split.
  - revert Hr. assert (Hf : respects (stable rest_ok) (configStateChangeRollback txs h)) by (unfold configStateChangeRollback; frame).
    by eapply Hf.
  - split; [by eapply configStateChangeRollback_ok|]. by rewrite (target_config_rollback _ _ _ _ _ H).
Qed.

(** A difficulty is an old one or the result of a conversion to a byte. *)
Lemma next_target_typed (b : bool) t m d m' : Forall is_u8 (target (chain m)) ->
  (if b then of_option (last (target (chain m))) else calculateNewDifficulty t) m = Done (d, m') -> m' = m /\ is_u8 d.
Proof.
  intros Ht H. assert (Hl : forall c, last (target (chain m)) = Some c -> is_u8 c).
  { intros c (l & E)%last_Some. rewrite E, Forall_app in Ht. destruct Ht as [_ Ht]. by rewrite Forall_singleton in Ht. }
  destruct b.
  - apply of_option_inv in H as [H ->]. auto.
  - apply calculateNewDifficulty_step in H as (c & Hc & -> & [->|(k & _ & ->)]); split; auto. apply wrap_bounds. lia.
Qed.

Lemma stable_collectStatistics b : preserves (collectStatistics b).
Proof.
  unfold collectStatistics. do 2 (apply respects_bind; [apply _|typed|intros _]).
  intros m u m' H Hm. apply bind_inv in H as (c & m1 & H1 & H). apply gets_inv in H1 as [-> ->].
  revert m u m' H Hm. intros m u m' H Hm. apply bind_inv in H as (v & m1 & H1 & H).
  assert (Hm1 : node_ok m1); [|revert Hm1; by eapply (_ : preserves (on_chain (upd_lastBlock (fun _ => Some b))))]. Unshelve. 2: typed.
  destruct (_ <=? _) in H1; [|by injection H1 as _ <-]. cbv zeta in H1. apply bind_inv in H1 as (d & m2 & Hd & H1).
  apply next_target_typed in Hd as [-> Hd]; [|apply Hm].
  match type of H1 with ?c m = _ => assert (Hc : preserves c) end; [|exact (Hc m v m1 H1 Hm)].
  apply respects_bind; [apply _| |intros _; typed].
  apply stable_chain. intros c [ [] Ht]. split; [done|]. cbn. apply Forall_app. by split; [|apply Forall_singleton].
Qed.

Lemma stable_collectStatisticsRollback b : preserves (collectStatisticsRollback b).
Proof.
  assert (preserves (on_chain (upd_target (@removelast _)))).
  { apply stable_chain. intros c [ [] Ht]. split; [done|]. cbn. destruct (target c) as [|x l _] using rev_ind; [done|].
    rewrite removelast_last. by apply Forall_app in Ht as [? _]. }
  unfold collectStatisticsRollback. reads. typed.
Qed.
End params.

#[export] Hint Resolve stable_configStateChange stable_configStateChangeRollback stable_collectStatistics
  stable_collectStatisticsRollback : typed.
