(* ===== verification/NodeRuns.v ===== *)
(** * The steps of a miner keep its state well-typed

    Validation, rollback, block preparation, the longest chain, fetching,
    mining and the start: [mining_round], [processBlock] and [Init]. *)

From S2P Require Import Prelude GoSlice VMStack VMContext VM VMExec.
From S2P Require Import Prelude GoLib Format Chameleon Protocol Merkle BlockFields Node Storage Ledger Params StateChange.
From S2P Require Import StateLemmas Validation PoS ParamLemmas Verify AddTx Aggregate BlockPrep LongestChain ChainLemmas Fetch Validate FetchLemmas CheckLemmas InitState NodeTypes NodeSteps.

Section validation.
Context {DG : Digests} {DL : DigestLaws} {SO : SortOps} {FO : FloatOps}.

(** ** Blocks (Validation.v) *)

Lemma stable_relist txs h b : preserves (relist txs h b).
Proof. revert b. induction txs; intros b; cbn [relist]; typed. Qed.
#[local] Hint Resolve stable_relist : typed.
Lemma stable_reactivate tx : preserves (reactivateHistoricBlockDueToRollback tx).
Proof. unfold reactivateHistoricBlockDueToRollback. reads. typed. Qed.
#[local] Hint Resolve stable_reactivate : typed.
Lemma stable_aggregated_in_block hs h acc : preserves (aggregated_in_block hs h acc).
Proof. revert acc. induction hs; intros acc; cbn [aggregated_in_block]; reads; typed. Qed.
#[local] Hint Resolve stable_aggregated_in_block : typed.
Lemma stable_aggTx_rollback h k tx : preserves (aggTx_rollback h k tx).
Proof. unfold aggTx_rollback. typed. Qed.
#[local] Hint Resolve stable_aggTx_rollback : typed.
Lemma stable_aggregated_rollback data : preserves (aggregated_rollback data).
Proof. unfold aggregated_rollback, aggregatedStateRollback. typed. Qed.
#[local] Hint Resolve stable_aggregated_rollback : typed.

Lemma stable_validateState data init : preserves (validateState data init).
Proof. unfold validateState, aggTxStateChange, fees_rollback, block_reward, slash_reward. typed. Qed.
Lemma stable_validateStateRollback data : preserves (validateStateRollback data).
Proof. unfold validateStateRollback, fees_rollback, block_reward, slash_reward. typed. Qed.

Lemma stable_read_closed_all {T} (f : Transaction -> option T) msg hs : preserves (read_closed_all f msg hs).
Proof. induction hs; cbn [read_closed_all]; reads; typed. Qed.
#[local] Hint Resolve stable_read_closed_all : typed.
Lemma stable_preValidateRollback b : preserves (preValidateRollback b).
Proof. unfold preValidateRollback. typed. Qed.
Lemma stable_reopen tx : preserves (reopen tx).
Proof. unfold reopen. typed. Qed.
#[local] Hint Resolve stable_reopen : typed.
Lemma stable_postValidateRollback data : preserves (postValidateRollback data).
Proof. unfold postValidateRollback, reopen_aggregated. reads. typed. Qed.
#[local] Hint Resolve stable_validateStateRollback stable_preValidateRollback stable_postValidateRollback : typed.
Lemma stable_rollback b : preserves (rollback b).
Proof. unfold rollback. typed. Qed.
End validation.
#[export] Hint Resolve stable_validateState stable_rollback : typed.

(** ** Preparing a block *)

Section preparation.
Context {DG : Digests} {DL : DigestLaws} {SG : Signatures} {NK : NodeKeys} {GR : GoRuntime} {GS : GoSort} {MO : MapOrder}.

Lemma stable_verify tx : preserves (verify tx).
Proof.
  unfold verify, verifyFundsTx, verifyAccTx, verifyConfigTx, verifyStakeTx, verifyAggTx, verifyUpdateTx,
    signed_by_root. reads. typed.
Qed.
#[local] Hint Resolve stable_verify : typed.

Lemma stable_in_miner {A} (o : outcome A) : preserves (in_miner o).
Proof. by intros m a m'; destruct o; intros [= <- <-]. Qed.
#[local] Hint Resolve stable_in_miner : typed.

Lemma stable_load_copy b h : preserves (load_copy b h).
Proof. unfold load_copy. reads. typed. Qed.
Lemma stable_copy_of b h : preserves (copy_of b h).
Proof. unfold copy_of. typed. Qed.
#[local] Hint Resolve stable_load_copy stable_copy_of : typed.

Lemma stable_addAccTx b tx : preserves (addAccTx b tx).
Proof. unfold addAccTx. reads. typed. Qed.
Lemma stable_addConfigTx b tx : preserves (addConfigTx b tx).
Proof. unfold addConfigTx. typed. Qed.
Lemma stable_addStakeTx b tx : preserves (addStakeTx b tx).
Proof. unfold addStakeTx. reads. typed. Qed.
Lemma stable_addFundsTx map_fuel b tx : preserves (addFundsTx map_fuel b tx).
Proof. unfold addFundsTx, count_mismatch, refuse, write_contract, WriteFundsTxBeforeAggregation. reads. typed. Qed.
Lemma stable_addUpdateTx b tx : preserves (addUpdateTx b tx).
Proof. unfold addUpdateTx, handleTxUpdate, updateLocalTx, ReadBlockByTxHash. reads. typed. Qed.
#[local] Hint Resolve stable_addAccTx stable_addConfigTx stable_addStakeTx stable_addFundsTx stable_addUpdateTx : typed.
Lemma stable_addTx map_fuel b tx : preserves (addTx map_fuel b tx).
Proof. unfold addTx. typed. Qed.
#[local] Hint Resolve stable_addTx : typed.

Lemma stable_store_block hs h : preserves (store_block hs h).
Proof. induction hs; cbn [store_block]; typed. Qed.
#[local] Hint Resolve stable_store_block : typed.
Lemma stable_storeBlockByTxs b : preserves (storeBlockByTxs b).
Proof. unfold storeBlockByTxs. typed. Qed.

(** Aggregation (Aggregate.v) *)

Lemma stable_closed_blocks : preserves ReadAllClosedBlocksWithTransactions.
Proof. unfold ReadAllClosedBlocksWithTransactions. reads. typed. Qed.
Lemma stable_hint_funds s r hs : preserves (hint_funds s r hs).
Proof. induction hs; cbn [hint_funds]; unfold the_funds; reads; typed. Qed.
Lemma stable_hint_aggs s r hs : preserves (hint_aggs s r hs).
Proof. induction hs; cbn [hint_aggs]; unfold the_agg; reads; typed. Qed.
#[local] Hint Resolve stable_closed_blocks stable_hint_funds stable_hint_aggs : typed.
Lemma stable_hint_blocks s r l : preserves (hint_blocks s r l).
Proof. induction l; cbn [hint_blocks]; typed. Qed.
Lemma stable_search_funds s r hs : preserves (search_funds s r hs).
Proof. induction hs; cbn [search_funds]; unfold the_funds; reads; typed. Qed.
Lemma stable_search_aggs s r hs : preserves (search_aggs s r hs).
Proof. induction hs; cbn [search_aggs]; unfold the_agg; reads; typed. Qed.
#[local] Hint Resolve stable_hint_blocks stable_search_funds stable_search_aggs : typed.
Lemma stable_search_blocks s r l : preserves (search_blocks s r l).
Proof. induction l; cbn [search_blocks]; typed. Qed.
#[local] Hint Resolve stable_search_blocks : typed.
Lemma stable_historic s r : preserves (historic s r).
Proof. unfold historic, searchTransactionsInHistoricBlocks. typed. Qed.
Lemma stable_open_all l : preserves (open_all l).
Proof. induction l; cbn [open_all]; typed. Qed.
Lemma stable_hash_all l : preserves (hash_all l).
Proof. induction l; cbn [hash_all]; typed. Qed.
#[local] Hint Resolve stable_historic stable_open_all stable_hash_all : typed.
Lemma stable_AggregateTransactions txs b : preserves (AggregateTransactions txs b).
Proof. unfold AggregateTransactions, ConstrAggTx, agg_merkle_root, addAggTxFinal, addFundsTxFinal. typed. Qed.
#[local] Hint Resolve stable_AggregateTransactions : typed.
Lemma stable_split_loop fuel s r txs b : preserves (split_loop fuel s r txs b).
Proof. revert s r txs b. induction fuel; intros s r txs b; cbn [split_loop]; typed. Qed.
#[local] Hint Resolve stable_split_loop : typed.
Lemma stable_split fuel s r b : preserves (splitSortedAggregatableTransactions fuel s r b).
Proof. unfold splitSortedAggregatableTransactions. reads. typed. Qed.
#[local] Hint Resolve stable_split : typed.

(** The choice of the transactions (BlockPrep.v) *)

Lemma stable_find_local s hs : preserves (find_local s hs).
Proof. induction hs; cbn [find_local]; reads; typed. Qed.
Lemma stable_fetch_missing env s n : preserves (fetch_missing env s n).
Proof. unfold fetch_missing. typed. Qed.
#[local] Hint Resolve stable_find_local stable_fetch_missing : typed.
Lemma stable_fetch_sender env s l : preserves (fetch_sender env s l).
Proof. induction l; cbn [fetch_sender]; reads; typed. Qed.
#[local] Hint Resolve stable_fetch_sender : typed.
Lemma stable_fetch_all env l : preserves (fetch_all env l).
Proof. induction l as [|[s [n ns] ] l IH]; cbn [fetch_all]; typed. Qed.
Lemma stable_add_selected map_fuel b l : preserves (add_selected map_fuel b l).
Proof. revert b. induction l; intros b; cbn [add_selected]; typed. Qed.
#[local] Hint Resolve stable_fetch_all stable_add_selected : typed.
Lemma stable_prepareBlock map_fuel env b : preserves (prepareBlock map_fuel env b).
Proof. unfold prepareBlock. reads. typed. Qed.
End preparation.
#[export] Hint Resolve stable_verify stable_storeBlockByTxs stable_prepareBlock : typed.

(** ** Other chains, and slashing (LongestChain.v) *)

Section chains.
Context {DG : Digests} {GS : GoSort}.

Lemma stable_read_parent b : preserves (read_parent b).
Proof. unfold read_parent. reads. typed. Qed.
Lemma stable_request_block h ans : preserves (request_block h ans).
Proof. unfold request_block. reads. typed. Qed.
#[local] Hint Resolve stable_read_parent stable_request_block : typed.
Lemma stable_getNewChain fuel ans b l : preserves (getNewChain fuel ans b l).
Proof. revert ans b l. induction fuel; intros ans b l; cbn [getNewChain]; reads; typed. Qed.
Lemma stable_blocks_to_rollback fuel a b : preserves (blocks_to_rollback fuel a b).
Proof. revert b. induction fuel; intros b; cbn [blocks_to_rollback]; typed. Qed.
#[local] Hint Resolve stable_getNewChain stable_blocks_to_rollback : typed.
Lemma stable_getBlockSequences fuel ans b : preserves (getBlockSequences fuel ans b).
Proof. unfold getBlockSequences. reads. typed. Qed.
Lemma stable_walk_back fuel ans b1 b2 : preserves (walk_back fuel ans b1 b2).
Proof. revert ans b1. induction fuel; intros ans b1; cbn [walk_back]; typed. Qed.
#[local] Hint Resolve stable_walk_back : typed.
Lemma stable_IsInSameChain fuel ans b1 b2 : preserves (IsInSameChain fuel ans b1 b2).
Proof. unfold IsInSameChain. typed. Qed.
#[local] Hint Resolve stable_IsInSameChain : typed.
Lemma stable_seek_in fuel ans b l : preserves (seek_in fuel ans b l).
Proof. revert ans. induction l; intros ans; cbn [seek_in]; unfold set_slashing; typed. Qed.
#[local] Hint Resolve stable_seek_in : typed.
Lemma stable_seekSlashingProof fuel ans b : preserves (seekSlashingProof fuel ans b).
Proof. unfold seekSlashingProof, ReadAllClosedBlocks. reads. typed. Qed.
Lemma stable_find_conflicting fuel ans o h n : preserves (find_conflicting fuel ans o h n).
Proof. unfold find_conflicting. reads. typed. Qed.
#[local] Hint Resolve stable_find_conflicting : typed.
Lemma stable_slashingCheck fuel ans s h1 h2 w1 w2 : preserves (slashingCheck fuel ans s h1 h2 w1 w2).
Proof. unfold slashingCheck, read_conflicting. reads. typed. Qed.
End chains.
#[export] Hint Resolve stable_getBlockSequences stable_seekSlashingProof stable_slashingCheck : typed.

(** ** Fetching the transactions of a block (Fetch.v) *)

Section fetching.
Context {DG : Digests} {DL : DigestLaws} {SG : Signatures} {NK : NodeKeys} (net : network) (init : bool).

Lemma stable_in_stash {T} (inj : T -> Transaction) h l : preserves (in_stash inj h l).
Proof. induction l; cbn [in_stash]; typed. Qed.
#[local] Hint Resolve stable_in_stash : typed.

Ltac fetching := unfold unless_closed, or_open, received_check, hash_or_zero in *; reads; typed.

Lemma stable_fetch_acc h : preserves (fetch_acc net init h).
Proof. unfold fetch_acc. fetching. Qed.
Lemma stable_fetch_funds h : preserves (fetch_funds net init h).
Proof. unfold fetch_funds. fetching. Qed.
Lemma stable_fetch_config h : preserves (fetch_config net init h).
Proof. unfold fetch_config. fetching. Qed.
Lemma stable_fetch_stake h : preserves (fetch_stake net init h).
Proof. unfold fetch_stake. fetching. Qed.
Lemma stable_fetch_update h : preserves (fetch_update net init h).
Proof. unfold fetch_update. fetching. Qed.
#[local] Hint Resolve stable_fetch_acc stable_fetch_funds stable_fetch_config stable_fetch_stake stable_fetch_update : typed.

Lemma stable_set_at {T} cnt (t : option T) slice : preserves (set_at cnt t slice).
Proof. unfold set_at. typed. Qed.
#[local] Hint Resolve stable_set_at : typed.

Lemma stable_fetch_loop {T} (one : hash -> M Miner (fetched T)) cnt hs slice :
  (forall h, preserves (one h)) -> preserves (fetch_loop one cnt hs slice).
Proof. intros H. revert cnt slice. induction hs; intros cnt slice; cbn [fetch_loop]; typed. Qed.
#[local] Hint Resolve stable_fetch_loop : typed.

Lemma stable_fetch_unknown h : preserves (fetch_unknown net h).
Proof. unfold fetch_unknown. typed. Qed.
#[local] Hint Resolve stable_fetch_unknown : typed.

Lemma stable_fetchFundsTxRecursively fuel hs : preserves (fetchFundsTxRecursively net fuel hs).
Proof.
  revert hs. induction fuel as [|fuel IH]; intros hs; cbn [fetchFundsTxRecursively]; [typed|].
  match goal with |- respects _ (?f hs None []) => assert (Hgo : forall hs err acc, preserves (f hs err acc)); [|apply Hgo] end.
  clear hs. intros hs. induction hs as [|h hs IHh]; intros err acc; [typed|]. reads. typed.
Qed.
#[local] Hint Resolve stable_fetchFundsTxRecursively : typed.

Lemma stable_request_agg attempts n h : preserves (request_agg net attempts n h).
Proof. revert n. induction attempts; intros n; cbn [request_agg]; typed. Qed.
Lemma stable_request_unknown attempts n h : preserves (request_unknown net attempts n h).
Proof. revert n. induction attempts; intros n; cbn [request_unknown]; typed. Qed.
#[local] Hint Resolve stable_request_agg stable_request_unknown : typed.
Lemma stable_new_aggregated hs l : preserves (new_aggregated net hs l).
Proof. revert l. induction hs; intros l; cbn [new_aggregated]; reads; typed. Qed.
Lemma stable_find_agg h : preserves (find_agg net init h).
Proof. unfold find_agg. reads. typed. Qed.
#[local] Hint Resolve stable_new_aggregated stable_find_agg : typed.
Lemma stable_fetch_agg_loop fuel cnt hs slice l : preserves (fetch_agg_loop net init fuel cnt hs slice l).
Proof. revert cnt slice l. induction hs; intros cnt slice l; cbn [fetch_agg_loop]; typed. Qed.
#[local] Hint Resolve stable_fetch_agg_loop : typed.

Lemma stable_fetchTransactions fuel b s : preserves (fetchTransactions net init fuel b s).
Proof.
  unfold fetchTransactions, fetchAccTxData, fetchFundsTxData, fetchConfigTxData, fetchStakeTxData, fetchUpdateTxData,
    fetchAggTxData. typed.
Qed.
End fetching.
#[export] Hint Resolve stable_fetchTransactions : typed.

(** ** Validating and mining (Validate.v) *)

Section validate.
Context {DG : Digests} {DL : DigestLaws} {SO : SortOps} {FO : FloatOps} {SG : Signatures} {NK : NodeKeys}.
Context {GS : GoSort} {MO : MapOrder} {CM : Commitments} (env : surroundings).

Lemma stable_latest_proofs n b : preserves (latest_proofs n b).
Proof. revert b. induction n; intros b; cbn [latest_proofs]; reads; typed. Qed.
#[local] Hint Resolve stable_latest_proofs : typed.

Lemma stable_block_merkle_root b : preserves (block_merkle_root b).
Proof. unfold block_merkle_root. by intros m a m'; destruct (BuildMerkleTree _ _ _) as [ [] | | ]; intros [= <- <-]. Qed.
#[local] Hint Resolve stable_block_merkle_root : typed.

Lemma stable_preValidate b init uptodate ans : preserves (preValidate env b init uptodate ans).
Proof. unfold preValidate, check_block, GetLatestProofs, getDifficulty. reads. typed. Qed.

Lemma stable_close tx : preserves (close tx).
Proof. unfold close. typed. Qed.
#[local] Hint Resolve stable_preValidate stable_close : typed.
Lemma stable_last_with_hash l h o : preserves (last_with_hash l h o).
Proof. revert o. induction l; intros o; cbn [last_with_hash]; typed. Qed.
#[local] Hint Resolve stable_last_with_hash : typed.
Lemma stable_close_aggregated data t hs : preserves (close_aggregated data t hs).
Proof. induction hs; cbn [close_aggregated]; reads; typed. Qed.
#[local] Hint Resolve stable_close_aggregated : typed.
Lemma stable_close_agg data t : preserves (close_agg data t).
Proof. unfold close_agg. typed. Qed.
Lemma stable_close_block b : preserves (close_block b).
Proof. unfold close_block, ReadAllClosedBlocks. typed. Qed.
#[local] Hint Resolve stable_close_agg stable_close_block : typed.
Lemma stable_postValidate data init bootstrap : preserves (postValidate data init bootstrap).
Proof. unfold postValidate, close_funds. typed. Qed.
Lemma stable_block_data b s : preserves (block_data b s).
Proof. unfold block_data, whole. typed. Qed.
#[local] Hint Resolve stable_postValidate stable_block_data : typed.

Lemma stable_validate_one init uptodate b ans : preserves (validate_one env init uptodate b ans).
Proof. unfold validate_one. typed. Qed.
#[local] Hint Resolve stable_validate_one : typed.
Lemma stable_validate_all init uptodate l ans : preserves (validate_all env init uptodate l ans).
Proof. revert ans. induction l; intros ans; cbn [validate_all]; typed. Qed.
#[local] Hint Resolve stable_validate_all : typed.
Lemma stable_validate b init ans : preserves (validate env b init ans).
Proof. unfold validate. reads. typed. Qed.
#[local] Hint Resolve stable_validate : typed.

Lemma stable_processBlock b ans : preserves (processBlock env b ans).
Proof. unfold processBlock. reads. typed. Qed.

Lemma stable_finalizeBlock ticks b : preserves (finalizeBlock ticks b).
Proof. unfold finalizeBlock, give_back_queue, GetLatestProofs, getDifficulty. reads. typed. Qed.
#[local] Hint Resolve stable_finalizeBlock : typed.

Lemma stable_mining_round {GR : GoRuntime} map_fuel ticks txs ans b : preserves (mining_round map_fuel ticks env txs ans b).
Proof. unfold mining_round. typed. Qed.

Lemma stable_initRootKey a p : preserves (initRootKey a p).
Proof.
  unfold initRootKey. intros m u m' H Hm. apply bind_inv in H as (active & m1 & H1 & H). apply gets_inv in H1 as [-> ->].
  revert Hm. cbv zeta in H. match type of H with ?c m = _ => set (prog := c) in H end. intros Hm.
  assert (Hc : preserves prog); [|exact (Hc m u m' H Hm)]. unfold prog.
  pose proof (ok_StakingMinimum _ (co_active _ (ct_parameters _ (no_chain _ Hm)))) as Hs.
  apply respects_bind; [apply _| |intros _; apply respects_bind; [apply _|by apply stable_new_root|intros _; typed] ].
  apply stable_new_account; [done|]. split; cbn; [|done].
  unfold is_u64, Params.MIN_STAKING_MINIMUM, MAX_STAKING_MINIMUM in *. lia.
Qed.

Lemma stable_close_bootstrap : preserves close_bootstrap.
Proof. unfold close_bootstrap, ReadAllBootstrapReceivedTransactions, DeleteBootstrapReceivedMempool. typed. Qed.
#[local] Hint Resolve stable_initRootKey stable_close_bootstrap : typed.

(** ** Starting (InitState.v) *)

Lemma stable_hand_over ans : preserves (hand_over ans).
Proof. unfold hand_over. reads. typed. Qed.
#[local] Hint Resolve stable_hand_over : typed.
Lemma stable_receive_parent h ans : preserves (receive_parent h ans).
Proof. unfold receive_parent. reads. typed. Qed.
Lemma stable_write_received b : preserves (write_received b).
Proof. unfold write_received. destruct (blk_Aggregated b) eqn:E; [by apply stable_WriteClosedBlockWithoutTx|typed]. Qed.
#[local] Hint Resolve stable_receive_parent stable_write_received : typed.
Lemma stable_collect_chain fuel ans b l : preserves (collect_chain fuel ans b l).
Proof. revert ans b l. induction fuel; intros ans b l; cbn [collect_chain]; typed. Qed.
#[local] Hint Resolve stable_collect_chain : typed.
Lemma stable_request_chain ans : preserves (request_chain env ans).
Proof. unfold request_chain. typed. Qed.
Lemma stable_replay_block b ans : preserves (replay_block env b ans).
Proof. unfold replay_block. typed. Qed.
#[local] Hint Resolve stable_request_chain stable_replay_block : typed.
Lemma stable_replay l ans : preserves (replay env l ans).
Proof. revert ans. induction l; intros ans; cbn [replay]; typed. Qed.
Lemma stable_raise_last l : preserves (raise_last l).
Proof. induction l; cbn [raise_last]; typed. Qed.
#[local] Hint Resolve stable_replay stable_raise_last : typed.
Lemma stable_initState sign ans : preserves (initState sign env ans).
Proof. unfold initState, ReadAllClosedBlocks. typed. Qed.
#[local] Hint Resolve stable_initState : typed.

Lemma stable_Init sign a p ans : preserves (Init sign env a p ans).
Proof.
  unfold Init. apply respects_bind; [apply _|typed|intros _]. apply respects_bind; [apply _|typed|intros _].
  apply respects_bind; [apply _| |intros _; typed].
  apply stable_chain. intros c [ [] Ht]. split; [done|]. cbn. apply Forall_app. by split; [|apply Forall_singleton].
Qed.

(** The state before the start, with a database that an earlier run left. *)
Lemma fresh_ok d : buckets_typed d -> node_ok (fresh d).
Proof.
  intros Hd. split; [|split; [constructor|cbn; lia]|done|].
  - split; apply map_Forall_empty.
  - split; [|constructor]. split; cbn; [apply default_params_ok|by apply Forall_singleton, default_params_ok|done].
Qed.
End validate.
#[export] Hint Resolve stable_validate stable_finalizeBlock stable_processBlock stable_mining_round stable_Init : typed.
