(* ===== verification/AcceptLemmas.v ===== *)
(** * What is left of a block that is accepted

    The emptying of old blocks, at the end of a validation, leaves the block
    that is validated alone, since the blocks are stored under their hashes. *)

From stdpp Require Import sorting.
From S2P Require Import Prelude GoLib Format Chameleon Protocol Merkle BlockFields Node Storage Ledger Params StateChange.
From S2P Require Import StateLemmas Validation PoS ParamLemmas Verify AddTx Aggregate BlockPrep LongestChain ChainLemmas Fetch Validate FetchLemmas CheckLemmas InitState NodeTypes NodeSteps NodeRuns.

(** ** A block that is accepted stays closed to its end *)

(** The closed block of the hash is the same. *)
Definition same_closed (h : hash) (m m' : Miner) : Prop := closedblocks (db m') !! h = closedblocks (db m) !! h.

#[export] Instance same_closed_PreOrder h : PreOrder (same_closed h).
Proof. split; unfold same_closed; [done|]. intros a b c ? ?. congruence. Qed.

Lemma for_each_in_respects (R : relation Miner) `{!PreOrder R} {T} (body : T -> M Miner unit) l :
  (forall x, x ∈ l -> respects R (body x)) -> respects R (for_each body l).
Proof.
  induction l as [|x l IH]; intros Hb; cbn [for_each]; [apply respects_ret, _|].
  apply respects_bind; [apply _|apply Hb; left|intros _; apply IH; intros y Hy; apply Hb; by right].
Qed.

Section accepted.
Context {DG : Digests} {DL : DigestLaws} {SO : SortOps} {FO : FloatOps} {SG : Signatures} {NK : NodeKeys}.
Context {GS : GoSort} {GL : GoSortLaws} {MO : MapOrder} {CM : Commitments}.

Lemma closed_all_aggregated h is_agg hs : respects (same_closed h) (all_aggregated is_agg hs).
Proof. intros m a m' H. assert (E : m' = m); [|by subst]. revert m a m' H. induction hs as [|x hs IH]; intros m a m' H; cbn [all_aggregated] in H.
  - by injection H.
  - unfold ReadClosedTx in H. apply bind_inv in H as (o & m1 & H1 & H). apply gets_inv in H1 as [-> ->].
    repeat case_match; try (by injection H); try done; by eapply IH.
Qed.

Lemma same_UpdateBlocks h old : blk_Hash old <> h -> respects (same_closed h) (UpdateBlocksToBlocksWithoutTx old).
Proof.
  intros Hne m u m' H. unfold UpdateBlocksToBlocksWithoutTx in H. apply bind_inv in H as ([b ready] & m1 & H1 & H).
  assert (E : same_closed h m m1 /\ blk_Hash b = blk_Hash old).
  { unfold BlockReadyToAggregate in H1.
    destruct (_ && _); [by injection H1 as <- _ <-; split|]. destruct (_ && _); [by injection H1 as <- _ <-; split|].
    apply bind_inv in H1 as (f & k & Hf%(closed_all_aggregated h) & H1). destruct f; cbn in H1; [|by injection H1 as <- _ <-; split].
    apply bind_inv in H1 as (g & k2 & Hg%(closed_all_aggregated h) & H1).
    destruct g; injection H1 as <- _ <-; (split; [by etrans|done]). }
  destruct E as [E Eb]. destruct ready; [|by injection H as _ <-].
  injection H as _ <-. unfold same_closed in *. cbn. rewrite <-E. apply lookup_delete_ne. cbn. congruence.
Qed.

(** The blocks that are read are stored, under their hashes. *)
Lemma read_blocks_typed m m1 l old : buckets_typed (db m) -> ReadAllClosedBlocks m = Done (l, m1) -> old ∈ l ->
  m1 = m /\ (closedblocks (db m) !! blk_Hash old = Some old \/ blk_Aggregated old = true).
Proof.
  intros [_ Hc _ Ha _] H Hin. unfold ReadAllClosedBlocks in H. apply bind_inv in H as (bs & k & Hr & H).
  apply gets_inv in Hr as [-> ->]. apply of_option_inv in H as [Hs ->]. split; [done|].
  apply sort_perm in Hs. rewrite Hs in Hin. unfold read_all_closed_blocks in Hin.
  destruct (ForEach (lastclosedblock (db m))); [by apply elem_of_nil in Hin|].
  assert (Hf : forall (bucket : gmap hash Block), old ∈ (snd <$> ForEach bucket) -> exists h, bucket !! h = Some old).
  { intros bucket ([h x] & -> & Hx)%list_elem_of_fmap. unfold ForEach in Hx. rewrite merge_sort_Permutation in Hx.
    exists h. by apply elem_of_map_to_list. }
  apply elem_of_app in Hin as [ [h Hh]%Hf|[h Hh]%Hf]; [left|right; by apply (Ha _ _ Hh)].
  destruct (Hc _ _ Hh) as [E _]. by rewrite E.
Qed.

(** The emptying of old blocks leaves the block alone: it is not old. *)
Lemma close_block_closed b m u m' : buckets_typed (db m) -> close_block b m = Done (u, m') ->
  closedblocks (db m') !! blk_Hash b = Some (Block_persist b).
Proof.
  intros Hd H. unfold close_block in H.
  apply bind_inv in H as (? & m1 & H1 & H). apply bind_inv in H as (? & m2 & H2 & H).
  assert (Hd2 : buckets_typed (db m2)).
  { injection H1 as _ <-. injection H2 as _ <-. destruct Hd. split; cbn; auto with keyed. }
  assert (Hb : closedblocks (db m2) !! blk_Hash b = Some (Block_persist b)).
  { injection H2 as _ <-. cbn. apply lookup_insert_eq. }
  clear H1 H2 Hd. apply bind_inv in H as (l & m3 & Hl & H). apply bind_inv in H as (? & m4 & H4 & H).
  assert (E : same_closed (blk_Hash b) m3 m4).
  { revert H4. apply for_each_in_respects; [apply _|]. intros old Hin.
    destruct (negb (blk_Aggregated old) && _ && _) eqn:G; [|apply respects_ret, _].
    apply andb_true_iff in G as [ [G1%negb_true_iff _]%andb_true_iff G2%Z.ltb_lt].
    apply same_UpdateBlocks. intros Eh. destruct (read_blocks_typed _ _ _ _ Hd2 Hl Hin) as [_ [Hold|Hagg] ]; [|congruence].
    rewrite Eh, Hb in Hold. injection Hold as <-. cbn in G2. unfold NO_EMPTYING_LENGTH in G2. lia. }
  assert (E3 : m3 = m2).
  { unfold ReadAllClosedBlocks in Hl. apply bind_inv in Hl as (bs & k & [= <- <-] & [_ ->]%of_option_inv). done. }
  subst m3. unfold same_closed in E. rewrite <-Hb, <-E. clear -H.
  apply bind_inv in H as (? & m5 & H5 & H). injection H5 as _ <-. by injection H as _ <-.
Qed.

(** From a well-typed state the program ends in one with [P]. *)
Definition lands {A} (P : A -> Miner -> Prop) (prog : M Miner A) : Prop :=
  forall m a m', node_ok m -> prog m = Done (a, m') -> P a m'.

Lemma lands_bind {A B} (P : B -> Miner -> Prop) (prog : M Miner A) (f : A -> M Miner B) :
  preserves prog -> (forall a, lands P (f a)) -> lands P (prog ≫= f).
Proof. intros Hp Hf m b m' Hm (a & m1 & H1 & H2)%bind_inv. by eapply Hf; [eapply Hp|]. Qed.

Definition is_closed (b : Block) (m : Miner) : Prop := closedblocks (db m) !! blk_Hash b = Some (Block_persist b).

#[local] Hint Resolve stable_close_agg stable_close stable_preValidate stable_block_data stable_seekSlashingProof
  stable_validate_one : typed.

Lemma postValidate_closed data bootstrap :
  lands (fun _ => is_closed (block data)) (postValidate data false bootstrap).
Proof.
  unfold postValidate, close_funds. cbv zeta. rewrite orb_true_r.
  do 9 (apply lands_bind; [typed|intros _]). intros m u m' Hm. apply close_block_closed, no_db, Hm.
Qed.

Lemma validate_one_closed env uptodate b ans :
  lands (fun r m => fst r = None -> is_closed b m) (validate_one env false uptodate b ans).
Proof.
  unfold validate_one. apply lands_bind; [typed|]. intros [ [e|] a1]; [by intros m r m' _ [= <- <-]|].
  apply lands_bind; [typed|]. intros [ [e|] s]; [by intros m r m' _ [= <- <-]|].
  apply lands_bind; [typed|]. intros a2.
  intros m r m' Hm (data & m1 & Hd & H)%bind_inv. pose proof (stable_block_data _ _ _ _ _ Hd Hm) as Hm1.
  assert (Eb : block data = b).
  { unfold block_data in Hd. do 6 (apply bind_inv in Hd as (? & ? & _ & Hd)). by injection Hd as <- _. }
  clear Hd Hm. revert m1 r m' Hm1 H.
  apply (lands_bind (fun r m => fst r = None -> is_closed b m)); [typed|]. intros [e|]; [by intros m1 r m' _ [= <- <-]|].
  intros m1 r m' Hm1 (u & m2 & Hp & [= <- <-])%bind_inv _. rewrite <-Eb. by apply (postValidate_closed _ _ _ _ _ Hm1 Hp).
Qed.

Lemma validate_all_closed env uptodate blocks b ans : last blocks = Some b ->
  lands (fun r m => fst r = None -> is_closed b m) (validate_all env false uptodate blocks ans).
Proof.
  revert ans. induction blocks as [|b1 blocks IH]; intros ans Hl; [done|]. cbn [validate_all].
  destruct blocks as [|b2 blocks].
  - injection Hl as ->. intros m r m' Hm ([ [e|] a1] & m1 & H1 & H)%bind_inv; [by injection H as <- <-|].
    injection H as <- <-. intros _. by apply (validate_one_closed _ _ _ _ _ _ _ Hm H1).
  - apply lands_bind; [typed|]. intros [ [e|] a1]; [by intros m r m' _ [= <- <-]|by apply IH].
Qed.

Lemma validate_closed env b ans :
  lands (fun r m => fst r = None -> is_closed b m) (validate env b false ans).
Proof.
  unfold validate, ReadClosedBlock, read_db. apply lands_bind; [typed|]. intros [c|]; [by intros m r m' _ [= <- <-]|].
  intros m r m' Hm ([ [ [rb val] [e|] ] a] & m1 & Hs & H)%bind_inv; [by injection H as <- <-|].
  pose proof (stable_getBlockSequences _ _ _ _ _ _ Hs Hm) as Hm1. cbv zeta in H.
  assert (Hl : last val = Some b).
  { apply getBlockSequences_inv in Hs as (r' & m3 & Hg & _ & a0 & t & -> & _).
    apply getNewChain_spec in Hg as (_ & path & f & -> & Hc & _). cbn [app]. rewrite rev_alt.
    change (rev_append path []) with (reverse path). rewrite last_reverse. by eapply chain_of_head. }
  clear Hs Hm. revert m1 r m' Hm1 H.
  apply (lands_bind (fun r m => fst r = None -> is_closed b m)); [typed|].
  intros [e|]; [by intros m1 r m' _ [= <- <-]|by apply validate_all_closed].
Qed.

(** The block is new when it is accepted, and closed afterwards. *)
Lemma processBlock_closed env b ans m m' : node_ok m -> processBlock env b ans m = Done (true, m') ->
  closedblocks (db m) !! blk_Hash b = None /\ is_closed b m'.
Proof.
  intros Hm. unfold processBlock, ReadClosedBlock, read_db. intros (c & m1 & [-> ->]%gets_inv & H)%bind_inv.
  destruct (closedblocks (db m) !! blk_Hash b) as [c|].
  { case_match; [done|]. by apply bind_inv in H as (? & ? & _ & ?). }
  split; [done|]. apply bind_inv in H as (u & m2 & H2 & H). pose proof (stable_WriteToReceivedStash _ _ _ _ H2 Hm) as Hm2.
  apply bind_inv in H as ([ [e|] a] & m3 & H3 & H); [done|]. injection H as <-. by apply (validate_closed _ _ _ _ _ _ Hm2 H3).
Qed.

(** A copy of a closed block is left. *)
Lemma processBlock_again env b c ans m : is_closed c m -> blk_Hash b = blk_Hash c -> blk_NrUpdates b = blk_NrUpdates c ->
  processBlock env b ans m = Done (false, m).
Proof.
  intros Hc Eh En. unfold processBlock, ReadClosedBlock, read_db, gets, mbind, M_bind, is_closed in *. rewrite Eh, Hc. cbn.
  by rewrite En, Z.eqb_refl.
Qed.
End accepted.
