(* ===== verification/Gossip.v ===== *)
(** * miner/p2p_interface.go: the miner and its network side together

    What the miner puts on the network, the loop over the received blocks, and
    the main loop with its broadcasts. [BlockOut], [BlockHeaderOut],
    [VerifiedTxsOut] and [VerifiedTxsBrdcstOut] are channels with one reader
    each, the forwarding functions of p2p/miner_interface.go, which are applied
    to what is sent. A broadcast, a goroutine in the code, runs to its end
    where it is started. [runs] lists the programs of a node. *)

From S2P Require Import Prelude GoSlice GoLib Format Chameleon Protocol Merkle BlockFields Node Storage Params StateChange.
From S2P Require Import Validation PoS Verify AddTx Aggregate BlockPrep LongestChain Fetch Validate InitState Wire Peers Serve.

Section gossip.
Context {DG : Digests} {DL : DigestLaws} {SO : SortOps} {FO : FloatOps} {SG : Signatures} {NK : NodeKeys}.
Context {GR : GoRuntime} {GS : GoSort} {MO : MapOrder} {CM : Commitments} {GB : Gob} {BL : Bloom} {PO : PeerOrder}.
Context (Ipport Bootstrap_Server : bytes).

(** ** Broadcasts of the miner *)

(** The Bloom filter is made on a copy of the block. *)
Definition broadcastBlock (b : Block) : M Host unit :=
  forwardBlockBrdcstToMiner (Block_Encode b);;
  txPubKeys ← on_miner (GetTxPubKeys b);
  forwardBlockHeaderBrdcstToMiner (EncodeHeader (InitBloomFilter txPubKeys b)).

(** Called at the end of [postValidate]. *)
Definition broadcastVerifiedFundsTxs (txs : list FundsTx) : M Host unit :=
  forwardVerifiedTxsToMiner (Encode (map FundsTx_Encode txs) FUNDSTX_SIZE).

Definition broadcastVerifiedAggTxsToOtherMiners (txs : list AggTx) : M Host unit :=
  Peers.for_each txs (fun tx => forwardVerifiedTxsBrdcstToMiner (BuildPacket AGGTX_BRDCST (AggTx_Encode tx))).

Definition broadcastVerifiedFundsTxsToOtherMiners (txs : list FundsTx) : M Host unit :=
  Peers.for_each txs (fun tx => forwardVerifiedTxsBrdcstToMiner (BuildPacket FUNDSTX_BRDCST (FundsTx_Encode tx))).

(** ** The two loops of the miner *)

(** One turn of [incomingData], for a payload of [BlockIn]. *)
Definition incomingData (env : surroundings) (payload : bytes) (ans : answers) : M Host unit :=
  let b := ungob_Block payload in
  valid ← on_miner (processBlock env b ans);
  if (valid : bool) then broadcastBlock b else mret tt.

(** What a round of [mining] does with the block at hand. *)
Definition mine_block (ticks : list tick) (env : surroundings) (ans : answers) (currentBlock : Block) : M Host unit :=
  r ← on_miner (finalizeBlock ticks currentBlock);
  match (r : Block * error) with
  | (b, None) =>
      v ← on_miner (validate env b false ans);
      match fst v with
      | None => broadcastBlock b
      | Some _ => mret tt
      end
  | (_, Some _) => mret tt
  end.

(** One round of [mining]: the next block to work on. *)
Definition mining_turn (map_fuel : nat) (ticks : list tick) (env : surroundings) (txs : environment)
    (ans : answers) (currentBlock : Block) : M Host Block :=
  mine_block ticks env ans currentBlock;;
  EmptyingiplistChan;;
  last ← on_miner (gets (fun m => lastBlock (chain m)));
  last ← of_option last;
  let nextBlock := newBlock (blk_Hash last) (blk_HashWithoutTx last) (zeros COMM_PROOF_LENGTH) (u32 (blk_Height last + 1)) in
  on_miner (prepareBlock map_fuel txs nextBlock).

(** ** The programs of a node *)

(** A message is taken from the channel to which an earlier step has sent it.
    That it is taken once is left open. *)
Inductive runs : Host -> M Host unit -> Prop :=
  | run_new h remote chunks : runs h (handleNewConn Ipport remote chunks)
  | run_message h p typeID payload : runs h (processIncomingMsg Ipport p typeID payload)
  | run_register h p : runs h (peerConn p)
  | run_end h p : runs h (peerConn_end p)
  | run_broadcast h msg : minerBrdcstMsg msg ∈ events (net h) -> runs h (sendAndSearchMessages msg)
  | run_clients h msg : clientBrdcstMsg msg ∈ events (net h) -> runs h (clientBroadcast msg)
  | run_write h p : runs h (peerBroadcast p)
  | run_time h now now' : runs h (writeSystemTime now now')
  | run_time_broadcast h now : runs h (broadcast_time now)
  | run_health h conn : runs h (try_address Ipport conn)
  | run_bootstrap h conn : runs h (bootstrap Ipport Bootstrap_Server conn)
  | run_server h conn : runs h (check_bootstrap Ipport Bootstrap_Server conn)
  | run_request h packet : runs h (send_all packet)
  | run_incoming h env payload ans : BlockIn payload ∈ events (net h) -> runs h (incomingData env payload ans)
  | run_mining h map_fuel ticks env txs ans b : runs h (mining_turn map_fuel ticks env txs ans b;; mret tt).

Definition node_step (h h' : Host) : Prop := exists prog, runs h prog /\ prog h = Done (tt, h').
End gossip.
