(* ===== verification/NodeProps.v ===== *)
(** * A node from its start

    The state of a node stays well-typed along every run, whatever the other
    nodes send; and a block that is accepted is passed on once. *)

From S2P Require Import Prelude GoSlice GoLib Format Chameleon Protocol Merkle BlockFields Node Storage Ledger Params StateChange.
From S2P Require Import StateLemmas Validation PoS ParamLemmas Verify AddTx Aggregate BlockPrep LongestChain ChainLemmas Fetch Validate FetchLemmas CheckLemmas InitState NodeTypes NodeSteps NodeRuns AcceptLemmas.
From S2P Require Import Wire Peers PeerLemmas Serve ServeLemmas LedgerProps ChainProps MiningProps ForkProps ValidateProps NetProps InitProps Gossip.

(** The miner of a host stays well-typed. *)
Definition kept_typed `{DG : Digests} (h h' : Host) : Prop := stable node_ok (miner h) (miner h').

#[export] Instance kept_typed_PreOrder `{DG : Digests} : PreOrder kept_typed.
Proof. split; [by intros h ?|]. intros a b c Hab Hbc Ha. by apply Hbc, Hab. Qed.

Section leaves.
Context {DG : Digests}.

Lemma typed_on_miner {A} (m : M Miner A) : preserves m -> respects kept_typed (on_miner m).
Proof.
  intros Hm h a h'. unfold on_miner. destruct (m (miner h)) as [ [x m']| |] eqn:E; [|done|done]. intros [= <- <-].
  exact (Hm _ _ _ E).
Qed.

Lemma typed_on_net f : respects kept_typed (on_net f).
Proof. intros h u h' [= _ <-]. exact id. Qed.

Lemma typed_net_gets {A} (f : Net -> A) : respects kept_typed (net_gets f).
Proof. apply respects_gets, _. Qed.

Lemma typed_on_nodes {A} (m : M nodes A) : respects kept_typed (on_nodes m).
Proof. intros h a h'. unfold on_nodes. destruct (m []) as [ [x ?]| |]; [|done|done]. intros [= <- <-]. exact id. Qed.

Lemma typed_for_each {A} (l : list A) f : (forall x, respects kept_typed (f x)) -> respects kept_typed (Peers.for_each l f).
Proof. intros Hf. induction l; cbn [Peers.for_each]; [apply respects_ret, _|by apply respects_bind; [apply _|..]]. Qed.
End leaves.

#[local] Hint Resolve typed_on_net typed_net_gets typed_on_nodes : typed.
#[local] Hint Extern 1 (respects kept_typed (on_miner _)) => apply typed_on_miner; reads; typed : typed.
Ltac host := cbv zeta; repeat first [apply typed_for_each; intros | typed_step].

Section host.
Context {DG : Digests} {DL : DigestLaws} {SO : SortOps} {FO : FloatOps} {SG : Signatures} {NK : NodeKeys}.
Context {GR : GoRuntime} {GS : GoSort} {MO : MapOrder} {CM : Commitments} {GB : Gob} {BL : Bloom} {PO : PeerOrder}.
Context (Ipport Bootstrap_Server : bytes).

Lemma typed_emit e : respects kept_typed (emit e).
Proof. apply typed_on_net. Qed.
Lemma typed_update_peer p f : respects kept_typed (update_peer p f).
Proof. apply typed_on_net. Qed.
Lemma typed_new_peer q : respects kept_typed (new_peer q).
Proof. unfold new_peer. host. Qed.
Lemma typed_the_peer p : respects kept_typed (the_peer p).
Proof. unfold the_peer. host. Qed.
Lemma typed_sendData p b : respects kept_typed (sendData p b).
Proof. unfold sendData. case_match; [apply typed_emit|apply respects_panic]. Qed.
#[local] Hint Resolve typed_emit typed_update_peer typed_new_peer typed_the_peer typed_sendData : typed.
Lemma typed_getIPPort p : respects kept_typed (getIPPort p).
Proof. unfold getIPPort. host. Qed.
#[local] Hint Resolve typed_getIPPort : typed.
Lemma typed_any_address ps a : respects kept_typed (any_address ps a).
Proof. induction ps; cbn [any_address]; host. Qed.
#[local] Hint Resolve typed_any_address : typed.
Lemma typed_contains a t : respects kept_typed (contains a t).
Proof. unfold contains. host. Qed.
Lemma typed_connection_in ks p : respects kept_typed (connection_in ks p).
Proof. induction ks; cbn [connection_in]; host. Qed.
Lemma typed_getIPPorts ps : respects kept_typed (getIPPorts ps).
Proof. induction ps; cbn [getIPPorts]; host. Qed.
Lemma typed_take_times ps : respects kept_typed (take_times ps).
Proof. induction ps; cbn [take_times]; host. Qed.
Lemma typed_send_delayed p ms stored : respects kept_typed (send_delayed p ms stored).
Proof. revert stored. induction ms; intros stored; cbn [send_delayed]; unfold push_ch; host. Qed.
#[local] Hint Resolve typed_contains typed_connection_in typed_getIPPorts typed_take_times typed_send_delayed : typed.

Lemma typed_peers_add p : respects kept_typed (peers_add p).
Proof. unfold peers_add, delete_same_address, enter_sending, isConnectionAlreadyInSendingMap. host. Qed.
Lemma typed_peers_delete p : respects kept_typed (peers_delete p).
Proof. unfold peers_delete. host. Qed.
Lemma typed_send_entry b k : respects kept_typed (send_entry b k).
Proof. unfold send_entry, isConnectionAlreadyInSendingMap, push_ch. host. Qed.
Lemma typed_send_all b : respects kept_typed (send_all b).
Proof. unfold send_all, getAllPeers. host. Qed.
Lemma typed_neighborBrdcst : respects kept_typed neighborBrdcst.
Proof. unfold neighborBrdcst, getAllPeers. host. Qed.
Lemma typed_initiate d c : respects kept_typed (initiateNewMinerConnection Ipport d c).
Proof. unfold initiateNewMinerConnection, peerExists. host. Qed.
#[local] Hint Resolve typed_peers_add typed_peers_delete typed_send_entry typed_send_all typed_neighborBrdcst typed_initiate : typed.

(** The handlers: of the miner only the open pool and the stash are written. *)

Lemma typed_find_any h : respects kept_typed (find_any h).
Proof. unfold find_any. host. Qed.
Lemma typed_search_sender hs s : respects kept_typed (search_sender hs s).
Proof. induction hs; cbn [search_sender]; host. Qed.
Lemma typed_AlreadyInStash {T} (inj : T -> Transaction) l h : respects kept_typed (AlreadyInStash inj l h).
Proof. induction l; cbn [AlreadyInStash]; host. Qed.
Lemma typed_take_neighbors l : respects kept_typed (take_neighbors Ipport l).
Proof. induction l; cbn [take_neighbors]; host. Qed.
Lemma typed_requested_block b : respects kept_typed (requested_block b).
Proof. unfold requested_block. host. Qed.
Lemma stable_GetTxPubKeys b : preserves (GetTxPubKeys b).
Proof.
  unfold GetTxPubKeys. assert (forall l, preserves (GetAccTxPubKeys l)) by (induction l; cbn [GetAccTxPubKeys]; unfold find_tx; reads; typed).
  assert (forall l, preserves (GetFundsTxPubKeys l)) by (induction l; cbn [GetFundsTxPubKeys]; unfold find_tx; reads; typed). typed.
Qed.
#[local] Hint Resolve typed_find_any typed_search_sender typed_AlreadyInStash typed_take_neighbors typed_requested_block
  stable_GetTxPubKeys : typed.

Lemma typed_forward {T} (inj : T -> Transaction) s set tx : respects kept_typed (forward inj s set tx).
Proof. unfold forward. host. Qed.
Lemma typed_notFound b : respects kept_typed (notFoundTxRes b).
Proof. unfold notFoundTxRes, remember_not_found. host. Qed.
Lemma typed_pongRes p b t : respects kept_typed (pongRes p b t).
Proof. unfold pongRes, peers_len. host. Qed.
Lemma typed_forwardTxReq b t : respects kept_typed (forwardTxReqToMiner b t).
Proof. unfold forwardTxReqToMiner. destruct (decode_tx t b) as [ []|]; try apply typed_forward; typed. Qed.
#[local] Hint Resolve typed_forward typed_notFound typed_pongRes typed_forwardTxReq : typed.

Lemma typed_handlers p t b : respects kept_typed (processIncomingMsg Ipport p t b).
Proof.
  unfold processIncomingMsg, processTxBrdcst, processBlockBrdcst, processTimeRes, txRes, remember_not_found, specialTxRes,
    blockRes, blockHeaderRes, accRes, rootAccRes, neighborRes, getAllPeers, intermediateNodesRes, processNeighborRes,
    forwardBlockReqToMiner.
  host.
Qed.
#[local] Hint Resolve typed_handlers : typed.

(** ** The programs *)

Lemma typed_broadcastBlock b : respects kept_typed (broadcastBlock b).
Proof. unfold broadcastBlock, forwardBlockBrdcstToMiner, forwardBlockHeaderBrdcstToMiner. host. Qed.
#[local] Hint Resolve typed_broadcastBlock : typed.

Lemma typed_incomingData env payload ans : respects kept_typed (incomingData env payload ans).
Proof. unfold incomingData. host. Qed.

Lemma typed_mining_turn map_fuel ticks env txs ans b : respects kept_typed (mining_turn map_fuel ticks env txs ans b).
Proof. unfold mining_turn, mine_block, EmptyingiplistChan. host. Qed.
#[local] Hint Resolve typed_incomingData typed_mining_turn : typed.

Lemma typed_runs h prog : runs Ipport Bootstrap_Server h prog -> respects kept_typed prog.
Proof.
  intros []; unfold handleNewConn, peerConn, peerConn_end, sendAndSearchMessages, clientBroadcast, push_ch, peerBroadcast,
    writeSystemTime, getMinerTimes, broadcast_time, try_address, NeighborReq, peerExists, bootstrap, check_bootstrap; host.
Qed.

(** C3: the state of a node is always well-typed.  A node that has come up with
    a well-typed database, and has then run any of its programs in any order,
    for any connections, messages and answers, has its accounts under the
    hashes of their addresses, with balances of 64 and counters of 32 bits; its
    blocks under their own hashes, and those without transactions aggregated;
    at most a hundred blocks, of different hashes, in the stash; and consensus
    parameters within their bounds. *)
Theorem node_types sign env rootWallet params ans d b h0 h :
  buckets_typed d ->
  Init sign env rootWallet params ans (fresh d) = Done (inr b, miner h0) ->
  rtc (node_step Ipport Bootstrap_Server) h0 h ->
  node_ok (miner h).
Proof.
  intros Hd%fresh_ok H0 Hrun. apply (stable_Init _ _ _ _ _ _ _ _ H0) in Hd. clear H0.
  induction Hrun as [|x y z (prog & Hp & E) _ IH]; [done|]. apply IH. by apply (typed_runs _ _ Hp _ _ _ E).
Qed.

(** ** Received blocks *)

(** The two messages for a block, on the outgoing channels. *)
Definition block_messages (b : Block) (keys : list hash) : list event :=
  [minerBrdcstMsg (BuildPacket BLOCK_BRDCST (Block_Encode b));
   clientBrdcstMsg (BuildPacket BLOCK_HEADER_BRDCST (EncodeHeader (InitBloomFilter keys b)))].

Lemma GetTxPubKeys_reads b m l m' : GetTxPubKeys b m = Done (l, m') -> m' = m.
Proof.
  assert (E : forall A (o : M Miner A), respects eq o -> forall k a k', o k = Done (a, k') -> k' = k).
  { intros A o Ho k a k' H. symmetry. by eapply Ho. }
  apply E. assert (Hf : forall h, respects eq (find_tx h)).
  { intros h k a k'. unfold find_tx, ReadClosedTx, ReadOpenTx, gets, mbind, M_bind. by repeat case_match; intros [= _ <-]. }
  unfold GetTxPubKeys. apply respects_bind; [apply _| |intros; apply respects_bind; [apply _| |intros; apply respects_ret, _] ].
  - generalize (blk_AccTxData b). intros hs. induction hs; cbn [GetAccTxPubKeys]; typed.
  - generalize (blk_FundsTxData b). intros hs. induction hs; cbn [GetFundsTxPubKeys]; typed.
Qed.

Lemma broadcastBlock_inv b h h' : broadcastBlock b h = Done (tt, h') ->
  exists keys, h' = emitted (block_messages b keys) h.
Proof.
  destruct h as [m n]. unfold broadcastBlock. intros ([] & h1 & [= <-] & H)%bind_inv.
  apply bind_inv in H as (keys & h2 & H2 & H). unfold on_miner in H2. cbn [miner net] in H2.
  destruct (GetTxPubKeys b m) as [ [l m']| |] eqn:E; [|done..]. injection H2 as -> <-.
  apply GetTxPubKeys_reads in E as ->. exists keys. injection H as <-. unfold emitted, with_net, upd_events. cbn.
  by rewrite <-app_assoc.
Qed.

(** The clients get no more than the first bytes of the encoding of a payment. *)
Lemma verified_funds_cut tx tx' h : (FUNDSTX_SIZE <= length (FundsTx_Encode tx))%nat ->
  (FUNDSTX_SIZE <= length (FundsTx_Encode tx'))%nat ->
  take FUNDSTX_SIZE (FundsTx_Encode tx) = take FUNDSTX_SIZE (FundsTx_Encode tx') ->
  broadcastVerifiedFundsTxs [tx] h = broadcastVerifiedFundsTxs [tx'] h.
Proof.
  intros Hl Hl' E. unfold broadcastVerifiedFundsTxs, Encode. cbn [map fmap list_fmap].
  by rewrite !take_app_le by done; rewrite E.
Qed.

(** What a received block does, by whether it is accepted. *)
Lemma incomingData_inv env payload ans h h' : incomingData env payload ans h = Done (tt, h') ->
  exists (valid : bool) m', processBlock env (ungob_Block payload) ans (miner h) = Done (valid, m') /\
    if valid then exists keys, h' = emitted (block_messages (ungob_Block payload) keys) (mkHost m' (net h))
    else h' = mkHost m' (net h).
Proof.
  unfold incomingData. cbv zeta. intros (valid & h1 & H1 & H)%bind_inv. unfold on_miner in H1.
  destruct (processBlock _ _ _ _) as [ [v m']| |] eqn:E; [|done..]. injection H1 as <- <-. exists v, m'. split; [done|].
  destruct v; [by apply broadcastBlock_inv|by injection H as <-].
Qed.
End host.

Section received.
Context {DG : Digests} {DL : DigestLaws} {SO : SortOps} {FO : FloatOps} {SG : Signatures} {NK : NodeKeys}.
Context {GS : GoSort} {GL : GoSortLaws} {MO : MapOrder} {CM : Commitments} {GB : Gob} {BL : Bloom}.

(** C4: a block is passed on once.  A received block that is not accepted is
    not sent to anyone.  One that is accepted was not closed before; it is sent
    to the miners, and its header to the clients, and it is closed afterwards,
    as it is. Any copy of it that then arrives, in whatever encoding and
    whatever the network answers, changes nothing and is sent to no one. *)
Theorem relayed_once env payload ans h h1 :
  node_ok (miner h) -> incomingData env payload ans h = Done (tt, h1) ->
  let b := ungob_Block payload in
  net h1 = net h \/
  closedblocks (db (miner h)) !! blk_Hash b = None /\
  closedblocks (db (miner h1)) !! blk_Hash b = Some (Block_persist b) /\
  (exists keys, net h1 = net (emitted (block_messages b keys) h)) /\
  forall env' payload' ans', blk_Hash (ungob_Block payload') = blk_Hash b ->
    blk_NrUpdates (ungob_Block payload') = blk_NrUpdates b -> incomingData env' payload' ans' h1 = Done (tt, h1).
Proof.
  intros Hm ([] & m' & E & H)%incomingData_inv b; [right|left; by rewrite H].
  apply processBlock_closed in E as [Hn Hc]; [|done]. destruct H as [keys ->]. split; [done|]. split; [done|].
  split; [by exists keys|]. intros env' payload' ans' Eh En. unfold incomingData, on_miner, mbind, M_bind. cbv zeta.
  change (miner (emitted _ _)) with m'. by rewrite (processBlock_again _ _ b _ _ Hc Eh En).
Qed.

(** C15: a block travels unchanged.  Let decoding undo the encoding of the
    block, but for the copy of the state. The message for the block, received
    by any node on any connection, hands it to the miner there; what that miner
    sends to others, if it accepts the block, is the same message, byte for
    byte. *)
Theorem block_travels Ipport p b h rest :
  ungob_Block (Block_Encode b) = Block_persist b -> Z.of_nat (length (Block_Encode b)) <= 800000 ->
  receive Ipport p (BuildPacket BLOCK_BRDCST (Block_Encode b) :: rest) h
    = Done (Some rest, emitted [BlockIn (Block_Encode b)] h) /\
  forall env ans h1 h2 msg, incomingData env (Block_Encode b) ans h1 = Done (tt, h2) ->
    minerBrdcstMsg msg ∈ events (net h2) -> minerBrdcstMsg msg ∉ events (net h1) ->
    msg = BuildPacket BLOCK_BRDCST (Block_Encode b).
Proof.
  intros Hg Hl. split; [by rewrite receive_packet|].
  intros env ans h1 h2 msg ([] & m' & _ & H)%incomingData_inv Hin Hout; [|by rewrite H in Hin].
  destruct H as [keys ->]. rewrite Hg in Hin. cbn in Hin. apply elem_of_app in Hin as [?|Hin]; [done|].
  apply elem_of_cons in Hin as [ [= ->]|Hin]; [done|]. by apply list_elem_of_singleton in Hin.
Qed.
End received.

(** ** The first node, and a block for it *)

Section witnesses.
Import Toy Mine Small Fork Chains.
#[local] Existing Instance Nodes.peer_order.
#[local] Existing Instance Nodes.bloom.
#[local] Existing Instance go_runtime_114.

(** Block 11 over the genesis block. *)
Definition on_genesis : Block :=
  upd_blk_Hash (fun _ => key 11) (upd_blk_HashWithoutTx (fun _ => key 111)
    (upd_blk_Beneficiary (fun _ => key 3) (newBlock zero_hash zero_hash (zeros 256) 1))).
#[local] Instance gob_block : Gob := {|
  gob_FundsTx _ := []; gob_AccTx _ := []; gob_AggTx _ := []; gob_UpdateTx _ := []; gob_Block _ := [Byte.x07]; gob_Account _ := [];
  ungob_FundsTx _ := pay 1 2 30 2 0; ungob_AccTx _ := open_account 0 9;
  ungob_AggTx _ := mkAggTx 0 0 [] [] [] false zero_hash zero_hash None None;
  ungob_UpdateTx _ := mkUpdateTx 0 zero_hash None None zero_hash zero_sig None None; ungob_Block _ := on_genesis |}.

Definition first : Miner := match Init signer first_env (addr 3) (Some keys) [] (fresh no_buckets) with Done (_, m') => m' | _ => m0 end.

Lemma first_Init : exists b, Init signer first_env (addr 3) (Some keys) [] (fresh no_buckets) = Done (inr b, first).
Proof.
  destruct (started_done (Init signer first_env (addr 3) (Some keys) [] (fresh no_buckets))) as (b & m' & H); [vm_compute; reflexivity|].
  exists b. unfold first. by rewrite H.
Qed.

Lemma no_buckets_typed : buckets_typed no_buckets.
Proof. split; apply map_Forall_empty. Qed.

Lemma first_ok : node_ok first.
Proof.
  destruct first_Init as [b H]. exact (stable_Init _ _ _ _ _ _ _ _ H (fresh_ok _ no_buckets_typed)).
Qed.

Definition up : Host := mkHost first Init_net.
Definition accepted_up : Host := Nodes.state_of up (incomingData first_env [Byte.x07] [] up).

Lemma relayed_once_witness : incomingData first_env [Byte.x07] [] up = Done (tt, accepted_up) /\
  closedblocks (db (Peers.miner accepted_up)) !! key 11 = Some on_genesis /\
  incomingData env [Byte.x08] [] accepted_up = Done (tt, accepted_up).
Proof.
  assert (E : incomingData first_env [Byte.x07] [] up = Done (tt, accepted_up)) by (apply Nodes.done_state; vm_compute; reflexivity).
  destruct (relayed_once first_env [Byte.x07] [] up accepted_up first_ok E) as [H|(_ & Hc & _ & Ha)].
  - apply (f_equal (fun n => length (events n))) in H. vm_compute in H. discriminate H.
  - split; [exact E|]. split; [exact Hc|]. by apply Ha.
Defined.

(** A miner connects, sends the block, and it is accepted. *)
Definition greeted : Host :=
  Nodes.state_of up (handleNewConn Nodes.self (str_bytes "10.0.0.1:5011") [PrepareHandshake MINER_PING 8001] up).
Definition told : Host := Nodes.state_of greeted (processIncomingMsg Nodes.self 0 BLOCK_BRDCST [Byte.x07] greeted).
Definition grown : Host := Nodes.state_of told (incomingData first_env [Byte.x07] [] told).

Lemma step_done h prog : runs Nodes.self Nodes.boot h prog -> Nodes.is_done (prog h) = true ->
  node_step Nodes.self Nodes.boot h (Nodes.state_of h (prog h)).
Proof. intros Hr Hd. exists prog. split; [done|by apply Nodes.done_state]. Qed.

Lemma node_types_witness : rtc (node_step Nodes.self Nodes.boot) up grown /\ node_ok (Peers.miner grown) /\
  closedblocks (db (Peers.miner grown)) !! key 11 = Some on_genesis.
Proof.
  assert (R : rtc (node_step Nodes.self Nodes.boot) up grown).
  { apply (rtc_l _ _ greeted); [apply step_done; [apply run_new|vm_compute; reflexivity]|].
    apply (rtc_l _ _ told); [apply step_done; [apply run_message|vm_compute; reflexivity]|].
    apply rtc_once, step_done; [|vm_compute; reflexivity].
    apply run_incoming, (list_elem_of_lookup_2 _ 2). vm_compute. reflexivity. }
  destruct first_Init as [b H]. split; [exact R|]. split.
  - exact (node_types Nodes.self Nodes.boot signer first_env (addr 3) (Some keys) [] no_buckets b up grown no_buckets_typed H R).
  - vm_compute. reflexivity.
Defined.

Lemma block_travels_witness :
  receive Nodes.self 0 [BuildPacket BLOCK_BRDCST [Byte.x07]] up = Done (Some [], emitted [BlockIn [Byte.x07]] up) /\
  minerBrdcstMsg (BuildPacket BLOCK_BRDCST [Byte.x07]) ∈ events (net accepted_up).
Proof.
  destruct (block_travels Nodes.self 0 on_genesis up []) as [H Hmsg].
  - vm_compute. reflexivity.
  - vm_compute. discriminate.
  - split; [exact H|].
    assert (E : incomingData first_env [Byte.x07] [] up = Done (tt, accepted_up)) by (apply Nodes.done_state; vm_compute; reflexivity).
    change (minerBrdcstMsg (BuildPacket BLOCK_BRDCST (Block_Encode on_genesis)) ∈ events (net accepted_up)).
    destruct (events (net accepted_up)) as [|e es] eqn:Ev; [vm_compute in Ev; discriminate Ev|].
    destruct e as [ | |packet| | | | | ]; try (vm_compute in Ev; discriminate Ev).
    rewrite <-(Hmsg first_env [] up accepted_up packet E); [left|rewrite Ev; left|].
    intros Hin. vm_compute in Hin. by apply elem_of_nil in Hin.
Defined.
End witnesses.
