(* ===== verification/Exchange.v ===== *)
(** * Two nodes

    The requests of one node are answered by the handlers of another one
    (Serve.v): the request is a packet that the other node receives, the answer
    the packet that it then writes. [served] is the network of
    [fetchTransactions] (Fetch.v), [answers_to] are the answers of the first
    synchronisation (InitState.v). *)

From S2P Require Import Prelude GoLib Format Chameleon Protocol Merkle BlockFields Node Storage Ledger Params StateChange.
From S2P Require Import StateLemmas Validation PoS Verify AddTx Aggregate BlockPrep LongestChain Fetch Validate FetchLemmas InitState Wire WireLemmas Peers PeerLemmas Serve ServeLemmas.
From S2P Require Import LedgerProps ChainProps MiningProps ForkProps ValidateProps NetProps InitProps.

Section exchange.
Context {DG : Digests} {DL : DigestLaws} {SG : Signatures} {NK : NodeKeys}.
Context {GB : Gob} {BL : Bloom} {PO : PeerOrder}.
(** The other node, and its connection to this one. *)
Context (Ipport : bytes) (other : Host) (p : nat).

(** ** The other node as the network *)

(** The packet that the other node writes for a request. *)
Definition answer_packet (typeID : Z) (x : hash) : option bytes :=
  match receive Ipport p [BuildPacket typeID x] other with
  | Done (_, h') => match last (events (net h')) with Some (Write _ packet) => Some packet | _ => None end
  | _ => None
  end.

(** What this node takes from it; NOT_FOUND is no answer. *)
Definition reply_with {T} (assert_type : Transaction -> option T) (typeID : Z) (x : hash) : reply T :=
  match (packet ← answer_packet typeID x;
         '(header, payload, _) ← RcvData [packet];
         tx ← decode_tx (TypeID header) payload;
         assert_type tx) with
  | Some t => Got t
  | None => NoReply [] []
  end.

Definition as_unknown (tx : Transaction) : option (AggTx + FundsTx) :=
  match tx with TAgg t => Some (inl t) | TFunds t => Some (inr t) | _ => None end.

Definition served : network :=
  mkNetwork (reply_with as_acc ACCTX_REQ) (reply_with as_funds FUNDSTX_REQ) (reply_with as_config CONFIGTX_REQ)
    (reply_with as_stake STAKETX_REQ) (reply_with as_update UPDATETX_REQ)
    (fun x _ => reply_with as_agg AGGTX_REQ x) (fun x _ => reply_with as_unknown UNKNOWNTX_REQ x).

(** The other node stores a transaction under the hash, and what decodes from
    its encoding is [tx]. *)
Definition serves (x : hash) (tx : Transaction) : Prop :=
  length x = 32%nat /\ exists stored, stored_tx (miner other) x = Some stored /\
    Z.of_nat (length (Transaction_Encode stored)) <= 800000 /\
    decode_tx (res_of stored) (Transaction_Encode stored) = Some tx.

Lemma res_of_decoded tx b tx' : decode_tx (res_of tx) b = Some tx' -> req_of tx' = req_of tx.
Proof.
  destruct tx; cbn; try by intros [= <-].
  - by destruct (ConfigTx_Decode b); intros [= <-].
  - by destruct (StakeTx_Decode b); intros [= <-].
Qed.

Lemma reply_served {T} (f : Transaction -> option T) x tx t : serves x tx -> f tx = Some t ->
  reply_with f (req_of tx) x = Got t.
Proof.
  intros (Hx & stored & Hs & Hl & Hd) Hf. unfold reply_with, answer_packet.
  rewrite (res_of_decoded _ _ _ Hd), (request_answered Ipport x stored other p Hx Hs).
  cbn [emitted with_net net events upd_events]. rewrite last_snoc. cbn [option_bind mbind].
  pose proof (RcvData_chunks [] (BuildPacket (res_of stored) (Transaction_Encode stored)) [] (res_of stored) (Transaction_Encode stored) []) as E.
  cbn [app] in E. rewrite E; [|by destruct stored|done|by rewrite app_nil_r|rewrite length_BuildPacket; cbn; lia].
  cbn. rewrite Hd. cbn. by rewrite Hf.
Qed.

(** ** Fetching *)

(** This node does not have the transaction as closed or invalid; as open it
    has at most this one. *)
Definition ready (m : Miner) (x : hash) (tx : Transaction) : Prop :=
  serves x tx /\ closed_tx (db m) x = None /\ Transaction_Hash (ChameleonHashParametersMap (ledger m)) tx = Some x /\
  (txMemPool (pool m) !! x = Some tx \/ txMemPool (pool m) !! x = None /\ txINVALIDMemPool (pool m) !! x = None).

(** What is ready stays so; only the pool of open transactions grows. *)
Definition approaches (m m' : Miner) : Prop :=
  pool_only m m' /\ forall x tx, ready m x tx -> ready m' x tx.

#[local] Instance approaches_PreOrder : PreOrder approaches.
Proof.
  split; unfold approaches; [intros m; by split|]. intros a b c [H1 H2] [H3 H4]. split; [by etrans|auto].
Qed.

Lemma serves_inj x tx tx' : serves x tx -> serves x tx' -> tx' = tx.
Proof. intros (_ & s & H1 & _ & H2) (_ & s' & H3 & _ & H4). congruence. Qed.

Lemma ready_hash m x tx : ready m x tx -> tx_hash tx m = Done (x, m).
Proof. intros (_ & _ & H & _). unfold tx_hash, mbind, M_bind, gets. by rewrite H. Qed.

(** The funds transaction that arrives is put into the pool. *)
Lemma WriteOpenTx_approaches x tx m : ready m x tx -> exists m', WriteOpenTx tx m = Done (tt, m') /\ approaches m m'.
Proof.
  intros Hr. pose proof (ready_hash _ _ _ Hr) as Hh. unfold WriteOpenTx. rewrite (bind_Done _ _ _ _ _ Hh).
  set (m1 := upd_pool (upd_txMemPool (insert x tx)) m).
  assert (A : approaches m m1).
  { split; [done|]. intros y tx' (Hs & Hc & Hy & Ho). split; [done|]. split; [done|]. split; [done|]. cbn.
    destruct (decide (y = x)) as [->|Hne].
    - left. rewrite lookup_insert_eq. f_equal. symmetry. apply (serves_inj x); [apply Hr|done].
    - by rewrite lookup_insert_ne. }
  rewrite (bind_Done _ _ _ tt m1) by done.
  destruct tx as [|t| | | |]; try by exists m1.
  assert (Hh1 : tx_hash (TFunds t) m1 = Done (x, m1)) by (eapply ready_hash, A, Hr).
  unfold WriteTxcntToTx. rewrite (bind_Done _ _ _ _ _ Hh1). eexists. split; [reflexivity|].
  etrans; [exact A|]. split; [done|]. by intros y tx' Hy.
Qed.

(** One transaction of each list. *)

Definition fetches {T} (inj : T -> Transaction) (one : hash -> M Miner (fetched T)) : Prop :=
  forall m x t, ready m x (inj t) -> exists m', one x m = Done (Item [] (Some t), m') /\ approaches m m'.

Lemma fetches_open {T} (inj : T -> Transaction) (f : Transaction -> option T) msg rest m x t :
  ready m x (inj t) -> f (inj t) = Some t ->
  (txMemPool (pool m) !! x = None -> rest m = Done (Item [] (Some t), m)) ->
  exists m', unless_closed false f msg x (or_open f x rest) m = Done (Item [] (Some t), m') /\ approaches m m'.
Proof.
  intros (_ & Hc & _ & Ho) Hf Hr. exists m. split; [|done].
  unfold unless_closed, or_open, ReadClosedTx, ReadOpenTx, mbind, M_bind, gets. rewrite Hc.
  destruct Ho as [Ho|[Ho _] ]; rewrite Ho; [by rewrite Hf|by apply Hr].
Qed.

Lemma received_ready {T} (inj : T -> Transaction) msg m x t : ready m x (inj t) ->
  received_check inj msg x [] (Some t) m = Done (Item [] (Some t), m).
Proof.
  intros H%ready_hash. unfold received_check, hash_or_zero. rewrite (bind_Done _ _ _ _ _ H).
  by rewrite bool_decide_eq_true_2.
Qed.

Lemma fetches_acc : fetches TAcc (fetch_acc served false).
Proof.
  intros m x t H. eapply fetches_open; [done..|]. intros _. change (ask_acc served x) with (reply_with as_acc (req_of (TAcc t)) x).
  rewrite (reply_served as_acc x (TAcc t) t (proj1 H) eq_refl). by apply received_ready.
Qed.

Lemma fetches_config : fetches TConfig (fetch_config served false).
Proof.
  intros m x t H. eapply fetches_open; [done..|]. intros _. change (ask_config served x) with (reply_with as_config (req_of (TConfig t)) x).
  rewrite (reply_served as_config x (TConfig t) t (proj1 H) eq_refl). by apply received_ready.
Qed.

Lemma fetches_stake : fetches TStake (fetch_stake served false).
Proof.
  intros m x t H. eapply fetches_open; [done..|]. intros _. change (ask_stake served x) with (reply_with as_stake (req_of (TStake t)) x).
  rewrite (reply_served as_stake x (TStake t) t (proj1 H) eq_refl). by apply received_ready.
Qed.

Lemma fetches_update : fetches TUpdate (fetch_update served false).
Proof.
  intros m x t H. eapply fetches_open; [done..|]. intros _. change (ask_update served x) with (reply_with as_update (req_of (TUpdate t)) x).
  rewrite (reply_served as_update x (TUpdate t) t (proj1 H) eq_refl). by apply received_ready.
Qed.

Lemma fetches_funds : fetches TFunds (fetch_funds served false).
Proof.
  intros m x t H. pose proof H as (Hs & Hc & _ & Ho).
  unfold fetch_funds, ReadClosedTx, ReadOpenTx, ReadINVALIDOpenTx, gets. unfold mbind at 1, M_bind at 1. rewrite Hc.
  unfold mbind at 1 2, M_bind at 1 2. destruct Ho as [Ho|[Ho Hi] ]; rewrite Ho; [by exists m|rewrite Hi].
  erewrite bind_Done by reflexivity. cbn beta iota zeta. change (ask_funds served x) with (reply_with as_funds (req_of (TFunds t)) x).
  rewrite (reply_served as_funds x (TFunds t) t Hs eq_refl).
  destruct (WriteOpenTx_approaches x (TFunds t) m H) as (m' & E & A). exists m'. split; [|done].
  erewrite bind_Done by exact E. erewrite bind_Done by reflexivity. by apply received_ready, A.
Qed.

(** The loops *)

Lemma fetch_loop_fills {T} (inj : T -> Transaction) (one : hash -> M Miner (fetched T)) hs ts done rest m :
  fetches inj one -> Forall2 (fun x t => ready m x (inj t)) hs ts -> length rest = length hs ->
  exists m', fetch_loop one (length done) hs (done ++ rest) m = Done (([], done ++ (Some <$> ts)), m') /\ approaches m m'.
Proof.
  intros Hone H. revert ts done rest m H. induction hs as [|x hs IH]; intros ts done rest m H Hl.
  - apply Forall2_nil_inv_l in H as ->. destruct rest; [|easy]. by exists m.
  - apply Forall2_cons_inv_l in H as (t & ts' & Hx & Hts & ->). destruct rest as [|r rest]; [easy|].
    destruct (Hone m x t Hx) as (m1 & E1 & A1). cbn [fetch_loop]. erewrite bind_Done by exact E1. cbn beta iota.
    unfold set_at. rewrite (proj2 (Nat.ltb_lt _ _)) by (rewrite length_app; cbn; lia).
    erewrite bind_Done by reflexivity. rewrite insert_app_r_alt, Nat.sub_diag by lia. cbn [list_insert insert].
    change (done ++ Some t :: rest) with (done ++ [Some t] ++ rest). rewrite app_assoc.
    destruct (IH ts' (done ++ [Some t]) rest m1) as (m2 & E2 & A2); [|by injection Hl|].
    { eapply Forall2_impl; [exact Hts|]. cbn. intros y t' Hy. by apply A1. }
    rewrite length_app, Nat.add_comm in E2. cbn [length Nat.add] in E2. exists m2. split; [|by etrans].
    erewrite bind_Done by exact E2. cbn. by rewrite <-app_assoc.
Qed.

(** What the block lists is what it counts, and nothing is aggregated. *)
Record counted (b : Block) : Prop := {
  ct_acc : blk_NrAccTx b = Z.of_nat (length (blk_AccTxData b));
  ct_funds : blk_NrFundsTx b = Z.of_nat (length (blk_FundsTxData b));
  ct_config : blk_NrConfigTx b = Z.of_nat (length (blk_ConfigTxData b));
  ct_stake : blk_NrStakeTx b = Z.of_nat (length (blk_StakeTxData b));
  ct_update : blk_NrUpdateTx b = Z.of_nat (length (blk_UpdateTxData b));
  ct_nr_agg : blk_NrAggTx b = 0;
  ct_agg : blk_AggTxData b = []
}.

Lemma fetch_list {T} (inj : T -> Transaction) (one : hash -> M Miner (fetched T)) n hs ts m0 m :
  fetches inj one -> n = Z.of_nat (length hs) -> approaches m0 m ->
  Forall2 (fun x t => ready m0 x (inj t)) hs ts ->
  exists m', fetch_loop one 0 hs (make n) m = Done (([], Some <$> ts), m') /\ approaches m0 m'.
Proof.
  intros Hone -> A H. destruct (fetch_loop_fills inj one hs ts [] (make (Z.of_nat (length hs))) m Hone) as (m' & E & A').
  - eapply Forall2_impl; [exact H|]. cbn. intros x t. apply A.
  - unfold make. by rewrite length_replicate, Nat2Z.id.
  - exists m'. split; [exact E|by etrans].
Qed.

Lemma whole_Some {T} (ts : list T) m : whole (Some <$> ts) m = Done (ts, m).
Proof. unfold whole. assert (mapM id (Some <$> ts) = Some ts) as ->; [|done]. induction ts as [|t ts IH]; [done|]. cbn. by rewrite IH. Qed.

(** C16: a block can be fetched from any node that has its transactions.  Let a
    block without aggregations count its transactions as they are, let another
    node store each of them under its hash, in whatever pool, and let this node
    have none of them closed or as invalid. Then fetching ends without an
    error, with exactly these transactions in the order of the block, and only
    the pool of this node has changed. *)
Theorem fetched_from_peer fuel b m acc funds config stake update :
  counted b ->
  Forall2 (fun x t => ready m x (TAcc t)) (blk_AccTxData b) acc ->
  Forall2 (fun x t => ready m x (TFunds t)) (blk_FundsTxData b) funds ->
  Forall2 (fun x t => ready m x (TConfig t)) (blk_ConfigTxData b) config ->
  Forall2 (fun x t => ready m x (TStake t)) (blk_StakeTxData b) stake ->
  Forall2 (fun x t => ready m x (TUpdate t)) (blk_UpdateTxData b) update ->
  exists s m', fetchTransactions served false fuel b (make_slices b) m = Done ((None, s), m') /\
    block_data b s m' = Done (mkBlockData acc funds config stake [] [] update b, m') /\ pool_only m m'.
Proof.
  intros [] Ha Hf Hc Hs Hu.
  destruct (fetch_list _ _ _ _ _ m m fetches_acc ct_acc0 (reflexivity _) Ha) as (m1 & E1 & A1).
  destruct (fetch_list _ _ _ _ _ m m1 fetches_funds ct_funds0 A1 Hf) as (m2 & E2 & A2).
  destruct (fetch_list _ _ _ _ _ m m2 fetches_config ct_config0 A2 Hc) as (m3 & E3 & A3).
  destruct (fetch_list _ _ _ _ _ m m3 fetches_stake ct_stake0 A3 Hs) as (m4 & E4 & A4).
  destruct (fetch_list _ _ _ _ _ m m4 fetches_update ct_update0 A4 Hu) as (m5 & E5 & A5).
  eexists _, m5. unfold fetchTransactions, fetchAccTxData, fetchFundsTxData, fetchConfigTxData, fetchStakeTxData,
    fetchUpdateTxData, fetchAggTxData, make_slices. cbn [s_acc s_funds s_config s_stake s_agg s_update].
  rewrite ct_agg0, ct_nr_agg0. split; [|split; [|apply A5] ].
  - erewrite bind_Done by exact E1. erewrite bind_Done by exact E2. erewrite bind_Done by exact E3.
    erewrite bind_Done by exact E4. erewrite bind_Done by exact E5. reflexivity.
  - unfold block_data. cbn [s_acc s_funds s_config s_stake s_agg s_aggregated s_update].
    do 4 (erewrite bind_Done by apply whole_Some). erewrite bind_Done by reflexivity.
    by erewrite bind_Done by apply whole_Some.
Qed.
End exchange.

(** ** Two nodes *)

Section witness.
Import Toy Mine Nodes.

(** The first has a payment in its pool, the second has the block. *)
Definition holder : Host := with_open payment_hash (TFunds payment) h4.
Definition paying : Block :=
  upd_blk_FundsTxData (fun _ => [payment_hash]) (upd_blk_NrFundsTx (fun _ => 1) (Toy.blk 3)).

Lemma fetched_from_peer_witness : exists s m',
  fetchTransactions (served self holder 0) false 5 paying (make_slices paying) (Peers.miner h4) = Done ((None, s), m') /\
  block_data paying s m' = Done (mkBlockData [] [payment] [] [] [] [] [] paying, m').
Proof.
  destruct (fetched_from_peer self holder 0 5 paying (Peers.miner h4) [] [payment] [] [] []) as (s & m' & H & Hb & _).
  - split; vm_compute; reflexivity.
  - constructor.
  - apply Forall2_cons; split; [|constructor]. split; [|split; [|split] ].
    + split; [vm_compute; reflexivity|]. exists (TFunds payment). vm_compute. split; [reflexivity|]. split; [discriminate|reflexivity].
    + vm_compute. reflexivity.
    + vm_compute. reflexivity.
    + right. split; vm_compute; reflexivity.
  - constructor.
  - constructor.
  - constructor.
  - exists s, m'. split; [exact H|exact Hb].
Defined.
End witness.

(** ** A node joins another one *)

Section joining.
Context {DG : Digests} {DL : DigestLaws} {SO : SortOps} {FO : FloatOps} {SG : Signatures} {NK : NodeKeys}.
Context {GS : GoSort} {GL : GoSortLaws} {MO : MapOrder} {CM : Commitments}.
Context {GB : Gob} {BL : Bloom} {PO : PeerOrder}.
Context (Ipport : bytes) (other : Host) (p : nat) (env : surroundings).

(** ** The handler of received blocks *)

(** An answer is handed over on the channel, or kept back. *)
Lemma hand_over_refines payload ans h :
  exists o m', hand_over (Some (ungob_Block payload) :: ans) (miner h) = Done ((o, ans), m') /\
    forwardBlockReqToMiner payload h =
      Done (tt, emitted (match o with Some _ => [BlockReqChan payload] | None => [] end) (mkHost m' (net h))) /\
    (forall b, o = Some b -> b = ungob_Block payload).
Proof.
  destruct h as [m n]. unfold hand_over, forwardBlockReqToMiner, ReadReceivedBlockStash, on_miner, gets, mbind, M_bind. cbn.
  destruct (BlockAlreadyInStash _ _).
  - exists None, m. split; [done|]. split; [|done]. by rewrite emitted_nil.
  - eexists (Some _), _. split; [reflexivity|]. split; [done|]. by intros b [= ->].
Qed.

(** ** The other node as the network *)

Definition block_reply (payload : bytes) : option Block :=
  packet ← answer_packet Ipport other p BLOCK_REQ payload;
  '(header, answer, _) ← RcvData [packet];
  if TypeID header =? BLOCK_RES then Some (ungob_Block answer) else None.

(** The two requests of the synchronisation. *)
Definition ask_last : option Block := block_reply [].
Definition ask_parent (b : Block) : option Block := block_reply (blk_PrevHash b ++ blk_PrevHashWithoutTx b).

(** The answers when the blocks that arrive are those of [chain]: the request
    after a block is for its parent. *)
Definition answers_to (chain : list Block) : answers := ask_last :: map ask_parent (removelast chain).

(** The encoding gives the block back, and fits into a packet. *)
Definition portable (b : Block) : Prop :=
  ungob_Block (Block_Encode b) = b /\ Z.of_nat (length (Block_Encode b)) <= 800000 /\
  length (blk_PrevHash b) = 32%nat /\ length (blk_PrevHashWithoutTx b) = 32%nat.

Lemma block_reply_found payload b : Z.of_nat (length payload) <= 800000 -> portable b ->
  blockRes p payload other = sendData p (BuildPacket BLOCK_RES (Block_Encode b)) other ->
  block_reply payload = Some b.
Proof.
  intros Hp (Hg & Hl & _) H. unfold block_reply, answer_packet. rewrite receive_packet by done.
  change (processIncomingMsg Ipport p BLOCK_REQ payload) with (blockRes p payload).
  rewrite sendData_Done in H by (rewrite length_BuildPacket; lia). rewrite (bind_Done _ _ _ _ _ H).
  cbn -[RcvData BuildPacket TypeID BLOCK_RES]. rewrite last_snoc. cbn -[RcvData BuildPacket TypeID BLOCK_RES].
  pose proof (RcvData_chunks [] (BuildPacket BLOCK_RES (Block_Encode b)) [] BLOCK_RES (Block_Encode b) []) as E.
  cbn [app] in E. rewrite E; [|done|done|by rewrite app_nil_r|rewrite length_BuildPacket; cbn; lia].
  cbn. by rewrite Hg.
Qed.

Lemma ask_last_found b : portable b -> ReadLastClosedBlock (miner other) = Done (Some b, miner other) -> ask_last = Some b.
Proof.
  intros Hb H. apply block_reply_found; [done|done|]. unfold blockRes. cbn [length Nat.eqb].
  erewrite bind_Done; [|by apply on_miner_Done]. done.
Qed.

Definition parent_at_other (b : Block) : option Block :=
  known (db (miner other)) (blk_PrevHash b) (blk_PrevHashWithoutTx b).

Lemma ask_parent_found b b' : portable b -> portable b' -> parent_at_other b = Some b' -> ask_parent b = Some b'.
Proof.
  intros (_ & _ & L1 & L2) Hb' H. apply block_reply_found; [rewrite length_app, L1, L2; done|done|].
  unfold blockRes. rewrite length_app, L1, L2. cbn [Nat.add Nat.eqb]. unfold requested_block.
  rewrite <-L1, take_app_length, drop_app_length. unfold parent_at_other, known in H.
  destruct other as [m n]. unfold ReadClosedBlock, ReadClosedBlockWithoutTx, read_db, on_miner, gets, mbind, M_bind in *. cbn in *.
  destruct (closedblocks (db m) !! _); [by injection H as ->|]. cbn. by rewrite H.
Qed.

(** The chain of the other node, down to a block of height zero. *)
Inductive chain_at_other : list Block -> Prop :=
  | chain_genesis g : blk_Height g = 0 -> chain_at_other [g]
  | chain_block b b' l : blk_Height b <> 0 -> parent_at_other b = Some b' -> chain_at_other (b' :: l) ->
      chain_at_other (b :: b' :: l).

Lemma parents_found l : chain_at_other l -> Forall portable l -> map ask_parent (removelast l) = map Some (tail l).
Proof.
  induction 1 as [|b b' l _ Hp _ IH]; intros Hl; [done|]. apply Forall_cons in Hl as [Hb Hl].
  change (removelast (b :: b' :: l)) with (b :: removelast (b' :: l)). cbn [map]. rewrite IH by done. apply Forall_cons in Hl as [Hb' _].
  by rewrite (ask_parent_found b b' Hb Hb' Hp).
Qed.

Lemma chain_split b l : chain_at_other (b :: l) -> l <> [] ->
  exists bs g, l = bs ++ [g] /\ blk_Height g = 0 /\ forall x, x ∈ bs -> blk_Height x <> 0.
Proof.
  revert b. induction l as [|b' l IH]; intros b H Hne; [done|]. inversion H as [|? ? ? _ _ H']; subst.
  destruct l as [|b2 l].
  - exists [], b'. inversion H'; subst. split; [done|]. split; [done|]. by intros x []%elem_of_nil.
  - destruct (IH b' H') as (bs & g & E & Hg & Hbs); [done|]. exists (b' :: bs), g. rewrite E. split; [done|]. split; [done|].
    intros x [->|Hx]%elem_of_cons; [by inversion H'|auto].
Qed.

(** C17: a node that joins gets the chain of the other one.  Let the other node
    have a chain from its last closed block down to a block of height zero, each
    parent closed there with or without its transactions, and let the encoding
    of these blocks give them back. A node with an empty stash that sends its
    requests to this node then collects exactly this chain, from the last
    block to the first, keeps its blocks among the closed ones, and leaves the
    accounts alone. *)
Theorem joined_from_peer b0 rest m :
  ReadLastClosedBlock (miner other) = Done (Some b0, miner other) ->
  chain_at_other (b0 :: rest) -> rest <> [] -> Forall portable (b0 :: rest) ->
  NoDup (map blk_Hash (b0 :: rest)) -> NoDup (map blk_HashWithoutTx rest) ->
  (length rest <= walk_fuel env)%nat -> ReceivedBlockStash (pool m) = [] ->
  exists m', request_chain env (answers_to (b0 :: rest)) m = Done ((inr (b0 :: rest), []), m') /\
    ledger m' = ledger m /\ lastclosedblock (db m') !! blk_Hash b0 = Some (Block_persist b0) /\
    forall b, b ∈ rest -> kept (db m') b.
Proof.
  intros Hl Hc Hne Hp Hn Hn' Hf Hst. destruct (chain_split b0 rest Hc Hne) as (bs & g & -> & Hg & Hbs).
  assert (Ha : answers_to (b0 :: bs ++ [g]) = map Some (b0 :: bs ++ [g]) ++ []).
  { unfold answers_to. rewrite parents_found by done. rewrite app_nil_r. cbn [map tail]. f_equal.
    apply ask_last_found; [by apply Forall_cons in Hp as [? _]|done]. }
  rewrite Ha. destruct (sync_collects env b0 bs g [] m) as (m' & E & L1 & _ & L2 & L3); [|done|done| |done|done|].
  - rewrite length_app in Hf. cbn in Hf. lia.
  - intros b _. change (blk_Hash b ∉ map blk_Hash (ReceivedBlockStash (pool m))). rewrite Hst. by intros ?%elem_of_nil.
  - exists m'. done.
Qed.
End joining.

(** ** Three blocks *)

Section witness.
Import Toy Mine Small Fork Chains.
#[local] Existing Instance Nodes.peer_order.
#[local] Existing Instance Nodes.bloom.

(** A block is encoded as its hash. *)
#[local] Instance gob_hash : Gob := {|
  gob_FundsTx _ := []; gob_AccTx _ := []; gob_AggTx _ := []; gob_UpdateTx _ := []; gob_Block := blk_Hash; gob_Account _ := [];
  ungob_FundsTx _ := pay 1 2 30 2 0; ungob_AccTx _ := open_account 0 9;
  ungob_AggTx _ := mkAggTx 0 0 [] [] [] false zero_hash zero_hash None None;
  ungob_UpdateTx _ := mkUpdateTx 0 zero_hash None None zero_hash zero_sig None None;
  ungob_Block x := if bool_decide (x = key 12) then a2 else if bool_decide (x = key 11) then a1 else g |}.

Definition keeper : Host := mkHost (with_blocks [g; a1; a2] a2 [] (miner [] [])) Init_net.
Definition newcomer : Miner := with_blocks [] g [] (miner [] []).

Lemma joined_from_peer_witness : exists m',
  request_chain env (answers_to Nodes.self keeper 0 [a2; a1; g]) newcomer = Done ((inr [a2; a1; g], []), m') /\ kept (db m') a1.
Proof.
  destruct (joined_from_peer Nodes.self keeper 0 env a2 [a1; g] newcomer) as (m' & H & _ & _ & Hk).
  - vm_compute. reflexivity.
  - apply chain_block; [vm_compute; discriminate|vm_compute; reflexivity|].
    apply chain_block; [vm_compute; discriminate|vm_compute; reflexivity|]. apply chain_genesis. reflexivity.
  - discriminate.
  - repeat (apply Forall_cons; split; [split; [vm_compute; reflexivity|]; split; [vm_compute; discriminate|]; split; vm_compute; reflexivity|]).
    constructor.
  - apply (bool_decide_unpack _). vm_compute. exact I.
  - apply (bool_decide_unpack _). vm_compute. exact I.
  - vm_compute. repeat constructor.
  - reflexivity.
  - exists m'. split; [exact H|]. apply Hk. left.
Defined.
End witness.
